(* ===== verification/_CoqProject ===== *)
-Q . S2P
Prelude.v
PyStr.v
Url.v
Rating.v
Text.v
Date.v
Html.v
Review.v
Markup.v
HtmlParse.v
Pipeline.v
Json.v
JsonText.v
Crawler.v
Engine.v
Listing.v
Contract.v
Demo.v
