(* ===== verification/Prelude.v ===== *)
(** * A verification library for ebertboxd's review scraper

    ** The program

    The repository is one Python file, [src/src/scrape.py]: a Scrapy
    spider [RogerEbertSpider] that walks the paginated review listing of
    Roger Ebert's contributor page and turns every review page into an
    item [{tmdbID, Title, Rating, Review, WatchedDate, Tags}].  Its parts:
    - the class body (lines 9-12): [name], [base_url], [start_urls];
    - [parse] (14-20): the start page's callback, asks for listing page 1;
    - [parse_json] (22-40): decodes the JSON envelope of a listing page,
      follows every [//h5/a/@href] of its HTML fragment with
      [parse_review] and, when [more] is true, asks for the next page;
    - [get_page_url] (42-43): the listing URL with its fixed filters;
    - [parse_review] (45-104): the TMDB id of the JustWatch widget
      (46-53), ['\r'] markers around [<i>] spans in the raw text (55-56),
      the CSS/XPath queries of the re-parsed page (58-73), the star rating
      (72-89), the article body (63-68), the date (91-92) and the item
      (94-104).
    Scrapy's engine drives the callbacks: it downloads the requests they
    yield (through its duplicate filter) and collects the items.

    ** The files

    - [Prelude] (this file): Python strings as Latin-1 [list ascii]
      ([pystr], literals [lit]), the exceptions the code can meet and the
      error monad [res] ([Ok]/[Err], stdpp's [≫=], [try_except],
      [deref]), dicts as association lists ([dict_get] raises
      [KeyError]), [l[-1]] and parsel's [.get()], the tactics [res_inv],
      [nat_cases], [z_cases], the rewrite database [pyres], and list
      lemmas the components share.
    - [PyStr]: [str.replace] (CPython's left-to-right non-overlapping
      scan), [strip]/[lstrip]/[rstrip] with CPython's Latin-1 [isspace],
      [join], [split], [str(int)], with their algebra (idempotence,
      commutation, replace-as-split-join).
    - [Url]: [urllib.parse] as CPython writes it, the [urljoin] behind
      [response.follow]: [urlsplit] (leading C0 and space stripped, tab
      and newline removed, scheme, netloc, fragment, query),
      [urlunsplit], and the merge of a relative path with the removal of
      dot segments ([resolve]).
    - [Html]: the document tree the parser builds ([node]) and every query
      the code makes, in document order.
    - [Rating] (lines 72-89): the [try]/[except] block literally
      ([rating_try], [star_rating]); the spec's outcome classification;
      exact behaviour and bounds.
    - [Text] (lines 63-68, 95): the per-block cleanup and the join
      ([clean_section], [article_copy]); a paragraph model; their
      equivalence and the divergences from the spec's examples.
    - [Date] (lines 60, 91-92): [strptime] as CPython's [_strptime]
      regular expression run by a backtracking list-of-successes matcher,
      with the unconverted-data and calendar checks, and [strftime];
      round trip, ISO output, error cases.
    - [Review] (lines 45-104): [tmdb_id], [inject_markers], [review_of]
      (lines 48-104 on the page as downloaded and the page parsed again
      after line 56) and [parse_review], with the HTML parser as a
      section variable; well-formedness of the item and the exact
      failure conditions.
    - [Markup] (line 56 against spec design note 9): the markup of a
      document tree as the rendering of its tokens (tags with escaped
      attributes, escaped text) and the structural edit that puts a
      separator around emphasis elements.
    - [HtmlParse]: the interface [HtmlParser] (a class) of what the
      extractor assumes of the HTML parser (the markup of a well-formed
      page is read back as the page, adjacent texts merged: [canon]), and
      a model parser that is an instance of it: a tokenizer written as a
      state machine over the characters ([lstate], [lex_step],
      [lex_from]) and a tree builder with a stack of open elements
      ([build]).  A fragment of elements is put in an [html] and a
      [body], as lxml does with the HTML of a listing envelope.  In
      front of it [parse] does what parsel's [create_root_node] does:
      it strips the text, deletes its NUL characters ([root_text]) and
      reads an empty text as [<html/>], an empty [html].
    - [Pipeline]: [parse_review] composed with any parser of the
      interface on the markup of a page; edits that change text nodes
      only ([text_edit]) and the queries they do not disturb; the whole
      pipeline evaluated on the text of a page.
    - [Json] (lines 23-25, 33): decoded JSON values ([int], [float] with
      its infinities and [nan], ...), subscripting and Python truth.
    - [JsonText] (line 23): [json.loads] after CPython's C scanner
      ([scan_value], [scan_string], [match_number], objects that keep a
      repeated key's place and last value), and [json.dumps] with its
      defaults, for the endpoint's side.
    - [Crawler] (lines 9-43): [start_urls], [parse], [parse_json] and
      [parse_review] as generators (yielded values and the exception that
      ends them), the bare name [get_page_url] resolved in the module's
      globals, and Scrapy's engine as a step relation [step] on a
      [state] (queue, duplicate filter, items, failure log, issued
      requests) with [reachable] states and an executable schedule [run].
      The JSON decoder, the HTML parser, URL joining and the downloader
      ([fetch]) are section variables.
    - [Engine]: scheduler policies as ways of taking a request out of
      the queue ([lifo_take], Scrapy's default [LifoMemoryQueue];
      [fifo_take], the order of [Crawler.run]) and the engine run with
      one request in flight ([run_with]).
    - [Listing]: [parse_json] composed with the envelope of spec section
      6 as [json.dumps] writes it and [json.loads] reads it, any parser
      of the interface on its fragment, and the [Url] model of
      [urljoin] against the listing URL.
    - [Contract]: the crawl contract of spec section 4.1 (the union of
      the pages' links in page and document order, without repetition:
      [contract_links]) and the proof, page by page, that the whole
      spider on a site of well-formed listing pages refines it under
      both scheduler policies; and the crawl, under Scrapy's default
      policy, of a site whose listing never ends.
    - [Demo]: a concrete site (two listing pages with a repeated link,
      and a variant with a failing download) on which the crawl theorems
      of [Crawler] are applied and crawls are evaluated with [run].

    ** The theorems

    - Text: the string surgery equals the rendering of the paragraph
      model; no paragraph keeps a line break or marker; on clean blocks
      the body is the stripped blocks joined by blank lines; an emphasis
      span inside a block becomes its own paragraph, and a run of [n]
      blocks that clean to nothing leaves [1 + n / 2] blank-line breaks,
      contrary to the spec's examples.
    - Rating: the computed rating is the value of the widget's outcome and
      it lies in [1/2 .. n] by halves (never 0);
      [None] conflates four outcomes.
    - Date: every valid date's dateline is turned into its ISO form; every
      output is a valid ISO date; untrimmed datelines raise [ValueError].
    - Review: an item is produced iff the widget is well formed and the
      titles and dateline exist and parse; every item is well formed; the
      TMDB id semantics and its [KeyError] cases; the whole extractor on a
      sample page.  Html: the listing query takes only the links that
      are children of an [h5], not the links nested deeper.
    - Markup: on the markup of a well-formed tree, the two [replace]
      passes of line 56 are exactly the structural separator insertion.
    - HtmlParse: the model parser reads the markup of well-formed trees
      back as the trees, adjacent texts merged (a print/parse round
      trip; parsel's strip and NUL deletion leave such markup alone,
      since it opens with [<], closes with [>] and its trees hold no
      NUL), so it is an instance of the interface, whose last law reads
      a blank text as an empty [html].
    - Pipeline (for every parser of the interface): on the markup of a
      page the TMDB id, rating
      and tag are those of the page as written; a movie title whose
      markup begins with [<i>] comes out empty.
    - Url and Listing (for any module globals): on a listing response
      whose fragment is the markup of well-formed elements, none or
      more, [parse_json] yields one review request per [h5] link in
      document order at the site's root followed by the link (for
      absolute paths) or under [/contributors/] (for relative paths,
      not at the site's root the spec names), then, when [more] is
      truthy, the next page if [get_page_url] is bound and [NameError]
      as the module is written.
    - Engine: every policy's runs are reachable states; under the LIFO
      policy the crawl asks for every listing page before any review
      (the order of lines 31 and 35).
    - Contract: on a site of [n] listing pages served as [json.dumps] of
      the envelope around well-formed cards with absolute-path links,
      the oldest-first crawl stops having issued the listing pages
      [1 .. n] and the review pages of the contract in its order, and
      output their parses in that order; under Scrapy's default LIFO
      queue the reviews and items come in the reverse order.  On a site
      whose every page has [more] true, the LIFO crawl has issued the
      listing pages [1 .. k] after [k + 1] steps, for every [k], and no
      review: no page ceiling, and the reviews starve.
    - JsonText and Listing: [json.loads] inverts [json.dumps] on values
      without repeated keys, so lines 23-27 read the endpoint's envelope
      back; the decoder's fuel never matters beyond the text's length;
      an envelope without [more] loses its page's links to [KeyError],
      a [more] that is the string [false] is truthy, and an empty or
      blank fragment yields no review request and reports nothing.
    - Crawler: the listing pages requested are [1 .. k] in increasing
      order, each asked for by its predecessor; the crawl terminates when
      some page has no next one; the items are exactly the parses of the
      issued review pages, and the failure log holds exactly the issued
      review pages that failed; the spider as written crawls nothing ([NameError]
      at lines 12 and 16).

    ** Bounds and fuel

    Characters are Latin-1 (the code only inspects ASCII letters, digits,
    white space, ['\xa0'], ['\n'] and ['\r']).  Dates are those
    [datetime] accepts: years 1 to 9999, days up to the month's length
    with Gregorian leap years; [%Y] matches exactly four digits.  The
    recursive functions are structural ([Text.collapse] is written with
    [Function] for its induction principle).  The JSON scanner
    [JsonText.scan_value] recurses on fuel and every call is on a
    strictly shorter text, so [loads] gives it one more than the text's
    length and [JsonText.loads_fuel] shows any larger fuel gives the same
    result.  [Crawler.run] takes fuel, and is only
    used to evaluate concrete crawls: the termination theorem is stated on
    the step relation itself (accessibility of the start state, by a
    lexicographic measure: twice the listing pages left before the last
    one plus the pending start and listing requests, then the queue's
    length).

    ** Not modelled

    The HTML parser (lxml) is a parameter, or any instance of the
    interface [HtmlParser]; its error recovery on markup that is not the
    rendering of a tree (implied end tags, void and raw-text elements,
    unquoted attributes, upper-case names) is outside the model parser,
    which refuses such text.  The network is a parameter.  The JSON
    decoder and URL joining are parameters of the crawler, instantiated
    with the [JsonText] and [Url] models in [Listing].  [JsonText]
    refuses a [\u] escape beyond U+00FF, which a Latin-1 string cannot
    hold, keeps a float as the exact rational of its literal, and does
    not write finite floats; [Url] leaves out the IPv6 checks of the
    host, the [;params] of [urlparse] and [w3lib]'s escaping.  Scrapy's
    request priorities, concurrency limits, retries, middlewares and the
    canonicalisation of URLs in request fingerprints are left out (the
    duplicate filter compares URLs); the [Accept] header is recorded as
    a flag.  The markup model writes a
    close tag for every element (HTML's void elements have none; this
    does not change what the two patterns match). *)

From stdpp Require Export base list strings sets.
From Stdlib Require Export Ascii ZArith Lia.
From Stdlib Require String.

(** Strings.  A Python [str] is a sequence of code points; the pages the
    spider reads only use the Latin-1 range in the places the code looks
    at, so a string is a list of 8-bit characters read as Latin-1.  Lists
    (rather than [String.string]) let the development use the list library
    of stdpp directly. *)
Abbreviation pystr := (list ascii).

(** A literal of the source, written as a Rocq string. *)
Definition lit (s : String.string) : pystr := String.list_ascii_of_string s.
Arguments lit : simpl never.

(** The control characters the scraper manipulates by hand. *)
Definition nl : ascii := "010"%char.      (* '\n' *)
Definition cr : ascii := "013"%char.      (* '\r' *)
Definition nbsp : ascii := "160"%char.    (* '\xa0' *)

(** ** Python exceptions and the error monad

    Every operation of the source that can raise is modelled as a function
    into [res]: [Ok v] is a normal return, [Err e] an exception of class
    [e] propagating out of the call.  Only the exception classes the source
    can meet are listed. *)
Inductive exc :=
  | KeyError | IndexError | AttributeError | TypeError | ValueError
  | NameError | NotImplementedError | JSONDecodeError.

#[global] Instance exc_eq_dec : EqDecision exc.
Proof. solve_decision. Defined.

Inductive res (A : Type) := Ok (a : A) | Err (e : exc).
Arguments Ok {A} a.
Arguments Err {A} e.

#[global] Instance res_ret : MRet res := fun A a => Ok a.
#[global] Instance res_bind : MBind res :=
  fun A B f r => match r with Ok a => f a | Err e => Err e end.
#[global] Instance res_fmap : FMap res :=
  fun A B f r => match r with Ok a => Ok (f a) | Err e => Err e end.

(** Python's [try: ... except Exception: ...]: run [r], and recover from
    any exception with [h]. *)
Definition try_except {A} (r : res A) (h : exc -> A) : A :=
  match r with Ok a => a | Err e => h e end.

(** Python's [x if x is not None]: an [Optional] value that the code
    dereferences raises [AttributeError] on [None]. *)
Definition deref {A} (o : option A) : res A :=
  match o with Some a => Ok a | None => Err AttributeError end.

(** ** Python containers

    A Python [dict] read by the code (an element's [attrib], a decoded
    JSON object) is an association list with unique keys; [d[k]] raises
    [KeyError] when [k] is absent. *)
Abbreviation dict V := (list (pystr * V)).

Fixpoint dict_get {V} (d : dict V) (k : pystr) : res V :=
  match d with
  | [] => Err KeyError
  | (k', v) :: d' => if bool_decide (k = k') then Ok v else dict_get d' k
  end.

(** [l[-1]]: the last element, [IndexError] on an empty list. *)
Definition list_last {A} (l : list A) : res A :=
  match last l with Some a => Ok a | None => Err IndexError end.

(** [l[0]] through parsel's [.get()]: the first element or [None]. *)
Definition sel_get {A} (l : list A) : option A := head l.

(** ** Lemmas on results and containers *)

Lemma res_bind_Ok {A B} (a : A) (f : A -> res B) : (Ok a ≫= f) = f a.
Proof. reflexivity. Qed.

Lemma res_bind_Err {A B} (e : exc) (f : A -> res B) : (Err e ≫= f) = Err e.
Proof. reflexivity. Qed.

Lemma res_bind_Ok_inv {A B} (r : res A) (f : A -> res B) (b : B) :
  (r ≫= f) = Ok b -> exists a, r = Ok a /\ f a = Ok b.
Proof. destruct r; simpl; [eauto | discriminate]. Qed.

Lemma res_bind_Err_inv {A B} (r : res A) (f : A -> res B) (e : exc) :
  (r ≫= f) = Err e -> r = Err e \/ exists a, r = Ok a /\ f a = Err e.
Proof. destruct r; simpl; [right; eauto | intros [= ->]; left; reflexivity]. Qed.

(** Two continuations that agree on every value [r] returns bind it to
    the same result. *)
Lemma res_bind_ext {A B} (r : res A) (f g : A -> res B) :
  (forall a, r = Ok a -> f a = g a) -> (r ≫= f) = (r ≫= g).
Proof. destruct r; simpl; [auto | reflexivity]. Qed.

Lemma dict_get_Err {V} (d : dict V) k e : dict_get d k = Err e -> e = KeyError.
Proof.
  induction d as [|[k' v] d IH]; simpl; [congruence|].
  case_bool_decide; [discriminate | exact IH].
Qed.

Create Rewrite HintDb pyres.
#[export] Hint Rewrite @res_bind_Ok @res_bind_Err : pyres.

(** [res_inv] splits every [bind ... = Ok _] hypothesis into its parts. *)
Ltac res_inv :=
  repeat match goal with
  | H : (_ ≫= _) = Ok _ |- _ =>
      apply res_bind_Ok_inv in H; destruct H as (? & ? & ?)
  | H : Ok _ = Ok _ |- _ => injection H as H
  | H : Ok _ = Err _ |- _ => discriminate H
  | H : Err _ = Ok _ |- _ => discriminate H
  end.

(** [nat_cases n]: split a bounded [n] into its values, closing the
    out-of-range values with [lia]; one goal per value in range is left. *)
Ltac nat_cases n :=
  let rec go := first [lia | destruct n as [|n]; [try lia | go]] in go.

(** [z_cases n]: the same for a bounded integer. *)
Ltac z_cases n :=
  let k := fresh "k" in
  rewrite <- (Z2Nat.id n) in * by lia;
  remember (Z.to_nat n) as k eqn:?; clear dependent n;
  nat_cases k.

(** ** Generic list lemmas shared by the components *)

Lemma Forall_app_inv_l {A} (P : A -> Prop) (l1 l2 : list A) :
  Forall P (l1 ++ l2) -> Forall P l1.
Proof. rewrite Forall_app. tauto. Qed.

Lemma sublist_omap {A B} (f : A -> option B) (l1 l2 : list A) :
  l1 `sublist_of` l2 -> omap f l1 `sublist_of` omap f l2.
Proof.
  induction 1 as [|x l1 l2 _ IH|x l1 l2 _ IH]; simpl; [constructor| |];
    destruct (f x); [apply sublist_skip | | apply sublist_cons |]; exact IH.
Qed.

Lemma sublist_singleton {A} (x : A) (l : list A) :
  l `sublist_of` [x] -> l = [] \/ l = [x].
Proof.
  intros [H%sublist_nil_r | (l' & -> & H%sublist_nil_r)]%sublist_cons_r; subst; auto.
Qed.

Lemma Forall_sublist {A} (P : A -> Prop) (l1 l2 : list A) :
  l1 `sublist_of` l2 -> Forall P l2 -> Forall P l1.
Proof. rewrite !Forall_forall. eauto using elem_of_sublist. Qed.

(** A separator's first occurrence splits a list in one way only. *)
Lemma sep_unique {A} (c : A) (y1 y2 s1 s2 : list A) :
  c ∉ y1 -> c ∉ y2 -> y1 ++ c :: s1 = y2 ++ c :: s2 -> y1 = y2 /\ s1 = s2.
Proof.
  revert y2. induction y1 as [|x y1 IH]; intros [|x' y2] H1 H2; simpl; intros H; injection H.
  - auto.
  - intros; subst. destruct H2. constructor.
  - intros; subst. destruct H1. constructor.
  - intros; subst. apply not_elem_of_cons in H1 as [_ H1]. apply not_elem_of_cons in H2 as [_ H2].
    match goal with E : y1 ++ c :: s1 = y2 ++ c :: s2 |- _ => destruct (IH y2 H1 H2 E) as [-> ->] end.
    auto.
Qed.

(** [mjoin (map f l)] (a [flat_map]) over appends and nesting. *)
Lemma join_map_app {A B} (f : A -> list B) (l1 l2 : list A) :
  mjoin (map f (l1 ++ l2)) = mjoin (map f l1) ++ mjoin (map f l2).
Proof. induction l1 as [|x l1 IH]; simpl; [reflexivity|]. now rewrite IH, app_assoc. Qed.

Lemma join_map_assoc {A B C} (f : B -> list C) (g : A -> list B) (l : list A) :
  mjoin (map f (mjoin (map g l))) = mjoin (map (fun x => mjoin (map f (g x))) l).
Proof. induction l as [|x l IH]; simpl; [reflexivity|]. now rewrite join_map_app, IH. Qed.

Lemma join_map_Forall_ext {A B} (f g : A -> list B) (l : list A) :
  Forall (fun x => f x = g x) l -> mjoin (map f l) = mjoin (map g l).
Proof. induction 1 as [|x l Hx _ IH]; simpl; congruence. Qed.

Lemma Forall_join_map {A B} (P : B -> Prop) (f : A -> list B) (l : list A) :
  Forall (fun x => Forall P (f x)) l -> Forall P (mjoin (map f l)).
Proof. induction 1; simpl; [constructor|]. apply Forall_app; auto. Qed.

(** A [forallb] that holds, as a [Forall]. *)
Lemma forallb_Forall {A} (f : A -> bool) (l : list A) :
  forallb f l = true -> Forall (fun x => f x = true) l.
Proof. induction l as [|x l IH]; cbn; [constructor|]. intros [? ?]%andb_true_iff. constructor; auto. Qed.

Lemma reverse_map {A B} (f : A -> B) (l : list A) : reverse (map f l) = map f (reverse l).
Proof. induction l as [|x l IH]; [reflexivity|]. cbn [map]. now rewrite !reverse_cons, IH, map_app. Qed.

(** [filter] keeps a list whose elements all pass. *)
Lemma filter_Forall_id {A} (P : A -> Prop) `{forall x, Decision (P x)} (l : list A) :
  Forall P l -> filter P l = l.
Proof. induction 1; [reflexivity|]. rewrite filter_cons_True by assumption. now f_equal. Qed.

Lemma join_map_cons {A B} (f : A -> list B) (x : A) (l : list A) :
  mjoin (map f (x :: l)) = f x ++ mjoin (map f l).
Proof. reflexivity. Qed.
