(* ===== verification/PyStr.v ===== *)
(** * Python string primitives

    The string methods [scrape.py] calls: [str.replace], [str.strip],
    [str.join], [str.split] (the last one only as the reference of the
    text-reconstruction specification) and [str.isspace], on Latin-1
    strings, with the lemmas the components share. *)

From S2P Require Import Prelude.
From Stdlib Require Import DecimalString DecimalPos DecimalZ.

Module PyStr.

(** [str.isspace] on one Latin-1 character: CPython's
    [_PyUnicode_IsWhitespace] below 256 is 0x09-0x0D, 0x1C-0x20, 0x85 and
    0xA0. *)
Definition is_space (c : ascii) : bool :=
  let n := nat_of_ascii c in
  ((9 <=? n) && (n <=? 13)) || ((28 <=? n) && (n <=? 32))
  || (n =? 133) || (n =? 160).

(** [s.startswith(pat)]. *)
Fixpoint starts_with (pat s : pystr) : bool :=
  match pat, s with
  | [], _ => true
  | p :: pat', c :: s' => bool_decide (p = c) && starts_with pat' s'
  | _ :: _, [] => false
  end.

(** CPython's [s.replace(pat, rep)] for a nonempty [pat]: scan left to
    right; where [pat] occurs, emit [rep] and resume after the occurrence
    ([skip] counts the characters of the occurrence still to drop). *)
Fixpoint replace_scan (pat rep : pystr) (skip : nat) (s : pystr) : pystr :=
  match s with
  | [] => []
  | c :: s' =>
      match skip with
      | S k => replace_scan pat rep k s'
      | 0 =>
          if starts_with pat s
          then rep ++ replace_scan pat rep (pred (length pat)) s'
          else c :: replace_scan pat rep 0 s'
      end
  end.

(** [s.replace(pat, rep)]; with an empty [pat] CPython inserts [rep]
    before every character and at the end. *)
Definition replace (pat rep s : pystr) : pystr :=
  match pat with
  | [] => rep ++ mjoin (map (fun c => c :: rep) s)
  | _ :: _ => replace_scan pat rep 0 s
  end.

(** [s.lstrip()], [s.rstrip()], [s.strip()] with no argument. *)
Fixpoint lstrip (s : pystr) : pystr :=
  match s with
  | [] => []
  | c :: s' => if is_space c then lstrip s' else s
  end.

Definition rstrip (s : pystr) : pystr := reverse (lstrip (reverse s)).

Definition strip (s : pystr) : pystr := rstrip (lstrip s).

(** [sep.join(l)]. *)
Fixpoint join (sep : pystr) (l : list pystr) : pystr :=
  match l with
  | [] => []
  | [x] => x
  | x :: l' => x ++ sep ++ join sep l'
  end.

(** [s.split(c)] with an explicit one-character separator: the pieces
    between the separators, [[""]] for the empty string. *)
Fixpoint split (c : ascii) (s : pystr) : list pystr :=
  match s with
  | [] => [[]]
  | x :: s' =>
      let ps := split c s' in
      if bool_decide (x = c) then [] :: ps
      else match ps with
           | p :: ps' => (x :: p) :: ps'
           | [] => [[x]]
           end
  end.

(** [str(n)] for a Python [int]: its decimal digits, after a minus sign
    when negative. *)
Definition str_int (n : Z) : pystr := lit (NilZero.string_of_int (Z.to_int n)).

(** Decimal digits. *)
Definition is_digit (c : ascii) : bool :=
  let n := nat_of_ascii c in (48 <=? n) && (n <=? 57).

Definition digit_char (k : Z) : ascii := ascii_of_nat (48 + Z.to_nat k).

Definition digit_val (c : ascii) : Z := Z.of_nat (nat_of_ascii c) - 48.

(** ** Lemmas *)

Lemma join_cons_cons sep x y l :
  join sep (x :: y :: l) = x ++ sep ++ join sep (y :: l).
Proof. reflexivity. Qed.

Lemma join_cons sep x l :
  l <> [] -> join sep (x :: l) = x ++ sep ++ join sep l.
Proof. destruct l; [congruence | reflexivity]. Qed.

Lemma join_app sep l1 l2 :
  l1 <> [] -> l2 <> [] ->
  join sep (l1 ++ l2) = join sep l1 ++ sep ++ join sep l2.
Proof.
  intros H1 H2. induction l1 as [|x [|y l1] IH]; [congruence| |].
  - change ([x] ++ l2) with (x :: l2). now apply join_cons.
  - change ((x :: y :: l1) ++ l2) with (x :: (y :: l1) ++ l2).
    rewrite join_cons by discriminate. rewrite IH by discriminate.
    rewrite join_cons_cons. now rewrite !app_assoc.
Qed.

Lemma split_not_nil c s : split c s <> [].
Proof.
  induction s as [|x s IH]; simpl; [discriminate|].
  case_bool_decide; [discriminate|]. destruct (split c s); [congruence|discriminate].
Qed.

Lemma starts_with_single c x s :
  starts_with [c] (x :: s) = bool_decide (c = x).
Proof. simpl. now rewrite andb_true_r. Qed.

(** A one-character [replace] is [join] over [split]. *)
Lemma replace_char_join_split c r s :
  replace [c] r s = join r (split c s).
Proof.
  unfold replace. induction s as [|x s IH]; [reflexivity|].
  cbn [replace_scan]. rewrite starts_with_single. simpl.
  pose proof (split_not_nil c s) as Hne.
  case_bool_decide as Hc; subst; rewrite IH; simpl.
  - rewrite bool_decide_true by reflexivity.
    destruct (split x s); [congruence|reflexivity].
  - rewrite bool_decide_false by congruence.
    destruct (split c s) as [|p [|q ps]]; [congruence|reflexivity|reflexivity].
Qed.

(** Deleting one character with [replace(c, "")] is a filter. *)
Lemma replace_char_delete c s :
  replace [c] [] s = filter (fun x => x <> c) s.
Proof.
  unfold replace. induction s as [|x s IH]; [reflexivity|].
  cbn [replace_scan]. rewrite starts_with_single, filter_cons.
  case_bool_decide; case_decide; subst; simpl; congruence.
Qed.

(** [replace_scan] copies a stretch that cannot start an occurrence. *)
Lemma replace_scan_app_l pat rep p s h :
  head pat = Some h -> h ∉ p ->
  replace_scan pat rep 0 (p ++ s) = p ++ replace_scan pat rep 0 s.
Proof.
  intros Hh Hp. destruct pat as [|h' pat]; [discriminate|]. injection Hh as ->.
  induction p as [|x p IH]; [reflexivity|].
  apply not_elem_of_cons in Hp as [Hx Hp].
  simpl. rewrite bool_decide_false by congruence. simpl. now rewrite IH.
Qed.

Lemma replace_scan_nil pat rep k : replace_scan pat rep k [] = [].
Proof. reflexivity. Qed.

Lemma replace_nonempty pat rep s : pat <> [] -> replace pat rep s = replace_scan pat rep 0 s.
Proof. destruct pat; [congruence|reflexivity]. Qed.

Lemma starts_with_app pat t : starts_with pat t = true <-> exists t', t = pat ++ t'.
Proof.
  revert t. induction pat as [|p pat IH]; intros [|c t]; simpl.
  - split; [exists []; reflexivity|reflexivity].
  - split; [exists (c :: t); reflexivity|reflexivity].
  - split; [discriminate|intros [? [=]]].
  - rewrite andb_true_iff, bool_decide_eq_true, IH. split.
    + intros [-> [t' ->]]. eauto.
    + intros [t' [= -> ->]]. eauto.
Qed.

(** The scan skips what the last occurrence covered. *)
Lemma replace_scan_skip pat rep y s :
  replace_scan pat rep (length y) (y ++ s) = replace_scan pat rep 0 s.
Proof. induction y; [reflexivity|exact IHy]. Qed.

(** A token [l y r] where [l] occurs only in front and [r] only at the
    end, scanned for a pattern of the same shape: it is replaced when it
    is the pattern and copied otherwise. *)
Lemma replace_scan_token pat rep x s l r yp y :
  pat = l :: yp ++ [r] -> x = l :: y ++ [r] -> l ∉ y -> l <> r -> r ∉ y -> r ∉ yp ->
  replace_scan pat rep 0 (x ++ s) =
  (if bool_decide (x = pat) then rep else x) ++ replace_scan pat rep 0 s.
Proof.
  intros Hp Hx Hly Hlr Hry Hryp. case_bool_decide as E.
  - assert (y = yp) as ->.
    { rewrite Hx, Hp in E. injection E as E. now apply app_inj_tail in E as [? _]. }
    subst x pat. cbn [app replace_scan].
    rewrite (proj2 (starts_with_app _ _)) by (exists s; reflexivity).
    replace (pred (length (l :: yp ++ [r]))) with (length (yp ++ [r])) by reflexivity.
    rewrite replace_scan_skip. reflexivity.
  - subst x. cbn [app replace_scan].
    destruct (starts_with pat _) eqn:Es.
    + exfalso. apply starts_with_app in Es as [t' Ht']. rewrite Hp in Ht'.
      injection Ht' as Ht'. rewrite <- !app_assoc in Ht'.
      destruct (sep_unique r y yp s t') as [-> _]; auto.
    + cbn. f_equal. apply (replace_scan_app_l _ _ _ _ l); [now rewrite Hp|].
      rewrite elem_of_app, list_elem_of_singleton. intros [|]; congruence.
Qed.

Lemma forallb_reverse {A} (f : A -> bool) (l : list A) :
  forallb f (reverse l) = forallb f l.
Proof.
  apply Bool.eq_true_iff_eq. rewrite !forallb_forall.
  setoid_rewrite <- list_elem_of_In. setoid_rewrite elem_of_reverse. reflexivity.
Qed.

Lemma lstrip_app_space p s :
  forallb is_space p = true -> lstrip (p ++ s) = lstrip s.
Proof.
  induction p as [|x p IH]; simpl; [reflexivity|].
  intros [-> Hp]%andb_prop. auto.
Qed.

Lemma lstrip_app_nonspace p s :
  forallb is_space p = false -> lstrip (p ++ s) = lstrip p ++ s.
Proof.
  induction p as [|x p IH]; simpl; [discriminate|].
  destruct (is_space x); simpl; auto.
Qed.

Lemma rstrip_app_space p s :
  forallb is_space s = true -> rstrip (p ++ s) = rstrip p.
Proof.
  intros H. unfold rstrip. rewrite reverse_app, lstrip_app_space; [reflexivity|].
  now rewrite forallb_reverse.
Qed.

Lemma rstrip_app_nonspace p s :
  forallb is_space s = false -> rstrip (p ++ s) = p ++ rstrip s.
Proof.
  intros H. unfold rstrip. rewrite reverse_app, lstrip_app_nonspace.
  - now rewrite reverse_app, reverse_involutive.
  - now rewrite forallb_reverse.
Qed.

Lemma lstrip_idem s : lstrip (lstrip s) = lstrip s.
Proof. induction s as [|c s IH]; simpl; [reflexivity|]. destruct (is_space c) eqn:E; simpl; now rewrite ?E. Qed.

Lemma rstrip_idem s : rstrip (rstrip s) = rstrip s.
Proof. unfold rstrip. now rewrite reverse_involutive, lstrip_idem. Qed.

Lemma lstrip_all_space s : forallb is_space s = true -> lstrip s = [].
Proof. intros H. rewrite <- (app_nil_r s), lstrip_app_space by exact H. reflexivity. Qed.

Lemma rstrip_cons c s :
  rstrip (c :: s) =
  if forallb is_space s then (if is_space c then [] else [c]) else c :: rstrip s.
Proof.
  change (c :: s) with ([c] ++ s). destruct (forallb is_space s) eqn:E.
  - rewrite rstrip_app_space by exact E. unfold rstrip. simpl. now destruct (is_space c).
  - now rewrite rstrip_app_nonspace by exact E.
Qed.

Lemma lstrip_rstrip s : lstrip (rstrip s) = rstrip (lstrip s).
Proof.
  induction s as [|c s IH]; [reflexivity|].
  rewrite rstrip_cons. cbn [lstrip]. destruct (is_space c) eqn:Ec.
  - destruct (forallb is_space s) eqn:Es; simpl.
    + now rewrite lstrip_all_space.
    + now rewrite Ec.
  - rewrite rstrip_cons, Ec. destruct (forallb is_space s); simpl; now rewrite Ec.
Qed.

(** [strip] is idempotent: a stripped string has no white space at its ends. *)
(** A text that begins and ends with non-space characters is its own strip. *)
Lemma strip_bracketed x y s :
  is_space x = false -> is_space y = false -> strip (x :: s ++ [y]) = x :: s ++ [y].
Proof.
  intros Hx Hy. unfold strip. cbn [lstrip]. rewrite Hx, app_comm_cons.
  rewrite rstrip_app_nonspace by (cbn; now rewrite Hy). unfold rstrip. cbn. now rewrite Hy.
Qed.

Lemma strip_idem s : strip (strip s) = strip s.
Proof. unfold strip. now rewrite (lstrip_rstrip (lstrip s)), rstrip_idem, lstrip_idem. Qed.

(** What the strips keep is a part of the string. *)
Section Keep.
Variable P : ascii -> Prop.

Lemma lstrip_Forall s : Forall P s -> Forall P (lstrip s).
Proof.
  induction s as [|x s IH]; simpl; [auto|].
  intros Hs. destruct (is_space x); [|exact Hs]. apply IH. now inversion Hs.
Qed.

Lemma rstrip_Forall s : Forall P s -> Forall P (rstrip s).
Proof.
  intros Hs. unfold rstrip. apply Forall_reverse, lstrip_Forall, Forall_reverse, Hs.
Qed.

(** The pieces of a [split] are free of the separator and keep every
    property of the characters of the string. *)
Lemma split_Forall c s :
  Forall P s -> Forall (Forall (fun x => P x /\ x <> c)) (split c s).
Proof.
  induction s as [|x s IH]; simpl; intros Hs; [repeat constructor|].
  apply Forall_cons in Hs as [Hx Hs]. specialize (IH Hs).
  case_bool_decide; [constructor; auto|].
  destruct (split c s) as [|p ps]; [repeat constructor; auto|].
  apply Forall_cons in IH as [Hp Hps]. constructor; [constructor|]; auto.
Qed.

End Keep.

(** [str(n)] is injective: distinct integers print differently. *)
Lemma str_int_inj n m : str_int n = str_int m -> n = m.
Proof.
  unfold str_int, lit. intros H.
  apply (f_equal String.string_of_list_ascii) in H. rewrite !String.string_of_list_ascii_of_string in H.
  assert (Hisi : forall k, NilZero.int_of_string (NilZero.string_of_int (Z.to_int k)) = Some (Z.to_int k)).
  { intros [|p|p]; apply NilZero.isi; cbn [Z.to_int]; try discriminate;
      intros [= Hp]; pose proof (DecimalPos.Unsigned.of_to p) as E; rewrite Hp in E; discriminate. }
  apply DecimalZ.to_int_inj. apply (f_equal NilZero.int_of_string) in H. rewrite !Hisi in H. congruence.
Qed.

(** [sep.join(s.split(sep))] gives [s] back. *)
Lemma join_split c s : join [c] (split c s) = s.
Proof.
  rewrite <- replace_char_join_split. unfold replace. induction s as [|x s IH]; [reflexivity|].
  cbn [replace_scan]. rewrite starts_with_single. case_bool_decide as Hc; cbn; rewrite IH; [now subst|reflexivity].
Qed.

(** [str(n)] is made of digits and a minus sign. *)
Lemma str_int_chars n : Forall (fun c => is_digit c = true \/ c = "-"%char) (str_int n).
Proof.
  assert (Hu : forall d, Forall (fun c => is_digit c = true \/ c = "-"%char)
                           (lit (NilEmpty.string_of_uint d))).
  { induction d; cbn; constructor; auto. }
  unfold str_int, NilZero.string_of_int, NilZero.string_of_uint.
  destruct (Z.to_int n) as [d|d]; [|constructor; [now right|]]; destruct d; try apply Hu;
    repeat constructor; now left.
Qed.

End PyStr.
