(* ===== verification/Url.v ===== *)
(** * URL joining: [urllib.parse.urljoin], as [response.follow] uses it

    Line 31 follows every review link with [response.follow(review_link,
    ...)], which resolves the link against the URL of the listing
    response with [urllib.parse.urljoin].  The model follows CPython's
    [urllib/parse.py]: [urlsplit] (leading C0 controls and spaces
    stripped, tab, CR and LF removed, the scheme before the first [:]
    when it is made of scheme characters and starts with a letter, the
    network location after [//], then the fragment and the query),
    [urlunsplit], and [urljoin] with its branches (another scheme, a
    network location, an empty path, an absolute path, a relative path
    merged with the base's directory, the removal of [.] and [..]
    segments).  Not modelled: the [;params] that [urlparse] splits off
    the last path segment (no URL of the site has one), the IPv6 checks
    of the network location, and what Scrapy does around the join
    (the [<base href>] of the page, [w3lib]'s escaping of unsafe
    characters). *)

From S2P Require Import Prelude PyStr.
Import PyStr.

Module Url.

(** A URL split into its parts, [''] for an absent part. *)
Record spliturl := SplitUrl {
  u_scheme : pystr; u_netloc : pystr; u_path : pystr; u_query : pystr; u_fragment : pystr
}.

Definition is_alpha (c : ascii) : bool :=
  let n := nat_of_ascii c in ((65 <=? n) && (n <=? 90)) || ((97 <=? n) && (n <=? 122)).

(** [scheme_chars]: letters, digits, [+], [-], [.]. *)
Definition scheme_char (c : ascii) : bool :=
  is_alpha c || is_digit c || bool_decide (c = "+"%char) || bool_decide (c = "-"%char) ||
  bool_decide (c = "."%char).

Definition lower (c : ascii) : ascii :=
  let n := nat_of_ascii c in if (65 <=? n) && (n <=? 90) then ascii_of_nat (n + 32) else c.

(** [_WHATWG_C0_CONTROL_OR_SPACE] and [_UNSAFE_URL_BYTES_TO_REMOVE]. *)
Definition c0_or_space (c : ascii) : bool := nat_of_ascii c <=? 32.

Definition unsafe_byte (c : ascii) : bool :=
  bool_decide (c = "009"%char) || bool_decide (c = cr) || bool_decide (c = nl).

Fixpoint lstrip_c0 (s : pystr) : pystr :=
  match s with c :: s' => if c0_or_space c then lstrip_c0 s' else s | [] => [] end.

(** The part before the first character satisfying [p], and the rest. *)
Fixpoint break (p : ascii -> bool) (s : pystr) : pystr * pystr :=
  match s with
  | [] => ([], [])
  | c :: s' => if p c then ([], s) else let '(a, b) := break p s' in (c :: a, b)
  end.

(** [s.split(c, 1)] when [c] occurs in [s]. *)
Definition split_once (c : ascii) (s : pystr) : option (pystr * pystr) :=
  match break (fun x => bool_decide (x = c)) s with
  | (a, _ :: b) => Some (a, b)
  | (_, []) => None
  end.

(** The scheme of [urlsplit]: [url[:i]] for the first [:] at [i > 0],
    when it starts with a letter and has only scheme characters. *)
Definition split_scheme (url : pystr) : option (pystr * pystr) :=
  match split_once ":"%char url with
  | Some (c :: sch, rest) =>
      if is_alpha c && forallb scheme_char sch then Some (map lower (c :: sch), rest) else None
  | _ => None
  end.

Definition netloc_end (c : ascii) : bool :=
  bool_decide (c = "/"%char) || bool_decide (c = "?"%char) || bool_decide (c = "#"%char).

(** [urlsplit(url, scheme)]. *)
Definition urlsplit (url scheme : pystr) : spliturl :=
  let url := filter (fun c => unsafe_byte c = false) (lstrip_c0 url) in
  let '(scheme, url) := match split_scheme url with Some su => su | None => (scheme, url) end in
  let '(netloc, url) := if starts_with (lit "//") url then break netloc_end (drop 2 url) else ([], url) in
  let '(url, fragment) := match split_once "#"%char url with Some uf => uf | None => (url, []) end in
  let '(url, query) := match split_once "?"%char url with Some uq => uq | None => (url, []) end in
  SplitUrl scheme netloc url query fragment.

(** [uses_relative] and [uses_netloc] of [urllib.parse]. *)
Definition uses_relative : list pystr :=
  map lit [""; "ftp"; "http"; "gopher"; "nntp"; "imap"; "wais"; "file"; "https"; "shttp"; "mms";
           "prospero"; "rtsp"; "rtsps"; "rtspu"; "sftp"; "svn"; "svn+ssh"; "ws"; "wss"]%string.

Definition uses_netloc : list pystr :=
  map lit [""; "ftp"; "http"; "gopher"; "nntp"; "telnet"; "imap"; "wais"; "file"; "mms"; "https";
           "shttp"; "snews"; "prospero"; "rtsp"; "rtsps"; "rtspu"; "rsync"; "svn"; "svn+ssh"; "sftp";
           "nfs"; "git"; "git+ssh"; "ws"; "wss"; "itms-services"]%string.

Definition nonempty (s : pystr) : bool := negb (bool_decide (s = [])).

(** [urlunsplit]. *)
Definition urlunsplit (u : spliturl) : pystr :=
  let url := u_path u in
  let url :=
    if nonempty (u_netloc u) ||
       (nonempty (u_scheme u) && bool_decide (u_scheme u ∈ uses_netloc) &&
        negb (starts_with (lit "//") url))
    then lit "//" ++ u_netloc u ++
         (if nonempty url && negb (starts_with (lit "/") url) then "/"%char :: url else url)
    else url in
  let url := if nonempty (u_scheme u) then u_scheme u ++ ":"%char :: url else url in
  let url := if nonempty (u_query u) then url ++ "?"%char :: u_query u else url in
  if nonempty (u_fragment u) then url ++ "#"%char :: u_fragment u else url.

(** [segments[1:-1] = filter(None, segments[1:-1])]. *)
Definition filter_inner (segs : list pystr) : list pystr :=
  match segs with
  | [] => []
  | [x] => [x]
  | x :: rest => x :: filter (fun s => nonempty s = true) (removelast rest) ++
                 match last rest with Some y => [y] | None => [] end
  end.

(** The loop over the segments: [..] pops (nothing when empty), [.] is
    skipped; [acc] holds the resolved path last first. *)
Fixpoint resolve (segs : list pystr) (acc : list pystr) : list pystr :=
  match segs with
  | [] => reverse acc
  | seg :: r =>
      if bool_decide (seg = lit "..") then resolve r (tail acc)
      else if bool_decide (seg = lit ".") then resolve r acc
      else resolve r (seg :: acc)
  end.

(** [urljoin(base, url)]. *)
Definition urljoin (base url : pystr) : pystr :=
  if bool_decide (base = []) then url else
  if bool_decide (url = []) then base else
  let b := urlsplit base [] in
  let u := urlsplit url (u_scheme b) in
  if negb (bool_decide (u_scheme u = u_scheme b)) || negb (bool_decide (u_scheme u ∈ uses_relative))
  then url else
  let has_netloc := bool_decide (u_scheme u ∈ uses_netloc) in
  if has_netloc && nonempty (u_netloc u) then urlunsplit u else
  let netloc := if has_netloc then u_netloc b else u_netloc u in
  if negb (nonempty (u_path u)) then
    urlunsplit (SplitUrl (u_scheme u) netloc (u_path b)
                  (if nonempty (u_query u) then u_query u else u_query b) (u_fragment u))
  else
  let base_parts := split "/"%char (u_path b) in
  let base_parts := if bool_decide (last base_parts = Some []) then base_parts else removelast base_parts in
  let segments :=
    if starts_with (lit "/") (u_path u) then split "/"%char (u_path u)
    else filter_inner (base_parts ++ split "/"%char (u_path u)) in
  let resolved := resolve segments [] in
  let resolved :=
    if bool_decide (last segments = Some (lit ".")) || bool_decide (last segments = Some (lit ".."))
    then resolved ++ [[]] else resolved in
  let path := join (lit "/") resolved in
  urlunsplit (SplitUrl (u_scheme u) netloc (if nonempty path then path else lit "/")
                (u_query u) (u_fragment u)).

(** Characters a path may hold without ending it or being removed. *)
Definition path_char (c : ascii) : bool :=
  negb (bool_decide (c = "?"%char) || bool_decide (c = "#"%char) || unsafe_byte c).

(** Segments that the dot removal keeps. *)
Definition plain_seg (s : pystr) : Prop := s <> lit "." /\ s <> lit "..".

(** ** Lemmas *)

Lemma break_none p s : forallb (fun c => negb (p c)) s = true -> break p s = (s, []).
Proof.
  induction s as [|c s IH]; [reflexivity|]. cbn. intros [Hc Hs]%andb_true_iff.
  destruct (p c); [discriminate|]. now rewrite IH.
Qed.

Lemma split_once_none c s :
  forallb (fun x => negb (bool_decide (x = c))) s = true -> split_once c s = None.
Proof. intros H. unfold split_once. now rewrite break_none. Qed.

Lemma filter_unsafe_id s : forallb path_char s = true -> filter (fun c => unsafe_byte c = false) s = s.
Proof.
  induction s as [|c s IH]; [reflexivity|]. cbn [forallb]. intros [Hc Hs]%andb_true_iff.
  rewrite filter_cons. unfold path_char in Hc. rewrite !negb_orb in Hc.
  apply andb_true_iff in Hc as [_ Hc]. apply negb_true_iff in Hc.
  rewrite decide_True by exact Hc. now rewrite IH.
Qed.

Lemma path_char_no (c : ascii) s :
  c = "?"%char \/ c = "#"%char -> forallb path_char s = true ->
  forallb (fun x => negb (bool_decide (x = c))) s = true.
Proof.
  intros Hc. rewrite !forallb_forall. intros H x Hx. specialize (H x Hx). unfold path_char in H.
  apply negb_true_iff in H. apply negb_true_iff. apply bool_decide_eq_false. intros ->.
  destruct Hc as [->| ->]; discriminate H.
Qed.

Lemma resolve_plain segs acc : Forall plain_seg segs -> resolve segs acc = reverse acc ++ segs.
Proof.
  intros H. revert acc. induction H as [|s segs [H1 H2] _ IH]; intros acc; cbn [resolve].
  - now rewrite app_nil_r.
  - rewrite !bool_decide_false by assumption. rewrite IH, reverse_cons. now rewrite <- app_assoc.
Qed.

Lemma last_plain segs : Forall plain_seg segs ->
  bool_decide (last segs = Some (lit ".")) || bool_decide (last segs = Some (lit "..")) = false.
Proof.
  intros H. destruct (last segs) as [x|] eqn:E; [|reflexivity].
  apply last_Some_elem_of in E. rewrite Forall_forall in H. destruct (H x E) as [H1 H2].
  rewrite !bool_decide_false by congruence. reflexivity.
Qed.

Lemma urlsplit_path p sch :
  forallb path_char p = true -> lstrip_c0 p = p -> split_scheme p = None -> starts_with (lit "//") p = false ->
  urlsplit p sch = SplitUrl sch [] p [] [].
Proof.
  intros Hp Hl Hs Hn. unfold urlsplit. rewrite Hl, filter_unsafe_id, Hs, Hn by exact Hp.
  rewrite !split_once_none; [reflexivity|..]; apply path_char_no; auto.
Qed.

Lemma split_scheme_slash p : split_scheme ("/"%char :: p) = None.
Proof.
  unfold split_scheme, split_once. cbn [break]. rewrite bool_decide_false by discriminate.
  destruct (break _ p) as [a [|c b]]; reflexivity.
Qed.

Lemma urlunsplit_https n p :
  starts_with (lit "/") p = true -> starts_with (lit "//") p = false ->
  urlunsplit (SplitUrl (lit "https") n p [] []) = lit "https://" ++ n ++ p.
Proof.
  intros Hp Hs. unfold urlunsplit. cbn [u_scheme u_netloc u_path u_query u_fragment].
  rewrite Hs, Hp. vm_compute (nonempty (lit "https")). vm_compute (bool_decide (lit "https" ∈ uses_netloc)).
  vm_compute (nonempty []). rewrite orb_true_r. cbn [andb negb]. destruct (nonempty p); reflexivity.
Qed.

Lemma starts_with_slash p : starts_with (lit "/") ("/"%char :: p) = true.
Proof. reflexivity. Qed.

Lemma starts_with_dslash p : starts_with (lit "//") ("/"%char :: p) = starts_with (lit "/") p.
Proof. reflexivity. Qed.

Lemma starts_with_dslash_false p : starts_with (lit "/") p = false -> starts_with (lit "//") p = false.
Proof.
  destruct p as [|c p]; [reflexivity|]. unfold lit. cbn. destruct (bool_decide _); [|reflexivity].
  cbn. intros H. discriminate H.
Qed.

Lemma split_app_sep c x y : split c x = [x] -> split c (x ++ c :: y) = x :: split c y.
Proof.
  revert y. induction x as [|a x IH]; intros y Hx; cbn [app split].
  - now rewrite bool_decide_true.
  - cbn [split] in Hx. pose proof (split_not_nil c x) as Hn.
    case_bool_decide as Ha; [injection Hx as E; discriminate E|].
    destruct (split c x) as [|q qs] eqn:E; [congruence|]. injection Hx as -> ->.
    rewrite (IH y eq_refl). reflexivity.
Qed.

Lemma split_head_not_sep c x : split c x = [x] -> x <> [] -> starts_with [c] x = false.
Proof.
  destruct x as [|a x]; [congruence|]. intros Hx _. cbn [split] in Hx. cbn.
  case_bool_decide as Ha; [injection Hx as E; discriminate E|]. rewrite bool_decide_false by congruence.
  reflexivity.
Qed.

Lemma removelast_last_app {A} (l : list A) :
  l <> [] -> removelast l ++ match last l with Some y => [y] | None => [] end = l.
Proof.
  induction l as [|x [|y l] IH]; intros Hl; [congruence|reflexivity|].
  change (removelast (x :: y :: l)) with (x :: removelast (y :: l)).
  rewrite last_cons_cons. cbn [app]. f_equal. apply IH. discriminate.
Qed.

Lemma Forall_removelast {A} (P : A -> Prop) (l : list A) : Forall P l -> Forall P (removelast l).
Proof. induction 1 as [|x [|y l] Hx _ IH]; [constructor|constructor|]. now constructor. Qed.

Lemma filter_all {A} (P : A -> Prop) `{forall x, Decision (P x)} (l : list A) : Forall P l -> filter P l = l.
Proof. induction 1 as [|x l Hx _ IH]; [reflexivity|]. rewrite filter_cons, decide_True by exact Hx. now f_equal. Qed.

Lemma filter_inner_keep x rest :
  rest <> [] -> Forall (fun s => s <> []) rest -> filter_inner (x :: rest) = x :: rest.
Proof.
  intros Hr Hf. destruct rest as [|y r]; [congruence|]. unfold filter_inner. f_equal.
  rewrite filter_all; [now apply removelast_last_app|].
  apply Forall_removelast. eapply Forall_impl; [exact Hf|]. intros z Hz. unfold nonempty.
  now rewrite bool_decide_false.
Qed.

Lemma join_slash_split p : join (lit "/") (split "/"%char p) = p.
Proof. apply join_split. Qed.

(** The join of an absolute path, after the scheme and network location
    checks: the path's segments, with the dot segments resolved. *)
Lemma urljoin_https_path base n bp bq bf p segs :
  base <> [] -> urlsplit base [] = SplitUrl (lit "https") n bp bq bf ->
  p <> [] -> urlsplit p (lit "https") = SplitUrl (lit "https") [] p [] [] ->
  segs = (if starts_with (lit "/") p then split "/"%char p
          else filter_inner ((if bool_decide (last (split "/"%char bp) = Some []) then split "/"%char bp
                              else removelast (split "/"%char bp)) ++ split "/"%char p)) ->
  Forall plain_seg segs -> starts_with (lit "/") (join (lit "/") segs) = true ->
  starts_with (lit "//") (join (lit "/") segs) = false ->
  urljoin base p = lit "https://" ++ n ++ join (lit "/") segs.
Proof.
  intros Hb Hs Hp Hu Hsegs Hplain Hj1 Hj2. unfold urljoin. cbv zeta.
  rewrite bool_decide_false by exact Hb. rewrite bool_decide_false by exact Hp.
  rewrite Hs. cbn [u_scheme u_netloc u_path u_query u_fragment]. rewrite Hu.
  cbn [u_scheme u_netloc u_path u_query u_fragment].
  rewrite bool_decide_true by reflexivity. vm_compute (bool_decide (lit "https" ∈ uses_relative)).
  vm_compute (bool_decide (lit "https" ∈ uses_netloc)). vm_compute (nonempty []). cbn [negb orb andb].
  unfold nonempty at 1. rewrite bool_decide_false by exact Hp. cbn [negb].
  rewrite <- Hsegs, resolve_plain, last_plain by exact Hplain. cbn [reverse rev_append app].
  assert (Hne : nonempty (join (lit "/") segs) = true).
  { unfold nonempty. apply negb_true_iff, bool_decide_eq_false. intros E. rewrite E in Hj1. discriminate. }
  rewrite Hne. now apply urlunsplit_https.
Qed.

(** An absolute-path link ([/p]) on an [https] page: the page's scheme
    and network location followed by the link. *)
Lemma urljoin_abs_path base n bp bq bf p :
  base <> [] -> urlsplit base [] = SplitUrl (lit "https") n bp bq bf ->
  forallb path_char p = true -> starts_with (lit "/") p = false -> Forall plain_seg (split "/"%char p) ->
  urljoin base ("/"%char :: p) = lit "https://" ++ n ++ "/"%char :: p.
Proof.
  intros Hb Hs Hp Hp0 Hseg.
  assert (Hj : join (lit "/") ([] :: split "/"%char p) = "/"%char :: p).
  { rewrite join_cons by apply split_not_nil. now rewrite join_slash_split. }
  rewrite <- Hj at 2. apply (urljoin_https_path base n bp bq bf); [exact Hb|exact Hs|discriminate|..].
  - apply urlsplit_path; [cbn; now rewrite Hp|reflexivity|apply split_scheme_slash|].
    now rewrite starts_with_dslash.
  - rewrite starts_with_slash. reflexivity.
  - constructor; [split; discriminate|exact Hseg].
  - rewrite Hj. apply starts_with_slash.
  - rewrite Hj, starts_with_dslash. exact Hp0.
Qed.

(** A relative link [p] on an [https] page whose path is [/d/f]: the
    page's directory [/d/] followed by the link. *)
Lemma urljoin_rel_path base n d f bq bf p :
  base <> [] -> urlsplit base [] = SplitUrl (lit "https") n ("/"%char :: d ++ "/"%char :: f) bq bf ->
  split "/"%char d = [d] -> d <> [] -> plain_seg d -> split "/"%char f = [f] -> f <> [] ->
  p <> [] -> forallb path_char p = true -> lstrip_c0 p = p -> split_scheme p = None ->
  starts_with (lit "/") p = false -> Forall (fun s => s <> [] /\ plain_seg s) (split "/"%char p) ->
  urljoin base p = lit "https://" ++ n ++ "/"%char :: d ++ "/"%char :: p.
Proof.
  intros Hb Hs Hd Hd0 Hdp Hf Hf0 Hp Hpc Hl Hsch Hp0 Hseg.
  assert (Hbp : split "/"%char ("/"%char :: d ++ "/"%char :: f) = [[]; d; f]).
  { cbn [split]. rewrite bool_decide_true by reflexivity. now rewrite split_app_sep, Hf. }
  assert (Hj : join (lit "/") ([] :: d :: split "/"%char p) = "/"%char :: d ++ "/"%char :: p).
  { rewrite !join_cons by (try discriminate; apply split_not_nil). now rewrite join_slash_split. }
  rewrite <- Hj. apply (urljoin_https_path base n ("/"%char :: d ++ "/"%char :: f) bq bf); [exact Hb|exact Hs|exact Hp|..].
  - apply urlsplit_path; auto using starts_with_dslash_false.
  - rewrite Hp0, Hbp. rewrite bool_decide_false by (cbn; congruence). cbn [removelast app].
    rewrite filter_inner_keep; [reflexivity|discriminate|]. constructor; [exact Hd0|].
    eapply Forall_impl; [exact Hseg|]. now intros s [Hs' _].
  - constructor; [split; discriminate|]. constructor; [exact Hdp|].
    eapply Forall_impl; [exact Hseg|]. now intros s [_ Hs'].
  - rewrite Hj. apply starts_with_slash.
  - rewrite Hj, starts_with_dslash. pose proof (split_head_not_sep _ _ Hd Hd0) as Hh.
    destruct d as [|c d]; [contradiction|]. exact Hh.
Qed.

Lemma break_app p x s :
  forallb (fun c => negb (p c)) x = true -> break p (x ++ s) = (x ++ (break p s).1, (break p s).2).
Proof.
  induction x as [|c x IH]; intros Hx; [cbn; now destruct (break p s)|]. cbn [forallb] in Hx.
  apply andb_true_iff in Hx as [Hc Hx]. cbn [app break]. destruct (p c); [discriminate|].
  rewrite IH by exact Hx. reflexivity.
Qed.

Lemma forallb_app_iff {A} (f : A -> bool) l1 l2 : forallb f (l1 ++ l2) = forallb f l1 && forallb f l2.
Proof. apply forallb_app. Qed.

Lemma lstrip_c0_keep c s : c0_or_space c = false -> lstrip_c0 (c :: s) = c :: s.
Proof. intros H. cbn. now rewrite H. Qed.

Lemma split_scheme_https x : split_scheme (lit "https" ++ ":"%char :: x) = Some (lit "https", x).
Proof.
  unfold split_scheme, split_once. rewrite break_app by reflexivity. cbn [break fst snd].
  rewrite bool_decide_true by reflexivity. rewrite app_nil_r. reflexivity.
Qed.

Lemma split_once_app c x y :
  forallb (fun z => negb (bool_decide (z = c))) x = true -> split_once c (x ++ c :: y) = Some (x, y).
Proof.
  intros Hx. unfold split_once. rewrite break_app by exact Hx. cbn [break fst snd].
  rewrite bool_decide_true by reflexivity. now rewrite app_nil_r.
Qed.

(** The parts of an [https] URL with a host, a path and a query. *)
Lemma urlsplit_https host path q :
  forallb (fun c => negb (netloc_end c) && negb (unsafe_byte c)) host = true ->
  starts_with (lit "/") path = true -> forallb path_char path = true ->
  forallb (fun c => negb (bool_decide (c = "#"%char)) && negb (unsafe_byte c)) q = true ->
  urlsplit (lit "https://" ++ host ++ path ++ "?"%char :: q) [] = SplitUrl (lit "https") host path q [].
Proof.
  intros Hh Hp0 Hp Hq.
  assert (Hs : forall (f : ascii -> bool) (g : ascii -> bool) l,
             forallb (fun c => f c && g c) l = true -> forallb g l = true).
  { intros f g l. rewrite !forallb_forall. intros H c Hc. specialize (H c Hc).
    now apply andb_true_iff in H as [_ ->]. }
  assert (Hpu : forallb (fun c => negb (unsafe_byte c)) path = true).
  { revert Hp. rewrite !forallb_forall. intros H c Hc. specialize (H c Hc). unfold path_char in H.
    rewrite !negb_orb in H. now apply andb_true_iff in H as [_ ->]. }
  assert (Hall : Forall (fun c => unsafe_byte c = false) (lit "https://" ++ host ++ path ++ "?"%char :: q)).
  { assert (H : forallb (fun c => negb (unsafe_byte c)) (lit "https://" ++ host ++ path ++ "?"%char :: q) = true)
      by (rewrite !forallb_app; cbn [forallb]; now rewrite (Hs _ _ _ Hh), Hpu, (Hs _ _ _ Hq)).
    apply Forall_forall. intros c Hc. apply negb_true_iff. rewrite forallb_forall in H.
    apply H, list_elem_of_In, Hc. }
  unfold urlsplit.
  change (lit "https://" ++ ?x) with ("h"%char :: (lit "ttps://" ++ x)).
  rewrite lstrip_c0_keep by reflexivity.
  change ("h"%char :: (lit "ttps://" ++ ?x)) with (lit "https://" ++ x).
  rewrite filter_all by exact Hall.
  change (lit "https://" ++ ?x) with (lit "https" ++ ":"%char :: lit "//" ++ x).
  rewrite split_scheme_https. cbv beta iota zeta.
  rewrite (proj2 (starts_with_app _ _) (ex_intro _ _ eq_refl)).
  change (drop 2 (lit "//" ++ ?x)) with x.
  assert (Hb : break netloc_end (host ++ path ++ "?"%char :: q) = (host, path ++ "?"%char :: q)).
  { rewrite break_app.
    - destruct path as [|c path]; [discriminate|]. unfold lit in Hp0. cbn in Hp0.
      apply andb_true_iff in Hp0 as [Hc _]. apply bool_decide_eq_true in Hc as <-.
      cbn. now rewrite app_nil_r.
    - revert Hh. rewrite !forallb_forall. intros H c Hc. specialize (H c Hc).
      now apply andb_true_iff in H as [-> _]. }
  rewrite Hb. cbv beta iota zeta.
  rewrite split_once_none.
  - cbv beta iota zeta. rewrite split_once_app by (apply path_char_no; auto). reflexivity.
  - rewrite forallb_app. apply andb_true_iff. split; [apply path_char_no; auto|].
    cbn [forallb]. rewrite bool_decide_false by discriminate. cbn [negb andb].
    revert Hq. rewrite !forallb_forall. intros H c Hc. specialize (H c Hc).
    now apply andb_true_iff in H as [-> _].
Qed.

End Url.
