(* ===== verification/Rating.v ===== *)
(** * The star-rating algorithm ([parse_review], lines 72-89)

    The rating widget is a strip of [<i>] icons; the code counts them and
    reads the [title] attribute of the last one.  This file models the
    [try]/[except] block literally, states the classification the spec
    asks for (an explicit outcome per widget, spec section 9), and proves
    that the code returns the value of the widget's outcome, with its
    bounds. *)

From S2P Require Import Prelude PyStr.
From Stdlib Require Import QArith.

Module Rating.

Local Close Scope Q_scope.

(** The Python numbers the rating variable holds: [len(star_div) - 1] is
    an [int], [rating += 0.5] makes it a [float] (exact on these values). *)
Inductive pynum := PyInt (z : Z) | PyFloat (q : Q).

Definition num_val (n : pynum) : Q :=
  match n with PyInt z => inject_Z z | PyFloat q => q end.

(** An icon element, by its attributes (parsel's [.attrib]). *)
Abbreviation icon := (dict pystr).

(** The body of the [try] (lines 76-85), starting from [rating]. *)
Definition rating_try (star_div : list icon) (rating : Z) : res (option pynum) :=
  last_star ← list_last star_div;
  last_star_type ← dict_get last_star (lit "title");
  if bool_decide (last_star_type = lit "star-full") then
    Ok (Some (PyInt (rating + 1)))
  else if bool_decide (last_star_type = lit "star-half") then
    Ok (Some (PyFloat (inject_Z rating + (1 # 2))%Q))
  else if bool_decide (last_star_type = lit "thumbsdown") then
    Ok None
  else Err NotImplementedError.

(** Lines 73-89: [rating = len(star_div) - 1], then the [try]; any
    exception sets [rating = None]. *)
Definition star_rating (star_div : list icon) : option pynum :=
  let rating := (Z.of_nat (length star_div) - 1)%Z in
  try_except (rating_try star_div rating) (fun _ => None).

(** ** The specification: an explicit outcome per widget

    Spec section 4.3 and the design note of section 9: the widget is
    classified into a closed set of outcomes, of which only two carry a
    number. *)
Inductive outcome :=
  | NoWidget                 (** no icon at all *)
  | Malformed                (** last icon without a [title] *)
  | Full (n : nat)           (** [n] icons, the last one [star-full] *)
  | Half (n : nat)           (** [n] icons, the last one [star-half] *)
  | ThumbsDown               (** the walk-out icon *)
  | UnknownIcon (t : pystr). (** any other icon type *)

Definition classify (icons : list icon) : outcome :=
  match last icons with
  | None => NoWidget
  | Some i =>
      match dict_get i (lit "title") with
      | Err _ => Malformed
      | Ok t =>
          if bool_decide (t = lit "star-full") then Full (length icons)
          else if bool_decide (t = lit "star-half") then Half (length icons)
          else if bool_decide (t = lit "thumbsdown") then ThumbsDown
          else UnknownIcon t
      end
  end.

(** The value the code assigns for each outcome. *)
Definition outcome_value (o : outcome) : option pynum :=
  match o with
  | Full n => Some (PyInt (Z.of_nat n))
  | Half n => Some (PyFloat (inject_Z (Z.of_nat n - 1) + (1 # 2))%Q)
  | _ => None
  end.

(** Icons as the site renders them: [<i class="icon-star-full" title="star-full">]. *)
Definition mk_icon (t : String.string) : icon :=
  [(lit "class", lit (String.append "icon-" t)); (lit "title", lit t)].

(** ** Lemmas *)

(** The [try] body follows the classification, with [rating = n - 1]. *)
Lemma rating_try_classify icons :
  rating_try icons (Z.of_nat (length icons) - 1)%Z =
  match classify icons with
  | NoWidget => Err IndexError
  | Malformed => Err KeyError
  | UnknownIcon _ => Err NotImplementedError
  | o => Ok (outcome_value o)
  end.
Proof.
  unfold rating_try, classify, list_last.
  destruct (last icons) as [i|] eqn:Hl; [|reflexivity].
  assert (length icons <> 0)%nat by (destruct icons; [discriminate | simpl; lia]).
  simpl. destruct (dict_get i _) as [t|e] eqn:Hd; simpl;
    [|now rewrite (dict_get_Err _ _ _ Hd)].
  repeat case_bool_decide; simpl; try reflexivity.
  do 3 f_equal. lia.
Qed.

(** The computed rating, by outcome. *)
Lemma star_rating_outcome icons : star_rating icons = outcome_value (classify icons).
Proof.
  unfold star_rating. rewrite rating_try_classify.
  destruct (classify icons); reflexivity.
Qed.

Lemma classify_counts icons :
  match classify icons with
  | Full n | Half n => n = length icons /\ (1 <= n)%nat
  | _ => True
  end.
Proof.
  unfold classify. destruct (last icons) eqn:Hl; [|exact I].
  assert (1 <= length icons)%nat by (destruct icons; [discriminate | simpl; lia]).
  destruct (dict_get _ _); [|exact I].
  repeat case_bool_decide; auto.
Qed.

(** The range of a computed rating. *)
Lemma star_rating_range icons r :
  star_rating icons = Some r ->
  (1 # 2 <= num_val r)%Q /\ (num_val r <= inject_Z (Z.of_nat (length icons)))%Q /\
  exists k : Z, (num_val r == k # 2)%Q.
Proof.
  rewrite star_rating_outcome. pose proof (classify_counts icons) as Hc.
  destruct (classify icons); simpl; intros [= <-]; destruct Hc as [-> Hn]; simpl.
  - unfold Qle, Qeq; simpl. split; [lia|split; [lia|]].
    exists (2 * Z.of_nat (length icons))%Z. lia.
  - unfold Qle, Qeq; simpl. split; [lia|split; [lia|]].
    exists (2 * Z.of_nat (length icons) - 1)%Z. lia.
Qed.

(** ** Theorems *)

(** C2: the rating the code computes is exactly the value of the widget's
    outcome: an [int] equal to the number of icons when the last icon is
    [star-full], the [float] [n - 0.5] when it is [star-half], and [None]
    for every other widget (no icon, no [title], thumbs-down, unknown
    icon), every exception of the [try] being caught. *)
Theorem star_rating_classify icons :
  star_rating icons = outcome_value (classify icons).
Proof. exact (star_rating_outcome icons). Qed.

(** C25: bounds: a rating the code returns is a positive multiple of one
    half and at most the number of icons; in particular the code never
    returns the rating 0 the spec lists (section 3). *)
Theorem star_rating_bounds icons r :
  star_rating icons = Some r ->
  (1 # 2 <= num_val r)%Q /\ (num_val r <= inject_Z (Z.of_nat (length icons)))%Q /\
  exists k : Z, (num_val r == k # 2)%Q.
Proof. apply star_rating_range. Qed.

Lemma star_rating_bounds_witness :
  let icons := [mk_icon "star-full"; mk_icon "star-half"] in
  let r := PyFloat (inject_Z 1 + (1 # 2))%Q in
  star_rating icons = Some r /\
  ((1 # 2 <= num_val r)%Q /\ (num_val r <= inject_Z (Z.of_nat (length icons)))%Q /\
   exists k : Z, (num_val r == k # 2)%Q).
Proof.
  intros icons r. split; [reflexivity|].
  apply (star_rating_bounds icons r). reflexivity.
Defined.

(** The absent rating conflates four outcomes (spec section 9): the
    code returns [None] exactly when the widget is empty, its last icon
    has no [title], is the thumbs-down icon, or an unknown icon. *)
Theorem star_rating_None_iff icons :
  star_rating icons = None <->
  classify icons = NoWidget \/ classify icons = Malformed \/
  classify icons = ThumbsDown \/ exists t, classify icons = UnknownIcon t.
Proof.
  rewrite star_rating_outcome.
  destruct (classify icons); simpl; split; intros H;
    try discriminate; try reflexivity; eauto;
    repeat (destruct H as [H|H]; [discriminate|]); destruct H; discriminate.
Qed.

(** The examples of spec section 8: four icons ending in [star-full]
    rate 4 (an [int]), four ending in [star-half] rate 3.5, a lone
    thumbs-down and an empty widget have no rating. *)
Example star_rating_spec_examples :
  star_rating (repeat (mk_icon "star-full") 4) = Some (PyInt 4) /\
  option_map num_val (star_rating (repeat (mk_icon "star-full") 3 ++ [mk_icon "star-half"]))
    = Some (7 # 2)%Q /\
  star_rating [mk_icon "thumbsdown"] = None /\
  star_rating [] = None.
Proof. repeat split; reflexivity. Qed.

End Rating.
