(* ===== verification/Text.v ===== *)
(** * Text reconstruction ([parse_review], lines 55-68 and 95)

    The code flattens each content block with XPath [string(.)] after
    having put a ['\r'] marker around every [<i>] span of the markup
    (line 56, modelled in [Review.v]); then, per block, it deletes
    ['\xa0'] and ['\n'], turns each ['\r'] into a blank line and strips
    the result (line 66); it joins the blocks with a blank line and
    replaces ["\n\n\n\n"] by ["\n\n"] (lines 64-68).

    The reference model works on paragraphs: a block is the list of the
    pieces between its markers, stripped at the block's two ends; the
    article is the concatenation of the blocks' paragraphs where the
    collapse removes some empty paragraphs.  The main theorem says the
    string surgery renders exactly that paragraph list.  From it follow
    the body of clean blocks, and the two divergences from the spec's
    section 8: an emphasis span splits its block into three paragraphs
    ([article_copy_emphasis]), and [n] blocks that clean to nothing
    leave [1 + n / 2] blank-line breaks ([article_copy_blank_run]). *)

From S2P Require Import Prelude PyStr.
From Stdlib Require Import FunInd Recdef.
Import PyStr.

Module Text.

Definition nn : pystr := [nl; nl].
Definition nnnn : pystr := [nl; nl; nl; nl].

(** ** The code *)

(** Line 66: [s.replace('\xa0', '').replace('\n', '').replace('\r', '\n\n').strip()]. *)
Definition clean_section (s : pystr) : pystr :=
  strip (replace [cr] nn (replace [nl] [] (replace [nbsp] [] s))).

(** Lines 64-68: join the cleaned blocks with a blank line, then
    [.replace("\n\n\n\n", "\n\n")]. *)
Definition article_copy (article_sections : list pystr) : pystr :=
  replace nnnn nn (join nn (map clean_section article_sections)).

(** Line 95: [f"<b>{article_title}</b>\n\n{article_copy}"]. *)
Definition review_text (article_title copy : pystr) : pystr :=
  lit "<b>" ++ article_title ++ lit "</b>" ++ nn ++ copy.

(** ** The paragraph model *)

(** The characters the first two deletions remove. *)
Definition scrub (s : pystr) : pystr :=
  filter (fun c => c <> nl) (filter (fun c => c <> nbsp) s).

Definition all_space (p : pystr) : bool := forallb is_space p.

(** [strip] at the level of paragraphs: leading (trailing) paragraphs made
    of white space only disappear, with their breaks; the first (last)
    remaining one is stripped on its outer side. *)
Fixpoint lstrip_pars (ps : list pystr) : list pystr :=
  match ps with
  | [] => []
  | [p] => [lstrip p]
  | p :: ps' => if all_space p then lstrip_pars ps' else lstrip p :: ps'
  end.

Fixpoint rstrip_pars (ps : list pystr) : list pystr :=
  match ps with
  | [] => []
  | [p] => [rstrip p]
  | p :: ps' => if forallb all_space ps' then [rstrip p] else p :: rstrip_pars ps'
  end.

(** The paragraphs of one block: the pieces between the ['\r'] markers. *)
Definition block_paragraphs (s : pystr) : list pystr :=
  rstrip_pars (lstrip_pars (split cr (scrub s))).

(** What ["\n\n\n\n" -> "\n\n"] does to a paragraph list: an empty
    paragraph between two others disappears, and the scan resumes after
    the next paragraph's break, so of a run of empty paragraphs every
    other one survives. *)
Function collapse (ps : list pystr) : list pystr :=
  match ps with
  | p :: [] :: ((_ :: _) as rest) => p :: collapse rest
  | p :: rest => p :: collapse rest
  | [] => []
  end.

Definition article_paragraphs (article_sections : list pystr) : list pystr :=
  collapse (concat (map block_paragraphs article_sections)).

(** A character the reconstructed text can hold: not a line break, not the
    marker, not a non-breaking space. *)
Definition plain (c : ascii) : Prop := c <> nl /\ c <> cr /\ c <> nbsp.

(** ** Lemmas: stripping paragraph lists *)

Lemma nn_space : forallb is_space nn = true.
Proof. reflexivity. Qed.

Lemma all_space_join ps : all_space (join nn ps) = forallb all_space ps.
Proof.
  induction ps as [|p [|q ps] IH]; [reflexivity|simpl; now rewrite andb_true_r|].
  rewrite join_cons_cons. unfold all_space in *. rewrite !forallb_app, IH.
  reflexivity.
Qed.

Lemma lstrip_join ps : lstrip (join nn ps) = join nn (lstrip_pars ps).
Proof.
  induction ps as [|p [|q ps] IH]; [reflexivity|reflexivity|].
  rewrite join_cons_cons. cbn [lstrip_pars].
  destruct (all_space p) eqn:Hp.
  - rewrite (lstrip_app_space p) by assumption.
    rewrite (lstrip_app_space nn) by reflexivity. exact IH.
  - rewrite lstrip_app_nonspace by assumption. reflexivity.
Qed.

Lemma lstrip_pars_not_nil ps : ps <> [] -> lstrip_pars ps <> [].
Proof.
  induction ps as [|p [|q ps] IH]; intros H; [congruence|discriminate|].
  cbn [lstrip_pars]. destruct (all_space p); [apply IH|]; discriminate.
Qed.

Lemma rstrip_pars_not_nil ps : ps <> [] -> rstrip_pars ps <> [].
Proof.
  destruct ps as [|p [|q ps]]; intros H; [congruence|discriminate|].
  cbn [rstrip_pars]. destruct (forallb _ _); discriminate.
Qed.

Lemma rstrip_join ps : rstrip (join nn ps) = join nn (rstrip_pars ps).
Proof.
  induction ps as [|p [|q ps] IH]; [reflexivity|reflexivity|].
  rewrite join_cons_cons.
  change (rstrip_pars (p :: q :: ps)) with
    (if forallb all_space (q :: ps) then [rstrip p] else p :: rstrip_pars (q :: ps)).
  pose proof (all_space_join (q :: ps)) as Hj. unfold all_space in Hj.
  destruct (forallb all_space (q :: ps)) eqn:Hq.
  - rewrite rstrip_app_space; [reflexivity|]. now rewrite forallb_app, Hj.
  - rewrite rstrip_app_nonspace by (now rewrite forallb_app, Hj).
    rewrite rstrip_app_nonspace by (now rewrite Hj). rewrite IH.
    rewrite join_cons; [reflexivity|]. apply rstrip_pars_not_nil. discriminate.
Qed.

Lemma block_paragraphs_not_nil s : block_paragraphs s <> [].
Proof. apply rstrip_pars_not_nil, lstrip_pars_not_nil, split_not_nil. Qed.

(** Line 66 renders the block's paragraphs. *)
Lemma clean_section_paragraphs s : clean_section s = join nn (block_paragraphs s).
Proof.
  unfold clean_section, block_paragraphs, scrub, strip.
  rewrite !replace_char_delete, replace_char_join_split.
  now rewrite lstrip_join, rstrip_join.
Qed.

(** ** Lemmas: what the paragraphs contain *)

Section Paragraphs.
Variable P : ascii -> Prop.

Lemma lstrip_pars_Forall ps : Forall (Forall P) ps -> Forall (Forall P) (lstrip_pars ps).
Proof.
  induction ps as [|p [|q ps] IH]; intros H; [constructor| |].
  - inversion H; subst. constructor; [now apply lstrip_Forall|constructor].
  - inversion H; subst. cbn [lstrip_pars]. destruct (all_space p); [now apply IH|].
    constructor; [now apply lstrip_Forall|assumption].
Qed.

Lemma rstrip_pars_Forall ps : Forall (Forall P) ps -> Forall (Forall P) (rstrip_pars ps).
Proof.
  induction ps as [|p [|q ps] IH]; intros H; [constructor| |].
  - inversion H; subst. constructor; [now apply rstrip_Forall|constructor].
  - inversion H; subst. cbn [rstrip_pars]. destruct (forallb _ _).
    + constructor; [now apply rstrip_Forall|constructor].
    + constructor; [assumption|now apply IH].
Qed.

Lemma collapse_Forall (Q : pystr -> Prop) ps : Forall Q ps -> Forall Q (collapse ps).
Proof.
  functional induction (collapse ps); intros H; [| |constructor];
    repeat (apply Forall_cons in H as [? H]); constructor; auto.
Qed.

End Paragraphs.

Lemma scrub_Forall s : Forall (fun c => c <> nl /\ c <> nbsp) (scrub s).
Proof.
  apply Forall_forall. intros c. unfold scrub.
  rewrite !list_elem_of_filter. tauto.
Qed.

Lemma block_paragraphs_plain s : Forall (Forall plain) (block_paragraphs s).
Proof.
  apply rstrip_pars_Forall, lstrip_pars_Forall.
  eapply Forall_impl; [apply split_Forall, scrub_Forall|].
  intros p Hp. eapply Forall_impl; [exact Hp|]. unfold plain. tauto.
Qed.

(** ** Lemmas: the quadruple-break collapse *)

Lemma replace_nnnn_app_l p s : nl ∉ p -> replace nnnn nn (p ++ s) = p ++ replace nnnn nn s.
Proof. intros Hp. now apply (replace_scan_app_l nnnn nn p s nl). Qed.

Lemma replace_nnnn_plain p : nl ∉ p -> replace nnnn nn p = p.
Proof.
  intros Hp. rewrite <- (app_nil_r p) at 1.
  rewrite replace_nnnn_app_l by assumption. apply app_nil_r.
Qed.

Lemma replace_nnnn_skip y : replace nnnn nn (nnnn ++ y) = nn ++ replace nnnn nn y.
Proof. reflexivity. Qed.

Lemma replace_nnnn_pass z : head z <> Some nl -> replace nnnn nn (nn ++ z) = nn ++ replace nnnn nn z.
Proof.
  destruct z as [|x z]; [reflexivity|]. intros Hx. simpl in *.
  rewrite (bool_decide_false (nl = x)) by congruence. reflexivity.
Qed.

Lemma join_head sep q r : q <> [] -> head (join sep (q :: r)) = head q.
Proof. destruct q; [congruence|]. destruct r; reflexivity. Qed.

Lemma join_head_not_nl q r :
  Forall (fun p => nl ∉ p) (q :: r) ->
  match q :: r with [] :: _ :: _ => False | _ => True end ->
  head (join nn (q :: r)) <> Some nl.
Proof.
  intros Hq Hr. destruct q as [|x q].
  - destruct r; [discriminate|contradiction].
  - rewrite join_head by discriminate. simpl. intros [= ->].
    inversion Hq as [|? ? Hx]; subst. apply Hx. left.
Qed.

Lemma collapse_not_nil ps : ps <> [] -> collapse ps <> [].
Proof. functional induction (collapse ps); congruence. Qed.

(** [replace("\n\n\n\n", "\n\n")] on a text of line-free paragraphs
    renders their collapse. *)
Lemma replace_nnnn_join ps :
  Forall (fun p => nl ∉ p) ps -> replace nnnn nn (join nn ps) = join nn (collapse ps).
Proof.
  functional induction (collapse ps); intros H.
  - inversion H as [|? ? Hp H']; subst. inversion H'; subst.
    rewrite !join_cons_cons, replace_nnnn_app_l by assumption.
    change ([] ++ nn ++ join nn (_x :: _x0)) with (nn ++ join nn (_x :: _x0)).
    rewrite app_assoc, replace_nnnn_skip, IHl by assumption.
    rewrite join_cons; [reflexivity|]. now apply collapse_not_nil.
  - destruct rest as [|q r].
    { inversion H; subst. now apply replace_nnnn_plain. }
    pose proof (join_head_not_nl q r) as Hh.
    apply Forall_cons in H as [Hp H].
    rewrite join_cons_cons, replace_nnnn_app_l, replace_nnnn_pass, IHl by auto.
    rewrite join_cons; [reflexivity|]. apply collapse_not_nil. discriminate.
  - reflexivity.
Qed.

Lemma join_concat sep pss :
  Forall (fun ps => ps <> []) pss ->
  join sep (map (join sep) pss) = join sep (concat pss).
Proof.
  induction pss as [|ps [|qs pss] IH]; intros H; [reflexivity| |].
  - simpl. now rewrite app_nil_r.
  - inversion H as [|? ? Hps H']; subst. inversion H'; subst.
    rewrite map_cons, join_cons by discriminate. rewrite IH by assumption.
    change (concat (ps :: qs :: pss)) with (ps ++ concat (qs :: pss)).
    rewrite join_app; [reflexivity|assumption|].
    change (concat (qs :: pss)) with (qs ++ concat pss).
    destruct qs; [congruence|discriminate].
Qed.

Lemma collapse_id ps : Forall (fun p => p <> []) ps -> collapse ps = ps.
Proof.
  functional induction (collapse ps); intros H.
  - inversion H as [|? ? _ H']; inversion H'; congruence.
  - inversion H; subst. f_equal. auto.
  - reflexivity.
Qed.

Lemma scrub_plain s : Forall plain s -> scrub s = s.
Proof.
  induction s as [|c s IH]; intros H; [reflexivity|].
  apply Forall_cons in H as [(Hn & Hc & Hb) H]. unfold scrub in *.
  rewrite filter_cons, decide_True by assumption.
  rewrite filter_cons, decide_True by assumption. now rewrite IH.
Qed.

Lemma split_plain s : Forall plain s -> split cr s = [s].
Proof.
  induction s as [|c s IH]; intros H; [reflexivity|].
  apply Forall_cons in H as [(Hn & Hc & Hb) H]. simpl.
  rewrite bool_decide_false by assumption. now rewrite IH.
Qed.

Lemma block_paragraphs_plain_block s : Forall plain s -> block_paragraphs s = [strip s].
Proof.
  intros H. unfold block_paragraphs. now rewrite scrub_plain, split_plain.
Qed.

Lemma plain_no_nl p : Forall plain p -> nl ∉ p.
Proof. intros Hp Hin. rewrite Forall_forall in Hp. now destruct (Hp _ Hin). Qed.

Lemma concat_map_singleton {A B} (f : A -> B) l : concat (map (fun x => [f x]) l) = map f l.
Proof. induction l as [|x l IH]; simpl; [reflexivity|]. now rewrite IH. Qed.

Lemma clean_blocks_paragraphs ss :
  Forall (fun s => Forall plain s /\ strip s <> []) ss -> concat (map block_paragraphs ss) = map strip ss.
Proof.
  intros H. rewrite (map_ext_Forall block_paragraphs (fun s => [strip s])); [apply concat_map_singleton|].
  eapply Forall_impl; [exact H|]. intros s [Hs _]. now apply block_paragraphs_plain_block.
Qed.

Lemma scrub_id s : Forall (fun c => c <> nl /\ c <> nbsp) s -> scrub s = s.
Proof.
  induction s as [|c s IH]; intros H; [reflexivity|].
  apply Forall_cons in H as [[Hn Hb] H]. unfold scrub in *.
  rewrite filter_cons, decide_True by assumption.
  rewrite filter_cons, decide_True by assumption. now rewrite IH.
Qed.

Lemma split_cr_app x y : Forall plain x -> split cr (x ++ cr :: y) = x :: split cr y.
Proof.
  induction x as [|c x IH]; intros H; [cbn; now rewrite bool_decide_true|].
  apply Forall_cons in H as [(Hn & Hc & Hb) H]. cbn [app split].
  rewrite bool_decide_false by assumption. now rewrite IH.
Qed.

Lemma lstrip_nil_space s : lstrip s = [] -> forallb is_space s = true.
Proof. induction s as [|c s IH]; [reflexivity|]. cbn. destruct (is_space c); [auto|discriminate]. Qed.

Lemma lstrip_not_nil s : all_space s = false -> lstrip s <> [].
Proof. intros Hs E. apply lstrip_nil_space in E. unfold all_space in Hs. congruence. Qed.

Lemma rstrip_not_nil s : all_space s = false -> rstrip s <> [].
Proof.
  intros Hs E. unfold rstrip in E. apply (f_equal reverse) in E. rewrite reverse_involutive in E.
  apply lstrip_nil_space in E. rewrite forallb_reverse in E. unfold all_space in Hs. congruence.
Qed.

(** A block holding an emphasis span between its two markers has three
    paragraphs. *)
Lemma block_paragraphs_emphasis a b c :
  Forall plain a -> Forall plain b -> Forall plain c -> all_space a = false -> all_space c = false ->
  block_paragraphs (a ++ [cr] ++ b ++ [cr] ++ c) = [lstrip a; b; rstrip c].
Proof.
  intros Ha Hb Hc Ha' Hc'. unfold block_paragraphs.
  assert (Hcr : cr <> nl /\ cr <> nbsp) by (split; discriminate).
  assert (Hpl : forall x, Forall plain x -> Forall (fun c => c <> nl /\ c <> nbsp) x)
    by (intros x Hx; eapply Forall_impl; [exact Hx|]; intros ? (? & ? & ?); split; assumption).
  rewrite scrub_id by (rewrite !Forall_app, !Forall_cons; split_and!; auto).
  cbn [app]. rewrite split_cr_app, split_cr_app, split_plain by assumption.
  cbn [lstrip_pars]. rewrite Ha'. cbn [rstrip_pars forallb]. now rewrite Hc', !andb_false_r.
Qed.

(** A block that cleans to nothing is one empty paragraph. *)
Lemma blank_paragraphs e : clean_section e = [] -> block_paragraphs e = [[]].
Proof.
  rewrite clean_section_paragraphs. pose proof (block_paragraphs_not_nil e) as Hn.
  destruct (block_paragraphs e) as [|p [|q r]]; [congruence|cbn; now intros ->|].
  rewrite join_cons_cons. destruct p; discriminate.
Qed.

Lemma collapse_empty_pair p r : r <> [] -> collapse (p :: [] :: r) = p :: collapse r.
Proof. destruct r; [congruence|reflexivity]. Qed.

Lemma collapse_cons_full p q r : q <> [] -> collapse (p :: q :: r) = p :: collapse (q :: r).
Proof. destruct q; [congruence|reflexivity]. Qed.

(** Of a run of empty paragraphs before a last one, every other one is
    kept. *)
Lemma collapse_empties m q : q <> [] -> collapse (repeat [] m ++ [q]) = repeat [] ((m + 1) / 2) ++ [q].
Proof.
  intros Hq. induction m as [m IH] using (well_founded_induction lt_wf).
  destruct m as [|[|m]]; [reflexivity|cbn [repeat app]; now rewrite collapse_cons_full|].
  cbn [repeat app]. rewrite collapse_empty_pair by (destruct m; discriminate). rewrite IH by lia.
  replace (S (S m) + 1)%nat with ((m + 1) + 1 * 2)%nat by lia.
  rewrite Nat.div_add, (Nat.add_1_r ((m + 1) / 2)) by lia. reflexivity.
Qed.

Lemma collapse_blank_run p q n :
  q <> [] -> collapse (p :: repeat [] n ++ [q]) = p :: repeat [] (n / 2) ++ [q].
Proof.
  intros Hq. destruct n as [|n]; [cbn [repeat app]; now rewrite collapse_cons_full|].
  cbn [repeat app]. rewrite collapse_empty_pair by (destruct n; discriminate).
  rewrite collapse_empties by exact Hq. now replace (S n / 2)%nat with ((n + 1) / 2)%nat by (f_equal; lia).
Qed.

Lemma join_blank_run p q k : join nn (p :: repeat [] k ++ [q]) = p ++ mjoin (repeat nn (S k)) ++ q.
Proof.
  revert p. induction k as [|k IH]; intros p; [reflexivity|].
  cbn [repeat app]. rewrite join_cons_cons, IH. cbn [repeat mjoin list_join]. now rewrite <- !app_assoc.
Qed.

Lemma blank_blocks_paragraphs es :
  Forall (fun e => clean_section e = []) es -> concat (map block_paragraphs es) = repeat [] (length es).
Proof. induction 1 as [|e es He _ IH]; [reflexivity|]. cbn. now rewrite blank_paragraphs, IH. Qed.

(** The body renders the paragraph model. *)
Lemma article_copy_render article_sections :
  article_copy article_sections = join nn (article_paragraphs article_sections).
Proof.
  unfold article_copy, article_paragraphs.
  rewrite (map_ext _ _ clean_section_paragraphs), <- map_map, join_concat.
  - apply replace_nnnn_join. apply Forall_concat, Forall_map, Forall_forall.
    intros s _. eapply Forall_impl; [apply block_paragraphs_plain|]. apply plain_no_nl.
  - apply Forall_map, Forall_forall. intros s _. apply block_paragraphs_not_nil.
Qed.

(** ** Theorems *)

(** C1: equivalence: the string surgery of lines 64-68 renders the
    paragraph model: the article body is the article's paragraph list
    joined with blank lines. *)
Theorem article_copy_paragraphs article_sections :
  article_copy article_sections = join nn (article_paragraphs article_sections).
Proof. apply article_copy_render. Qed.

(** invariant: no paragraph of the article body holds a line break, a
    ['\r'] marker or a non-breaking space, so every line break of the body
    belongs to a paragraph break. *)
Theorem article_paragraphs_plain article_sections :
  Forall (Forall plain) (article_paragraphs article_sections).
Proof.
  apply collapse_Forall, Forall_concat, Forall_map, Forall_forall.
  intros s _. apply block_paragraphs_plain.
Qed.

(** C27: on clean blocks (no emphasis marker, no line break, no
    non-breaking space) none of which strips to nothing, reconstruction
    is the identity up to stripping each block (spec section 8). *)
Theorem article_copy_clean article_sections :
  Forall (fun s => Forall plain s /\ strip s <> []) article_sections ->
  article_copy article_sections = join nn (map strip article_sections).
Proof.
  intros H. rewrite article_copy_render. unfold article_paragraphs. f_equal.
  rewrite clean_blocks_paragraphs by exact H. apply collapse_id, Forall_map.
  eapply Forall_impl; [exact H|]. intros s [_ Hs]. exact Hs.
Qed.

Lemma article_copy_clean_witness :
  let ss := [lit " First block. "; lit "Second block."] in
  Forall (fun s => Forall plain s /\ strip s <> []) ss /\
  article_copy ss = join nn (map strip ss).
Proof.
  intros ss. assert (H : Forall (fun s => Forall plain s /\ strip s <> []) ss).
  { repeat constructor; unfold plain; try discriminate. }
  split; [exact H|]. exact (article_copy_clean ss H).
Defined.

(** C28: spec divergence (section 8): an emphasis span inside a block
    (the two markers line 56 puts around [<i>...</i>]) becomes a
    paragraph of its own, with the spaces next to it kept: the block
    [a <i>b</i> c] gives the paragraphs [a], [b] and [c], not one. *)
Theorem article_copy_emphasis a b c ss :
  Forall plain a -> Forall plain b -> Forall plain c ->
  all_space a = false -> b <> [] -> all_space c = false ->
  Forall (fun s => Forall plain s /\ strip s <> []) ss ->
  article_copy ((a ++ [cr] ++ b ++ [cr] ++ c) :: ss) = join nn (lstrip a :: b :: rstrip c :: map strip ss).
Proof.
  intros Ha Hb Hc Ha' Hb' Hc' Hss. rewrite article_copy_render. unfold article_paragraphs. f_equal.
  cbn [map concat]. rewrite block_paragraphs_emphasis, clean_blocks_paragraphs by assumption.
  apply collapse_id. repeat constructor; [now apply lstrip_not_nil|exact Hb'|now apply rstrip_not_nil|].
  apply Forall_map. eapply Forall_impl; [exact Hss|]. intros s [_ Hs]. exact Hs.
Qed.

Lemma article_copy_emphasis_witness :
  article_copy [lit "Intro " ++ [cr] ++ lit "note" ++ [cr] ++ lit " text."; lit "Second block."] =
  join nn [lit "Intro "; lit "note"; lit " text."; lit "Second block."].
Proof.
  apply (article_copy_emphasis (lit "Intro ") (lit "note") (lit " text.") [lit "Second block."]);
    try reflexivity; try discriminate; repeat constructor; unfold plain; try discriminate.
Defined.

(** C30: spec divergence (section 8, "no quadruple line breaks"): [n]
    blocks that clean to nothing between two clean blocks leave
    [1 + n / 2] blank-line breaks between them, since the single
    [replace("\n\n\n\n", "\n\n")] pass only halves the run; two or more
    such blocks leave a quadruple line break in the body. *)
Theorem article_copy_blank_run x y es :
  Forall plain x -> strip x <> [] -> Forall plain y -> strip y <> [] ->
  Forall (fun e => clean_section e = []) es ->
  article_copy (x :: es ++ [y]) = strip x ++ mjoin (repeat nn (S (length es / 2))) ++ strip y.
Proof.
  intros Hx Hx' Hy Hy' Hes. rewrite article_copy_render. unfold article_paragraphs.
  cbn [map concat]. rewrite map_app, concat_app, blank_blocks_paragraphs by exact Hes.
  cbn [map concat app]. rewrite (block_paragraphs_plain_block x), (block_paragraphs_plain_block y) by assumption.
  cbn [app]. rewrite ?app_nil_r, collapse_blank_run by exact Hy'. apply join_blank_run.
Qed.

Lemma article_copy_blank_run_witness :
  article_copy (lit "Intro." :: [[nbsp]; [nbsp]] ++ [lit "End."]) = lit "Intro." ++ nnnn ++ lit "End.".
Proof.
  apply (article_copy_blank_run (lit "Intro.") (lit "End.") [[nbsp]; [nbsp]]);
    try discriminate; repeat constructor; unfold plain; try discriminate.
Defined.

End Text.
