(* ===== verification/Date.v ===== *)
(** * The review date ([parse_review], lines 60 and 91-92)

    [datetime.datetime.strptime(dateline, "%B %d, %Y").strftime("%Y-%m-%d")].
    CPython's [_strptime] turns the format into the regular expression
    [(?P<B>september|february|...|may)\s+(?P<d>3[01]|[12]\d|0[1-9]|[1-9]| [1-9]),\s+(?P<Y>\d\d\d\d)]
    (month names longest first, compiled with IGNORECASE), takes the first
    match of [re.match], raises [ValueError] when nothing matches or when
    characters remain after the match, and lets [datetime] reject an
    impossible date.  The regular expression is modelled with a
    list-of-successes matcher, which enumerates the matches in the order a
    backtracking engine tries them.

    [strftime("%Y-%m-%d")] writes the year on four digits, as CPython does
    on every platform since 3.13 (older CPython on glibc wrote years below
    1000 without leading zeros; the site's years are four-digit anyway). *)

From S2P Require Import Prelude PyStr.
Import PyStr.

Module Date.

(** ** A backtracking matcher

    A match is the list of groups captured so far, the text consumed and
    the text left.  A matcher returns all matches in priority order; the
    engine's answer is the first. *)
Record mresult := MR { caps : list pystr; consumed : pystr; rest : pystr }.

Definition matcher := pystr -> list mresult.

(** One character of a class. *)
Definition m_char (p : ascii -> bool) : matcher := fun s =>
  match s with
  | c :: s' => if p c then [MR [] [c] s'] else []
  | [] => []
  end.

(** Concatenation: every match of [m2] after every match of [m1]. *)
Definition m_seq (m1 m2 : matcher) : matcher := fun s =>
  flat_map (fun r1 =>
    map (fun r2 => MR (caps r1 ++ caps r2) (consumed r1 ++ consumed r2) (rest r2))
        (m2 (rest r1)))
    (m1 s).

(** Alternation, tried left to right. *)
Definition m_alt (ms : list matcher) : matcher := fun s => flat_map (fun m => m s) ms.

(** A named group records the text its matcher consumed. *)
Definition m_group (m : matcher) : matcher := fun s =>
  map (fun r => MR (caps r ++ [consumed r]) (consumed r) (rest r)) (m s).

(** [\s+], greedy: the longest run of white space first. *)
Fixpoint space_run (s : pystr) : nat :=
  match s with
  | c :: s' => if is_space c then S (space_run s') else 0
  | [] => 0
  end.

Definition m_spaces1 : matcher := fun s =>
  map (fun k => MR [] (take k s) (drop k s)) (reverse (seq 1 (space_run s))).

(** IGNORECASE on Latin-1: only the ASCII letters have another case. *)
Definition lower (c : ascii) : ascii :=
  let n := nat_of_ascii c in
  if (65 <=? n) && (n <=? 90) then ascii_of_nat (n + 32) else c.

Definition ci_eq (c d : ascii) : bool := bool_decide (lower c = lower d).

Fixpoint m_word (w : pystr) : matcher :=
  match w with
  | [] => fun s => [MR [] [] s]
  | c :: w' => m_seq (m_char (ci_eq c)) (m_word w')
  end.

(** ** The format "%B %d, %Y" *)

(** [LocaleTime().f_month[1:]] in the C locale, lower case. *)
Definition f_month : list pystr :=
  map lit ["january"; "february"; "march"; "april"; "may"; "june"; "july";
           "august"; "september"; "october"; "november"; "december"]%string.

(** [__seqToRE]: the names sorted by decreasing length (a stable sort). *)
Definition month_alternatives : list pystr :=
  map lit ["september"; "february"; "november"; "december"; "january";
           "october"; "august"; "march"; "april"; "june"; "july"; "may"]%string.

Definition in_range (lo hi : nat) (c : ascii) : bool :=
  (lo <=? nat_of_ascii c) && (nat_of_ascii c <=? hi).

Definition is_char (d : ascii) (c : ascii) : bool := ci_eq d c.

(** [(?P<d>3[01]|[12]\d|0[1-9]|[1-9]| [1-9])] *)
Definition day_alt : matcher :=
  m_alt [m_seq (m_char (is_char "3")) (m_char (in_range 48 49));
         m_seq (m_char (in_range 49 50)) (m_char is_digit);
         m_seq (m_char (is_char "0")) (m_char (in_range 49 57));
         m_char (in_range 49 57);
         m_seq (m_char (is_char " ")) (m_char (in_range 49 57))].

(** [(?P<Y>\d\d\d\d)] *)
Definition year_digits : matcher :=
  m_seq (m_char is_digit) (m_seq (m_char is_digit) (m_seq (m_char is_digit) (m_char is_digit))).

Definition month_group : matcher := m_group (m_alt (map m_word month_alternatives)).
Definition day_group : matcher := m_group day_alt.
Definition year_group : matcher := m_group year_digits.

(** The whole pattern; the format's space and ", " become [\s+] and [,\s+]. *)
Definition date_regex : matcher :=
  m_seq month_group (m_seq m_spaces1 (m_seq day_group
    (m_seq (m_char (is_char ",")) (m_seq m_spaces1 year_group)))).

(** [int()] of a captured group: its digits (the group of the last day
    alternative starts with a space, which [int] skips). *)
Definition group_int (s : pystr) : Z :=
  fold_left (fun acc c => if is_digit c then 10 * acc + digit_val c else acc)%Z s 0%Z.

(** The index of a month name in [f_month], 1-based. *)
Fixpoint index_of (x : pystr) (l : list pystr) (i : Z) : Z :=
  match l with
  | [] => 0
  | y :: l' => if bool_decide (x = y) then i else index_of x l' (i + 1)
  end.

(** ** Calendar *)

Local Open Scope Z_scope.

Definition is_leap (y : Z) : bool :=
  (y mod 4 =? 0) && (negb (y mod 100 =? 0) || (y mod 400 =? 0)).

Definition days_in_month (y m : Z) : Z :=
  match m with
  | 2 => if is_leap y then 29 else 28
  | 4 | 6 | 9 | 11 => 30
  | _ => 31
  end.

(** [datetime.date(y, m, d)] accepts [MINYEAR <= y <= MAXYEAR], a month and
    a day of that month. *)
Definition valid_date (y m d : Z) : bool :=
  (1 <=? y) && (y <=? 9999) && (1 <=? m) && (m <=? 12) &&
  (1 <=? d) && (d <=? days_in_month y m).

(** [time.strptime]'s parse of [s] under "%B %d, %Y". *)
Definition strptime (s : pystr) : res (Z * Z * Z) :=
  match date_regex s with
  | [] => Err ValueError                              (* no match *)
  | r :: _ =>
      match rest r, caps r with
      | [], [b; dd; yy] =>
          let y := group_int yy in
          let m := index_of (map lower b) f_month 1 in
          let d := group_int dd in
          if valid_date y m d then Ok (y, m, d) else Err ValueError
      | _, _ => Err ValueError                        (* unconverted data remains *)
      end
  end.

(** [%0wd]: [n] on [w] digits, zero-padded. *)
Fixpoint pad (w : nat) (n : Z) : pystr :=
  match w with
  | O => []
  | S w' => pad w' (n / 10) ++ [digit_char (n mod 10)]
  end.

(** [strftime("%Y-%m-%d")] (years written on four digits). *)
Definition strftime_iso (y m d : Z) : pystr :=
  pad 4 y ++ lit "-" ++ pad 2 m ++ lit "-" ++ pad 2 d.

(** Lines 60 and 92: the first text node of [.time] ([None] when there is
    none, which [strptime] refuses with [TypeError]), parsed and
    reformatted. *)
Definition reviewed_on (dateline : option pystr) : res pystr :=
  s ← (match dateline with Some s => Ok s | None => Err TypeError end);
  '(y, m, d) ← strptime s;
  Ok (strftime_iso y m d).

(** ISO 8601 calendar dates "YYYY-MM-DD" (spec section 3), read back. *)
Definition parse_iso (s : pystr) : option (Z * Z * Z) :=
  match s with
  | [y1; y2; y3; y4; h1; m1; m2; h2; d1; d2] =>
      if forallb is_digit [y1; y2; y3; y4] && forallb is_digit [m1; m2] &&
         forallb is_digit [d1; d2] && bool_decide (h1 = "-"%char) && bool_decide (h2 = "-"%char)
      then Some (group_int [y1; y2; y3; y4], group_int [m1; m2], group_int [d1; d2])
      else None
  | _ => None
  end.

(** The site's datelines: "April 5, 2002". *)
Definition month_title (m : Z) : pystr :=
  match m with
  | 1 => lit "January" | 2 => lit "February" | 3 => lit "March"
  | 4 => lit "April" | 5 => lit "May" | 6 => lit "June" | 7 => lit "July"
  | 8 => lit "August" | 9 => lit "September" | 10 => lit "October"
  | 11 => lit "November" | _ => lit "December"
  end.

Definition dateline_of (y m d : Z) : pystr :=
  month_title m ++ lit " " ++ str_int d ++ lit ", " ++ pad 4 y.

(** A matcher is sound when each match splits its input into the consumed
    text and the rest. *)
Definition sound (m : matcher) : Prop :=
  forall s r, In r (m s) -> s = consumed r ++ rest r.

(** What the pattern consumes ends with the last digit of the year. *)
Definition ends_digit (t : pystr) : Prop := exists p c, t = p ++ [c] /\ is_digit c = true.

(** ** Lemmas: the matcher *)

Definition mjoin_r (r1 r2 : mresult) : mresult :=
  MR (caps r1 ++ caps r2) (consumed r1 ++ consumed r2) (rest r2).

Lemma m_seq_first m1 m2 s r1 rs :
  m1 s = r1 :: rs -> Forall (fun r => m2 (rest r) = []) rs ->
  m_seq m1 m2 s = map (mjoin_r r1) (m2 (rest r1)).
Proof.
  intros H1 Hrs. unfold m_seq. rewrite H1. cbn [flat_map]. unfold mjoin_r. clear H1.
  induction Hrs as [|r rs' Hr _ IH]; cbn [flat_map]; [now rewrite app_nil_r|].
  rewrite Hr. cbn [map app]. exact IH.
Qed.

Lemma m_seq_single m1 m2 s r1 :
  m1 s = [r1] -> m_seq m1 m2 s = map (mjoin_r r1) (m2 (rest r1)).
Proof. intros H. apply (m_seq_first _ _ _ _ [] H). constructor. Qed.

Lemma m_seq_fail m1 m2 s : m1 s = [] -> m_seq m1 m2 s = [].
Proof. intros H. unfold m_seq. now rewrite H. Qed.

(** ** Lemmas: digits *)

Lemma digit_char_digit k : 0 <= k < 10 -> is_digit (digit_char k) = true.
Proof. intros Hk. z_cases k; reflexivity. Qed.

Lemma digit_char_val k : 0 <= k < 10 -> digit_val (digit_char k) = k.
Proof. intros Hk. z_cases k; reflexivity. Qed.

Lemma digit_not_space c : is_digit c = true -> is_space c = false.
Proof.
  unfold is_digit, is_space. intros [H1 H2]%andb_prop.
  apply Nat.leb_le in H1, H2. repeat (apply orb_false_intro); apply Bool.not_true_iff_false;
    rewrite ?andb_true_iff, ?Nat.leb_le, ?Nat.eqb_eq; lia.
Qed.

Lemma group_int_snoc l c :
  is_digit c = true -> group_int (l ++ [c]) = 10 * group_int l + digit_val c.
Proof. intros Hc. unfold group_int. now rewrite fold_left_app; simpl; rewrite Hc. Qed.

Lemma mod10_bound n : 0 <= n mod 10 < 10.
Proof. apply Z.mod_pos_bound. lia. Qed.

Lemma pad_length w n : length (pad w n) = w.
Proof.
  revert n; induction w; intros n; cbn [pad]; [reflexivity|].
  rewrite length_app, IHw. simpl. lia.
Qed.

Lemma pad_digits w n : Forall (fun c => is_digit c = true) (pad w n).
Proof.
  revert n; induction w as [|w IH]; intros n; cbn [pad]; [constructor|].
  apply Forall_app; split; [apply IH|]. constructor; [|constructor].
  apply digit_char_digit, mod10_bound.
Qed.

Lemma group_int_pad w n : 0 <= n < 10 ^ Z.of_nat w -> group_int (pad w n) = n.
Proof.
  revert n; induction w as [|w IH]; intros n Hn; cbn [pad]; [simpl in *; unfold group_int; simpl; lia|].
  rewrite Nat2Z.inj_succ, Z.pow_succ_r in Hn by lia.
  rewrite group_int_snoc by apply digit_char_digit, mod10_bound.
  rewrite IH.
  - rewrite digit_char_val by apply mod10_bound. pose proof (Z.div_mod n 10). lia.
  - split; [apply Z.div_pos; lia|]. apply Z.div_lt_upper_bound; lia.
Qed.

(** ** Lemmas: the segments of a dateline *)

Lemma valid_date_bounds y m d :
  valid_date y m d = true -> 1 <= y <= 9999 /\ 1 <= m <= 12 /\ 1 <= d <= 31.
Proof.
  unfold valid_date. rewrite !andb_true_iff, !Z.leb_le. intros (((((? & ?) & ?) & ?) & ?) & Hd).
  assert (days_in_month y m <= 31) by (unfold days_in_month; repeat case_match; lia).
  lia.
Qed.

Lemma month_group_title m t :
  1 <= m <= 12 -> month_group (month_title m ++ t) = [MR [month_title m] (month_title m) t].
Proof. intros Hm. z_cases m; reflexivity. Qed.

Lemma m_spaces1_one c t :
  is_space c = true -> space_run t = O -> m_spaces1 (c :: t) = [MR [] [c] t].
Proof. intros Hc Ht. unfold m_spaces1. simpl. now rewrite Hc, Ht. Qed.

Lemma space_run_digit c t : is_digit c = true -> space_run (c :: t) = O.
Proof. intros Hc. simpl. now rewrite digit_not_space. Qed.

Lemma str_int_day d t :
  1 <= d <= 31 -> exists c u, str_int d ++ t = c :: u /\ is_digit c = true.
Proof. intros Hd. z_cases d; do 2 eexists; split; reflexivity. Qed.

Lemma day_group_str d t :
  1 <= d <= 31 ->
  exists rs, day_group (str_int d ++ ","%char :: t) = MR [str_int d] (str_int d) (","%char :: t) :: rs /\
             Forall (fun r => exists c u, rest r = c :: u /\ is_digit c = true) rs.
Proof. intros Hd. z_cases d; (eexists; split; [reflexivity|]; repeat econstructor). Qed.

Lemma lower_digit c : is_digit c = true -> lower c = c.
Proof.
  unfold is_digit, lower. intros [H1 H2]%andb_prop. apply Nat.leb_le in H1, H2.
  destruct (_ && _) eqn:E; [|reflexivity].
  apply andb_prop in E as [E _]. apply Nat.leb_le in E. lia.
Qed.

Lemma comma_after_digit K c u :
  is_digit c = true -> m_seq (m_char (is_char ",")) K (c :: u) = [].
Proof.
  intros Hc. apply m_seq_fail. cbn [m_char]. unfold is_char, ci_eq.
  rewrite (lower_digit c Hc), bool_decide_false; [reflexivity|].
  intros <-. discriminate Hc.
Qed.

Lemma comma_single t :
  m_char (is_char ",") (","%char :: t) = [MR [] [","%char] t].
Proof. reflexivity. Qed.

Lemma year_group_digits l :
  length l = 4%nat -> Forall (fun c => is_digit c = true) l -> year_group l = [MR [l] l []].
Proof.
  intros Hl Hd. destruct l as [|a [|b [|c [|e [|]]]]]; try discriminate.
  inversion Hd as [|? ? Ha Hd1]; inversion Hd1 as [|? ? Hb Hd2];
    inversion Hd2 as [|? ? Hc Hd3]; inversion Hd3 as [|? ? He _]; subst.
  unfold year_group, m_group, year_digits, m_seq. cbn [m_char].
  rewrite Ha; simpl; rewrite Hb; simpl; rewrite Hc; simpl; now rewrite He.
Qed.

Lemma year_part y :
  m_seq m_spaces1 year_group (" "%char :: pad 4 y) = [MR [pad 4 y] (" "%char :: pad 4 y) []].
Proof.
  pose proof (pad_digits 4 y) as Hd. pose proof (pad_length 4 y) as Hl.
  destruct (pad 4 y) as [|c u] eqn:E; [discriminate|].
  assert (Hc : is_digit c = true) by now inversion Hd.
  rewrite (m_seq_single _ _ _ _ (m_spaces1_one " "%char (c :: u) eq_refl (space_run_digit c u Hc))).
  simpl rest. rewrite year_group_digits by assumption. reflexivity.
Qed.

(** The pattern has exactly one match on a dateline of the site, which
    consumes it whole. *)
Lemma date_regex_dateline y m d :
  1 <= m <= 12 -> 1 <= d <= 31 ->
  date_regex (dateline_of y m d) =
  [MR [month_title m; str_int d; pad 4 y] (dateline_of y m d) []].
Proof.
  intros Hm Hd. unfold date_regex, dateline_of.
  rewrite (m_seq_single _ _ _ _ (month_group_title m _ Hm)). cbn [rest].
  change (lit " " ++ str_int d ++ lit ", " ++ pad 4 y)
    with (" "%char :: str_int d ++ ","%char :: " "%char :: pad 4 y).
  destruct (str_int_day d (","%char :: " "%char :: pad 4 y) Hd) as (c & u & Hcu & Hc).
  assert (Hsp : space_run (str_int d ++ ","%char :: " "%char :: pad 4 y) = O)
    by (rewrite Hcu; now apply space_run_digit).
  rewrite (m_seq_single _ _ _ _ (m_spaces1_one " "%char _ eq_refl Hsp)). cbn [rest].
  destruct (day_group_str d (" "%char :: pad 4 y) Hd) as (rs & Hday & Hrs).
  rewrite (m_seq_first _ _ _ _ _ Hday).
  2:{ eapply Forall_impl; [exact Hrs|]. intros r (c' & u' & -> & Hc').
      now apply comma_after_digit. }
  cbn [rest]. rewrite (m_seq_single _ _ _ _ (comma_single _)). cbn [rest].
  rewrite year_part. reflexivity.
Qed.

Lemma index_of_month m : 1 <= m <= 12 -> index_of (map lower (month_title m)) f_month 1 = m.
Proof. intros Hm. z_cases m; reflexivity. Qed.

Lemma group_int_str_int d : 1 <= d <= 31 -> group_int (str_int d) = d.
Proof. intros Hd. z_cases d; reflexivity. Qed.

Lemma strptime_dateline y m d :
  valid_date y m d = true -> strptime (dateline_of y m d) = Ok (y, m, d).
Proof.
  intros Hv. destruct (valid_date_bounds y m d Hv) as (Hy & Hm & Hd).
  unfold strptime. rewrite date_regex_dateline by assumption. cbn [rest caps].
  rewrite group_int_pad by (simpl; lia).
  rewrite index_of_month, group_int_str_int by assumption.
  now rewrite Hv.
Qed.

(** ** Lemmas: every match is a split of its input *)

Lemma m_seq_In m1 m2 s r :
  In r (m_seq m1 m2 s) <->
  exists r1 r2, In r1 (m1 s) /\ In r2 (m2 (rest r1)) /\ r = mjoin_r r1 r2.
Proof.
  unfold m_seq, mjoin_r. rewrite in_flat_map. split.
  - intros (r1 & H1 & H2). apply in_map_iff in H2 as (r2 & <- & H2). eauto.
  - intros (r1 & r2 & H1 & H2 & ->). exists r1. split; [exact H1|].
    apply in_map_iff. eauto.
Qed.

Lemma m_char_sound p : sound (m_char p).
Proof.
  intros [|c s] r; simpl; [tauto|]. destruct (p c); simpl; [|tauto].
  intros [<-|[]]. reflexivity.
Qed.

Lemma m_seq_sound m1 m2 : sound m1 -> sound m2 -> sound (m_seq m1 m2).
Proof.
  intros H1 H2 s r (r1 & r2 & Hr1 & Hr2 & ->)%m_seq_In. simpl.
  rewrite (H1 _ _ Hr1), (H2 _ _ Hr2) at 1. now rewrite app_assoc.
Qed.

Lemma m_alt_sound ms : Forall sound ms -> sound (m_alt ms).
Proof.
  intros Hms s r. unfold m_alt. rewrite in_flat_map. intros (m & Hm & Hr).
  rewrite Forall_forall in Hms. apply (Hms m); [now apply list_elem_of_In|exact Hr].
Qed.

Lemma m_group_sound m : sound m -> sound (m_group m).
Proof.
  intros H s r. unfold m_group. rewrite in_map_iff. intros (r' & <- & Hr). exact (H _ _ Hr).
Qed.

Lemma m_spaces1_sound : sound m_spaces1.
Proof.
  intros s r. unfold m_spaces1. rewrite in_map_iff. intros (k & <- & _).
  symmetry. apply take_drop.
Qed.

Lemma m_word_sound w : sound (m_word w).
Proof.
  induction w as [|c w IH]; simpl.
  - intros s r [<-|[]]. reflexivity.
  - apply m_seq_sound; [apply m_char_sound|exact IH].
Qed.

Lemma date_regex_sound : sound date_regex.
Proof.
  unfold date_regex, month_group, day_group, year_group, day_alt, year_digits.
  apply m_seq_sound.
  { apply m_group_sound, m_alt_sound, Forall_map, Forall_forall.
    intros w _. apply m_word_sound. }
  apply m_seq_sound; [apply m_spaces1_sound|].
  apply m_seq_sound.
  { apply m_group_sound, m_alt_sound.
    repeat constructor; repeat apply m_seq_sound; apply m_char_sound. }
  apply m_seq_sound; [apply m_char_sound|].
  apply m_seq_sound; [apply m_spaces1_sound|].
  apply m_group_sound. repeat apply m_seq_sound; apply m_char_sound.
Qed.

Lemma m_seq_ends m1 m2 :
  (forall s r, In r (m2 s) -> ends_digit (consumed r)) ->
  forall s r, In r (m_seq m1 m2 s) -> ends_digit (consumed r).
Proof.
  intros H2 s r (r1 & r2 & _ & Hr2 & ->)%m_seq_In. simpl.
  destruct (H2 _ _ Hr2) as (p & c & -> & Hc). exists (consumed r1 ++ p), c.
  split; [now rewrite app_assoc|exact Hc].
Qed.

Lemma year_group_ends s r : In r (year_group s) -> ends_digit (consumed r).
Proof.
  unfold year_group, m_group. rewrite in_map_iff. intros (r' & <- & Hr). simpl.
  unfold year_digits in Hr. revert s r' Hr.
  do 3 apply m_seq_ends. intros [|c s] r; simpl; [tauto|].
  destruct (is_digit c) eqn:Hc; simpl; [|tauto]. intros [<-|[]].
  exists [], c. now split.
Qed.

Lemma date_regex_ends s r : In r (date_regex s) -> ends_digit (consumed r).
Proof.
  unfold date_regex. revert s r. do 5 apply m_seq_ends. apply year_group_ends.
Qed.

(** ** Lemmas: the first character *)

Lemma lower_space c : is_space c = true -> lower c = c.
Proof.
  unfold lower. intros H. unfold is_space in H.
  destruct ((65 <=? nat_of_ascii c)%nat && (nat_of_ascii c <=? 90)%nat) eqn:E; [|reflexivity].
  exfalso.
  apply andb_prop in E as [E1 E2]. apply Nat.leb_le in E1, E2.
  repeat match type of H with (_ || _) = true => apply orb_prop in H as [H|H] end;
    rewrite ?andb_true_iff, ?Nat.leb_le, ?Nat.eqb_eq in H; lia.
Qed.

Lemma m_alt_nil ms s : Forall (fun m => m s = []) ms -> m_alt ms s = [].
Proof. unfold m_alt. induction 1 as [|m ms Hm _ IH]; simpl; [reflexivity|]. now rewrite Hm. Qed.

Lemma month_group_space c s : is_space c = true -> month_group (c :: s) = [].
Proof.
  intros Hc. unfold month_group, m_group. rewrite m_alt_nil; [reflexivity|].
  apply Forall_map. unfold month_alternatives.
  assert (Hw : Forall (fun w => exists x w', w = x :: w' /\ lower x = x /\ is_space x = false)
                 (map lit ["september"; "february"; "november"; "december"; "january";
                           "october"; "august"; "march"; "april"; "june"; "july"; "may"]%string))
    by (repeat constructor; do 2 eexists; repeat split).
  eapply Forall_impl; [exact Hw|]. intros w (x & w' & -> & Hx & Hsx).
  simpl. apply m_seq_fail. cbn [m_char]. unfold ci_eq.
  rewrite Hx, (lower_space c Hc), bool_decide_false; [reflexivity|].
  intros ->. congruence.
Qed.

(** ** Lemmas: what [strptime] accepts *)

Lemma strptime_Err s e : strptime s = Err e -> e = ValueError.
Proof. unfold strptime. repeat case_match; congruence. Qed.

Lemma strptime_Ok s y m d :
  strptime s = Ok (y, m, d) ->
  valid_date y m d = true /\ exists r rs, date_regex s = r :: rs /\ s = consumed r.
Proof.
  unfold strptime. destruct (date_regex s) as [|r rs] eqn:E; [discriminate|].
  destruct (rest r) eqn:Er; [|discriminate]. repeat case_match; try discriminate.
  intros [= <- <- <-]. split; [assumption|]. exists r, rs. split; [reflexivity|].
  rewrite (date_regex_sound s r) by (rewrite E; left; reflexivity). now rewrite Er, app_nil_r.
Qed.

Lemma strptime_ends s y m d : strptime s = Ok (y, m, d) -> ends_digit s.
Proof.
  intros H. destruct (strptime_Ok _ _ _ _ H) as (_ & r & rs & E & Hs).
  rewrite Hs. apply (date_regex_ends s). rewrite E. now left.
Qed.

Lemma strptime_space_first c s : is_space c = true -> strptime (c :: s) = Err ValueError.
Proof.
  intros Hc. unfold strptime, date_regex. rewrite m_seq_fail; [reflexivity|].
  now apply month_group_space.
Qed.

Lemma parse_iso_digits a b c e f g h i :
  Forall (fun x => is_digit x = true) [a; b; c; e; f; g; h; i] ->
  parse_iso [a; b; c; e; "-"%char; f; g; "-"%char; h; i] =
  Some (group_int [a; b; c; e], group_int [f; g], group_int [h; i]).
Proof.
  intros Hd. repeat (apply Forall_cons in Hd as [? Hd]).
  unfold parse_iso. simpl. repeat match goal with H : is_digit _ = true |- _ => rewrite H end.
  reflexivity.
Qed.

Lemma pad_shape w n : exists l, pad w n = l /\ length l = w /\ Forall (fun c => is_digit c = true) l.
Proof. exists (pad w n). split; [reflexivity|]. split; [apply pad_length|apply pad_digits]. Qed.

(** The formatted date reads back as the same date. *)
Lemma strftime_iso_parse y m d :
  0 <= y < 10000 -> 0 <= m < 100 -> 0 <= d < 100 ->
  parse_iso (strftime_iso y m d) = Some (y, m, d).
Proof.
  intros Hy Hm Hd.
  rewrite <- (group_int_pad 4 y), <- (group_int_pad 2 m), <- (group_int_pad 2 d) at 2
    by (simpl; lia).
  unfold strftime_iso.
  destruct (pad_shape 4 y) as ([|a [|b [|c [|e [|]]]]] & -> & Hl & Hyd); try discriminate.
  destruct (pad_shape 2 m) as ([|f [|g [|]]] & -> & Hl' & Hmd); try discriminate.
  destruct (pad_shape 2 d) as ([|h [|i [|]]] & -> & Hl'' & Hdd); try discriminate.
  apply parse_iso_digits.
  apply (Forall_app _ [a; b; c; e]). split; [exact Hyd|].
  apply (Forall_app _ [f; g]). split; assumption.
Qed.

Lemma reviewed_on_Ok x out :
  reviewed_on x = Ok out ->
  exists s y m d, x = Some s /\ strptime s = Ok (y, m, d) /\ out = strftime_iso y m d.
Proof.
  unfold reviewed_on. destruct x as [s|]; simpl; [|discriminate].
  destruct (strptime s) as [[[y m] d]|e] eqn:E; simpl; [|discriminate].
  intros [= <-]. eauto 7.
Qed.

(** The output is a valid ISO date. *)
Lemma reviewed_on_valid_iso x out :
  reviewed_on x = Ok out ->
  exists y m d, valid_date y m d = true /\ parse_iso out = Some (y, m, d).
Proof.
  intros (s & y & m & d & _ & Hs & ->)%reviewed_on_Ok.
  destruct (strptime_Ok _ _ _ _ Hs) as [Hv _]. exists y, m, d. split; [exact Hv|].
  destruct (valid_date_bounds _ _ _ Hv) as (? & ? & ?). apply strftime_iso_parse; lia.
Qed.

(** ** Theorems *)

(** C6: round trip: the site's dateline of any valid calendar date, e.g.
    "April 5, 2002", is turned into that date's ISO form, "2002-04-05". *)
Theorem reviewed_on_roundtrip y m d :
  valid_date y m d = true ->
  reviewed_on (Some (dateline_of y m d)) = Ok (strftime_iso y m d).
Proof. intros Hv. unfold reviewed_on. simpl. now rewrite strptime_dateline. Qed.

Lemma reviewed_on_roundtrip_witness :
  valid_date 2002 4 5 = true /\
  reviewed_on (Some (dateline_of 2002 4 5)) = Ok (strftime_iso 2002 4 5).
Proof.
  assert (Hv : valid_date 2002 4 5 = true) by reflexivity.
  split; [exact Hv|]. exact (reviewed_on_roundtrip 2002 4 5 Hv).
Defined.

(** C26: the date the code writes is always a valid calendar date in ISO
    form "YYYY-MM-DD" that reads back as the parsed date. *)
Theorem reviewed_on_iso x out :
  reviewed_on x = Ok out ->
  exists y m d, valid_date y m d = true /\ parse_iso out = Some (y, m, d).
Proof. apply reviewed_on_valid_iso. Qed.

Lemma reviewed_on_iso_witness :
  reviewed_on (Some (lit "April 5, 2002")) = Ok (lit "2002-04-05") /\
  exists y m d, valid_date y m d = true /\ parse_iso (lit "2002-04-05") = Some (y, m, d).
Proof.
  assert (H : reviewed_on (Some (lit "April 5, 2002")) = Ok (lit "2002-04-05")) by reflexivity.
  split; [exact H|]. exact (reviewed_on_iso _ _ H).
Defined.

(** C23: the code does not trim the dateline (the spec says it is the
    element's trimmed text): white space before or after it makes
    [strptime] raise [ValueError], so the review fails. *)
Theorem reviewed_on_untrimmed s c :
  is_space c = true ->
  reviewed_on (Some (c :: s)) = Err ValueError /\
  reviewed_on (Some (s ++ [c])) = Err ValueError.
Proof.
  intros Hc. unfold reviewed_on. simpl. rewrite strptime_space_first by exact Hc.
  split; [reflexivity|].
  destruct (strptime (s ++ [c])) as [[[y m] d]|e] eqn:E; simpl.
  - destruct (strptime_ends _ _ _ _ E) as (p & c' & Hp & Hc').
    apply app_inj_tail in Hp as [_ <-]. rewrite digit_not_space in Hc by exact Hc'.
    discriminate.
  - now rewrite (strptime_Err _ _ E).
Qed.

Lemma reviewed_on_untrimmed_witness :
  is_space nl = true /\
  reviewed_on (Some (nl :: lit "April 5, 2002")) = Err ValueError /\
  reviewed_on (Some (lit "April 5, 2002" ++ [nl])) = Err ValueError.
Proof.
  assert (H : is_space nl = true) by reflexivity.
  split; [exact H|]. exact (reviewed_on_untrimmed (lit "April 5, 2002") nl H).
Defined.

(** Examples (spec section 8): "April 5, 2002" gives "2002-04-05"
    (month names in any case, days with or without a leading zero); a
    dateline in another format, an impossible day and a missing dateline
    are errors ([ValueError], [ValueError], [TypeError]). *)
Example reviewed_on_examples :
  reviewed_on (Some (lit "April 5, 2002")) = Ok (lit "2002-04-05") /\
  reviewed_on (Some (lit "APRIL 05,  2002")) = Ok (lit "2002-04-05") /\
  reviewed_on (Some (lit "2002-04-05")) = Err ValueError /\
  reviewed_on (Some (lit "February 29, 1900")) = Err ValueError /\
  reviewed_on (Some (lit "February 29, 2000")) = Ok (lit "2000-02-29") /\
  reviewed_on None = Err TypeError.
Proof. repeat split; reflexivity. Qed.

End Date.
