(* ===== verification/Html.v ===== *)
(** * The document model and the queries of the spider

    The HTML parser (lxml behind Scrapy's selectors) is outside the
    development; what the code does is query the tree it builds.  A
    document is a tree of elements and text nodes; each query of
    [scrape.py] is a function on trees, in document order:
    - [response.css('.c')]: every element whose [class] holds the token [c]
      (cssselect's [contains(concat(' ', normalize-space(@class), ' '), ' c ')]);
    - [::text]: the text children of those elements;
    - [.xpath("string(.)")]: the text of an element and all its descendants;
    - [.xpath("span/i")]: the [i] children of the [span] children;
    - [//div[@data-jw-widget]]: the [div] elements with that attribute;
    - [//h5/a/@href]: the [href] of every [a] whose parent is an [h5].
    An example pins down the listing query on a fragment. *)

From S2P Require Import Prelude PyStr.
Import PyStr.

Module Html.

#[warning="-register-all"]
Inductive node :=
  | Text (s : pystr)
  | Elem (tag : pystr) (attrs : dict pystr) (kids : list node).

(** Induction with a hypothesis for every child. *)
Section NodeInd.
Variable P : node -> Prop.
Hypothesis HText : forall s, P (Text s).
Hypothesis HElem : forall tag attrs kids, Forall P kids -> P (Elem tag attrs kids).

Fixpoint node_ind' (t : node) : P t :=
  match t with
  | Text s => HText s
  | Elem tag attrs kids =>
      HElem tag attrs kids
        ((fix go (l : list node) : Forall P l :=
            match l with
            | [] => List.Forall_nil P
            | k :: l' => @List.Forall_cons _ P k l' (node_ind' k) (go l')
            end) kids)
  end.
End NodeInd.

(** ** Navigation *)

Definition attr_of (n : node) : dict pystr :=
  match n with Elem _ a _ => a | Text _ => [] end.

Definition is_elem (tag : pystr) (n : node) : bool :=
  match n with Elem t _ _ => bool_decide (t = tag) | Text _ => false end.

Definition has_attr (k : pystr) (n : node) : bool :=
  match dict_get (attr_of n) k with Ok _ => true | Err _ => false end.

(** The elements of a tree, the root first, in document order
    ([descendant-or-self::*]). *)
Fixpoint elements (t : node) : list node :=
  match t with
  | Text _ => []
  | Elem _ _ kids => t :: flat_map elements kids
  end.

(** Every node below the root with the tag of its parent, in document
    order. *)
Fixpoint child_pairs (t : node) : list (pystr * node) :=
  match t with
  | Text _ => []
  | Elem tag _ kids => flat_map (fun k => (tag, k) :: child_pairs k) kids
  end.

Definition children (n : node) : list node :=
  match n with Elem _ _ kids => kids | Text _ => [] end.

(** The XPath step [child::tag]. *)
Definition child_elems (tag : pystr) (n : node) : list node :=
  filter (fun k => is_elem tag k = true) (children n).

(** [text()] children. *)
Definition text_children (n : node) : list pystr :=
  omap (fun k => match k with Text s => Some s | Elem _ _ _ => None end) (children n).

(** XPath [string(.)]: all descendant text, in document order. *)
Fixpoint string_value (t : node) : pystr :=
  match t with
  | Text s => s
  | Elem _ _ kids => mjoin (map string_value kids)
  end.

(** ** Class selectors *)

(** XML white space, the separators of [normalize-space]. *)
Definition xml_space (c : ascii) : bool :=
  bool_decide (c = " "%char) || bool_decide (c = "009"%char) ||
  bool_decide (c = nl) || bool_decide (c = cr).

(** The tokens of a [class] attribute. *)
Fixpoint class_tokens_aux (s : pystr) (cur : pystr) : list pystr :=
  match s with
  | [] => if bool_decide (cur = []) then [] else [reverse cur]
  | c :: s' =>
      if xml_space c then (if bool_decide (cur = []) then [] else [reverse cur]) ++ class_tokens_aux s' []
      else class_tokens_aux s' (c :: cur)
  end.

Definition class_tokens (s : pystr) : list pystr := class_tokens_aux s [].

Definition has_class (c : pystr) (n : node) : bool :=
  match n with
  | Elem _ a _ =>
      match dict_get a (lit "class") with
      | Ok v => bool_decide (c ∈ class_tokens v)
      | Err _ => false
      end
  | Text _ => false
  end.

(** [response.css('.c')]. *)
Definition css_class (c : pystr) (doc : node) : list node :=
  filter (fun n => has_class c n = true) (elements doc).

(** [response.css('.c::text')]. *)
Definition css_text (c : pystr) (doc : node) : list pystr :=
  flat_map text_children (css_class c doc).

(** [SelectorList.xpath("span/i")]: per selected element, in order. *)
Definition xpath_span_i (sel : list node) : list node :=
  flat_map (fun e => flat_map (child_elems (lit "i")) (child_elems (lit "span") e)) sel.

(** [response.xpath('//div[@data-jw-widget]')]. *)
Definition xpath_div_with (k : pystr) (doc : node) : list node :=
  filter (fun n => is_elem (lit "div") n && has_attr k n = true) (elements doc).

(** [SelectorList.attrib]: the attributes of the first element, [{}] for
    an empty list. *)
Definition sel_attrib (sel : list node) : dict pystr :=
  match sel with n :: _ => attr_of n | [] => [] end.

(** [response.xpath('//h5/a/@href').getall()]. *)
Definition h5_links (doc : node) : list pystr :=
  omap (fun pn =>
          if bool_decide (pn.1 = lit "h5") && is_elem (lit "a") pn.2
          then match dict_get (attr_of pn.2) (lit "href") with Ok v => Some v | Err _ => None end
          else None)
       (child_pairs doc).

(** A heading of the listing with its anchor. *)
Definition heading (tag : String.string) (kids : list node) : node := Elem (lit tag) [] kids.

Definition anchor (href : option String.string) : node :=
  Elem (lit "a") (match href with Some h => [(lit "href", lit h)] | None => [] end) [Text (lit "t")].

(** ** Lemmas *)

(** Every pair below a tree has, as its first component, the tag of an
    element of the tree. *)
Lemma child_pairs_parent t pn : pn ∈ child_pairs t -> exists a kids, Elem pn.1 a kids ∈ elements t.
Proof.
  induction t as [s|tag a kids IH] using node_ind'; cbn; [intros Hp; apply not_elem_of_nil in Hp as []|].
  intros Hp. apply list_elem_of_In, in_flat_map in Hp as (k & Hk & Hp). destruct Hp as [<-|Hp].
  - exists a, kids. left.
  - rewrite Forall_forall in IH. destruct (IH k (proj2 (list_elem_of_In _ _) Hk) (proj2 (list_elem_of_In _ _) Hp))
      as (a' & kids' & He).
    exists a', kids'. right. apply list_elem_of_In, in_flat_map. exists k. split; [exact Hk|now apply list_elem_of_In].
Qed.

Lemma omap_all_None {A B} (f : A -> option B) l : (forall x, x ∈ l -> f x = None) -> omap f l = [].
Proof.
  induction l as [|x l IH]; intros H; [reflexivity|]. cbn. rewrite (H x (list_elem_of_here _ _)).
  apply IH. intros y Hy. apply H. now right.
Qed.

(** ** Theorems *)

(** C29: spec gap (section 4.1 takes the links "nested inside" the
    listing's heading): [//h5/a/@href] takes only anchors that are
    direct children of an [h5], so a heading whose anchors are all
    wrapped in other elements (and that holds no [h5] itself) yields no
    link, however many anchors with an [href] it holds. *)
Theorem h5_links_nested kids :
  Forall (fun k => is_elem (lit "a") k = false) kids ->
  Forall (fun k => Forall (fun n => is_elem (lit "h5") n = false) (elements k)) kids ->
  h5_links (Elem (lit "h5") [] kids) = [].
Proof.
  intros Ha Hh. unfold h5_links. apply omap_all_None. intros pn Hp.
  cbn [child_pairs] in Hp. apply list_elem_of_In, in_flat_map in Hp as (k & Hk%list_elem_of_In & Hp).
  destruct Hp as [<-|Hp%list_elem_of_In]; cbn [fst snd].
  - rewrite Forall_forall in Ha. now rewrite (Ha k Hk), andb_false_r.
  - destruct (child_pairs_parent k pn Hp) as (a & ks & He). rewrite Forall_forall in Hh.
    specialize (Hh k Hk). rewrite Forall_forall in Hh. specialize (Hh _ He). cbn in Hh.
    now rewrite Hh.
Qed.

Lemma h5_links_nested_witness :
  h5_links (heading "h5" [Elem (lit "span") [] [anchor (Some "/reviews/b")]]) = [].
Proof. apply h5_links_nested; repeat constructor. Defined.

End Html.
