(* ===== verification/Review.v ===== *)
(** * The review extractor ([RogerEbertSpider.parse_review], lines 45-104)

    One review page in, one item out, or an exception that makes Scrapy
    drop the page.  The HTML parser that turns the page's text into a tree
    is a parameter [parse_html] of the section (lxml, outside the
    development); everything the code does with the text and the trees is
    modelled: the TMDB id of the JustWatch widget (lines 48-53), the
    insertion of the ['\r'] markers around [<i>] spans in the raw text
    (line 56), the queries of lines 59-73 on the re-parsed page, the
    rating ([Rating]), the article body ([Text]), the date ([Date]) and the
    item of lines 97-104.  [review_of] is the extraction from the two
    trees the code reads; [parse_review] parses the page into them. *)

From S2P Require Import Prelude PyStr Html Rating Text Date.
From Stdlib Require Import QArith.
Import PyStr Html Rating Text Date.

Module Review.

(** The item yielded at lines 97-104. *)
Record item := {
  tmdbID : option pystr;
  Title : pystr;
  Rating : option pynum;
  Review : pystr;
  WatchedDate : pystr;
  Tags : option pystr
}.

(** Lines 48-53: the id of the first JustWatch widget when its id type is
    ["tmdb"]; a widget without [data-id-type] (or a TMDB widget without
    [data-id]) raises [KeyError]. *)
Definition tmdb_id (doc : node) : res (option pystr) :=
  let justwatch_div := xpath_div_with (lit "data-jw-widget") doc in
  match justwatch_div with
  | [] => Ok None
  | _ :: _ =>
      id_type ← dict_get (sel_attrib justwatch_div) (lit "data-id-type");
      if bool_decide (id_type = lit "tmdb") then
        tmdb ← dict_get (sel_attrib justwatch_div) (lit "data-id");
        Ok (Some tmdb)
      else Ok None
  end.

(** Line 56: [response.text.replace('<i>', '\r<i>').replace('</i>', "</i>\r")]. *)
Definition inject_markers (body : pystr) : pystr :=
  replace (lit "</i>") (lit "</i>" ++ [cr]) (replace (lit "<i>") ([cr] ++ lit "<i>") body).

(** Lines 48-104 on the two trees the code reads: [page] is the page as
    downloaded (the widget query of lines 49-53), [doc] the page parsed
    again after the markers of line 56 (every query from line 59 on). *)
Definition review_of (page doc : node) : res item :=
  tmdb ← tmdb_id page;
  movie_title ← deref (sel_get (css_text (lit "cast-and-crew--movie-title") doc));
  let dateline := sel_get (css_text (lit "time") doc) in
  article_title ← deref (sel_get (css_text (lit "page-content--title") doc));
  let article_sections :=
    map string_value (css_class (lit "page-content--block_editor-content") doc) in
  let copy := article_copy article_sections in
  let is_great_movie := css_class (lit "gm-drop-cap") doc in
  let star_div := xpath_span_i (css_class (lit "page-content--star-rating") doc) in
  let rating := star_rating (map attr_of star_div) in
  reviewed ← reviewed_on dateline;
  Ok {| tmdbID := tmdb;
        Title := strip movie_title;
        Rating := rating;
        Review := review_text (strip article_title) copy;
        WatchedDate := reviewed;
        Tags := match is_great_movie with [] => None | _ => Some (lit "great movies") end |}.

(** ** Sample markup *)

(** A widget as the page embeds it. *)
Definition jw_widget (attrs : list (String.string * String.string)) : node :=
  Elem (lit "div") (map (fun kv => (lit kv.1, lit kv.2)) attrs) [].

Definition el (tag : String.string) (cls : String.string) (kids : list node) : node :=
  Elem (lit tag) [(lit "class", lit cls)] kids.

Definition star (t : String.string) : node := Elem (lit "i") (mk_icon t) [].

(** A page as the site renders it, after the markers of line 56: the
    widget, the titles, the dateline, three and a half stars, two blocks
    of text (the first with an emphasised note) and the "great movie" drop
    cap. *)
Definition sample_page : node :=
  Elem (lit "html") [] [
    jw_widget [("data-id-type", "tmdb"); ("data-id", "289"); ("data-jw-widget", "")];
    el "h1" "page-content--title" [Text (lit "A perfect film")];
    el "h3" "cast-and-crew--movie-title" [Text (lit " Casablanca ")];
    el "span" "time" [Text (lit "June 15, 1996")];
    el "div" "page-content--star-rating"
      [Elem (lit "span") [] [star "star-full"; star "star-full"; star "star-full"; star "star-half"]];
    el "div" "page-content--block_editor-content"
      [Text (lit "Intro "); Text [cr]; Elem (lit "i") [] [Text (lit "note")]; Text [cr];
       Text (lit " text.")];
    el "div" "page-content--block_editor-content" [Text (lit "Second block.")];
    el "span" "gm-drop-cap" [Text (lit "I")]].

Section ParseReview.

(** The page's parser: the tree lxml builds from a text. *)
Variable parse_html : pystr -> node.

(** Lines 45-104: the page is parsed as downloaded, and again after the
    markers of line 56. *)
Definition parse_review (body : pystr) : res item :=
  review_of (parse_html body) (parse_html (inject_markers body)).

(** What a yielded item satisfies: a positive half-star rating when there
    is one, a valid ISO date, the tag of the "great movies" or none, and a
    title without surrounding white space. *)
Definition item_wf (it : item) : Prop :=
  (forall r, Rating it = Some r -> (1 # 2 <= num_val r)%Q) /\
  (exists y m d, valid_date y m d = true /\ parse_iso (WatchedDate it) = Some (y, m, d)) /\
  (Tags it = None \/ Tags it = Some (lit "great movies")) /\
  strip (Title it) = Title it.

Lemma deref_Ok {A} (o : option A) a : deref o = Ok a -> o = Some a.
Proof. destruct o; simpl; congruence. Qed.

Lemma parse_review_item_wf body it :
  parse_review body = Ok it -> item_wf it.
Proof.
  unfold parse_review, review_of. intros H. res_inv. subst it.
  repeat split; simpl.
  - intros r Hr. now apply (star_rating_range _ r Hr).
  - eapply reviewed_on_valid_iso; eassumption.
  - destruct (css_class _ _); [left|right]; reflexivity.
  - apply strip_idem.
Qed.

(** C22: an extracted review is well formed ([item_wf]). *)
Theorem parse_review_wf body it :
  parse_review body = Ok it -> item_wf it.
Proof. apply parse_review_item_wf. Qed.

(** C7: exactly the structural failures of spec section 7, plus the
    widget's: a page gives an item if and only if its JustWatch widget (if
    any) is well formed, the re-parsed page has a movie title text, an
    article title text, and a dateline that [strptime] accepts. *)
Theorem parse_review_Ok_iff body :
  let doc := parse_html (inject_markers body) in
  (exists it, parse_review body = Ok it) <->
  (exists t, tmdb_id (parse_html body) = Ok t) /\
  css_text (lit "cast-and-crew--movie-title") doc <> [] /\
  css_text (lit "page-content--title") doc <> [] /\
  exists d, reviewed_on (sel_get (css_text (lit "time") doc)) = Ok d.
Proof.
  intros doc. unfold parse_review, review_of. fold doc. split.
  - intros [it H]. res_inv. repeat split; eauto.
    + apply deref_Ok in H0. unfold sel_get in H0. intros E. rewrite E in H0. discriminate.
    + apply deref_Ok in H1. unfold sel_get in H1. intros E. rewrite E in H1. discriminate.
  - intros ([t Ht] & Hm & Ha & [d Hd]). cbv zeta. rewrite Ht, Hd, res_bind_Ok.
    destruct (css_text (lit "cast-and-crew--movie-title") doc) as [|m ms]; [congruence|].
    destruct (css_text (lit "page-content--title") doc) as [|a as']; [congruence|].
    simpl. eauto.
Qed.

End ParseReview.

(** ** The JustWatch widget *)

(** The TMDB id comes from the first widget in document order, and
    only when its [data-id-type] is ["tmdb"]. *)
Theorem tmdb_id_Some doc v :
  tmdb_id doc = Ok (Some v) <->
  exists w ws, xpath_div_with (lit "data-jw-widget") doc = w :: ws /\
    dict_get (attr_of w) (lit "data-id-type") = Ok (lit "tmdb") /\
    dict_get (attr_of w) (lit "data-id") = Ok v.
Proof.
  unfold tmdb_id. cbv zeta.
  destruct (xpath_div_with (lit "data-jw-widget") doc) as [|w ws]; cbn [sel_attrib].
  - split; [intros; discriminate|]. intros (? & ? & [=] & _).
  - split.
    + destruct (dict_get (attr_of w) (lit "data-id-type")) as [t|e] eqn:Et; simpl; [|intros; discriminate].
      case_bool_decide; [subst|intros; discriminate].
      destruct (dict_get (attr_of w) (lit "data-id")) as [i|e] eqn:Ei; simpl; [|intros; discriminate].
      intros [= ->]. eauto.
    + intros (w' & ws' & [= <- <-] & Ht & Hi). rewrite Ht. simpl.
      rewrite ?bool_decide_true by reflexivity. now rewrite Hi.
Qed.

(** C24: spec divergence (section 4.2 says a missing marker is not an
    error): a widget that is present but has no [data-id-type], or a TMDB
    widget without [data-id], raises [KeyError], and the whole review page
    is lost. *)
Theorem tmdb_id_KeyError doc e :
  tmdb_id doc = Err e <->
  e = KeyError /\
  exists w ws, xpath_div_with (lit "data-jw-widget") doc = w :: ws /\
    (dict_get (attr_of w) (lit "data-id-type") = Err KeyError \/
     (dict_get (attr_of w) (lit "data-id-type") = Ok (lit "tmdb") /\
      dict_get (attr_of w) (lit "data-id") = Err KeyError)).
Proof.
  unfold tmdb_id. cbv zeta.
  destruct (xpath_div_with (lit "data-jw-widget") doc) as [|w ws]; cbn [sel_attrib].
  - split; [intros; discriminate|]. intros (_ & ? & ? & [=] & _).
  - split.
    + destruct (dict_get (attr_of w) (lit "data-id-type")) as [t|e'] eqn:Et; simpl.
      * case_bool_decide; [subst|intros; discriminate].
        destruct (dict_get (attr_of w) (lit "data-id")) as [i|e'] eqn:Ei; simpl; [intros; discriminate|].
        intros [= <-]. pose proof (dict_get_Err _ _ _ Ei) as ->. eauto 8.
      * intros [= <-]. pose proof (dict_get_Err _ _ _ Et) as ->. eauto 8.
    + intros (-> & w' & ws' & [= <- <-] & [Ht | [Ht Hi]]); rewrite Ht; simpl; [reflexivity|].
      rewrite ?bool_decide_true by reflexivity. now rewrite Hi.
Qed.

(** The examples of spec section 8: a [tmdb] widget with id 180383
    gives that id; an [imdb] widget or no widget gives none; a widget with
    no id type raises [KeyError]. *)
Example tmdb_id_examples :
  tmdb_id (Elem (lit "html") [] [jw_widget [("data-id-type", "tmdb"); ("data-id", "180383"); ("data-jw-widget", "")]])
    = Ok (Some (lit "180383")) /\
  tmdb_id (Elem (lit "html") [] [jw_widget [("data-id-type", "imdb"); ("data-id", "tt0034583"); ("data-jw-widget", "")]])
    = Ok None /\
  tmdb_id (Elem (lit "html") [] []) = Ok None /\
  tmdb_id (Elem (lit "html") [] [jw_widget [("data-id", "180383"); ("data-jw-widget", "")]])
    = Err KeyError.
Proof. repeat split; reflexivity. Qed.

(** ** The sample page *)

Lemma parse_review_wf_witness :
  exists it, parse_review (fun _ => sample_page) [] = Ok it /\ item_wf it.
Proof.
  eexists. split; [reflexivity|]. apply (parse_review_wf (fun _ => sample_page) []). reflexivity.
Defined.

(** The whole extractor on a page (spec sections 3 and 4): the TMDB
    id of the widget, the stripped movie title, 3.5 stars as a [float]
    (three full icons and a half), the article title in bold followed by
    the body, where the emphasised note is a paragraph of its own with
    the spaces around it kept, the ISO date, and the "great movies" tag. *)
Example parse_review_sample :
  parse_review (fun _ => sample_page) [] =
  Ok {| tmdbID := Some (lit "289");
        Title := lit "Casablanca";
        Rating := Some (PyFloat (7 # 2));
        Review := lit "<b>A perfect film</b>" ++ nn ++ lit "Intro " ++ nn ++ lit "note" ++ nn ++
                  lit " text." ++ nn ++ lit "Second block.";
        WatchedDate := lit "1996-06-15";
        Tags := Some (lit "great movies") |}.
Proof. vm_compute. reflexivity. Qed.

End Review.
