(* ===== verification/Markup.v ===== *)
(** * The emphasis markers of line 56, on the markup of a tree

    [parse_review] edits the raw page before parsing it again:
    [response.text.replace('<i>', '\r<i>').replace('</i>', "</i>\r")].
    The spec (design note 9) reads this as a textual stand-in for a
    structural edit: put a separator text node before and after every
    emphasis element.  This file makes the reading precise.  The markup of
    a tree is the rendering of its tokens (open tags with their
    attributes, close tags, escaped text); [inject_forest] is the
    structural edit; the main theorem says that on the markup of any
    well-formed forest the two passes of [str.replace] produce exactly the
    markup of the edited forest.  The edit differs from the spec's wording
    in one point: an [<i>] with attributes is not matched by ['<i>'], so
    it gets the separator after it but not the one before. *)

From S2P Require Import Prelude PyStr Html Review.
Import PyStr Html Review.

Module Markup.

Definition lt_c : ascii := "<"%char.
Definition gt_c : ascii := ">"%char.
Definition quot : ascii := "034"%char.

(** ** Markup *)

(** Characters of tag and attribute names: ASCII letters, digits, [-]. *)
Definition name_char (c : ascii) : bool :=
  let n := nat_of_ascii c in
  bool_decide (97 <= n <= 122)%nat || bool_decide (48 <= n <= 57)%nat || bool_decide (n = 45)%nat.

Definition name_ok (n : pystr) : bool := negb (bool_decide (n = [])) && forallb name_char n.

(** Escaping of text ([&], [<], [>]) and of attribute values (also the double quote). *)
Definition escape_char (attr : bool) (c : ascii) : pystr :=
  if bool_decide (c = "&"%char) then lit "&amp;"
  else if bool_decide (c = lt_c) then lit "&lt;"
  else if bool_decide (c = gt_c) then lit "&gt;"
  else if attr && bool_decide (c = quot) then lit "&quot;"
  else [c].

Definition escape (attr : bool) (s : pystr) : pystr := mjoin (map (escape_char attr) s).

Definition ser_attr (kv : pystr * pystr) : pystr :=
  " "%char :: kv.1 ++ "="%char :: quot :: escape true kv.2 ++ [quot].

Inductive token := TOpen (tag : pystr) (a : dict pystr) | TClose (tag : pystr) | TText (s : pystr).

Definition render (tk : token) : pystr :=
  match tk with
  | TOpen tag a => lt_c :: tag ++ mjoin (map ser_attr a) ++ [gt_c]
  | TClose tag => lt_c :: "/"%char :: tag ++ [gt_c]
  | TText s => escape false s
  end.

(** The tokens of a tree in document order. *)
Fixpoint tokens (t : node) : list token :=
  match t with
  | Text s => [TText s]
  | Elem tag a kids => TOpen tag a :: mjoin (map tokens kids) ++ [TClose tag]
  end.

Definition markup (ts : list node) : pystr := mjoin (map render (mjoin (map tokens ts))).

(** Well-formed trees: tag and attribute names are names. *)
Fixpoint wf (t : node) : bool :=
  match t with
  | Text _ => true
  | Elem tag a kids => name_ok tag && forallb (fun kv => name_ok kv.1) a && forallb wf kids
  end.

(** ** The structural edit *)

Definition is_i (t : node) : bool :=
  match t with Elem tag _ _ => bool_decide (tag = lit "i") | Text _ => false end.

(** A separator before an [<i>] element without attributes, and after
    every [<i>] element. *)
Definition around_i (t t' : node) : list node :=
  if is_i t then (if bool_decide (attr_of t = []) then [Text [cr]] else []) ++ [t'; Text [cr]]
  else [t'].

Fixpoint inject_tree (t : node) : node :=
  match t with
  | Text s => Text s
  | Elem tag a kids => Elem tag a (mjoin (map (fun k => around_i k (inject_tree k)) kids))
  end.

Definition inject_forest (ts : list node) : list node :=
  mjoin (map (fun k => around_i k (inject_tree k)) ts).

(** Tokens with well-formed names. *)
Definition tok_ok (tk : token) : bool :=
  match tk with
  | TOpen tag a => name_ok tag && forallb (fun kv => name_ok kv.1) a
  | TClose tag => name_ok tag
  | TText _ => true
  end.

(** The two patterns of line 56, as tokens render them. *)
Definition pat_open : pystr := lt_c :: lit "i" ++ [gt_c].
Definition pat_close : pystr := lt_c :: lit "/i" ++ [gt_c].

(** The edit of line 56 on tokens: a separator before ['<i>'], one after
    ['</i>']. *)
Definition mark_open (tk : token) : list token :=
  if bool_decide (render tk = pat_open) then [TText [cr]; tk] else [tk].

Definition mark_close (tk : token) : list token :=
  if bool_decide (render tk = pat_close) then [tk; TText [cr]] else [tk].

Definition mark (toks : list token) : list token :=
  mjoin (map mark_close (mjoin (map mark_open toks))).
Arguments mark : simpl never.

(** Characters that are not angle brackets. *)
Definition plain_c (c : ascii) : Prop := c <> lt_c /\ c <> gt_c.

(** A block of the article with an emphasised note. *)
Definition note_block : node :=
  Elem (lit "div") [(lit "class", lit "page-content--block_editor-content")]
    [Text (lit "Intro "); Elem (lit "i") [] [Text (lit "note")]; Text (lit " text.")].

(** ** Lemmas: the shape of rendered tokens *)

Ltac plain_lit := unfold lit, lt_c, gt_c, plain_c; cbn; repeat constructor; discriminate.

Lemma escape_char_plain b c : Forall plain_c (escape_char b c).
Proof.
  unfold escape_char. repeat (case_bool_decide; [plain_lit|]).
  destruct (b && _); [plain_lit|]. repeat constructor; assumption.
Qed.

Lemma escape_plain b s : Forall plain_c (escape b s).
Proof. apply Forall_join_map, Forall_forall. intros c _. apply escape_char_plain. Qed.

Lemma name_char_plain c : name_char c = true -> plain_c c.
Proof. intros H. split; intros ->; vm_compute in H; discriminate. Qed.

Lemma name_ok_plain n : name_ok n = true -> Forall plain_c n.
Proof.
  unfold name_ok. rewrite andb_true_iff, forallb_forall. intros [_ H].
  apply Forall_forall. intros c Hc. apply name_char_plain, H, list_elem_of_In, Hc.
Qed.

Lemma name_ok_cons n : name_ok n = true -> exists c n', n = c :: n' /\ name_char c = true.
Proof.
  destruct n as [|c n']; [discriminate|]. unfold name_ok. intros [_ H]%andb_true_iff.
  cbn in H. apply andb_true_iff in H as [H _]. eauto.
Qed.

(** A tag token is [<], a body without angle brackets, and [>]. *)
Lemma render_tag_shape tk :
  tok_ok tk = true -> (forall s, tk <> TText s) ->
  exists y, render tk = lt_c :: y ++ [gt_c] /\ Forall plain_c y.
Proof.
  destruct tk as [tag a|tag|s]; cbn [tok_ok render]; intros Hok Hn; [| |destruct (Hn s eq_refl)].
  - apply andb_true_iff in Hok as [Ht Ha]. exists (tag ++ mjoin (map ser_attr a)).
    rewrite <- app_assoc. split; [reflexivity|]. apply Forall_app. split; [now apply name_ok_plain|].
    apply Forall_join_map, Forall_forall. intros [k v] Hkv%list_elem_of_In.
    rewrite forallb_forall in Ha. specialize (Ha _ Hkv). cbn in Ha |- *.
    constructor; [plain_lit|]. apply Forall_app. split; [now apply name_ok_plain|].
    do 2 (constructor; [plain_lit|]). apply Forall_app. split; [apply escape_plain|].
    constructor; [plain_lit|constructor].
  - exists ("/"%char :: tag). split; [reflexivity|]. constructor; [plain_lit|now apply name_ok_plain].
Qed.

Lemma render_text_plain s : Forall plain_c (render (TText s)).
Proof. apply escape_plain. Qed.

Lemma not_plain_lt y : Forall plain_c y -> lt_c ∉ y.
Proof. intros Hy Hin. rewrite Forall_forall in Hy. now destruct (Hy _ Hin). Qed.

Lemma not_plain_gt y : Forall plain_c y -> gt_c ∉ y.
Proof. intros Hy Hin. rewrite Forall_forall in Hy. now destruct (Hy _ Hin). Qed.

(** One pass of [str.replace] for a tag pattern over rendered tokens:
    each token equal to the pattern is replaced, the others are copied. *)
Lemma markup_pass yp rep toks :
  Forall plain_c yp -> Forall (fun tk => tok_ok tk = true) toks ->
  replace_scan (lt_c :: yp ++ [gt_c]) rep 0 (mjoin (map render toks)) =
  mjoin (map (fun tk => if bool_decide (render tk = lt_c :: yp ++ [gt_c]) then rep else render tk) toks).
Proof.
  intros Hyp. induction 1 as [|tk toks Htk _ IH]; [reflexivity|]. rewrite !join_map_cons.
  assert (Hcase : (exists s, tk = TText s) \/ (forall s, tk <> TText s))
    by (destruct tk; [right; discriminate..|left; eauto]).
  destruct Hcase as [[s ->]|Hn].
  - rewrite bool_decide_false.
    + rewrite (replace_scan_app_l _ _ _ _ lt_c); [now rewrite IH|reflexivity|].
      apply not_plain_lt, render_text_plain.
    + intros E. apply (not_plain_lt _ (render_text_plain s)). rewrite E. left.
  - destruct (render_tag_shape tk Htk Hn) as (y & Hr & Hy).
    rewrite (replace_scan_token _ rep (render tk) _ lt_c gt_c yp y); auto using not_plain_lt, not_plain_gt.
    now rewrite IH.
Qed.

Lemma render_open_eq tag a :
  name_ok tag = true -> render (TOpen tag a) = pat_open <-> tag = lit "i" /\ a = [].
Proof.
  intros Hn. split; [|intros [-> ->]; reflexivity].
  cbn [render]. unfold pat_open. intros [= E]. rewrite app_assoc in E.
  apply (app_inj_tail _ ["i"%char]) in E as [E _].
  destruct (name_ok_cons tag Hn) as (c & n' & -> & _).
  destruct n' as [|c' n']; cbn in E; [|injection E as _ E'; destruct n'; discriminate].
  injection E as -> E. destruct a as [|kv a]; [auto|discriminate].
Qed.

Lemma render_close_eq tag : render (TClose tag) = pat_close <-> tag = lit "i".
Proof.
  split; [|intros ->; reflexivity]. cbn [render]. unfold pat_close. intros [= E].
  now apply (app_inj_tail _ ["i"%char]) in E as [-> _].
Qed.

Lemma render_open_not_close tag a : name_ok tag = true -> render (TOpen tag a) <> pat_close.
Proof.
  intros (c & n' & -> & Hc)%name_ok_cons. cbn [render]. unfold pat_close. intros [= -> _].
  discriminate.
Qed.

Lemma render_close_not_open tag : render (TClose tag) <> pat_open.
Proof. discriminate. Qed.

Lemma render_text_not_tag s y : render (TText s) <> lt_c :: y.
Proof. intros E. apply (not_plain_lt _ (render_text_plain s)). rewrite E. left. Qed.

Lemma render_mark_open tk :
  mjoin (map render (mark_open tk)) =
  if bool_decide (render tk = pat_open) then [cr] ++ pat_open else render tk.
Proof. unfold mark_open. case_bool_decide as E; cbn; rewrite ?app_nil_r; [now rewrite E|reflexivity]. Qed.

Lemma render_mark_close tk :
  mjoin (map render (mark_close tk)) =
  if bool_decide (render tk = pat_close) then pat_close ++ [cr] else render tk.
Proof. unfold mark_close. case_bool_decide as E; cbn; rewrite ?app_nil_r; [now rewrite E|reflexivity]. Qed.

Lemma mark_open_ok toks :
  Forall (fun tk => tok_ok tk = true) toks ->
  Forall (fun tk => tok_ok tk = true) (mjoin (map mark_open toks)).
Proof.
  intros H. apply Forall_join_map. eapply Forall_impl; [exact H|].
  intros tk Htk. unfold mark_open. case_bool_decide; repeat constructor; assumption.
Qed.

(** Line 56 on rendered tokens. *)
Lemma inject_markers_tokens toks :
  Forall (fun tk => tok_ok tk = true) toks ->
  inject_markers (mjoin (map render toks)) =
  mjoin (map render (mjoin (map mark_close (mjoin (map mark_open toks))))).
Proof.
  intros Hok. unfold inject_markers.
  rewrite !replace_nonempty by (unfold lit; discriminate).
  change (lit "<i>") with pat_open. change (lit "</i>") with pat_close.
  assert (E1 : replace_scan pat_open ([cr] ++ pat_open) 0 (mjoin (map render toks)) =
               mjoin (map render (mjoin (map mark_open toks)))).
  { unfold pat_open at 1. rewrite markup_pass by (auto; plain_lit). fold pat_open.
    rewrite join_map_assoc. apply join_map_Forall_ext, Forall_forall. intros.
    now rewrite render_mark_open. }
  rewrite E1. unfold pat_close at 1. rewrite markup_pass by (auto using mark_open_ok; plain_lit).
  fold pat_close. rewrite (join_map_assoc render mark_close).
  apply join_map_Forall_ext, Forall_forall. intros. now rewrite render_mark_close.
Qed.

(** ** Lemmas: the tokens of the edited tree *)

Lemma mark_app l1 l2 : mark (l1 ++ l2) = mark l1 ++ mark l2.
Proof. unfold mark. now rewrite !join_map_app. Qed.

Lemma mark_join {A} (f : A -> list token) l :
  mark (mjoin (map f l)) = mjoin (map (fun x => mark (f x)) l).
Proof. induction l as [|x l IH]; [reflexivity|]. rewrite !join_map_cons, mark_app, IH. reflexivity. Qed.

Lemma mark_one tk : mark [tk] = mjoin (map mark_close (mark_open tk)).
Proof. unfold mark. rewrite join_map_cons. simpl. now rewrite app_nil_r. Qed.

Lemma mark_text s : mark [TText s] = [TText s].
Proof.
  rewrite mark_one. unfold mark_open. rewrite bool_decide_false by apply render_text_not_tag.
  simpl. unfold mark_close. rewrite bool_decide_false by apply render_text_not_tag. reflexivity.
Qed.

Lemma mark_open_tag tag a :
  name_ok tag = true ->
  mark [TOpen tag a] = (if bool_decide (tag = lit "i" /\ a = []) then [TText [cr]] else []) ++ [TOpen tag a].
Proof.
  intros Hn. rewrite mark_one. unfold mark_open.
  assert (Hc : mark_close (TOpen tag a) = [TOpen tag a])
    by (unfold mark_close; now rewrite bool_decide_false by now apply render_open_not_close).
  assert (Ht : mark_close (TText [cr]) = [TText [cr]])
    by (unfold mark_close; now rewrite bool_decide_false by apply render_text_not_tag).
  destruct (decide (tag = lit "i" /\ a = [])) as [E|E].
  - rewrite (bool_decide_true (render (TOpen tag a) = pat_open)) by now apply render_open_eq.
    rewrite (bool_decide_true (_ /\ _)) by exact E. rewrite !join_map_cons, Ht, Hc. reflexivity.
  - rewrite (bool_decide_false (render (TOpen tag a) = pat_open)) by now rewrite render_open_eq.
    rewrite (bool_decide_false (_ /\ _)) by exact E. rewrite !join_map_cons, Hc. reflexivity.
Qed.

Lemma mark_close_tag tag :
  mark [TClose tag] = [TClose tag] ++ (if bool_decide (tag = lit "i") then [TText [cr]] else []).
Proof.
  rewrite mark_one. unfold mark_open. rewrite bool_decide_false by apply render_close_not_open.
  rewrite join_map_cons. unfold mark_close. destruct (decide (tag = lit "i")) as [E|E].
  - rewrite (bool_decide_true (render _ = pat_close)) by now apply render_close_eq.
    rewrite (bool_decide_true (tag = _)) by exact E. reflexivity.
  - rewrite (bool_decide_false (render _ = pat_close)) by now rewrite render_close_eq.
    rewrite (bool_decide_false (tag = _)) by exact E. reflexivity.
Qed.

Lemma wf_elem tag a kids :
  wf (Elem tag a kids) = true ->
  name_ok tag = true /\ forallb (fun kv => name_ok kv.1) a = true /\ Forall (fun k => wf k = true) kids.
Proof.
  cbn [wf]. intros [[Hn Ha]%andb_true_iff Hk]%andb_true_iff. split; [exact Hn|split; [exact Ha|]].
  apply Forall_forall. intros k Hk'. rewrite forallb_forall in Hk. apply Hk, list_elem_of_In, Hk'.
Qed.

Lemma tokens_ok t : wf t = true -> Forall (fun tk => tok_ok tk = true) (tokens t).
Proof.
  induction t as [s|tag a kids IH] using node_ind'; intros Hw; [repeat constructor|].
  apply wf_elem in Hw as (Hn & Ha & Hk). cbn [tokens].
  constructor; [cbn; now rewrite Hn, Ha|]. apply Forall_app. split; [|repeat constructor; exact Hn].
  apply Forall_join_map. rewrite Forall_forall in IH, Hk |- *. auto.
Qed.

(** The tokens of the edited tree are the marked tokens of the tree. *)
Lemma tokens_inject t :
  wf t = true -> mjoin (map tokens (around_i t (inject_tree t))) = mark (tokens t).
Proof.
  induction t as [s|tag a kids IH] using node_ind'; intros Hw.
  { unfold around_i. cbn [is_i inject_tree tokens]. now rewrite mark_text. }
  apply wf_elem in Hw as (Hn & _ & Hk).
  assert (Hin : tokens (inject_tree (Elem tag a kids)) =
                TOpen tag a :: mark (mjoin (map tokens kids)) ++ [TClose tag]).
  { cbn [inject_tree tokens]. rewrite join_map_assoc, mark_join. do 2 f_equal.
    apply join_map_Forall_ext. rewrite Forall_forall in IH, Hk |- *. auto. }
  cbn [tokens]. change (TOpen tag a :: ?l) with ([TOpen tag a] ++ l).
  rewrite !mark_app, mark_open_tag, mark_close_tag by exact Hn.
  unfold around_i. cbn [is_i attr_of]. case_bool_decide as Ei.
  - subst tag.
    destruct (decide (a = [])) as [->|Ea].
    + rewrite !bool_decide_true by auto. rewrite join_map_app, !join_map_cons, Hin. simpl.
      now rewrite <- !app_assoc.
    + rewrite !bool_decide_false by tauto. rewrite join_map_app, !join_map_cons, Hin. simpl.
      now rewrite <- !app_assoc.
  - rewrite !bool_decide_false by tauto. rewrite join_map_cons, Hin. simpl. now rewrite !app_nil_r.
Qed.

(** Line 56 on the markup of a forest. *)
Lemma markup_inject_markers ts :
  forallb wf ts = true -> inject_markers (markup ts) = markup (inject_forest ts).
Proof.
  intros Hw. rewrite forallb_forall in Hw. unfold markup, inject_forest.
  rewrite inject_markers_tokens.
  - change (mjoin (map mark_close (mjoin (map mark_open (mjoin (map tokens ts))))))
      with (mark (mjoin (map tokens ts))).
    rewrite mark_join, (join_map_assoc tokens). do 2 f_equal.
    symmetry. apply join_map_Forall_ext, Forall_forall. intros t Ht.
    apply tokens_inject, Hw, list_elem_of_In, Ht.
  - apply Forall_join_map, Forall_forall. intros t Ht. apply tokens_ok, Hw, list_elem_of_In, Ht.
Qed.

(** ** Theorems *)

(** C10: the textual edit of line 56 is the structural edit of design
    note 9: on the markup of any well-formed forest, the two passes of
    [str.replace] give exactly the markup of the forest where a separator
    ['\r'] is inserted before every attribute-less [<i>] element and after
    every [<i>] element. *)
Theorem inject_markers_markup ts :
  forallb wf ts = true -> inject_markers (markup ts) = markup (inject_forest ts).
Proof. apply markup_inject_markers. Qed.

Lemma inject_markers_markup_witness :
  forallb wf [note_block] = true /\
  inject_markers (markup [note_block]) = markup (inject_forest [note_block]).
Proof. split; [vm_compute; reflexivity | apply inject_markers_markup; vm_compute; reflexivity]. Defined.

End Markup.
