(* ===== verification/HtmlParse.v ===== *)
(** * The HTML parser behind the selectors, as an interface and a model

    [parse_review] reads its page twice through the HTML parser (lxml,
    behind Scrapy's selectors): as downloaded, and after the markers of
    line 56 have been written into the text.  What the extractor relies
    on is stated as a class [HtmlParser]: parsing the markup of a
    well-formed page rooted at [html] gives back the page, with adjacent
    text nodes merged into one and empty ones dropped ([canon]), as an
    HTML parser does; a fragment of elements (the listing's HTML) is
    put in an [html] and a [body], as lxml does.
    A model of the parser discharges it: a tokenizer written, as HTML's
    is, as a state machine over the characters (data, character
    reference, tag open, tag name, end tag name, before attribute name,
    attribute name, before attribute value, double-quoted attribute value
    and its character references, after attribute value), and a tree
    builder with a stack of open elements.  The tokenizer drops a
    repeated attribute, as HTML's does; the builder merges nothing (the
    tokenizer already emits maximal text runs).  Markup outside the
    syntax [Markup.render] produces (bare [<], unquoted attributes,
    mismatched close tags) is refused rather than repaired: the model is
    a parser for the markup of trees, which is what the theorems need.
    [parse] puts parsel's [create_root_node] in front of the model
    ([lxml_parse]): the text is stripped, its NUL characters deleted,
    and an empty result read as [<html/>]; on the markup of well-formed
    trees without NUL characters this changes nothing
    ([parse_markup]). *)

From S2P Require Import Prelude PyStr Html Review Markup.
Import PyStr Html Review Markup.

Module HtmlParse.

(** ** Documents up to text merging *)

(** A text node added in front of siblings: merged with a text node that
    follows, dropped when empty. *)
Definition push_text (s : pystr) (l : list node) : list node :=
  if bool_decide (s = []) then l
  else match l with Text s' :: l' => Text (s ++ s') :: l' | _ => Text s :: l end.

Fixpoint merge_texts (l : list node) : list node :=
  match l with
  | [] => []
  | Text s :: l' => push_text s (merge_texts l')
  | n :: l' => n :: merge_texts l'
  end.

(** The tree a parser builds from the markup of [t]. *)
Fixpoint canon (t : node) : node :=
  match t with
  | Text s => Text s
  | Elem tag a kids => Elem tag a (merge_texts (map canon kids))
  end.

(** Attribute names are distinct on every element. *)
Fixpoint attrs_distinct (t : node) : bool :=
  match t with
  | Text _ => true
  | Elem _ a kids => bool_decide (NoDup a.*1) && forallb attrs_distinct kids
  end.

(** parsel deletes the NUL characters of a text before lxml reads it. *)
Definition nul : ascii := "000"%char.

Definition no_nul (s : pystr) : bool := bool_decide (Forall (fun c => c <> nul) s).

(** No text and no attribute value holds a NUL character. *)
Fixpoint nul_free (t : node) : bool :=
  match t with
  | Text s => no_nul s
  | Elem _ a kids => forallb (fun kv => no_nul kv.2) a && forallb nul_free kids
  end.

Definition page_ok (t : node) : bool := wf t && (attrs_distinct t && nul_free t).

(** parsel's [create_root_node] hands lxml
    [text.strip().replace('\x00', '')], and [<html/>] when that is empty. *)
Definition root_text (s : pystr) : pystr := filter (fun c => c <> nul) (strip s).

(** ** The interface *)

(** Elements a fragment may have at its top: not the document's own
    [html], [head] and [body]. *)
Definition fragment_elem (t : node) : bool :=
  match t with
  | Elem tag _ _ => negb (bool_decide (tag ∈ map lit ["html"; "head"; "body"]%string))
  | Text _ => false
  end.

(** What the crawler assumes of the parser it is given: the markup of a
    page rooted at [html] is read back as the page; a fragment (elements
    only at its top, as the listing's HTML is) is put in a document's
    [html] and [body], as lxml does; a text that is nothing but white
    space and NUL characters is an empty [html], as parsel makes it. *)
Class HtmlParser := {
  parse_html : pystr -> node;
  parse_html_page a kids :
    page_ok (Elem (lit "html") a kids) = true ->
    parse_html (markup [Elem (lit "html") a kids]) = canon (Elem (lit "html") a kids);
  parse_html_fragment ts :
    ts <> [] -> forallb page_ok ts = true -> forallb fragment_elem ts = true ->
    parse_html (markup ts) = Elem (lit "html") [] [Elem (lit "body") [] (map canon ts)];
  parse_html_blank s :
    root_text s = [] -> parse_html s = Elem (lit "html") [] []
}.

(** ** The tokenizer *)

Definition amp : ascii := "&"%char.
Definition semi : ascii := ";"%char.
Definition space : ascii := " "%char.
Definition slash : ascii := "/"%char.
Definition eq_c : ascii := "="%char.

(** The states of the tokenizer; buffers hold their characters last
    first, the attributes of a tag likewise. *)
Inductive lstate :=
  | Data (acc : pystr)
  | CharRef (acc ref : pystr)
  | TagOpen
  | TagName (name : pystr)
  | EndTagName (name : pystr)
  | BeforeAttrName (tag : pystr) (attrs : dict pystr)
  | AttrName (tag : pystr) (attrs : dict pystr) (name : pystr)
  | BeforeAttrValue (tag : pystr) (attrs : dict pystr) (name : pystr)
  | AttrValue (tag : pystr) (attrs : dict pystr) (name v : pystr)
  | AttrValueRef (tag : pystr) (attrs : dict pystr) (name v ref : pystr)
  | AfterAttrValue (tag : pystr) (attrs : dict pystr).

(** The named character references the markup uses. *)
Definition char_refs : dict ascii :=
  [(lit "amp", amp); (lit "lt", lt_c); (lit "gt", gt_c); (lit "quot", quot)].

Definition decode_ref (ref : pystr) : option ascii :=
  match dict_get char_refs (reverse ref) with Ok c => Some c | Err _ => None end.

(** The text read so far, as a token. *)
Definition flush (acc : pystr) : list token :=
  if bool_decide (acc = []) then [] else [TText (reverse acc)].

(** A repeated attribute is dropped. *)
Definition add_attr (k v : pystr) (a : dict pystr) : dict pystr :=
  if bool_decide (k ∈ a.*1) then a else (k, v) :: a.

(** One character: the tokens emitted and the next state. *)
Definition lex_step (st : lstate) (c : ascii) : option (list token * lstate) :=
  match st with
  | Data acc =>
      if bool_decide (c = lt_c) then Some (flush acc, TagOpen)
      else if bool_decide (c = amp) then Some ([], CharRef acc [])
      else Some ([], Data (c :: acc))
  | CharRef acc ref =>
      if bool_decide (c = semi) then d ← decode_ref ref; Some ([], Data (d :: acc))
      else if name_char c then Some ([], CharRef acc (c :: ref)) else None
  | TagOpen =>
      if bool_decide (c = slash) then Some ([], EndTagName [])
      else if name_char c then Some ([], TagName [c]) else None
  | TagName n =>
      if bool_decide (c = gt_c) then Some ([TOpen (reverse n) []], Data [])
      else if bool_decide (c = space) then Some ([], BeforeAttrName (reverse n) [])
      else if name_char c then Some ([], TagName (c :: n)) else None
  | EndTagName n =>
      if bool_decide (c = gt_c) then Some ([TClose (reverse n)], Data [])
      else if name_char c then Some ([], EndTagName (c :: n)) else None
  | BeforeAttrName tag a =>
      if bool_decide (c = gt_c) then Some ([TOpen tag (reverse a)], Data [])
      else if bool_decide (c = space) then Some ([], BeforeAttrName tag a)
      else if name_char c then Some ([], AttrName tag a [c]) else None
  | AttrName tag a n =>
      if bool_decide (c = eq_c) then Some ([], BeforeAttrValue tag a (reverse n))
      else if name_char c then Some ([], AttrName tag a (c :: n)) else None
  | BeforeAttrValue tag a n =>
      if bool_decide (c = quot) then Some ([], AttrValue tag a n []) else None
  | AttrValue tag a n v =>
      if bool_decide (c = quot) then Some ([], AfterAttrValue tag (add_attr n (reverse v) a))
      else if bool_decide (c = amp) then Some ([], AttrValueRef tag a n v [])
      else Some ([], AttrValue tag a n (c :: v))
  | AttrValueRef tag a n v ref =>
      if bool_decide (c = semi) then d ← decode_ref ref; Some ([], AttrValue tag a n (d :: v))
      else if name_char c then Some ([], AttrValueRef tag a n v (c :: ref)) else None
  | AfterAttrValue tag a =>
      if bool_decide (c = gt_c) then Some ([TOpen tag (reverse a)], Data [])
      else if bool_decide (c = space) then Some ([], BeforeAttrName tag a) else None
  end.

(** The tokens of a text, from a state; the text may only end in the
    data state. *)
Fixpoint lex_from (st : lstate) (s : pystr) : option (list token) :=
  match s with
  | [] => match st with Data acc => Some (flush acc) | _ => None end
  | c :: s' => '(out, st') ← lex_step st c; toks ← lex_from st' s'; Some (out ++ toks)
  end.

Definition lex (s : pystr) : option (list token) := lex_from (Data []) s.

(** ** The tree builder *)

(** An open element: its tag, attributes and the children built so far,
    last first. *)
Record frame := Frame { fr_tag : pystr; fr_attrs : dict pystr; fr_kids : list node }.

Definition add_kid (n : node) (fr : frame) : frame :=
  Frame (fr_tag fr) (fr_attrs fr) (n :: fr_kids fr).

Definition close (fr : frame) : node := Elem (fr_tag fr) (fr_attrs fr) (reverse (fr_kids fr)).

(** The stack of open elements, the document at the bottom. *)
Fixpoint build (toks : list token) (stack : list frame) : option (list node) :=
  match toks, stack with
  | [], [root] => Some (reverse (fr_kids root))
  | TText s :: r, fr :: st => build r (add_kid (Text s) fr :: st)
  | TOpen tag a :: r, st => build r (Frame tag a [] :: st)
  | TClose tag :: r, fr :: p :: st =>
      if bool_decide (tag = fr_tag fr) then build r (add_kid (close fr) p :: st) else None
  | _, _ => None
  end.

Definition document : frame := Frame (lit "#document") [] [].

Definition parse_document (s : pystr) : option (list node) :=
  toks ← lex s; build toks [document].

(** lxml's document: a page rooted at [html] is its root; anything
    else that parses goes in an [html] and a [body]; a text that does not
    parse gives no root, for which parsel parses [<html/>], an empty
    [html]. *)
Definition lxml_parse (s : pystr) : node :=
  match parse_document s with
  | Some [Elem tag a kids] =>
      if bool_decide (tag = lit "html") then Elem tag a kids
      else Elem (lit "html") [] [Elem (lit "body") [] [Elem tag a kids]]
  | Some ts => Elem (lit "html") [] [Elem (lit "body") [] ts]
  | None => Elem (lit "html") [] []
  end.

(** The selector's root: the text as parsel hands it to lxml, an empty
    one read as [<html/>]. *)
Definition parse (s : pystr) : node :=
  if bool_decide (root_text s = []) then Elem (lit "html") [] [] else lxml_parse (root_text s).

(** ** Tokens up to text merging *)

Definition push_tok (s : pystr) (l : list token) : list token :=
  if bool_decide (s = []) then l
  else match l with TText s' :: l' => TText (s ++ s') :: l' | _ => TText s :: l end.

(** The tokens a tokenizer returns for the rendering of [l]: maximal
    non-empty text runs. *)
Fixpoint norm (l : list token) : list token :=
  match l with
  | [] => []
  | TText s :: l' => push_tok s (norm l')
  | tk :: l' => tk :: norm l'
  end.

Definition is_text (tk : token) : bool := match tk with TText _ => true | _ => false end.

(** Tokens the tokenizer reads back: names are names, attribute names
    are distinct. *)
Definition tok_fine (tk : token) : bool :=
  tok_ok tk && match tk with TOpen _ a => bool_decide (NoDup a.*1) | _ => true end.

Definition add_kids (ts : list node) (fr : frame) : frame :=
  Frame (fr_tag fr) (fr_attrs fr) (reverse ts ++ fr_kids fr).

(** ** Lemmas: text merging *)

Lemma push_tok_app s1 s2 l : push_tok s1 (push_tok s2 l) = push_tok (s1 ++ s2) l.
Proof.
  unfold push_tok. destruct (decide (s2 = [])) as [->|H2].
  - rewrite app_nil_r. rewrite (bool_decide_true ([] = [])) by done. reflexivity.
  - assert (H12 : s1 ++ s2 <> []) by (intros E; apply H2; now apply app_eq_nil in E as [_ ->]).
    rewrite (bool_decide_false (s2 = [])), (bool_decide_false (s1 ++ s2 = [])) by assumption.
    destruct (decide (s1 = [])) as [->|H1]; [now rewrite bool_decide_true|].
    rewrite bool_decide_false by exact H1. destruct l as [|[] l]; cbn; now rewrite ?app_assoc.
Qed.

Lemma push_tok_nontext s x tk y :
  is_text tk = false -> push_tok s (x ++ tk :: y) = push_tok s x ++ tk :: y.
Proof. intros Ht. unfold push_tok. case_bool_decide; [done|]. destruct x as [|[] x], tk; done. Qed.

Lemma norm_app_nontext l tk m :
  is_text tk = false -> norm (l ++ tk :: m) = norm l ++ tk :: norm m.
Proof.
  intros Ht. induction l as [|[] l IH]; cbn [app norm]; [destruct tk; done| | |].
  all: rewrite IH; try done; now apply push_tok_nontext.
Qed.

Lemma tokens_push_text s l :
  mjoin (map tokens (push_text s l)) = push_tok s (mjoin (map tokens l)).
Proof. unfold push_text, push_tok. case_bool_decide; [done|]. now destruct l as [|[] l]. Qed.

(** The tokens of the merged forest are the merged tokens. *)
Lemma tokens_canon_cons t ts :
  mjoin (map tokens (merge_texts (map canon ts))) = norm (mjoin (map tokens ts)) ->
  mjoin (map tokens (merge_texts (map canon (t :: ts)))) = norm (mjoin (map tokens (t :: ts))).
Proof.
  revert ts. induction t as [s|tag a kids IH] using node_ind'; intros ts Hts.
  - cbn [map canon merge_texts]. rewrite tokens_push_text, Hts. reflexivity.
  - assert (Hk : mjoin (map tokens (merge_texts (map canon kids))) = norm (mjoin (map tokens kids))).
    { induction IH as [|k kids Hk _ IHk]; [reflexivity|]. now apply Hk. }
    cbn [map merge_texts canon]. change (mjoin (?x :: ?l)) with (x ++ mjoin l). cbn [tokens].
    rewrite Hk, Hts. cbn [app norm]. rewrite <- !app_assoc. cbn [app]. now rewrite norm_app_nontext.
Qed.

Lemma tokens_canon ts :
  mjoin (map tokens (merge_texts (map canon ts))) = norm (mjoin (map tokens ts)).
Proof. induction ts as [|t ts IH]; [reflexivity|]. now apply tokens_canon_cons. Qed.

(** ** Lemmas: the tree builder *)

Lemma build_node t r fr st :
  build (tokens t ++ r) (fr :: st) = build r (add_kid t fr :: st).
Proof.
  revert r fr st. induction t as [s|tag a kids IH] using node_ind'; intros r fr st; [reflexivity|].
  assert (Hk : forall r fr st, build (mjoin (map tokens kids) ++ r) (fr :: st) = build r (add_kids kids fr :: st)).
  { induction IH as [|k kids Hk _ IHk]; intros r' fr' st'; [now destruct fr'|].
    rewrite join_map_cons, <- app_assoc, Hk, IHk. destruct fr'. unfold add_kids, add_kid. rewrite reverse_cons.
    cbn [fr_tag fr_attrs fr_kids]. now rewrite <- app_assoc. }
  cbn [tokens]. rewrite <- app_comm_cons, <- app_assoc. cbn [build]. rewrite Hk. cbn.
  rewrite bool_decide_true by reflexivity. unfold close, add_kids. cbn [fr_tag fr_attrs fr_kids].
  now rewrite app_nil_r, reverse_involutive.
Qed.

Lemma build_forest ts r fr st :
  build (mjoin (map tokens ts) ++ r) (fr :: st) = build r (add_kids ts fr :: st).
Proof.
  revert fr. induction ts as [|t ts IH]; intros fr; [now destruct fr|].
  rewrite join_map_cons, <- app_assoc, build_node, IH. destruct fr. unfold add_kids, add_kid. rewrite reverse_cons.
  cbn [fr_tag fr_attrs fr_kids]. now rewrite <- app_assoc.
Qed.

(** ** Lemmas: the tokenizer *)

Lemma lex_from_silent st c s st' :
  lex_step st c = Some ([], st') -> lex_from st (c :: s) = lex_from st' s.
Proof. intros H. cbn [lex_from]. rewrite H. cbn. now destruct (lex_from st' s). Qed.

Lemma lex_from_emit st c s out st' :
  lex_step st c = Some (out, st') -> lex_from st (c :: s) = (app out) <$> lex_from st' s.
Proof. intros H. cbn [lex_from]. now rewrite H. Qed.

Ltac lex_silent := repeat (erewrite lex_from_silent by reflexivity).

Lemma name_char_special c :
  name_char c = true ->
  c <> lt_c /\ c <> gt_c /\ c <> amp /\ c <> semi /\ c <> space /\ c <> slash /\ c <> eq_c /\ c <> quot.
Proof. intros H. repeat split; intros ->; discriminate H. Qed.

(** A run of name characters in a name state. *)
Section NameRun.
Variable f : pystr -> lstate.
Hypothesis Hf : forall n c, name_char c = true -> lex_step (f n) c = Some ([], f (c :: n)).

Lemma lex_name_run m n r :
  Forall (fun c => name_char c = true) m -> lex_from (f n) (m ++ r) = lex_from (f (reverse m ++ n)) r.
Proof.
  intros Hm. revert n. induction Hm as [|c m Hc _ IH]; intros n; [reflexivity|].
  cbn [app]. rewrite (lex_from_silent _ _ _ _ (Hf n c Hc)), IH. now rewrite reverse_cons, <- app_assoc.
Qed.
End NameRun.

Lemma name_ok_chars n : name_ok n = true -> Forall (fun c => name_char c = true) n.
Proof.
  unfold name_ok. rewrite andb_true_iff, forallb_forall. intros [_ H].
  apply Forall_forall. intros c Hc. apply H, list_elem_of_In, Hc.
Qed.

(** Escaped text in the data state, and escaped values in an attribute
    value, are read back character by character. *)
Lemma lex_text_char acc c s :
  lex_from (Data acc) (escape_char false c ++ s) = lex_from (Data (c :: acc)) s.
Proof.
  unfold escape_char. case_bool_decide as E1; [subst; unfold lit; cbn [String.list_ascii_of_string app]; now lex_silent|].
  case_bool_decide as E2; [subst; unfold lit; cbn [String.list_ascii_of_string app]; now lex_silent|].
  case_bool_decide as E3; [subst; unfold lit; cbn [String.list_ascii_of_string app]; now lex_silent|].
  cbn [andb app]. apply lex_from_silent. cbn [lex_step].
  now rewrite !bool_decide_false by assumption.
Qed.

Lemma lex_value_char tag a n v c s :
  lex_from (AttrValue tag a n v) (escape_char true c ++ s) = lex_from (AttrValue tag a n (c :: v)) s.
Proof.
  unfold escape_char. case_bool_decide as E1; [subst; unfold lit; cbn [String.list_ascii_of_string app]; now lex_silent|].
  case_bool_decide as E2; [subst; unfold lit; cbn [String.list_ascii_of_string app]; now lex_silent|].
  case_bool_decide as E3; [subst; unfold lit; cbn [String.list_ascii_of_string app]; now lex_silent|].
  cbn [andb]. case_bool_decide as E4; [subst; unfold lit; cbn [String.list_ascii_of_string app]; now lex_silent|].
  cbn [app]. apply lex_from_silent. cbn [lex_step].
  now rewrite !bool_decide_false by assumption.
Qed.

Lemma lex_text acc s r :
  lex_from (Data acc) (escape false s ++ r) = lex_from (Data (reverse s ++ acc)) r.
Proof.
  revert acc. induction s as [|c s IH]; intros acc; [reflexivity|].
  unfold escape. rewrite join_map_cons, <- app_assoc, lex_text_char. fold (escape false s).
  rewrite IH. now rewrite reverse_cons, <- app_assoc.
Qed.

Lemma lex_value tag a n v s r :
  lex_from (AttrValue tag a n v) (escape true s ++ r) = lex_from (AttrValue tag a n (reverse s ++ v)) r.
Proof.
  revert v. induction s as [|c s IH]; intros v; [reflexivity|].
  unfold escape. rewrite join_map_cons, <- app_assoc, lex_value_char. fold (escape true s).
  rewrite IH. now rewrite reverse_cons, <- app_assoc.
Qed.

Lemma name_step_silent c :
  name_char c = true ->
  bool_decide (c = lt_c) = false /\ bool_decide (c = gt_c) = false /\ bool_decide (c = amp) = false /\
  bool_decide (c = semi) = false /\ bool_decide (c = space) = false /\ bool_decide (c = slash) = false /\
  bool_decide (c = eq_c) = false /\ bool_decide (c = quot) = false.
Proof.
  intros H. destruct (name_char_special c H) as (? & ? & ? & ? & ? & ? & ? & ?).
  now rewrite !bool_decide_false by assumption.
Qed.

Ltac name_step Hc :=
  cbn [lex_step];
  let H1 := fresh in let H2 := fresh in let H3 := fresh in let H4 := fresh in
  let H5 := fresh in let H6 := fresh in let H7 := fresh in let H8 := fresh in
  destruct (name_step_silent _ Hc) as (H1 & H2 & H3 & H4 & H5 & H6 & H7 & H8);
  rewrite ?H1, ?H2, ?H3, ?H4, ?H5, ?H6, ?H7, ?H8, ?Hc; reflexivity.

(** One attribute, after the space that precedes it. *)
Lemma lex_attr tag acc k v r :
  name_ok k = true ->
  lex_from (BeforeAttrName tag acc) (k ++ "="%char :: quot :: escape true v ++ quot :: r) =
  lex_from (AfterAttrValue tag (add_attr k v acc)) r.
Proof.
  intros Hk. destruct (name_ok_cons k Hk) as (c & k' & -> & Hc).
  pose proof (name_ok_chars _ Hk) as Hks. apply Forall_cons in Hks as [_ Hk'].
  cbn [app]. rewrite (lex_from_silent _ _ _ (AttrName tag acc [c])) by name_step Hc.
  rewrite (lex_name_run (AttrName tag acc)) by first [exact Hk' | intros n c' Hc'; name_step Hc'].
  lex_silent. rewrite lex_value. lex_silent.
  now rewrite app_nil_r, !reverse_app, !reverse_involutive.
Qed.

Lemma NoDup_reverse_app_cons (acc a : dict pystr) k v :
  NoDup (reverse acc ++ (k, v) :: a).*1 -> k ∉ acc.*1.
Proof.
  rewrite fmap_app, NoDup_app. intros (_ & Hd & _) Hin. apply (Hd k); [|now left].
  rewrite fmap_reverse, elem_of_reverse. exact Hin.
Qed.

(** The attributes of a tag and its [>], from the tag name or the end
    of an attribute. *)
Lemma lex_attrs a st tag acc r :
  lex_step st space = Some ([], BeforeAttrName tag acc) ->
  lex_step st gt_c = Some ([TOpen tag (reverse acc)], Data []) ->
  forallb (fun kv => name_ok kv.1) a = true ->
  NoDup (reverse acc ++ a).*1 ->
  lex_from st (mjoin (map ser_attr a) ++ gt_c :: r) =
  (fun ts => TOpen tag (reverse acc ++ a) :: ts) <$> lex_from (Data []) r.
Proof.
  revert st acc. induction a as [|[k v] a IH]; intros st acc Hsp Hgt Ha Hnd.
  { change (mjoin (map ser_attr []) ++ ?x) with x. rewrite (lex_from_emit _ _ _ _ _ Hgt), app_nil_r.
    now destruct (lex_from (Data []) r). }
  apply andb_true_iff in Ha as [Hk Ha]. cbn [fst] in Hk.
  rewrite join_map_cons. unfold ser_attr at 1. cbn [fst snd]. rewrite <- !app_assoc. cbn [app].
  rewrite (lex_from_silent _ _ _ _ Hsp), <- !app_assoc. cbn [app]. rewrite <- !app_assoc. cbn [app].
  rewrite lex_attr by exact Hk.
  unfold add_attr. rewrite bool_decide_false by exact (NoDup_reverse_app_cons _ _ _ _ Hnd).
  rewrite (IH _ ((k, v) :: acc)) by (try reflexivity; try exact Ha; now rewrite reverse_cons, <- app_assoc).
  now rewrite reverse_cons, <- app_assoc.
Qed.

(** A tag token in the data state: the text before it is emitted, then
    the tag. *)
Lemma lex_tag acc tk r :
  tok_fine tk = true -> is_text tk = false ->
  lex_from (Data acc) (render tk ++ r) = (fun ts => flush acc ++ tk :: ts) <$> lex_from (Data []) r.
Proof.
  destruct tk as [tag a|tag|s]; intros Hf Ht; [| |discriminate];
    unfold tok_fine in Hf; cbn [tok_ok] in Hf; apply andb_true_iff in Hf as [Hf Hnd].
  - apply andb_true_iff in Hf as [Htag Ha]. apply bool_decide_eq_true in Hnd.
    destruct (name_ok_cons tag Htag) as (c & tag' & -> & Hc).
    pose proof (name_ok_chars _ Htag) as Hts. apply Forall_cons in Hts as [_ Ht'].
    cbn [render app]. rewrite (lex_from_emit _ _ _ (flush acc) TagOpen) by reflexivity.
    rewrite (lex_from_silent _ _ _ (TagName [c])) by name_step Hc.
    rewrite <- !app_assoc. cbn [app].
    rewrite (lex_name_run TagName) by first [exact Ht' | intros n c' Hc'; name_step Hc'].
    rewrite (lex_attrs a _ (c :: tag') []); [|cbn; now rewrite reverse_app, reverse_involutive..|exact Ha|exact Hnd].
    now destruct (lex_from (Data []) r).
  - cbn [render app]. rewrite (lex_from_emit _ _ _ (flush acc) TagOpen) by reflexivity. lex_silent.
    rewrite <- app_assoc. cbn [app].
    rewrite (lex_name_run EndTagName) by first [now apply name_ok_chars | intros n c' Hc'; name_step Hc'].
    rewrite (lex_from_emit _ _ _ [TClose tag] (Data [])) by (cbn; now rewrite app_nil_r, reverse_involutive).
    now destruct (lex_from (Data []) r).
Qed.

Lemma flush_reverse s : flush (reverse s) = push_tok s [].
Proof.
  unfold flush, push_tok. destruct s as [|c s]; [reflexivity|].
  rewrite !bool_decide_false by (try discriminate; intros E; apply (f_equal length) in E;
                                 rewrite length_reverse in E; discriminate).
  now rewrite reverse_involutive.
Qed.

(** The rendering of well-formed tokens is read back as their merged
    form. *)
Lemma lex_tokens s0 toks :
  Forall (fun tk => tok_fine tk = true) toks ->
  lex_from (Data (reverse s0)) (mjoin (map render toks)) = Some (push_tok s0 (norm toks)).
Proof.
  intros H. revert s0. induction H as [|tk toks Htk _ IH]; intros s0.
  { cbn. now rewrite flush_reverse. }
  rewrite join_map_cons. destruct tk as [tag a|tag|s]; cbn [norm].
  1,2: pose proof (IH []) as IH0; rewrite reverse_nil in IH0;
       rewrite lex_tag, IH0 by done; cbn; rewrite flush_reverse;
       now rewrite <- (push_tok_nontext s0 [] _ (norm toks)).
  cbn [render]. rewrite lex_text, <- reverse_app, IH. now rewrite push_tok_app.
Qed.

Ltac forall_split := cbn [render]; repeat (rewrite Forall_cons || rewrite Forall_app); split_and!.

Lemma page_ok_parts t : page_ok t = true -> wf t = true /\ attrs_distinct t = true /\ nul_free t = true.
Proof. unfold page_ok. now rewrite !andb_true_iff. Qed.

Lemma tokens_fine t : wf t = true -> attrs_distinct t = true -> Forall (fun tk => tok_fine tk = true) (tokens t).
Proof.
  induction t as [s|tag a kids IH] using node_ind'; intros Hw Hd; [repeat constructor|].
  apply wf_elem in Hw as (Hn & Ha & Hk).
  cbn [attrs_distinct] in Hd. apply andb_true_iff in Hd as [Hnd Hd]. rewrite forallb_forall in Hd.
  cbn [tokens]. constructor; [unfold tok_fine; cbn; now rewrite Hn, Ha, Hnd|].
  apply Forall_app. split; [|repeat constructor; unfold tok_fine; cbn; now rewrite Hn].
  apply Forall_join_map. rewrite Forall_forall in IH, Hk |- *. intros k Hk'.
  apply IH; [exact Hk'|now apply Hk|]. apply Hd, list_elem_of_In, Hk'.
Qed.

Lemma lex_markup ts :
  forallb page_ok ts = true -> lex (markup ts) = Some (norm (mjoin (map tokens ts))).
Proof.
  intros H. unfold lex, markup. rewrite <- reverse_nil, lex_tokens; [reflexivity|].
  apply Forall_join_map. eapply Forall_impl; [exact (forallb_Forall _ _ H)|].
  intros t (? & ? & _)%page_ok_parts. now apply tokens_fine.
Qed.

(** ** Theorems *)

(** The round trip: the parser reads the markup of well-formed trees
    back as the trees, up to the merging of adjacent texts. *)
Theorem parse_document_markup ts :
  forallb page_ok ts = true -> parse_document (markup ts) = Some (merge_texts (map canon ts)).
Proof.
  intros H. unfold parse_document. rewrite lex_markup by exact H. cbn [mbind option_bind].
  rewrite <- tokens_canon, <- (app_nil_r (mjoin (map tokens (merge_texts _)))).
  unfold document. rewrite build_forest. unfold add_kids. cbn [build fr_kids]. now rewrite app_nil_r, reverse_involutive.
Qed.

(** ** What parsel hands to lxml *)

(** A text that opens with [<] and closes with [>]. *)
Definition bracketed (s : pystr) : Prop := exists s', s = lt_c :: s' ++ [gt_c].

Ltac by_eval := match goal with |- ?P => apply (bool_decide_eq_true_1 P); vm_compute; reflexivity end.

Lemma name_no_nul n : name_ok n = true -> Forall (fun c => c <> nul) n.
Proof.
  intros [_ H]%andb_true_iff. eapply Forall_impl; [exact (forallb_Forall _ _ H)|].
  intros c Hc ->. vm_compute in Hc. discriminate Hc.
Qed.

Lemma escape_no_nul b s : no_nul s = true -> Forall (fun c => c <> nul) (escape b s).
Proof.
  intros Hs%bool_decide_eq_true_1. apply Forall_join_map. eapply Forall_impl; [exact Hs|]. intros c Hc.
  unfold escape_char. destruct b; repeat case_bool_decide; cbn [andb];
    first [by_eval | repeat constructor; assumption].
Qed.

Lemma ser_attr_no_nul kv : name_ok kv.1 = true -> no_nul kv.2 = true -> Forall (fun c => c <> nul) (ser_attr kv).
Proof.
  intros Hn Hv. unfold ser_attr. forall_split; first [by_eval | now apply name_no_nul | now apply escape_no_nul | constructor].
Qed.

Lemma tokens_no_nul t :
  wf t = true -> nul_free t = true -> Forall (fun tk => Forall (fun c => c <> nul) (render tk)) (tokens t).
Proof.
  induction t as [s|tag a kids IH] using node_ind'; intros Hw Hz.
  - constructor; [now apply escape_no_nul|constructor].
  - apply wf_elem in Hw as (Hn & Ha & Hk). cbn [nul_free] in Hz. apply andb_true_iff in Hz as [Hv Hz].
    cbn [tokens render]. constructor; [|apply Forall_app; split].
    + forall_split; [by_eval|now apply name_no_nul| |by_eval|constructor].
      apply Forall_join_map. pose proof (proj2 (Forall_and _ _) (conj (forallb_Forall _ _ Ha) (forallb_Forall _ _ Hv))).
      eapply Forall_impl; [eassumption|]. intros kv [? ?]. now apply ser_attr_no_nul.
    + apply Forall_join_map. pose proof (proj2 (Forall_and _ _) (conj Hk (forallb_Forall _ _ Hz))).
      pose proof (proj2 (Forall_and _ _) (conj IH H)).
      eapply Forall_impl; [eassumption|]. intros k [Hk' [? ?]]. now apply Hk'.
    + constructor; [|constructor]. forall_split; first [by_eval | now apply name_no_nul].
Qed.

Lemma markup_no_nul ts :
  Forall (fun t => wf t = true /\ nul_free t = true) ts -> Forall (fun c => c <> nul) (markup ts).
Proof.
  intros Hts. unfold markup. apply Forall_join_map, Forall_join_map.
  eapply Forall_impl; [exact Hts|]. intros t [? ?]. now apply tokens_no_nul.
Qed.

Lemma markup_cons t ts : markup (t :: ts) = markup [t] ++ markup ts.
Proof. unfold markup. rewrite !join_map_cons. cbn [map mjoin]. now rewrite app_nil_r, join_map_app. Qed.

Lemma markup_elem_bracketed tag a kids : bracketed (markup [Elem tag a kids]).
Proof.
  unfold markup. rewrite join_map_cons. cbn [tokens]. rewrite app_nil_r, join_map_cons, join_map_app.
  rewrite join_map_cons. cbn [map mjoin list_join render]. rewrite app_nil_r.
  exists (tag ++ mjoin (map ser_attr a) ++ [gt_c] ++ mjoin (map render (mjoin (map tokens kids))) ++ lt_c :: "/"%char :: tag).
  rewrite <- !app_assoc. cbn [app]. now rewrite <- !app_assoc.
Qed.

Lemma bracketed_app x y : bracketed x -> bracketed y -> bracketed (x ++ y).
Proof. intros [x' ->] [y' ->]. exists (x' ++ [gt_c] ++ lt_c :: y'). cbn. f_equal. now rewrite <- !app_assoc. Qed.

Lemma markup_bracketed ts :
  ts <> [] -> Forall (fun t => exists tag a kids, t = Elem tag a kids) ts -> bracketed (markup ts).
Proof.
  induction 2 as [|t ts [tag [a [kids ->]]] Hts IH]; [congruence|]. rewrite markup_cons.
  destruct ts as [|t' ts]; [rewrite app_nil_r; apply markup_elem_bracketed|].
  apply bracketed_app; [apply markup_elem_bracketed|]. now apply IH.
Qed.

Lemma root_text_bracketed s : bracketed s -> Forall (fun c => c <> nul) s -> root_text s = s.
Proof. intros [s' ->] Hn. unfold root_text. rewrite strip_bracketed by reflexivity. now apply filter_Forall_id. Qed.

(** On the markup of well-formed elements, parsel hands lxml the markup itself. *)
Lemma parse_markup ts :
  ts <> [] -> Forall (fun t => exists tag a kids, t = Elem tag a kids) ts -> forallb page_ok ts = true ->
  parse (markup ts) = lxml_parse (markup ts).
Proof.
  intros Hn He Hp. assert (Hb : bracketed (markup ts)) by now apply markup_bracketed.
  unfold parse. rewrite root_text_bracketed; [|exact Hb|].
  - rewrite bool_decide_false; [reflexivity|]. destruct Hb as [s' ->]. discriminate.
  - apply markup_no_nul. eapply Forall_impl; [exact (forallb_Forall _ _ Hp)|].
    intros t (? & _ & ?)%page_ok_parts. now split.
Qed.

Lemma parse_blank s : root_text s = [] -> parse s = Elem (lit "html") [] [].
Proof. intros H. unfold parse. now rewrite bool_decide_true. Qed.

Lemma parse_page a kids :
  page_ok (Elem (lit "html") a kids) = true ->
  parse (markup [Elem (lit "html") a kids]) = canon (Elem (lit "html") a kids).
Proof.
  intros H. rewrite parse_markup by (discriminate || (repeat econstructor) || (cbn; now rewrite H)).
  unfold lxml_parse. rewrite parse_document_markup by (cbn; now rewrite H). cbn [map merge_texts canon].
  now rewrite bool_decide_true.
Qed.

Lemma merge_texts_elems ts :
  forallb fragment_elem ts = true -> merge_texts (map canon ts) = map canon ts.
Proof.
  induction ts as [|[s|tag a kids] ts IH]; [reflexivity|discriminate|].
  cbn [forallb]. intros [_ H]%andb_true_iff. cbn. now rewrite IH.
Qed.

Lemma fragment_elems ts :
  forallb fragment_elem ts = true -> Forall (fun t => exists tag a kids, t = Elem tag a kids) ts.
Proof. intros H. eapply Forall_impl; [exact (forallb_Forall _ _ H)|]. intros [s|tag a kids] Hf; [discriminate|eauto]. Qed.

Lemma parse_fragment ts :
  ts <> [] -> forallb page_ok ts = true -> forallb fragment_elem ts = true ->
  parse (markup ts) = Elem (lit "html") [] [Elem (lit "body") [] (map canon ts)].
Proof.
  intros Hn Hp Hf. rewrite parse_markup by auto using fragment_elems.
  unfold lxml_parse. rewrite parse_document_markup, merge_texts_elems by assumption.
  destruct ts as [|t [|t' ts]]; [congruence| |destruct t, t'; reflexivity].
  destruct t as [s|tag a kids]; [discriminate|]. cbn in Hf. rewrite andb_true_r in Hf.
  cbn [map canon]. rewrite bool_decide_false; [reflexivity|]. intros ->. discriminate Hf.
Qed.

(** ** The model is a parser of the interface *)

#[export] Instance markup_parser : HtmlParser :=
  {| parse_html := parse; parse_html_page := parse_page; parse_html_fragment := parse_fragment;
     parse_html_blank := parse_blank |}.

End HtmlParse.
