(* ===== verification/Pipeline.v ===== *)
(** * The extractor on the markup of a page: parser, markers and queries

    [parse_review] (lines 45-104) hands the page's text to the HTML
    parser, writes the markers of line 56 into the text and parses it
    again.  Here the parser is any instance of [HtmlParser]
    ([HtmlParse]), and the page is the markup of a well-formed tree.  The
    file composes the three steps: on such a page the extractor is
    [review_of] applied to the tree and to the tree with the separators
    of design note 9, both as the parser builds them (adjacent texts
    merged).  Both edits only touch text nodes ([text_edit]), and the
    queries that look at elements and attributes only (the JustWatch
    widget, the star icons, the drop cap) do not see them: the TMDB id,
    the rating and the tag are those of the page as written.  The
    queries that read the first text child ([::text] with [.get()]) do
    see them: a title whose markup begins with an [<i>] comes out
    empty. *)

From S2P Require Import Prelude PyStr Html Rating Text Date Review Markup HtmlParse.
From Stdlib Require Import QArith.
Import PyStr Html Rating Text Date Review Markup HtmlParse.

Module Pipeline.

Definition is_element (n : node) : bool :=
  match n with Elem _ _ _ => true | Text _ => false end.

(** An edit of trees that changes text nodes only: text stays text, and
    an element keeps its tag and attributes, and its element children
    are the edited element children, in order. *)
Definition text_edit (g : node -> node) : Prop :=
  (forall s, exists s', g (Text s) = Text s') /\
  (forall tag a kids, exists kids', g (Elem tag a kids) = Elem tag a kids' /\
     filter (fun k => is_element k = true) kids' = map g (filter (fun k => is_element k = true) kids)).

(** A page of the site, as written (before the markers of line 56): the
    widget, a movie title in italics, the article title, the dateline,
    four stars, two blocks (the first with an emphasised film name and a
    line break) and the drop cap. *)
Definition italic_kids : list node := [
    jw_widget [("data-id-type", "tmdb"); ("data-id", "426"); ("data-jw-widget", "")];
    el "h1" "page-content--title" [Text (lit "A masterpiece of obsession")];
    el "h3" "cast-and-crew--movie-title" [Elem (lit "i") [] [Text (lit "Vertigo")]];
    el "span" "time" [Text (lit "October 13, 1996")];
    el "div" "page-content--star-rating"
      [Elem (lit "span") [] [star "star-full"; star "star-full"; star "star-full"; star "star-full"]];
    el "div" "page-content--block_editor-content"
      [Text (lit "Hitchcock's "); Elem (lit "i") [] [Text (lit "Vertigo")]; Text (lit " is about
how men treat women.")];
    el "div" "page-content--block_editor-content" [Text (lit "It is the most personal.")];
    el "span" "gm-drop-cap" [Text (lit "H")]].

Definition italic_page : node := Elem (lit "html") [] italic_kids.

(** The item the extractor yields for the markup of [italic_page]. *)
Definition italic_item : item :=
  {| tmdbID := Some (lit "426");
     Title := [];
     Rating := Some (PyInt 4);
     Review := lit "<b>A masterpiece of obsession</b>" ++ nn ++ lit "Hitchcock's " ++ nn ++ lit "Vertigo" ++
               nn ++ lit " is abouthow men treat women." ++ nn ++ lit "It is the most personal.";
     WatchedDate := lit "1996-10-13";
     Tags := Some (lit "great movies") |}.

(** The [href] of an [a] child of an [h5], for a node and the tag of its
    parent: the step of [h5_links]. *)
Definition h5_href (pn : pystr * node) : option pystr :=
  if bool_decide (pn.1 = lit "h5") && is_elem (lit "a") pn.2
  then match dict_get (attr_of pn.2) (lit "href") with Ok v => Some v | Err _ => None end
  else None.

(** ** Lemmas: filters and flat maps *)

Lemma filter_map_comm {A} (P : A -> Prop) `{forall x, Decision (P x)} (g : A -> A) (l : list A) :
  (forall x, P (g x) <-> P x) -> filter P (map g l) = map g (filter P l).
Proof.
  intros HP. induction l as [|x l IH]; [reflexivity|]. cbn [map]. rewrite !filter_cons.
  destruct (decide (P x)) as [Hx|Hx].
  - rewrite decide_True by (apply HP, Hx). cbn. now rewrite IH.
  - rewrite decide_False by (rewrite HP; exact Hx). exact IH.
Qed.

Lemma flat_map_Forall_ext {A B} (f h : A -> list B) l :
  Forall (fun x => f x = h x) l -> flat_map f l = flat_map h l.
Proof. induction 1 as [|x l Hx _ IH]; [reflexivity|]. cbn. now rewrite Hx, IH. Qed.

Lemma map_flat_map' {A B C} (g : B -> C) (f : A -> list B) l :
  map g (flat_map f l) = flat_map (fun x => map g (f x)) l.
Proof. induction l as [|x l IH]; [reflexivity|]. cbn. now rewrite map_app, IH. Qed.

Lemma flat_map_of_map {A B C} (f : B -> list C) (g : A -> B) l :
  flat_map f (map g l) = flat_map (fun x => f (g x)) l.
Proof. induction l as [|x l IH]; [reflexivity|]. cbn. now rewrite IH. Qed.

Lemma flat_map_elements_filter l :
  flat_map elements l = flat_map elements (filter (fun k => is_element k = true) l).
Proof.
  induction l as [|[s|tag a kids] l IH]; [reflexivity| |]; rewrite filter_cons.
  - destruct (decide _) as [E|_]; [discriminate E|exact IH].
  - destruct (decide _) as [_|E]; [cbn; now rewrite IH|now destruct E].
Qed.

(** ** Lemmas: the queries under a text edit *)

Section TextEdit.
Variable g : node -> node.
Hypothesis Hg : text_edit g.

Lemma edit_shape t :
  (exists s s', t = Text s /\ g t = Text s') \/
  (exists tag a kids kids', t = Elem tag a kids /\ g t = Elem tag a kids' /\
     filter (fun k => is_element k = true) kids' = map g (filter (fun k => is_element k = true) kids)).
Proof.
  destruct Hg as [Ht He]. destruct t as [s|tag a kids].
  - destruct (Ht s) as [s' E]. left. eauto.
  - destruct (He tag a kids) as (kids' & E & F). right. eauto 8.
Qed.

Lemma edit_attr t : attr_of (g t) = attr_of t.
Proof. destruct (edit_shape t) as [(? & ? & -> & ->)|(? & ? & ? & ? & -> & -> & _)]; reflexivity. Qed.

Lemma edit_is_elem tag t : is_elem tag (g t) = is_elem tag t.
Proof. destruct (edit_shape t) as [(? & ? & -> & ->)|(? & ? & ? & ? & -> & -> & _)]; reflexivity. Qed.

Lemma edit_is_element t : is_element (g t) = is_element t.
Proof. destruct (edit_shape t) as [(? & ? & -> & ->)|(? & ? & ? & ? & -> & -> & _)]; reflexivity. Qed.

Lemma edit_has_class c t : has_class c (g t) = has_class c t.
Proof. destruct (edit_shape t) as [(? & ? & -> & ->)|(? & ? & ? & ? & -> & -> & _)]; reflexivity. Qed.

Lemma edit_has_attr k t : has_attr k (g t) = has_attr k t.
Proof. unfold has_attr. now rewrite edit_attr. Qed.

Lemma edit_elements t : elements (g t) = map g (elements t).
Proof.
  induction t as [s|tag a kids IH] using node_ind'.
  { destruct Hg as [Ht _]. destruct (Ht s) as [s' ->]. reflexivity. }
  destruct Hg as [_ He]. destruct (He tag a kids) as (kids' & E & F). rewrite E. cbn [elements map].
  rewrite <- E. f_equal. rewrite flat_map_elements_filter, F, (flat_map_elements_filter kids).
  rewrite map_flat_map', flat_map_of_map. apply flat_map_Forall_ext.
  apply Forall_forall. intros k Hk%list_elem_of_filter. rewrite Forall_forall in IH. apply IH, Hk.
Qed.

Lemma edit_css_class c t : css_class c (g t) = map g (css_class c t).
Proof.
  unfold css_class. rewrite edit_elements. apply filter_map_comm. intros x. now rewrite edit_has_class.
Qed.

Lemma edit_child_elems tag e : child_elems tag (g e) = map g (child_elems tag e).
Proof.
  unfold child_elems. destruct (edit_shape e) as [(? & ? & -> & ->)|(? & ? & kids & kids' & -> & -> & F)];
    [reflexivity|]. cbn [children].
  assert (Hsub : forall k, is_elem tag k = true -> is_element k = true)
    by (intros [] ?; [discriminate|reflexivity]).
  rewrite <- (list_filter_filter_l _ (fun k => is_element k = true) kids') by exact Hsub. rewrite F.
  rewrite filter_map_comm by (intros; now rewrite edit_is_elem).
  now rewrite list_filter_filter_l by exact Hsub.
Qed.

Lemma edit_xpath_span_i sel : xpath_span_i (map g sel) = map g (xpath_span_i sel).
Proof.
  unfold xpath_span_i. rewrite flat_map_of_map, map_flat_map'. apply flat_map_Forall_ext, Forall_forall.
  intros e _. rewrite edit_child_elems, flat_map_of_map, map_flat_map'.
  apply flat_map_Forall_ext, Forall_forall. intros x _. apply edit_child_elems.
Qed.

Lemma edit_xpath_div k t : xpath_div_with k (g t) = map g (xpath_div_with k t).
Proof.
  unfold xpath_div_with. rewrite edit_elements. apply filter_map_comm. intros x.
  now rewrite edit_is_elem, edit_has_attr.
Qed.

(** The widget query reads elements and attributes only. *)
Lemma edit_tmdb_id t : tmdb_id (g t) = tmdb_id t.
Proof.
  unfold tmdb_id. rewrite edit_xpath_div.
  destruct (xpath_div_with (lit "data-jw-widget") t) as [|w ws]; [reflexivity|].
  cbn [map sel_attrib]. now rewrite edit_attr.
Qed.

(** So does the star-icon query. *)
Lemma edit_star_icons c t :
  map attr_of (xpath_span_i (css_class c (g t))) = map attr_of (xpath_span_i (css_class c t)).
Proof.
  rewrite edit_css_class, edit_xpath_span_i, map_map. apply map_ext. apply edit_attr.
Qed.

(** The listing query reads elements and attributes only. *)
Lemma h5_links_elements tag a kids :
  h5_links (Elem tag a kids) =
  flat_map (fun k => option_list (h5_href (tag, k)) ++ h5_links k)
           (filter (fun k => is_element k = true) kids).
Proof.
  change (h5_links (Elem tag a kids)) with (omap h5_href (flat_map (fun k => (tag, k) :: child_pairs k) kids)).
  induction kids as [|k kids IH]; [reflexivity|].
  cbn [flat_map]. rewrite omap_app, IH, filter_cons.
  change (omap h5_href (child_pairs k)) with (h5_links k).
  assert (Hc : omap h5_href [(tag, k)] = option_list (h5_href (tag, k))) by (cbn; now destruct (h5_href _)).
  change ((tag, k) :: child_pairs k) with ([(tag, k)] ++ child_pairs k). rewrite omap_app, Hc.
  destruct k as [s|tag' a' kids'].
  - rewrite decide_False by discriminate. unfold h5_href. cbn [fst snd is_elem]. now rewrite andb_false_r.
  - rewrite decide_True by reflexivity. reflexivity.
Qed.

Lemma edit_h5_href tag t : h5_href (tag, g t) = h5_href (tag, t).
Proof. unfold h5_href. cbn [fst snd]. now rewrite edit_is_elem, edit_attr. Qed.

Lemma edit_h5_links t : h5_links (g t) = h5_links t.
Proof.
  induction t as [s|tag a kids IH] using node_ind'.
  { destruct Hg as [Ht _]. destruct (Ht s) as [s' ->]. reflexivity. }
  destruct Hg as [_ He]. destruct (He tag a kids) as (kids' & E & F). rewrite E, !h5_links_elements, F.
  rewrite flat_map_of_map. apply flat_map_Forall_ext, Forall_forall. intros k Hk%list_elem_of_filter.
  rewrite edit_h5_href. f_equal. rewrite Forall_forall in IH. apply IH, Hk.
Qed.

End TextEdit.

Lemma filter_push_text s l :
  filter (fun k => is_element k = true) (push_text s l) = filter (fun k => is_element k = true) l.
Proof.
  unfold push_text. case_bool_decide; [reflexivity|].
  destruct l as [|[s'|tag a kids] l]; rewrite ?filter_cons; repeat case_decide; try discriminate; reflexivity.
Qed.

Lemma filter_merge_texts l :
  filter (fun k => is_element k = true) (merge_texts l) = filter (fun k => is_element k = true) l.
Proof.
  induction l as [|[s|tag a kids] l IH]; [reflexivity| |].
  - cbn [merge_texts]. rewrite filter_push_text, IH, filter_cons. case_decide; [discriminate|reflexivity].
  - cbn [merge_texts]. rewrite !filter_cons. now rewrite IH.
Qed.

(** The parser's merging of texts is a text edit. *)
Lemma text_edit_canon : text_edit canon.
Proof.
  split; [intros s; now exists s|]. intros tag a kids. exists (merge_texts (map canon kids)).
  split; [reflexivity|]. rewrite filter_merge_texts. apply filter_map_comm. intros []; reflexivity.
Qed.

Lemma filter_around k :
  filter (fun k => is_element k = true) (around_i k (inject_tree k)) =
  map inject_tree (filter (fun k => is_element k = true) [k]).
Proof.
  destruct k as [s|tag a kids]; unfold around_i; cbn [is_i attr_of].
  - reflexivity.
  - repeat case_bool_decide; reflexivity.
Qed.

(** So is the separator insertion of design note 9. *)
Lemma text_edit_inject : text_edit inject_tree.
Proof.
  split; [intros s; now exists s|]. intros tag a kids.
  exists (mjoin (map (fun k => around_i k (inject_tree k)) kids)). split; [reflexivity|].
  induction kids as [|k kids IH]; [reflexivity|].
  rewrite join_map_cons, filter_app, filter_around, IH.
  change (k :: kids) with ([k] ++ kids). now rewrite filter_app, map_app.
Qed.

Lemma text_edit_compose g1 g2 : text_edit g1 -> text_edit g2 -> text_edit (fun t => g1 (g2 t)).
Proof.
  intros [T1 E1] [T2 E2]. split.
  - intros s. destruct (T2 s) as [s' ->]. apply T1.
  - intros tag a kids. destruct (E2 tag a kids) as (k2 & -> & F2). destruct (E1 tag a k2) as (k1 & -> & F1).
    exists k1. split; [reflexivity|]. now rewrite F1, F2, map_map.
Qed.

(** A check of every element that the separators do not disturb. *)
Lemma inject_preserves (f : node -> bool) (g : pystr -> bool) (h : pystr -> dict pystr -> bool) t :
  (forall s, f (Text s) = g s) -> g [cr] = true ->
  (forall tag a kids, f (Elem tag a kids) = h tag a && forallb f kids) ->
  f (inject_tree t) = f t.
Proof.
  intros Ht Hcr He. induction t as [s|tag a kids IH] using node_ind'; [reflexivity|].
  cbn [inject_tree]. rewrite !He. f_equal.
  induction IH as [|k kids Hk _ IHk]; [reflexivity|].
  rewrite join_map_cons, forallb_app, IHk. cbn [forallb]. f_equal.
  unfold around_i. destruct (is_i k); [case_bool_decide|]; cbn [app forallb]; rewrite ?Ht, ?Hcr, ?Hk; cbn;
    now rewrite ?andb_true_r.
Qed.

Lemma page_ok_inject t : page_ok (inject_tree t) = page_ok t.
Proof.
  unfold page_ok. f_equal; [|f_equal].
  - apply (inject_preserves wf (fun _ => true) (fun tag a => name_ok tag && forallb (fun kv => name_ok kv.1) a)); reflexivity.
  - apply (inject_preserves attrs_distinct (fun _ => true) (fun _ a => bool_decide (NoDup a.*1))); reflexivity.
  - apply (inject_preserves nul_free no_nul (fun _ a => forallb (fun kv => no_nul kv.2) a)); reflexivity.
Qed.

(** What an item is made of. *)
Lemma review_of_Ok page doc it :
  review_of page doc = Ok it ->
  tmdb_id page = Ok (tmdbID it) /\
  (exists m, sel_get (css_text (lit "cast-and-crew--movie-title") doc) = Some m /\ Title it = strip m) /\
  Rating it = star_rating (map attr_of (xpath_span_i (css_class (lit "page-content--star-rating") doc))) /\
  Tags it = match css_class (lit "gm-drop-cap") doc with [] => None | _ => Some (lit "great movies") end.
Proof.
  unfold review_of. intros H. res_inv. subst it. cbn.
  repeat split; [assumption|]. eauto using deref_Ok.
Qed.


(** ** Theorems, for any parser of the interface *)

Section Extract.
Context `{HtmlParser}.

(** The three steps composed. *)
Lemma review_markup a kids :
  page_ok (Elem (lit "html") a kids) = true ->
  parse_review parse_html (markup [Elem (lit "html") a kids]) =
  review_of (canon (Elem (lit "html") a kids)) (canon (inject_tree (Elem (lit "html") a kids))).
Proof.
  intros Hp. unfold parse_review.
  rewrite markup_inject_markers by (cbn [forallb]; unfold page_ok in Hp; apply andb_true_iff in Hp as [-> _]; reflexivity).
  assert (E : inject_forest [Elem (lit "html") a kids] = [inject_tree (Elem (lit "html") a kids)])
    by reflexivity.
  pose proof (page_ok_inject (Elem (lit "html") a kids)) as Hq. rewrite Hp in Hq. cbn [inject_tree] in Hq |- *.
  rewrite E. cbn [inject_tree]. now rewrite !parse_html_page.
Qed.

(** C14: the TMDB id, the rating and the tag of an item read from the
    markup of a page are those of the page as written: the parser's
    merging of texts and the markers of line 56 change text nodes only,
    and these queries look at elements and attributes only. *)
Theorem parse_review_markup_fields a kids it :
  page_ok (Elem (lit "html") a kids) = true ->
  parse_review parse_html (markup [Elem (lit "html") a kids]) = Ok it ->
  tmdb_id (Elem (lit "html") a kids) = Ok (tmdbID it) /\
  Rating it = star_rating (map attr_of (xpath_span_i (css_class (lit "page-content--star-rating") (Elem (lit "html") a kids)))) /\
  Tags it = (if bool_decide (css_class (lit "gm-drop-cap") (Elem (lit "html") a kids) = []) then None
             else Some (lit "great movies")).
Proof.
  intros Hp Hr. rewrite review_markup in Hr by assumption.
  apply review_of_Ok in Hr as (Ht & _ & Hs & Hg).
  pose proof (text_edit_compose _ _ text_edit_canon text_edit_inject) as Hci.
  rewrite (edit_tmdb_id _ text_edit_canon) in Ht. rewrite (edit_star_icons _ Hci) in Hs.
  rewrite (edit_css_class _ Hci) in Hg. split; [exact Ht|split; [exact Hs|]]. rewrite Hg.
  now destruct (css_class (lit "gm-drop-cap") (Elem (lit "html") a kids)).
Qed.

(** C13: spec divergence (section 4.2: the title is the trimmed text of the
    title element): the title is the first text child of the element
    only, and after the markers of line 56 a title element whose content
    begins with an [<i>] has the marker as its first text child, so the
    item's title is empty. *)
Theorem title_leading_emphasis a kids tg ta ik rest es it :
  page_ok (Elem (lit "html") a kids) = true ->
  css_class (lit "cast-and-crew--movie-title") (Elem (lit "html") a kids) =
    Elem tg ta (Elem (lit "i") [] ik :: rest) :: es ->
  parse_review parse_html (markup [Elem (lit "html") a kids]) = Ok it ->
  Title it = [].
Proof.
  intros Hp Hc Hr. rewrite review_markup in Hr by assumption.
  apply review_of_Ok in Hr as (_ & (m & Hm & ->) & _).
  pose proof (text_edit_compose _ _ text_edit_canon text_edit_inject) as Hci.
  unfold css_text in Hm. rewrite (edit_css_class _ Hci), Hc in Hm. cbn in Hm.
  injection Hm as <-. reflexivity.
Qed.

End Extract.

(** ** The pipeline on the text of a page, with the parser of [HtmlParse] *)

Lemma parse_review_markup_fields_witness :
  parse_review parse_html (markup [italic_page]) = Ok italic_item /\
  tmdb_id italic_page = Ok (tmdbID italic_item) /\
  Rating italic_item = star_rating (map attr_of (xpath_span_i (css_class (lit "page-content--star-rating") italic_page))) /\
  Tags italic_item = (if bool_decide (css_class (lit "gm-drop-cap") italic_page = []) then None
                      else Some (lit "great movies")).
Proof.
  split; [vm_compute; reflexivity|].
  apply (parse_review_markup_fields [] italic_kids italic_item); vm_compute; reflexivity.
Defined.

Lemma title_leading_emphasis_witness :
  css_class (lit "cast-and-crew--movie-title") italic_page =
    [Elem (lit "h3") [(lit "class", lit "cast-and-crew--movie-title")] [Elem (lit "i") [] [Text (lit "Vertigo")]]] /\
  parse_review parse_html (markup [italic_page]) = Ok italic_item /\ Title italic_item = [].
Proof.
  split; [vm_compute; reflexivity|split; [vm_compute; reflexivity|]].
  apply (title_leading_emphasis [] italic_kids (lit "h3") [(lit "class", lit "cast-and-crew--movie-title")]
           [Text (lit "Vertigo")] [] []); vm_compute; reflexivity.
Defined.

(** The whole pipeline on the text of a page (the markup of
    [italic_page], parsed by the model of [HtmlParse]): the TMDB id of
    the widget, an empty title (the movie title is in italics), four
    stars as an [int], the article title in bold and the body, where the
    emphasised film name is a paragraph of its own and the line break
    inside the first block is deleted, gluing two words, the ISO date
    and the tag. *)
Example parse_review_italic_page :
  parse_review parse_html (markup [italic_page]) = Ok italic_item.
Proof. vm_compute. reflexivity. Qed.

End Pipeline.
