(* ===== verification/Json.v ===== *)
(** * The listing endpoint's JSON envelope ([parse_json], lines 23-25 and 33)

    The values [json.loads] returns (the decoder itself is [JsonText]).
    What the code does with them is modelled:
    subscripting with a string key ([json_response['html']]), which raises
    [KeyError] on a missing key and [TypeError] on a value that is not an
    object, and Python's truth value of the decoded [more] in [if more:]. *)

From S2P Require Import Prelude.
From Stdlib Require Import QArith.

Module Json.

(** A Python [float] as [json.loads] makes it: a finite value (kept as the
    exact rational the literal denotes; the rounding to a double is not
    modelled), an infinity or [nan]. *)
Inductive pyfloat :=
  | FFin (q : Q)
  | FInf (neg : bool)
  | FNaN.

(** The values [json.loads] returns: [None], [bool], [int], [float],
    [str], [list], [dict]. *)
#[warning="-register-all"]
Inductive json :=
  | JNull
  | JBool (b : bool)
  | JInt (z : Z)
  | JFloat (f : pyfloat)
  | JStr (s : pystr)
  | JArr (l : list json)
  | JObj (d : list (pystr * json)).

(** [bool(v)]: [None], [False], zero and empty containers are false. *)
Definition truthy (j : json) : bool :=
  match j with
  | JNull => false
  | JBool b => b
  | JInt z => negb (Z.eqb z 0)
  | JFloat (FFin q) => negb (Qeq_bool q 0)
  | JFloat _ => true
  | JStr s => negb (bool_decide (s = []))
  | JArr l => negb (bool_decide (l = []))
  | JObj d => negb (bool_decide (d = []))
  end.

(** [v[k]] for a string key [k]. *)
Definition getitem (j : json) (k : pystr) : res json :=
  match j with
  | JObj d => dict_get d k
  | _ => Err TypeError
  end.

End Json.
