(* ===== verification/JsonText.v ===== *)
(** * JSON text: [json.loads] and [json.dumps]

    Line 23 decodes the listing response with [json.loads(response.text)].
    The decoder is CPython's [json] module with its C accelerator
    ([Modules/_json.c]): [scan_once_unicode] dispatches on the first
    character, [scanstring_unicode] reads a string in strict mode,
    [_parse_object_unicode] and [_parse_array_unicode] read the
    containers, [_match_number_unicode] reads a number, and
    [JSONDecoder.decode] skips white space around the value and raises
    [Extra data] after it.  Every error is a [JSONDecodeError].  A
    duplicated key keeps its first position and its last value, as
    [PyDict_SetItem] does.

    The recursion is on fuel; every call is on a strictly shorter text, so
    a fuel larger than the text's length is never exhausted ([loads]
    gives it that much, and [loads_fuel] shows more fuel changes nothing).

    The endpoint's side is modelled by [dumps], [json.dumps] with its
    defaults ([ensure_ascii], [allow_nan], the separators [', '] and
    [': ']); [loads_dumps] is the round trip.

    Outside the model: a [\uXXXX] escape beyond U+00FF (and surrogate
    pairs), which a Latin-1 string cannot hold, is refused; a float is
    kept as the exact rational its literal denotes (Python rounds it to a
    double, which only matters for the truth value of a literal below
    the smallest double); [float.__repr__], so [dumps] writes no finite
    float; the recursion limit of deeply nested texts; the limit on the
    digits of an [int]. *)

From S2P Require Import Prelude PyStr Json.
From Stdlib Require Import QArith DecimalString DecimalPos.
Import PyStr Json.

Module JsonText.

Local Open Scope Z_scope.

Definition quote : ascii := "034"%char.
Definition bslash : ascii := "092"%char.
Definition tab : ascii := "009"%char.
Definition bsp : ascii := "008"%char.
Definition ff : ascii := "012"%char.

(** [IS_WHITESPACE]: space, tab, newline, carriage return. *)
Definition json_ws (c : ascii) : bool :=
  bool_decide (c = " "%char) || bool_decide (c = tab) || bool_decide (c = nl) || bool_decide (c = cr).

Fixpoint skip_ws (s : pystr) : pystr :=
  match s with
  | c :: s' => if json_ws c then skip_ws s' else s
  | [] => []
  end.

(** ** Strings *)

(** A hexadecimal digit of a [\uXXXX] escape, either case. *)
Definition hex_val (c : ascii) : option Z :=
  let n := Z.of_nat (nat_of_ascii c) in
  if (48 <=? n) && (n <=? 57) then Some (n - 48)
  else if (97 <=? n) && (n <=? 102) then Some (n - 87)
  else if (65 <=? n) && (n <=? 70) then Some (n - 55)
  else None.

Definition hex4 (a b c d : ascii) : option Z :=
  match hex_val a, hex_val b, hex_val c, hex_val d with
  | Some x, Some y, Some z, Some w => Some (((x * 16 + y) * 16 + z) * 16 + w)
  | _, _, _, _ => None
  end.

(** The escapes other than [\u]: a backslash followed by a quote, a
    backslash, a slash, [b], [f], [n], [r] or [t]. *)
Definition short_escape (e : ascii) : option ascii :=
  if bool_decide (e = quote) then Some quote
  else if bool_decide (e = bslash) then Some bslash
  else if bool_decide (e = "/"%char) then Some "/"%char
  else if bool_decide (e = "b"%char) then Some bsp
  else if bool_decide (e = "f"%char) then Some ff
  else if bool_decide (e = "n"%char) then Some nl
  else if bool_decide (e = "r"%char) then Some cr
  else if bool_decide (e = "t"%char) then Some tab
  else None.

(** [scanstring_unicode] in strict mode, after the opening quote: the
    string and the text after the closing quote.  [acc] holds the
    characters read, last first. *)
Fixpoint scan_string (s : pystr) (acc : pystr) : res (pystr * pystr) :=
  match s with
  | [] => Err JSONDecodeError
  | c :: s' =>
      if bool_decide (c = quote) then Ok (reverse acc, s')
      else if bool_decide (c = bslash) then
        match s' with
        | [] => Err JSONDecodeError
        | e :: s'' =>
            if bool_decide (e = "u"%char) then
              match s'' with
              | a :: b :: c' :: d :: r =>
                  match hex4 a b c' d with
                  | Some n => if n <? 256 then scan_string r (ascii_of_nat (Z.to_nat n) :: acc)
                              else Err JSONDecodeError
                  | None => Err JSONDecodeError
                  end
              | _ => Err JSONDecodeError
              end
            else match short_escape e with
                 | Some x => scan_string s'' (x :: acc)
                 | None => Err JSONDecodeError
                 end
        end
      else if (nat_of_ascii c <? 32)%nat then Err JSONDecodeError
      else scan_string s' (c :: acc)
  end.

(** ** Numbers *)

Fixpoint span_digits (s : pystr) : pystr * pystr :=
  match s with
  | c :: s' => if is_digit c then let (ds, r) := span_digits s' in (c :: ds, r) else ([], s)
  | [] => ([], [])
  end.

(** [int()] of a string of decimal digits. *)
Definition digits_value (ds : pystr) : Z := fold_left (fun acc c => 10 * acc + digit_val c) ds 0.

(** [m * 10 ^ e] as an exact rational. *)
Definition decimal_q (m e : Z) : Q :=
  if 0 <=? e then inject_Z (m * 10 ^ e) else Qmake m (Z.to_pos (10 ^ (- e))).

(** The integer part of [NUMBER_RE]: [0|[1-9]\d*]. *)
Definition match_int (s : pystr) : option (pystr * pystr) :=
  match s with
  | c :: s' =>
      if bool_decide (c = "0"%char) then Some ([c], s')
      else if is_digit c then let (ds, r) := span_digits s' in Some (c :: ds, r)
      else None
  | [] => None
  end.

(** The fraction [\.\d+]. *)
Definition match_frac (s : pystr) : option (pystr * pystr) :=
  match s with
  | c :: d :: r =>
      if bool_decide (c = "."%char) && is_digit d then let (ds, r') := span_digits r in Some (d :: ds, r')
      else None
  | _ => None
  end.

(** An optional sign: [-] (negative), [+], or none when [plus] allows
    it. *)
Definition opt_sign (plus : bool) (s : pystr) : bool * pystr :=
  match s with
  | x :: r => if bool_decide (x = "-"%char) then (true, r)
              else if plus && bool_decide (x = "+"%char) then (false, r) else (false, s)
  | [] => (false, s)
  end.

(** The exponent [[eE][-+]?\d+], its value signed. *)
Definition match_exp (s : pystr) : option (Z * pystr) :=
  match s with
  | c :: r =>
      if bool_decide (c = "e"%char) || bool_decide (c = "E"%char) then
        let '(neg, r1) := opt_sign true r in
        match span_digits r1 with
        | ([], _) => None
        | (ds, r2) => Some (if neg then - digits_value ds else digits_value ds, r2)
        end
      else None
  | [] => None
  end.

(** The optional fraction and exponent, and the text after them. *)
Definition opt_frac (s : pystr) : option pystr * pystr :=
  match match_frac s with Some (fp, r) => (Some fp, r) | None => (None, s) end.

Definition opt_exp (s : pystr) : option Z * pystr :=
  match match_exp s with Some (e, r) => (Some e, r) | None => (None, s) end.

(** [_match_number_unicode]: an [int] when there is neither fraction nor
    exponent, a [float] otherwise. *)
Definition match_number (s : pystr) : option (json * pystr) :=
  let '(neg, s1) := opt_sign false s in
  let sign (z : Z) := if neg then - z else z in
  match match_int s1 with
  | None => None
  | Some (ip, r) =>
      let '(fp, r1) := opt_frac r in
      let '(ex, r2) := opt_exp r1 in
      match fp, ex with
      | None, None => Some (JInt (sign (digits_value ip)), r2)
      | _, _ =>
          let fd := default [] fp in
          Some (JFloat (FFin (decimal_q (sign (digits_value (ip ++ fd))) (default 0 ex - Z.of_nat (length fd)))), r2)
      end
  end.

(** ** Values *)

(** [d[k] = v]: a new key goes last, an existing key keeps its place. *)
Fixpoint dict_set {V} (d : dict V) (k : pystr) (v : V) : dict V :=
  match d with
  | [] => [(k, v)]
  | (k', v') :: d' => if bool_decide (k = k') then (k', v) :: d' else (k', v') :: dict_set d' k v
  end.

(** [scan_once_unicode] at the start of [s]; [scan_members] is
    [_parse_object_unicode] at a key, with the members read so far;
    [scan_elems] is [_parse_array_unicode] after an element, with the
    elements read so far, last first. *)
Fixpoint scan_value (fuel : nat) (s : pystr) {struct fuel} : res (json * pystr) :=
  match fuel with
  | O => Err JSONDecodeError
  | S f =>
      match s with
      | [] => Err JSONDecodeError
      | c :: r =>
          if bool_decide (c = quote) then
            '(x, r') ← scan_string r []; Ok (JStr x, r')
          else if bool_decide (c = "{"%char) then
            match skip_ws r with
            | c' :: r' => if bool_decide (c' = "}"%char) then Ok (JObj [], r') else scan_members f (c' :: r') []
            | [] => Err JSONDecodeError
            end
          else if bool_decide (c = "["%char) then
            match skip_ws r with
            | c' :: r' =>
                if bool_decide (c' = "]"%char) then Ok (JArr [], r')
                else '(v, r2) ← scan_value f (c' :: r'); scan_elems f r2 [v]
            | [] => Err JSONDecodeError
            end
          else if starts_with (lit "null") s then Ok (JNull, drop 4 s)
          else if starts_with (lit "true") s then Ok (JBool true, drop 4 s)
          else if starts_with (lit "false") s then Ok (JBool false, drop 5 s)
          else if starts_with (lit "NaN") s then Ok (JFloat FNaN, drop 3 s)
          else if starts_with (lit "Infinity") s then Ok (JFloat (FInf false), drop 8 s)
          else if starts_with (lit "-Infinity") s then Ok (JFloat (FInf true), drop 9 s)
          else match match_number s with Some vr => Ok vr | None => Err JSONDecodeError end
      end
  end
with scan_members (fuel : nat) (s : pystr) (acc : dict json) {struct fuel} : res (json * pystr) :=
  match fuel with
  | O => Err JSONDecodeError
  | S f =>
      match s with
      | c :: r =>
          if bool_decide (c = quote) then
            '(k, r1) ← scan_string r [];
            match skip_ws r1 with
            | c1 :: r2 =>
                if bool_decide (c1 = ":"%char) then
                  '(v, r3) ← scan_value f (skip_ws r2);
                  match skip_ws r3 with
                  | c3 :: r4 =>
                      if bool_decide (c3 = "}"%char) then Ok (JObj (dict_set acc k v), r4)
                      else if bool_decide (c3 = ","%char) then scan_members f (skip_ws r4) (dict_set acc k v)
                      else Err JSONDecodeError
                  | [] => Err JSONDecodeError
                  end
                else Err JSONDecodeError
            | [] => Err JSONDecodeError
            end
          else Err JSONDecodeError
      | [] => Err JSONDecodeError
      end
  end
with scan_elems (fuel : nat) (s : pystr) (acc : list json) {struct fuel} : res (json * pystr) :=
  match fuel with
  | O => Err JSONDecodeError
  | S f =>
      match skip_ws s with
      | c :: r =>
          if bool_decide (c = "]"%char) then Ok (JArr (reverse acc), r)
          else if bool_decide (c = ","%char) then
            '(v, r') ← scan_value f (skip_ws r); scan_elems f r' (v :: acc)
          else Err JSONDecodeError
      | [] => Err JSONDecodeError
      end
  end.

(** [JSONDecoder.decode]: white space, the value, white space, and
    nothing else ([Extra data]). *)
Definition loads_with (fuel : nat) (s : pystr) : res json :=
  '(v, r) ← scan_value fuel (skip_ws s);
  if bool_decide (skip_ws r = []) then Ok v else Err JSONDecodeError.

(** [json.loads(s)]. *)
Definition loads (s : pystr) : res json := loads_with (S (length s)) s.

(** ** The encoder *)

Definition hex_digit (n : Z) : ascii :=
  if n <? 10 then ascii_of_nat (48 + Z.to_nat n)%nat else ascii_of_nat (87 + Z.to_nat n)%nat.

(** [ascii_escape_unichar] for a Latin-1 character: the printable ASCII
    characters other than the quote and the backslash are kept. *)
Definition escape_char (c : ascii) : pystr :=
  if bool_decide (c = quote) then [bslash; quote]
  else if bool_decide (c = bslash) then [bslash; bslash]
  else if bool_decide (c = bsp) then [bslash; "b"%char]
  else if bool_decide (c = ff) then [bslash; "f"%char]
  else if bool_decide (c = nl) then [bslash; "n"%char]
  else if bool_decide (c = cr) then [bslash; "r"%char]
  else if bool_decide (c = tab) then [bslash; "t"%char]
  else if ((32 <=? nat_of_ascii c) && (nat_of_ascii c <=? 126))%nat then [c]
  else let z := Z.of_nat (nat_of_ascii c) in
       [bslash; "u"%char; "0"%char; "0"%char; hex_digit (z / 16); hex_digit (z mod 16)].

(** [py_encode_basestring_ascii]. *)
Definition encode_string (s : pystr) : pystr := quote :: flat_map escape_char s ++ [quote].

(** [json.dumps(j)]; [None] for a finite float, whose [repr] is not
    modelled. *)
Fixpoint dumps (j : json) : option pystr :=
  match j with
  | JNull => Some (lit "null")
  | JBool b => Some (if b then lit "true" else lit "false")
  | JInt z => Some (str_int z)
  | JFloat (FFin _) => None
  | JFloat (FInf neg) => Some (if neg then lit "-Infinity" else lit "Infinity")
  | JFloat FNaN => Some (lit "NaN")
  | JStr s => Some (encode_string s)
  | JArr l =>
      ts ← (fix go (l : list json) : option (list pystr) :=
              match l with [] => Some [] | x :: l' => t ← dumps x; ts ← go l'; Some (t :: ts) end) l;
      Some ("["%char :: join (lit ", ") ts ++ ["]"%char])
  | JObj d =>
      ts ← (fix go (d : dict json) : option (list pystr) :=
              match d with
              | [] => Some []
              | (k, x) :: d' => t ← dumps x; ts ← go d'; Some ((encode_string k ++ lit ": " ++ t) :: ts)
              end) d;
      Some ("{"%char :: join (lit ", ") ts ++ ["}"%char])
  end.

(** The elements and the members of a container, as [dumps] writes them. *)
Fixpoint dumps_list (l : list json) : option (list pystr) :=
  match l with [] => Some [] | x :: l' => t ← dumps x; ts ← dumps_list l'; Some (t :: ts) end.

Fixpoint dumps_dict (d : dict json) : option (list pystr) :=
  match d with
  | [] => Some []
  | (k, x) :: d' => t ← dumps x; ts ← dumps_dict d'; Some ((encode_string k ++ lit ": " ++ t) :: ts)
  end.

(** The values [loads] can give back: no object has a key twice. *)
Fixpoint keys_unique (j : json) : bool :=
  match j with
  | JArr l => forallb keys_unique l
  | JObj d => bool_decide (NoDup (map fst d)) && forallb (fun kx => keys_unique kx.2) d
  | _ => true
  end.

Local Open Scope nat_scope.

(** ** Lemmas: every scan consumes input *)

(** Case analysis on the scanners' tests and binds, in a hypothesis. *)
Ltac scan_cases :=
  repeat first [progress res_inv | case_match | case_bool_decide | discriminate | progress simplify_eq].

Lemma skip_ws_length s : length (skip_ws s) <= length s.
Proof. induction s as [|c s IH]; cbn; [lia|]. destruct (json_ws c); cbn; lia. Qed.

Lemma span_digits_app s : fst (span_digits s) ++ snd (span_digits s) = s.
Proof.
  induction s as [|c s IH]; [reflexivity|]. cbn.
  destruct (is_digit c); [|reflexivity]. destruct (span_digits s). cbn in *. now rewrite IH.
Qed.

Lemma span_digits_length s ds r : span_digits s = (ds, r) -> length r <= length s.
Proof.
  intros H. rewrite <- (span_digits_app s), H, length_app. cbn. lia.
Qed.

Lemma starts_with_length pat s : starts_with pat s = true -> length pat <= length s.
Proof.
  revert s. induction pat as [|p pat IH]; intros [|c s] H; cbn in *; try lia; try discriminate.
  apply andb_true_iff in H as [_ H]. specialize (IH s H). lia.
Qed.

Lemma starts_with_drop pat s : starts_with pat s = true -> pat <> [] -> length (drop (length pat) s) < length s.
Proof.
  intros H Hp. rewrite length_drop. apply starts_with_length in H. destruct pat; [done|]. cbn in *. lia.
Qed.

Lemma scan_string_length s acc x r : scan_string s acc = Ok (x, r) -> length r < length s.
Proof.
  revert acc. induction s as [s IH] using (well_founded_induction (Wf_nat.well_founded_ltof _ (@length _))).
  intros acc H. destruct s as [|c s']; cbn in H; scan_cases; try (cbn; lia);
    match goal with H : scan_string ?t _ = Ok _ |- _ => apply IH in H; unfold ltof in *; cbn in *; lia end.
Qed.

Lemma match_int_length s ip r : match_int s = Some (ip, r) -> length r < length s.
Proof.
  destruct s as [|c s]; cbn; [discriminate|]. intros H.
  destruct (bool_decide _); [simplify_eq/=; lia|]. destruct (is_digit c); [|discriminate].
  destruct (span_digits s) eqn:E. simplify_eq/=. apply span_digits_length in E. lia.
Qed.

Lemma match_frac_length s fp r : match_frac s = Some (fp, r) -> length r < length s.
Proof.
  destruct s as [|c [|d s]]; cbn; try discriminate. intros H.
  destruct (_ && _); [|discriminate]. destruct (span_digits s) eqn:E. simplify_eq/=.
  apply span_digits_length in E. lia.
Qed.

Lemma opt_sign_length plus s : length (opt_sign plus s).2 <= length s.
Proof. destruct s; cbn; [lia|]. repeat case_bool_decide; destruct plus; cbn; lia. Qed.

Lemma match_exp_length s e r : match_exp s = Some (e, r) -> length r < length s.
Proof.
  destruct s as [|c s]; cbn; [discriminate|]. intros H. destruct (_ || _); [|discriminate].
  pose proof (opt_sign_length true s) as Hs. destruct (opt_sign true s) as [neg r1]. cbn in Hs.
  destruct (span_digits r1) as [[|d ds] r2] eqn:E2; [discriminate|]. simplify_eq/=.
  apply span_digits_length in E2. lia.
Qed.

Lemma opt_frac_length s : length (opt_frac s).2 <= length s.
Proof.
  unfold opt_frac. destruct (match_frac s) as [[fp r]|] eqn:E; cbn; [apply match_frac_length in E|]; lia.
Qed.

Lemma opt_exp_length s : length (opt_exp s).2 <= length s.
Proof.
  unfold opt_exp. destruct (match_exp s) as [[e r]|] eqn:E; cbn; [apply match_exp_length in E|]; lia.
Qed.

Lemma match_number_length s v r : match_number s = Some (v, r) -> length r < length s.
Proof.
  unfold match_number. intros H.
  pose proof (opt_sign_length false s) as Hs. destruct (opt_sign false s) as [neg s1]. cbn in Hs.
  destruct (match_int s1) as [[ip r0]|] eqn:E2; [|discriminate]. apply match_int_length in E2.
  pose proof (opt_frac_length r0) as E3. destruct (opt_frac r0) as [fp r1]. cbn in E3.
  pose proof (opt_exp_length r1) as E4. destruct (opt_exp r1) as [ex r2]. cbn in E4.
  destruct fp, ex; simplify_eq/=; lia.
Qed.


Lemma scan_length n :
  (forall s v r, scan_value n s = Ok (v, r) -> length r < length s) /\
  (forall s acc v r, scan_members n s acc = Ok (v, r) -> length r < length s) /\
  (forall s acc v r, scan_elems n s acc = Ok (v, r) -> length r < length s).
Proof.
  induction n as [|n (IHv & IHm & IHe)]; [split_and!; discriminate|].
  split_and!; [intros [|c s] v r H | intros [|c s] acc v r H | intros s acc v r H]; cbn -[starts_with] in H;
    scan_cases;
    repeat match goal with
    | H : scan_string _ _ = Ok (_, _) |- _ => apply scan_string_length in H
    | H : scan_value n _ = Ok (_, _) |- _ => apply IHv in H
    | H : scan_members n _ _ = Ok (_, _) |- _ => apply IHm in H
    | H : scan_elems n _ _ = Ok (_, _) |- _ => apply IHe in H
    | H : match_number _ = Some (_, _) |- _ => apply match_number_length in H
    | H : skip_ws ?t = _ |- _ => pose proof (skip_ws_length t); rewrite H in *; clear H
    | |- context [length (drop _ _)] => rewrite length_drop
    | H : context [skip_ws ?t] |- _ => pose proof (skip_ws_length t); generalize dependent (skip_ws t); intros
    end; cbn [length] in *; lia.
Qed.

(** The length facts of a branch of the scanners, for [lia]. *)
Ltac scan_len :=
  repeat match goal with
  | H : scan_string _ _ = Ok (_, _) |- _ => apply scan_string_length in H
  | H : scan_value _ _ = Ok (_, _) |- _ => apply (proj1 (scan_length _)) in H
  | H : scan_members _ _ _ = Ok (_, _) |- _ => apply (proj1 (proj2 (scan_length _))) in H
  | H : scan_elems _ _ _ = Ok (_, _) |- _ => apply (proj2 (proj2 (scan_length _))) in H
  | H : skip_ws ?t = _ |- _ => pose proof (skip_ws_length t); rewrite H in *; clear H
  | H : context [skip_ws ?t] |- _ => pose proof (skip_ws_length t); generalize dependent (skip_ws t); intros
  | |- context [skip_ws ?t] => pose proof (skip_ws_length t); generalize dependent (skip_ws t); intros
  end; cbn [length] in *; lia.

(** Fuel beyond the length of the text changes nothing. *)
Lemma scan_fuel n :
  (forall s m, length s < n -> n <= m -> scan_value m s = scan_value n s) /\
  (forall s acc m, length s < n -> n <= m -> scan_members m s acc = scan_members n s acc) /\
  (forall s acc m, length s < n -> n <= m -> scan_elems m s acc = scan_elems n s acc).
Proof.
  induction n as [|n (IHv & IHm & IHe)]; [split_and!; intros; lia|].
  split_and!; intros s; intros until m; intros Hs Hm; (destruct m as [|m]; [lia|]); cbn -[starts_with];
    repeat first
      [ reflexivity
      | case_match
      | apply res_bind_ext; intros [? ?] ?; cbn beta iota
      | rewrite (IHv _ m) by scan_len
      | rewrite (IHm _ _ m) by scan_len
      | rewrite (IHe _ _ m) by scan_len ].
Qed.

(** ** Lemmas: numbers written by [str(int)] *)

Definition udigits (u : Decimal.uint) : pystr := lit (NilEmpty.string_of_uint u).

(** What may follow a number without extending it. *)
Definition num_stop (rest : pystr) : bool :=
  match rest with
  | c :: _ => negb (is_digit c) && negb (bool_decide (c = "."%char)) &&
              negb (bool_decide (c = "e"%char)) && negb (bool_decide (c = "E"%char))
  | [] => true
  end.

Lemma udigits_digits u : Forall (fun c => is_digit c = true) (udigits u).
Proof. unfold udigits, lit. induction u; cbn; constructor; auto. Qed.

Lemma digits_value_acc u (acc : positive) :
  fold_left (fun a c => (10 * a + digit_val c)%Z) (udigits u) (Zpos acc) = Zpos (Pos.of_uint_acc u acc).
Proof.
  unfold udigits, lit. revert acc.
  induction u; intros acc; cbn [NilEmpty.string_of_uint String.list_ascii_of_string fold_left Pos.of_uint_acc];
    try reflexivity; rewrite <- IHu; f_equal; unfold digit_val;
    match goal with |- context [Z.of_nat (nat_of_ascii ?c)] =>
      let v := eval vm_compute in (Z.of_nat (nat_of_ascii c)) in change (Z.of_nat (nat_of_ascii c)) with v end; lia.
Qed.

Lemma digits_value_uint u : digits_value (udigits u) = Z.of_N (Pos.of_uint u).
Proof.
  unfold digits_value. induction u; try exact IHu; try reflexivity;
    unfold udigits, lit; cbn [NilEmpty.string_of_uint String.list_ascii_of_string fold_left Pos.of_uint];
    exact (digits_value_acc _ _).
Qed.

Lemma nzhead_head d : match Decimal.nzhead d with Decimal.D0 _ => False | _ => True end.
Proof. induction d; cbn; auto. Qed.

(** The decimal digits of a positive number have no leading zero. *)
Lemma to_uint_head p : match Pos.to_uint p with Decimal.D0 _ | Decimal.Nil => False | _ => True end.
Proof.
  pose proof (DecimalPos.Unsigned.to_of (Pos.to_uint p)) as E.
  rewrite DecimalPos.Unsigned.of_to in E. cbn [N.to_uint] in E.
  pose proof (DecimalPos.Unsigned.to_uint_nonzero p) as Hz.
  pose proof (nzhead_head (Pos.to_uint p)) as Hh. unfold Decimal.unorm in E.
  destruct (Decimal.nzhead (Pos.to_uint p)); rewrite E; try contradiction; auto.
Qed.

Lemma span_digits_all ds rest :
  Forall (fun c => is_digit c = true) ds -> num_stop rest = true -> span_digits (ds ++ rest) = (ds, rest).
Proof.
  intros Hd Hr. induction Hd as [|c ds Hc _ IH]; cbn.
  - destruct rest as [|c rest]; [reflexivity|]. cbn in Hr |- *. destruct (is_digit c); [discriminate|reflexivity].
  - rewrite Hc, IH. reflexivity.
Qed.

Lemma num_stop_frac rest : num_stop rest = true -> opt_frac rest = (None, rest).
Proof.
  unfold opt_frac, match_frac. destruct rest as [|c [|d r]]; try reflexivity.
  cbn. intros H. rewrite (bool_decide_false (c = "."%char)); [reflexivity|].
  intros ->. discriminate H.
Qed.

Lemma num_stop_exp rest : num_stop rest = true -> opt_exp rest = (None, rest).
Proof.
  unfold opt_exp, match_exp. destruct rest as [|c r]; [reflexivity|]. cbn.
  intros H. apply andb_true_iff in H as [H He]. apply andb_true_iff in H as [_ Hee].
  apply negb_true_iff in He, Hee. rewrite He, Hee. reflexivity.
Qed.

Lemma match_number_udigits (neg : bool) u rest :
  match u with Decimal.D0 Decimal.Nil => True | Decimal.D0 _ | Decimal.Nil => False | _ => True end ->
  num_stop rest = true ->
  match_number ((if neg then ["-"%char] else []) ++ udigits u ++ rest) =
  Some (JInt (if neg then - Z.of_N (Pos.of_uint u) else Z.of_N (Pos.of_uint u))%Z, rest).
Proof.
  intros Hu Hr. unfold match_number.
  assert (Hs : opt_sign false ((if neg then ["-"%char] else []) ++ udigits u ++ rest) = (neg, udigits u ++ rest)).
  { destruct neg; [reflexivity|]. destruct u; try contradiction; reflexivity. }
  rewrite Hs. cbv zeta.
  assert (Hi : match_int (udigits u ++ rest) = Some (udigits u, rest)).
  { destruct u as [| [] | u | u | u | u | u | u | u | u | u]; try contradiction;
      try (unfold udigits, lit; cbn [NilEmpty.string_of_uint String.list_ascii_of_string app match_int];
           rewrite bool_decide_false by discriminate; cbn [is_digit];
           fold (lit (NilEmpty.string_of_uint u)); fold (udigits u);
           rewrite span_digits_all by (auto using udigits_digits); reflexivity).
    unfold udigits, lit; cbn. reflexivity. }
  rewrite Hi, num_stop_frac, num_stop_exp by exact Hr. rewrite digits_value_uint. reflexivity.
Qed.

Lemma string_of_uint_pos p : NilZero.string_of_uint (Pos.to_uint p) = NilEmpty.string_of_uint (Pos.to_uint p).
Proof. pose proof (to_uint_head p). unfold NilZero.string_of_uint. now destruct (Pos.to_uint p). Qed.

(** [str(z)] followed by what ends a number is read back as [z]. *)
Lemma match_number_str_int z rest : num_stop rest = true -> match_number (str_int z ++ rest) = Some (JInt z, rest).
Proof.
  intros Hr. unfold str_int. destruct z as [|p|p]; cbn [Z.to_int NilZero.string_of_int].
  - exact (match_number_udigits false (Decimal.D0 Decimal.Nil) rest I Hr).
  - rewrite string_of_uint_pos. pose proof (match_number_udigits false (Pos.to_uint p) rest) as H.
    rewrite DecimalPos.Unsigned.of_to in H. apply H; [|exact Hr]. pose proof (to_uint_head p).
    destruct (Pos.to_uint p) as [|[]| | | | | | | | |]; auto.
  - rewrite string_of_uint_pos. pose proof (match_number_udigits true (Pos.to_uint p) rest) as H.
    rewrite DecimalPos.Unsigned.of_to in H. apply H; [|exact Hr]. pose proof (to_uint_head p).
    destruct (Pos.to_uint p) as [|[]| | | | | | | | |]; auto.
Qed.

(** ** Lemmas: strings written by [encode_string] *)

(** The decoder reads every escape back as its character. *)
Lemma scan_escape c r acc : scan_string (escape_char c ++ r) acc = scan_string r (c :: acc).
Proof. destruct c as [[] [] [] [] [] [] [] []]; reflexivity. Qed.

Lemma scan_encoded s r acc : scan_string (flat_map escape_char s ++ quote :: r) acc = Ok (reverse acc ++ s, r).
Proof.
  revert acc. induction s as [|c s IH]; intros acc; cbn [flat_map].
  - rewrite app_nil_r. reflexivity.
  - rewrite <- app_assoc, scan_escape, IH, reverse_cons, <- app_assoc. reflexivity.
Qed.

Lemma scan_encode_string s r : scan_string (flat_map escape_char s ++ quote :: r) [] = Ok (s, r).
Proof. exact (scan_encoded s r []). Qed.

(** ** Lemmas: the round trip *)

Section JsonInd.
Variable P : json -> Prop.
Hypothesis HNull : P JNull.
Hypothesis HBool : forall b, P (JBool b).
Hypothesis HInt : forall z, P (JInt z).
Hypothesis HFloat : forall f, P (JFloat f).
Hypothesis HStr : forall s, P (JStr s).
Hypothesis HArr : forall l, Forall P l -> P (JArr l).
Hypothesis HObj : forall d, Forall (fun kx => P kx.2) d -> P (JObj d).

(** Induction on values with the hypothesis on every element and member. *)
Fixpoint json_nested_ind (j : json) : P j :=
  match j with
  | JNull => HNull
  | JBool b => HBool b
  | JInt z => HInt z
  | JFloat f => HFloat f
  | JStr s => HStr s
  | JArr l => HArr l ((fix go (l : list json) : Forall P l :=
                         match l with
                         | [] => @List.Forall_nil _ P
                         | x :: l' => @List.Forall_cons _ P x l' (json_nested_ind x) (go l')
                         end) l)
  | JObj d => HObj d ((fix go (d : dict json) : Forall (fun kx => P kx.2) d :=
                         match d with
                         | [] => @List.Forall_nil _ (fun kx => P kx.2)
                         | (k, x) :: d' => @List.Forall_cons _ (fun kx => P kx.2) (k, x) d' (json_nested_ind x) (go d')
                         end) d)
  end.
End JsonInd.

Lemma dumps_JArr l : dumps (JArr l) = ts ← dumps_list l; Some ("["%char :: join (lit ", ") ts ++ ["]"%char]).
Proof. reflexivity. Qed.

Lemma dumps_JObj d : dumps (JObj d) = ts ← dumps_dict d; Some ("{"%char :: join (lit ", ") ts ++ ["}"%char]).
Proof. reflexivity. Qed.

Lemma join_cons_concat sep p ps : join sep (p :: ps) = p ++ flat_map (fun q => sep ++ q) ps.
Proof.
  revert p. induction ps as [|q ps IH]; intros p; [cbn; now rewrite app_nil_r|].
  change (join sep (p :: q :: ps)) with (p ++ sep ++ join sep (q :: ps)). rewrite IH.
  cbn [flat_map]. now rewrite !app_assoc.
Qed.

Lemma dict_set_new {V} (d : dict V) k v : k ∉ map fst d -> dict_set d k v = d ++ [(k, v)].
Proof.
  induction d as [|[k' v'] d IH]; intros Hk; [reflexivity|]. cbn in *.
  rewrite bool_decide_false by (intros ->; apply Hk; left). rewrite IH; [reflexivity|].
  intros H. apply Hk. now right.
Qed.

Lemma str_int_cons z : exists c t, str_int z = c :: t /\ (is_digit c = true \/ c = "-"%char).
Proof.
  pose proof (str_int_chars z) as H. destruct (str_int z) as [|c t] eqn:E.
  - exfalso. revert E. unfold str_int, lit, NilZero.string_of_int, NilZero.string_of_uint.
    destruct (Z.to_int z) as [[]|[]]; discriminate.
  - inversion H. eauto.
Qed.

(** What [dumps] writes of a value, read back in any context a value of
    a container is followed by, with enough fuel; and its first
    character, which is neither white space nor a closing bracket. *)
Definition val_head (t : pystr) : Prop := exists c t', t = c :: t' /\ json_ws c = false /\ c <> "]"%char.

Definition rt (j : json) (t : pystr) : Prop :=
  val_head t /\ exists N, forall n rest, N <= n -> num_stop rest = true -> scan_value n (t ++ rest) = Ok (j, rest).

Lemma skip_ws_head t r : val_head t -> skip_ws (t ++ r) = t ++ r.
Proof. intros (c & t' & -> & Hc & _). cbn. now rewrite Hc. Qed.

Lemma num_stop_sep ps r : num_stop (flat_map (fun q => lit ", " ++ q) ps ++ r) = true \/ ps = [].
Proof. destruct ps; [now right|left; reflexivity]. Qed.

(** One step of the scanners on the characters [dumps] writes. *)
Lemma skip_ws_space r : skip_ws (" "%char :: r) = skip_ws r.
Proof. reflexivity. Qed.

Lemma scan_elems_comma n r acc :
  scan_elems (S n) (","%char :: r) acc = '(v, r') ← scan_value n (skip_ws r); scan_elems n r' (v :: acc).
Proof. reflexivity. Qed.

Lemma scan_elems_close n r acc : scan_elems (S n) ("]"%char :: r) acc = Ok (JArr (reverse acc), r).
Proof. reflexivity. Qed.

Lemma scan_value_arr n c r :
  c <> "]"%char -> json_ws c = false ->
  scan_value (S n) ("["%char :: c :: r) = '(v, r2) ← scan_value n (c :: r); scan_elems n r2 [v].
Proof. intros Hc Hw. simpl. rewrite Hw, bool_decide_false by exact Hc. reflexivity. Qed.

Lemma scan_value_arr_nil n r : scan_value (S n) ("["%char :: "]"%char :: r) = Ok (JArr [], r).
Proof. reflexivity. Qed.

Lemma scan_value_str n r : scan_value (S n) (quote :: r) = '(x, r') ← scan_string r []; Ok (JStr x, r').
Proof. reflexivity. Qed.

Lemma scan_value_obj n r :
  scan_value (S n) ("{"%char :: quote :: r) = scan_members n (quote :: r) [].
Proof. reflexivity. Qed.

Lemma scan_value_obj_nil n r : scan_value (S n) ("{"%char :: "}"%char :: r) = Ok (JObj [], r).
Proof. reflexivity. Qed.

Lemma scan_members_key n r acc :
  scan_members (S n) (quote :: r) acc =
  '(k, r1) ← scan_string r [];
  match skip_ws r1 with
  | c1 :: r2 =>
      if bool_decide (c1 = ":"%char) then
        '(v, r3) ← scan_value n (skip_ws r2);
        match skip_ws r3 with
        | c3 :: r4 =>
            if bool_decide (c3 = "}"%char) then Ok (JObj (dict_set acc k v), r4)
            else if bool_decide (c3 = ","%char) then scan_members n (skip_ws r4) (dict_set acc k v)
            else Err JSONDecodeError
        | [] => Err JSONDecodeError
        end
      else Err JSONDecodeError
  | [] => Err JSONDecodeError
  end.
Proof. reflexivity. Qed.

Lemma elems_rt l ts acc :
  Forall2 rt l ts ->
  exists N, forall n rest, N <= n ->
    scan_elems n (flat_map (fun q => lit ", " ++ q) ts ++ "]"%char :: rest) acc = Ok (JArr (reverse acc ++ l), rest).
Proof.
  intros H. revert acc. induction H as [|x t l ts [Hh [N1 HN1]] _ IH]; intros acc.
  - exists 1. intros [|n] rest Hn; [lia|]. cbn [flat_map app]. rewrite scan_elems_close. now rewrite app_nil_r.
  - destruct (IH (x :: acc)) as [N2 HN2]. exists (S (max N1 N2)). intros [|n] rest Hn; [lia|].
    cbn [flat_map]. rewrite <- !app_assoc. unfold lit at 1. cbn [String.list_ascii_of_string app].
    rewrite scan_elems_comma, skip_ws_space, (skip_ws_head _ _ Hh), HN1;
      [|lia|destruct (num_stop_sep ts ("]"%char :: rest)) as [?| ->]; auto].
    rewrite res_bind_Ok, HN2 by lia. now rewrite reverse_cons, <- app_assoc.
Qed.

(** A member [dumps] writes, read at its key. *)
Lemma scan_member_step n k t x r acc :
  val_head t -> scan_value n (t ++ r) = Ok (x, r) ->
  scan_members (S n) (encode_string k ++ lit ": " ++ t ++ r) acc =
  match skip_ws r with
  | c3 :: r4 =>
      if bool_decide (c3 = "}"%char) then Ok (JObj (dict_set acc k x), r4)
      else if bool_decide (c3 = ","%char) then scan_members n (skip_ws r4) (dict_set acc k x)
      else Err JSONDecodeError
  | [] => Err JSONDecodeError
  end.
Proof.
  intros Hh Hv. unfold encode_string. cbn [app]. rewrite <- !app_assoc. cbn [app].
  rewrite scan_members_key, scan_encode_string, res_bind_Ok. simpl.
  rewrite (skip_ws_head _ _ Hh), Hv. reflexivity.
Qed.

Definition member_rt (kx : pystr * json) (p : pystr) : Prop :=
  exists t, p = encode_string kx.1 ++ lit ": " ++ t /\ rt kx.2 t.

Lemma members_rt d k x p ps acc :
  Forall2 member_rt ((k, x) :: d) (p :: ps) -> NoDup (map fst (acc ++ (k, x) :: d)) ->
  exists N, forall n rest, N <= n ->
    scan_members n (p ++ flat_map (fun q => lit ", " ++ q) ps ++ "}"%char :: rest) acc =
    Ok (JObj (acc ++ (k, x) :: d), rest).
Proof.
  revert k x p ps acc. induction d as [|[k' x'] d IH]; intros k x p ps acc H Hnd;
    apply Forall2_cons_1 in H as [(t & -> & Hh & N1 & HN1) H]; cbn [fst snd] in *;
    assert (Hk : k ∉ map fst acc) by (rewrite map_app in Hnd; cbn [map fst] in Hnd;
      apply NoDup_app in Hnd as (_ & Hk & _); intros Hin; apply (Hk k Hin); left).
  - apply Forall2_nil_inv_l in H as ->. exists (S N1). intros [|n] rest Hn; [lia|].
    cbn [flat_map app]. rewrite <- !app_assoc, (scan_member_step n k t x) by first [exact Hh | apply HN1; [lia|reflexivity]].
    now rewrite dict_set_new.
  - destruct ps as [|p' ps]; [apply Forall2_length in H; discriminate|].
    pose proof H as [(t' & -> & Hh' & _) _]%Forall2_cons_1.
    destruct (IH k' x' _ ps (acc ++ [(k, x)]) H) as [N2 HN2]; [now rewrite <- app_assoc|].
    exists (S (max N1 N2)). intros [|n] rest Hn; [lia|].
    cbn [flat_map]. rewrite <- !app_assoc, (scan_member_step n k t x) by first [exact Hh | apply HN1; [lia|reflexivity]].
    rewrite dict_set_new by exact Hk. specialize (HN2 n rest ltac:(lia)).
    unfold encode_string, lit in *. simpl in *. rewrite <- !app_assoc in *. exact HN2.
Qed.

Lemma dumps_list_rt l ts :
  Forall (fun x => forall t, dumps x = Some t -> keys_unique x = true -> rt x t) l ->
  dumps_list l = Some ts -> forallb keys_unique l = true -> Forall2 rt l ts.
Proof.
  intros H. revert ts. induction H as [|x l Hx _ IH]; intros ts Hd Hk; cbn in Hd.
  - injection Hd as <-. constructor.
  - destruct (dumps x) as [t|] eqn:E1; [|discriminate]. destruct (dumps_list l) as [ts'|]; [|discriminate].
    injection Hd as <-. apply andb_true_iff in Hk as [Hk1 Hk2]. constructor; auto.
Qed.

Lemma dumps_dict_rt d ps :
  Forall (fun kx => forall t, dumps kx.2 = Some t -> keys_unique kx.2 = true -> rt kx.2 t) d ->
  dumps_dict d = Some ps -> forallb (fun kx => keys_unique kx.2) d = true -> Forall2 member_rt d ps.
Proof.
  intros H. revert ps. induction H as [|[k x] d Hx _ IH]; intros ps Hd Hk; cbn in Hd.
  - injection Hd as <-. constructor.
  - destruct (dumps x) as [t|] eqn:E1; [|discriminate]. destruct (dumps_dict d) as [ps'|]; [|discriminate].
    injection Hd as <-. apply andb_true_iff in Hk as [Hk1 Hk2]. constructor; [exists t; split; auto|auto].
Qed.

(** [str(z)] starts with a digit, after a minus sign when negative. *)
Lemma str_int_head z : exists d t, is_digit d = true /\ (str_int z = d :: t \/ str_int z = "-"%char :: d :: t).
Proof.
  assert (Hu : forall p, exists d t, is_digit d = true /\ udigits (Pos.to_uint p) = d :: t).
  { intros p. pose proof (udigits_digits (Pos.to_uint p)) as Hd. pose proof (to_uint_head p) as Hh.
    destruct (udigits (Pos.to_uint p)) as [|d t] eqn:E.
    - unfold udigits, lit in E. destruct (Pos.to_uint p); try contradiction; discriminate.
    - inversion Hd. eauto. }
  unfold str_int. destruct z as [|p|p]; cbn [Z.to_int NilZero.string_of_int].
  - exists "0"%char, []. split; [reflexivity|now left].
  - destruct (Hu p) as (d & t & Hd & E). exists d, t. split; [exact Hd|left].
    rewrite string_of_uint_pos. exact E.
  - destruct (Hu p) as (d & t & Hd & E). exists d, t. split; [exact Hd|right].
    rewrite string_of_uint_pos. unfold udigits in E. unfold lit in *. cbn. now rewrite E.
Qed.

Ltac not_digit Hd := let E := fresh in intros E; first [rewrite E in Hd | rewrite <- E in Hd]; discriminate Hd.

(** A text starting with a digit, or a minus sign and a digit, is a number. *)
Lemma scan_value_digit n d t :
  is_digit d = true -> scan_value (S n) (d :: t) = match match_number (d :: t) with Some vr => Ok vr | None => Err JSONDecodeError end.
Proof. intros Hd. simpl. rewrite !bool_decide_false by not_digit Hd. reflexivity. Qed.

Lemma scan_value_minus n d t :
  is_digit d = true ->
  scan_value (S n) ("-"%char :: d :: t) = match match_number ("-"%char :: d :: t) with Some vr => Ok vr | None => Err JSONDecodeError end.
Proof. intros Hd. simpl. rewrite !(bool_decide_false (_ = d)) by not_digit Hd. reflexivity. Qed.

Lemma rt_int z : rt (JInt z) (str_int z).
Proof.
  destruct (str_int_head z) as (d & t & Hd & E). split.
  - destruct E as [E|E]; rewrite E; do 2 eexists; (split; [reflexivity|]); [|split; [reflexivity|discriminate]].
    unfold json_ws. rewrite !bool_decide_false by not_digit Hd. split; [reflexivity|not_digit Hd].
  - exists 1. intros [|n] rest Hn Hr; [lia|]. pose proof (match_number_str_int z rest Hr) as Hm.
    destruct E as [E|E]; rewrite E in Hm |- *; cbn [app] in *;
      [rewrite scan_value_digit by exact Hd | rewrite scan_value_minus by exact Hd]; now rewrite Hm.
Qed.

Lemma rt_str s : rt (JStr s) (encode_string s).
Proof.
  split; [do 2 eexists; split_and!; reflexivity || discriminate|].
  exists 1. intros [|n] rest Hn _; [lia|]. unfold encode_string. cbn [app]. rewrite <- app_assoc. cbn [app].
  now rewrite scan_value_str, scan_encode_string.
Qed.

(** A literal: [null], [true], [false], [NaN], [Infinity], [-Infinity]. *)
Ltac rt_literal := split; [do 2 eexists; split_and!; reflexivity || discriminate|];
  exists 1; intros [|n] rest Hn _; [lia|reflexivity].

Lemma rt_arr l ts : Forall2 rt l ts -> rt (JArr l) ("["%char :: join (lit ", ") ts ++ ["]"%char]).
Proof.
  intros H. split; [do 2 eexists; split_and!; reflexivity || discriminate|].
  destruct H as [|x t l ts [(c & t' & -> & Hc & Hb) [N1 HN1]] H].
  - exists 1. intros [|n] rest Hn _; [lia|]. apply scan_value_arr_nil.
  - destruct (elems_rt l ts [x] H) as [N2 HN2]. exists (S (max N1 N2)). intros [|n] rest Hn _; [lia|].
    rewrite join_cons_concat. cbn [app]. rewrite <- !app_assoc, scan_value_arr by assumption. cbn [app].
    pose proof (HN1 n (flat_map (fun q => lit ", " ++ q) ts ++ "]"%char :: rest)) as E. cbn [app] in E.
    rewrite E by (lia || now destruct (num_stop_sep ts ("]"%char :: rest)) as [?| ->]).
    rewrite res_bind_Ok. now rewrite HN2 by lia.
Qed.

Lemma rt_obj d ps :
  Forall2 member_rt d ps -> NoDup (map fst d) -> rt (JObj d) ("{"%char :: join (lit ", ") ps ++ ["}"%char]).
Proof.
  intros H Hnd. split; [do 2 eexists; split_and!; reflexivity || discriminate|].
  destruct H as [|[k x] p d ps Hp H].
  - exists 1. intros [|n] rest Hn _; [lia|]. apply scan_value_obj_nil.
  - destruct (members_rt d k x p ps [] (List.Forall2_cons _ _ Hp H) Hnd) as [N HN].
    exists (S N). intros [|n] rest Hn _; [lia|].
    rewrite join_cons_concat. destruct Hp as (t & -> & _). unfold encode_string. cbn [app].
    rewrite <- !app_assoc. cbn [app]. rewrite scan_value_obj.
    specialize (HN n rest ltac:(lia)). unfold encode_string in HN. cbn [app] in HN.
    rewrite <- !app_assoc in HN. exact HN.
Qed.

(** What [dumps] writes of a value without repeated keys is read back as
    the value, in any context and with enough fuel. *)
Lemma dumps_rt j : forall t, dumps j = Some t -> keys_unique j = true -> rt j t.
Proof.
  induction j as [| [] | z | [q|[]|] | s | l IH | d IH] using json_nested_ind; intros t Ht Hk;
    try (cbn [dumps] in Ht; first [discriminate Ht | injection Ht as <-; first [apply rt_int | apply rt_str | rt_literal]]).
  - rewrite dumps_JArr in Ht. destruct (dumps_list l) as [ts|] eqn:E; [|discriminate]. injection Ht as <-.
    apply rt_arr, (dumps_list_rt l); assumption.
  - rewrite dumps_JObj in Ht. destruct (dumps_dict d) as [ps|] eqn:E; [|discriminate]. injection Ht as <-.
    cbn in Hk. apply andb_true_iff in Hk as [Hnd Hk]. apply bool_decide_eq_true in Hnd.
    apply rt_obj; [apply (dumps_dict_rt d)|]; assumption.
Qed.

(** Round trip: whatever [json.dumps] writes of a value in which no
    object repeats a key, [json.loads] reads back as that value. *)
Theorem loads_dumps j t : dumps j = Some t -> keys_unique j = true -> loads t = Ok j.
Proof.
  intros Hd Hk. destruct (dumps_rt j t Hd Hk) as [Hh [N HN]].
  pose proof (skip_ws_head t [] Hh) as E. rewrite app_nil_r in E.
  unfold loads, loads_with. rewrite E.
  rewrite <- ((proj1 (scan_fuel (S (length t)))) t (max N (S (length t)))) by lia.
  specialize (HN (max N (S (length t))) [] ltac:(lia) eq_refl). rewrite app_nil_r in HN.
  now rewrite HN.
Qed.

(** A string in quotes, for the examples. *)
Definition qs (s : String.string) : pystr := quote :: lit s ++ [quote].

(** A value with every kind of node: an envelope whose fragment has a
    newline, a tab and a Latin-1 letter, and a list of scalars. *)
Definition sample_json : json :=
  JObj [(lit "html", JStr (lit "<h5><a href=/reviews/x>X</a></h5>" ++ [nl; tab; "233"%char]));
        (lit "more", JArr [JInt (-12); JInt 0; JBool true; JNull; JFloat (FInf true); JFloat FNaN; JObj []])].

(** ** Theorems *)

(** The decoder's fuel is never what stops it: with any fuel larger
    than the text, [json.loads] gives the same result as with the fuel
    [loads] uses, so [loads] is the decoder as a total function. *)
Theorem loads_fuel s n : length s < n -> loads_with n s = loads s.
Proof.
  intros Hn. unfold loads, loads_with. pose proof (skip_ws_length s).
  now rewrite ((proj1 (scan_fuel (S (length s)))) (skip_ws s) n) by lia.
Qed.

(** The decoder on CPython's cases: white space around a value is
    skipped; a repeated key keeps its first place and its last value;
    a trailing comma, a leading zero, an unknown escape, a raw control
    character in a string, a fraction without digits and text after
    the value raise [JSONDecodeError]; an integer literal is an [int],
    one with a fraction or an exponent a [float]. *)
Example loads_examples :
  loads (lit " {" ++ qs "a" ++ lit ": 1, " ++ qs "b" ++ lit ": 2, " ++ qs "a" ++ lit ": [true, null]} ") =
    Ok (JObj [(lit "a", JArr [JBool true; JNull]); (lit "b", JInt 2)]) /\
  loads (lit "[1, 2,]") = Err JSONDecodeError /\
  loads (lit "01") = Err JSONDecodeError /\
  loads (qs "a\x") = Err JSONDecodeError /\
  loads (quote :: "a"%char :: tab :: [quote]) = Err JSONDecodeError /\
  loads (lit "1.") = Err JSONDecodeError /\
  loads (lit "true false") = Err JSONDecodeError /\
  loads (lit "[-0, 25e-1, -Infinity]") = Ok (JArr [JInt 0; JFloat (FFin (Qmake 25 10)); JFloat (FInf true)]).
Proof. vm_compute. repeat split. Qed.

Example loads_dumps_sample : dumps sample_json <> None /\ loads (default [] (dumps sample_json)) = Ok sample_json.
Proof. vm_compute. split; [discriminate|reflexivity]. Qed.

End JsonText.
