(* ===== verification/Crawler.v ===== *)
(** * The pagination crawler ([RogerEbertSpider], lines 9-43) and Scrapy's engine

    The spider's callbacks are generators: a run yields requests and items
    and may stop on an exception (the items yielded before it are kept).
    [parse] (lines 14-20) asks for page 1 of the listing endpoint;
    [parse_json] (lines 22-40) decodes the envelope, follows every
    [//h5/a/@href] of the fragment with [parse_review] and, when [more] is
    true, asks for the next page.

    Both call [get_page_url] as a bare name: Python resolves it in the
    module's globals, where there is no such name, so the call raises
    [NameError].  The model resolves the name in a list of global names:
    [source_globals] is the module as written; a program where the name
    resolves to the method is the repaired one.

    The engine (Scrapy's scheduler with its duplicate filter) is modelled
    as a step relation: any pending request may be processed next (the
    order of concurrent downloads is not fixed), its callback runs on the
    downloaded body, the yielded items go to the output, the yielded
    requests go through the duplicate filter into the queue, an exception
    is logged with its request and the crawl goes on; a failed download
    is logged too.  The fetcher, the JSON decoder, the HTML parser and URL
    joining are parameters.

    The invariant [listing_inv] (the listing pages asked for are
    [1 .. k], issued in order, at most one pending) holds in every
    reachable state; from it follow the order and last-page theorems and,
    with the measure [crawl_measure], termination.  The items are the
    parses of the issued review pages and the failure log lists the
    others; with [source_globals] nothing is ever crawled.  A small site ([demo_json], [demo_html], [demo_fetch]) gives
    the witnesses. *)

From S2P Require Import Prelude PyStr Html Rating Text Date Review Json.
Import PyStr Html Review Json.

Module Crawler.

(** ** The spider *)

Definition base_url : pystr := lit "https://www.rogerebert.com".

(** Line 43: the listing endpoint with its fixed filters. *)
Definition listing_query : pystr :=
  lit ("/contributors/roger-ebert?filters%5Btitle%5D=&sort%5Border%5D=newest" ++
       "&filters%5Byears%5D%5B%5D=1914&filters%5Byears%5D%5B%5D=2024" ++
       "&filters%5Bstar_rating%5D%5B%5D=0.0&filters%5Bstar_rating%5D%5B%5D=4.0" ++
       "&filters%5Bno_stars%5D=1&page=")%string.

(** Lines 42-43: [get_page_url(self, page)]. *)
Definition get_page_url (page : Z) : pystr := base_url ++ listing_query ++ str_int page.

(** The names bound at the top level of [scrape.py] (imports and the class). *)
Definition source_globals : list pystr :=
  map lit ["datetime"; "json"; "Path"; "re"; "parse_qs"; "urlparse"; "scrapy";
           "RogerEbertSpider"]%string.

(** The bare call [get_page_url(n)] of lines 16 and 36: [NameError] unless
    the name is bound, in which case it is the method above. *)
Definition call_get_page_url (globals : list pystr) (page : Z) : res pystr :=
  if bool_decide (lit "get_page_url" ∈ globals) then Ok (get_page_url page) else Err NameError.

(** Line 12: the class body evaluates [self.base_url], and [self] is bound
    neither in the class body ([name], [base_url]) nor in the module. *)
Definition class_body_names : list pystr := map lit ["name"; "base_url"]%string.

Definition start_urls (globals : list pystr) : res (list pystr) :=
  if bool_decide (lit "self" ∈ class_body_names ++ globals)
  then Ok [base_url ++ lit "/contributors/roger-ebert"]
  else Err NameError.

Inductive callback := Parse | ParseJson (page : Z) | ParseReview.

Record request := Req { url : pystr; accept_json : bool; cb : callback }.

#[global] Instance callback_eq_dec : EqDecision callback.
Proof. solve_decision. Defined.

#[global] Instance request_eq_dec : EqDecision request.
Proof. solve_decision. Defined.

(** What a callback yields: requests and items. *)
Inductive yv := YReq (r : request) | YItem (it : item).

(** A run of a generator: what it yielded, and the exception that ended
    it, if any. *)
Record gen := Gen { yielded : list yv; raised : option exc }.

(** [yield] the values, then let the result of the rest decide. *)
Definition gen_then (ys : list yv) (g : gen) : gen := Gen (ys ++ yielded g) (raised g).

Definition gen_raise (e : exc) : gen := Gen [] (Some e).

(** Lines 14-20. *)
Definition parse (globals : list pystr) : gen :=
  match call_get_page_url globals 1 with
  | Ok u => Gen [YReq (Req u true (ParseJson 1))] None
  | Err e => gen_raise e
  end.

Section Callbacks.

(** [json.loads], the HTML parser, [urljoin] of [response.follow]. *)
Variable json_loads : pystr -> res json.
Variable parse_html : pystr -> node.
Variable urljoin : pystr -> pystr -> pystr.

(** [response.replace(body=html)]: a [str] is the new text, [None] an empty
    body, anything else a [TypeError]. *)
Definition new_body (html : json) : res pystr :=
  match html with
  | JStr s => Ok s
  | JNull => Ok []
  | _ => Err TypeError
  end.

(** Lines 23-27: the envelope's fragment (as the new body) and its
    [more] field. *)
Definition envelope (text : pystr) : res (pystr * json) :=
  j ← json_loads text;
  html ← getitem j (lit "html");
  more ← getitem j (lit "more");
  body ← new_body html;
  Ok (body, more).

(** Lines 29-31: a review request per link of the fragment, in order. *)
Definition review_requests (resp_url body : pystr) : list yv :=
  map (fun l => YReq (Req (urljoin resp_url l) false ParseReview)) (h5_links (parse_html body)).

(** Lines 22-40 for the response of [resp_url] with text [text]. *)
Definition parse_json (globals : list pystr) (resp_url text : pystr) (page : Z) : gen :=
  match envelope text with
  | Err e => gen_raise e
  | Ok (body, more) =>
      gen_then (review_requests resp_url body)
        (if truthy more then
           match call_get_page_url globals (page + 1) with
           | Ok u => Gen [YReq (Req u true (ParseJson (page + 1)))] None
           | Err e => gen_raise e
           end
         else Gen [] None)
  end.

(** [parse_review] as a generator: one item, or the exception. *)
Definition review_gen (text : pystr) : gen :=
  match parse_review parse_html text with
  | Ok it => Gen [YItem it] None
  | Err e => gen_raise e
  end.

Definition run_callback (globals : list pystr) (r : request) (text : pystr) : gen :=
  match cb r with
  | Parse => parse globals
  | ParseJson p => parse_json globals (url r) text p
  | ParseReview => review_gen text
  end.

(** ** The engine *)

(** What the engine logs for a request that gives no normal result: the
    callback's exception, or a failed download. *)
Inductive failure := Raised (e : exc) | DownloadFailed.

(** The scheduler's queue, the requests the duplicate filter has seen (in
    the order it saw them), the items handed to the pipeline, the logged
    failures with their requests, and the requests taken from the queue,
    in the order they were issued. *)
Record state := St {
  pending : list request;
  seen : list request;
  items : list item;
  errors : list (request * failure);
  issued : list request
}.

(** Scheduling the yielded values in order: items to the output, requests
    through the duplicate filter (a request whose URL was seen is dropped). *)
Fixpoint schedule (ys : list yv) (st : state) : state :=
  match ys with
  | [] => st
  | YItem it :: ys' => schedule ys' (St (pending st) (seen st) (items st ++ [it]) (errors st) (issued st))
  | YReq r :: ys' =>
      if bool_decide (url r ∈ map url (seen st)) then schedule ys' st
      else schedule ys' (St (pending st ++ [r]) (seen st ++ [r]) (items st) (errors st) (issued st))
  end.

(** Processing [r], taken out of the queue, with its downloaded text. *)
Definition process (globals : list pystr) (st : state) (r : request) (text : pystr) : state :=
  let g := run_callback globals r text in
  let st' := schedule (yielded g) st in
  St (pending st') (seen st') (items st')
     (errors st' ++ match raised g with Some e => [(r, Raised e)] | None => [] end)
     (issued st' ++ [r]).

Variable globals : list pystr.

(** The site: the text of a URL, [None] when the download fails. *)
Variable fetch : pystr -> option pystr.

Inductive step : state -> state -> Prop :=
  | step_process st pre r post text :
      pending st = pre ++ r :: post ->
      fetch (url r) = Some text ->
      step st (process globals (St (pre ++ post) (seen st) (items st) (errors st) (issued st)) r text)
  | step_drop st pre r post :
      pending st = pre ++ r :: post ->
      fetch (url r) = None ->
      step st (St (pre ++ post) (seen st) (items st) (errors st ++ [(r, DownloadFailed)])
                  (issued st ++ [r])).

(** The start: the request for the start URL, with callback [parse]
    ([start_requests] does not filter it). *)
Definition start_request : request := Req (base_url ++ lit "/contributors/roger-ebert") false Parse.

Definition init : state := St [start_request] [] [] [] [].

Inductive reachable : state -> Prop :=
  | reach_init : reachable init
  | reach_step st st' : reachable st -> step st st' -> reachable st'.

(** One schedule of the engine, executable: always take the oldest
    pending request.  The theorems below hold for every schedule. *)
Fixpoint run (fuel : nat) (st : state) : state :=
  match fuel, pending st with
  | S fuel', r :: rest =>
      match fetch (url r) with
      | Some text => run fuel' (process globals (St rest (seen st) (items st) (errors st) (issued st)) r text)
      | None => run fuel' (St rest (seen st) (items st) (errors st ++ [(r, DownloadFailed)]) (issued st ++ [r]))
      end
  | _, _ => st
  end.

(** ** What the spider yields *)

Definition reqs_of (ys : list yv) : list request :=
  omap (fun y => match y with YReq r => Some r | YItem _ => None end) ys.

Definition items_of (ys : list yv) : list item :=
  omap (fun y => match y with YItem it => Some it | YReq _ => None end) ys.

(** The requests the duplicate filter lets through, given the URLs seen. *)
Fixpoint accept (seen_urls : list pystr) (rs : list request) : list request :=
  match rs with
  | [] => []
  | r :: rs' =>
      if bool_decide (url r ∈ seen_urls) then accept seen_urls rs'
      else r :: accept (seen_urls ++ [url r]) rs'
  end.

(** ** The listing pages *)

(** The page a request asks for, when it is a listing request. *)
Definition listing_page (r : request) : option Z :=
  match cb r with ParseJson p => Some p | _ => None end.

Definition listing_pages (rs : list request) : list Z := omap listing_page rs.

Definition is_parse (r : request) : bool := match cb r with Parse => true | _ => false end.

Definition is_review (r : request) : bool := match cb r with ParseReview => true | _ => false end.

Definition parse_reqs (rs : list request) : list request := filter (fun r => is_parse r = true) rs.

(** A listing request asks for the URL of its page. *)
Definition url_ok (r : request) : Prop :=
  forall p, cb r = ParseJson p -> url r = get_page_url p.

(** The listing request a callback asks for, if it asks for one. *)
Definition next_listing (r : request) : list yv :=
  match cb r with
  | Parse => [YReq (Req (get_page_url 1) true (ParseJson 1))]
  | ParseJson p => [YReq (Req (get_page_url (p + 1)) true (ParseJson (p + 1)))]
  | ParseReview => []
  end.

(** Page [j] of the site's listing makes the spider ask for page [j + 1]. *)
Definition has_next (j : Z) : bool :=
  match fetch (get_page_url j) with
  | Some text =>
      bool_decide (listing_pages (reqs_of (yielded (parse_json globals (get_page_url j) text j))) <> [])
  | None => false
  end.

(** Pages [1 .. k]. *)
Definition pages_upto (k : nat) : list Z := map Z.of_nat (seq 1 k).

(** The listing invariant: the listing pages the crawl asked for are
    [1 .. k] in this order, and each page before [k] asked for the next;
    they are the ones issued followed by the one pending (at most one);
    the start request is pending (once) only before page 1 is asked for;
    a listing request asks for the URL of its page. *)
Definition listing_inv (st : state) : Prop :=
  exists k : nat,
    listing_pages (seen st) = pages_upto k /\
    (forall j : nat, (1 <= j < k)%nat -> has_next (Z.of_nat j) = true) /\
    listing_pages (issued st) ++ listing_pages (pending st) = pages_upto k /\
    (listing_pages (pending st) = [] \/ (1 <= k)%nat /\ listing_pages (pending st) = [Z.of_nat k]) /\
    (parse_reqs (pending st) = [] \/ k = 0%nat /\ length (parse_reqs (pending st)) = 1%nat) /\
    Forall url_ok (pending st).

(** The measure of the termination argument, for a site whose page [N]
    has no next page: twice the listing pages not yet asked for, plus the
    pending start and listing requests. *)
Definition crawl_measure (N : nat) (st : state) : nat :=
  2 * (N - length (listing_pages (seen st))) + length (parse_reqs (pending st)) +
  length (listing_pages (pending st)).

(** The item a review request gives: its page, downloaded and parsed. *)
Definition review_result (r : request) : option item :=
  match fetch (url r) with
  | Some text => match parse_review parse_html text with Ok it => Some it | Err _ => None end
  | None => None
  end.

Definition review_reqs (rs : list request) : list request := filter (fun r => is_review r = true) rs.

(** A review request whose page fails to download or to parse. *)
Definition review_failed (r : request) : bool :=
  match review_result r with Some _ => false | None => true end.

(** The review requests of a failure log. *)
Definition review_failures (es : list (request * failure)) : list request :=
  map fst (filter (fun e => is_review e.1 = true) es).

(** ** Lemmas: the scheduler *)

Lemma schedule_spec ys st :
  schedule ys st =
  St (pending st ++ accept (map url (seen st)) (reqs_of ys))
     (seen st ++ accept (map url (seen st)) (reqs_of ys))
     (items st ++ items_of ys) (errors st) (issued st).
Proof.
  revert st. induction ys as [|[r|it] ys IH]; intros [pe se its er pr]; simpl.
  - now rewrite !app_nil_r.
  - case_bool_decide; rewrite IH; simpl; [reflexivity|].
    rewrite map_app, <- !app_assoc. reflexivity.
  - rewrite IH. simpl. now rewrite <- app_assoc.
Qed.

Lemma accept_sublist su rs : sublist (accept su rs) rs.
Proof.
  revert su. induction rs as [|r rs IH]; intros su; simpl; [constructor|].
  case_bool_decide; [apply sublist_cons, IH|apply sublist_skip, IH].
Qed.

Lemma accept_fresh su rs r : r ∈ accept su rs -> url r ∉ su.
Proof.
  revert su. induction rs as [|r' rs IH]; intros su; simpl; [set_solver|].
  case_bool_decide; [apply IH|]. intros [->|Hin]%elem_of_cons; [assumption|].
  apply IH in Hin. set_solver.
Qed.

(** ** Lemmas: what the callbacks ask for *)

Lemma listing_pages_app rs1 rs2 :
  listing_pages (rs1 ++ rs2) = listing_pages rs1 ++ listing_pages rs2.
Proof. apply omap_app. Qed.

Lemma parse_reqs_app rs1 rs2 : parse_reqs (rs1 ++ rs2) = parse_reqs rs1 ++ parse_reqs rs2.
Proof. apply filter_app. Qed.

Lemma reqs_of_app ys1 ys2 : reqs_of (ys1 ++ ys2) = reqs_of ys1 ++ reqs_of ys2.
Proof. apply omap_app. Qed.

Create Rewrite HintDb crawl.
#[local] Hint Rewrite listing_pages_app parse_reqs_app reqs_of_app : crawl.

Lemma review_requests_review u b :
  Forall (fun r => cb r = ParseReview) (reqs_of (review_requests u b)).
Proof.
  unfold review_requests. induction (h5_links (parse_html b)); simpl; constructor; auto.
Qed.

(** A callback other than [parse_review] yields review requests and at
    most the listing request of [next_listing]. *)
Lemma run_callback_yields r text :
  cb r <> ParseReview ->
  exists body, yielded (run_callback globals r text) `sublist_of`
                 review_requests (url r) body ++ next_listing r.
Proof.
  unfold run_callback, next_listing. destruct (cb r) as [|p|]; intros Hcb; [| |congruence].
  - exists []. unfold parse, call_get_page_url. case_bool_decide; simpl;
      [apply sublist_inserts_l; reflexivity | apply sublist_nil_l].
  - unfold parse_json. destruct (envelope text) as [[body more]|e]; [|exists []; apply sublist_nil_l].
    exists body. simpl. apply sublist_app; [reflexivity|].
    destruct (truthy more); [|apply sublist_nil_l].
    unfold call_get_page_url. case_bool_decide; [reflexivity | apply sublist_nil_l].
Qed.

Lemma review_gen_yields text :
  (exists it, review_gen text = Gen [YItem it] None) \/
  (exists e, review_gen text = Gen [] (Some e)).
Proof. unfold review_gen. destruct (parse_review _ _); eauto. Qed.

Lemma reqs_of_review_gen text : reqs_of (yielded (review_gen text)) = [].
Proof. destruct (review_gen_yields text) as [[? ->]|[? ->]]; reflexivity. Qed.

(** Review requests are neither listing nor start requests. *)
Lemma review_reqs_props rs :
  Forall (fun r => cb r = ParseReview) rs ->
  listing_pages rs = [] /\ Forall (fun r => is_parse r = false) rs /\ Forall url_ok rs.
Proof.
  induction 1 as [|r rs Hr _ (IH1 & IH2 & IH3)]; [repeat constructor|].
  cbn. unfold listing_page at 1, is_parse at 1. rewrite Hr.
  split; [exact IH1|split; constructor; auto]; [now rewrite Hr|].
  intros p Hp. congruence.
Qed.

Lemma next_listing_props r :
  Forall (fun r' => is_parse r' = false) (reqs_of (next_listing r)) /\
  Forall url_ok (reqs_of (next_listing r)).
Proof.
  unfold next_listing. destruct (cb r); split; repeat constructor; unfold url_ok; simpl;
    intros ? [= <-]; reflexivity.
Qed.

(** What the invariant needs of the requests a callback yields. *)
Lemma run_callback_reqs r text (rs := reqs_of (yielded (run_callback globals r text))) :
  listing_pages rs `sublist_of` listing_pages (reqs_of (next_listing r)) /\
  Forall (fun r' => is_parse r' = false) rs /\ Forall url_ok rs.
Proof.
  subst rs. destruct (decide (cb r = ParseReview)) as [Hcb|Hcb].
  - unfold run_callback. rewrite Hcb, reqs_of_review_gen. split; [apply sublist_nil_l|split; constructor].
  - destruct (run_callback_yields r text Hcb) as [body Hs].
    apply (sublist_omap (fun y => match y with YReq r => Some r | YItem _ => None end)) in Hs.
    fold (reqs_of (yielded (run_callback globals r text))) in Hs. fold (reqs_of (review_requests (url r) body ++ next_listing r)) in Hs.
    rewrite reqs_of_app in Hs.
    destruct (review_reqs_props _ (review_requests_review (url r) body)) as (H1 & H2 & H3).
    destruct (next_listing_props r) as [H4 H5].
    split; [|split]; [|eapply Forall_sublist; [exact Hs | apply Forall_app; auto]..].
    rewrite <- (app_nil_l (listing_pages (reqs_of (next_listing r)))), <- H1, <- listing_pages_app.
    now apply sublist_omap.
Qed.

Lemma run_reachable fuel st : reachable st -> reachable (run fuel st).
Proof.
  revert st. induction fuel as [|fuel IH]; intros st Hr; [exact Hr|]. cbn.
  destruct (pending st) as [|r rest] eqn:Hp; [exact Hr|].
  destruct (fetch (url r)) as [text|] eqn:Hf; apply IH; eapply reach_step; try exact Hr.
  - exact (step_process st [] r rest text Hp Hf).
  - exact (step_drop st [] r rest Hp Hf).
Qed.

(** ** Lemmas: the listing invariant *)

Lemma listing_pages_one r :
  listing_pages [r] = match cb r with ParseJson p => [p] | _ => [] end.
Proof. cbn. unfold listing_page. destruct (cb r); reflexivity. Qed.

Lemma parse_reqs_one r : parse_reqs [r] = match cb r with Parse => [r] | _ => [] end.
Proof. unfold parse_reqs, is_parse. cbn. destruct (cb r); reflexivity. Qed.

Lemma parse_reqs_nil rs : Forall (fun r => is_parse r = false) rs -> parse_reqs rs = [].
Proof.
  induction 1 as [|r rs Hr _ IH]; [reflexivity|].
  unfold parse_reqs. rewrite filter_cons_False by congruence. exact IH.
Qed.

Lemma pages_upto_S k : pages_upto (S k) = pages_upto k ++ [Z.of_nat (S k)].
Proof. unfold pages_upto. rewrite seq_S, map_app. reflexivity. Qed.

Lemma app_cons_unit {A} (X Y : list A) a b : X ++ a :: Y = [b] -> X = [] /\ Y = [] /\ a = b.
Proof. destruct X as [|x [|]]; simpl; intros [=]; auto; discriminate. Qed.

#[local] Hint Rewrite listing_pages_one parse_reqs_one app_nil_r app_nil_l : crawl.
#[local] Hint Rewrite <- app_assoc : crawl.

(** Taking [r] out of the queue and adding [A], the requests the callback
    yielded that the duplicate filter let through, keeps the invariant. *)
Lemma listing_inv_take st pre r post A its errs :
  listing_inv st -> pending st = pre ++ [r] ++ post ->
  listing_pages A `sublist_of` listing_pages (reqs_of (next_listing r)) ->
  Forall (fun r' => is_parse r' = false) A -> Forall url_ok A ->
  (forall p, cb r = ParseJson p -> listing_pages A <> [] -> has_next p = true) ->
  listing_inv (St ((pre ++ post) ++ A) (seen st ++ A) its errs (issued st ++ [r])).
Proof.
  intros (k & Hseen & Hnext & Hiss & Hpend & Hparse & Hurl) Hst HA HpA HuA Hhas.
  rewrite Hst in Hiss, Hpend, Hparse, Hurl. rewrite !Forall_app in Hurl.
  destruct Hurl as (Hu1 & _ & Hu2).
  unfold listing_inv; cbn [pending seen issued]. unfold next_listing in HA.
  autorewrite with crawl in *. rewrite (parse_reqs_nil A HpA) in *. autorewrite with crawl in *.
  destruct (cb r) as [|p|] eqn:Ecb; cbn in HA; autorewrite with crawl in *;
    apply sublist_singleton in HA || apply sublist_nil_r in HA;
    setoid_rewrite Hseen.
  - (* the start request: page 1 is not asked for yet *)
    destruct Hparse as [Hp|[-> Hp]]; [destruct (parse_reqs pre); discriminate|].
    rewrite !length_app in Hp. cbn in Hp.
    destruct Hpend as [(Hx & Hy)%app_eq_nil|[? _]]; [|lia]. rewrite Hx, Hy in *. cbn in *.
    rewrite app_nil_r in Hiss.
    assert (parse_reqs pre ++ parse_reqs post = []) as ->
      by (apply length_zero_iff_nil; rewrite length_app; lia).
    destruct HA as [-> | ->]; [exists 0%nat | exists 1%nat]; cbn; rewrite ?app_nil_r, ?Hiss;
      rewrite ?Forall_app; repeat split; auto; intros; lia.
  - (* listing page [k] *)
    destruct Hpend as [Hx|[Hk (Hx & Hy & ->)%app_cons_unit]]; [destruct (listing_pages pre); discriminate|].
    rewrite Hx, Hy in *. destruct Hparse as [Hp|[-> _]]; [|lia]. cbn in *. rewrite Hp.
    destruct HA as [HL | HL]; rewrite HL in *.
    + exists k. rewrite ?app_nil_r, ?Forall_app. repeat split; auto.
    + exists (S k). rewrite pages_upto_S, <- Hiss, !Forall_app, <- !app_assoc.
      replace (Z.of_nat k + 1)%Z with (Z.of_nat (S k)) by lia.
      repeat split; auto. intros j Hj.
      destruct (decide (j = k)) as [->|]; [apply Hhas; congruence | apply Hnext; lia].
  - (* a review page *)
    rewrite HA in *. exists k. cbn in *. rewrite ?app_nil_r, ?Forall_app. repeat split; auto.
Qed.

Lemma listing_inv_init : listing_inv init.
Proof.
  exists 0%nat. cbn.
  repeat split; [intros; lia|left; reflexivity|right; split; reflexivity|].
  repeat constructor. discriminate.
Qed.

(** The requests the duplicate filter lets through satisfy what the
    invariant needs of the callback's requests. *)
Lemma accept_reqs su r text (A := accept su (reqs_of (yielded (run_callback globals r text)))) :
  listing_pages A `sublist_of` listing_pages (reqs_of (next_listing r)) /\
  Forall (fun r' => is_parse r' = false) A /\ Forall url_ok A /\
  (listing_pages A <> [] -> listing_pages (reqs_of (yielded (run_callback globals r text))) <> []).
Proof.
  destruct (run_callback_reqs r text) as (H1 & H2 & H3).
  pose proof (accept_sublist su (reqs_of (yielded (run_callback globals r text)))) as Hs.
  split; [|split; [|split]]; [etrans; [apply sublist_omap, Hs | exact H1]
                             | eapply Forall_sublist; eassumption..|].
  intros HA HR. apply HA, sublist_nil_r. rewrite <- HR. apply sublist_omap, Hs.
Qed.

Lemma listing_inv_step st st' : listing_inv st -> step st st' -> listing_inv st'.
Proof.
  intros Hinv Hs. pose proof Hinv as (k & _ & _ & _ & _ & _ & Hurl).
  destruct Hs as [st pre r post text Hst Hf|st pre r post Hst Hf].
  - unfold process. rewrite schedule_spec. cbn [pending seen items errors issued].
    destruct (accept_reqs (map url (seen st)) r text) as (H1 & H2 & H3 & H4).
    apply (listing_inv_take st pre r post); auto. intros p Hp HA.
    rewrite Hst, Forall_app in Hurl. destruct Hurl as [_ Hu%Forall_inv].
    apply H4 in HA. unfold run_callback in HA. rewrite Hp in HA.
    unfold has_next. rewrite <- (Hu p Hp), Hf. now apply bool_decide_eq_true.
  - rewrite <- (app_nil_r (pre ++ post)), <- (app_nil_r (seen st)).
    apply (listing_inv_take st pre r post []);
      [assumption|assumption|apply sublist_nil_l|constructor|constructor|].
    intros ? _ []; reflexivity.
Qed.

Lemma listing_inv_reachable st : reachable st -> listing_inv st.
Proof. induction 1; eauto using listing_inv_init, listing_inv_step. Qed.

(** ** Lemmas: termination *)

(** On a site whose page [N] has no next page, no page beyond [N] is ever
    asked for. *)
Lemma seen_bound N st :
  (1 <= N)%nat -> has_next (Z.of_nat N) = false -> reachable st ->
  (length (listing_pages (seen st)) <= N)%nat.
Proof.
  intros HN Hl (k & Hs & Hn & _)%listing_inv_reachable.
  rewrite Hs. unfold pages_upto. rewrite length_map, length_seq.
  destruct (decide (k <= N)%nat); [lia|]. rewrite Hn in Hl; [discriminate|lia].
Qed.

Lemma measure_take N st pre r post A its errs :
  pending st = pre ++ [r] ++ post ->
  listing_pages A `sublist_of` listing_pages (reqs_of (next_listing r)) ->
  Forall (fun r' => is_parse r' = false) A -> (cb r = ParseReview -> A = []) ->
  (length (listing_pages (seen st ++ A)) <= N)%nat ->
  let st' := St ((pre ++ post) ++ A) (seen st ++ A) its errs (issued st ++ [r]) in
  crawl_measure N st' < crawl_measure N st \/
  crawl_measure N st' = crawl_measure N st /\ length (pending st') < length (pending st).
Proof.
  intros Hst HA HpA Hrev Hb st'. subst st'. unfold crawl_measure; cbn [pending seen]. rewrite Hst.
  unfold next_listing in HA. autorewrite with crawl in *. rewrite (parse_reqs_nil A HpA).
  rewrite !length_app in *.
  destruct (cb r) eqn:Ecb; cbn in HA |- *; rewrite ?length_app in *;
    [apply sublist_singleton in HA..| rewrite Hrev by reflexivity; cbn in *; lia];
    destruct HA as [HA|HA]; rewrite HA in *; cbn in *; lia.
Qed.

Lemma step_measure N st st' :
  (1 <= N)%nat -> has_next (Z.of_nat N) = false -> reachable st -> step st st' ->
  crawl_measure N st' < crawl_measure N st \/
  crawl_measure N st' = crawl_measure N st /\ length (pending st') < length (pending st).
Proof.
  intros HN Hl Hr Hs. pose proof (seen_bound N st' HN Hl (reach_step _ _ Hr Hs)) as Hb.
  destruct Hs as [st pre r post text Hst Hf|st pre r post Hst Hf].
  - revert Hb. unfold process. rewrite schedule_spec. cbn [pending seen items errors issued]. intros Hb.
    destruct (accept_reqs (map url (seen st)) r text) as (H1 & H2 & _).
    apply measure_take; auto. intros Hcb. unfold run_callback. rewrite Hcb, reqs_of_review_gen.
    reflexivity.
  - rewrite <- (app_nil_r (pre ++ post)), <- (app_nil_r (seen st)).
    apply measure_take; [assumption|apply sublist_nil_l|constructor|reflexivity|].
    rewrite app_nil_r. exact Hb.
Qed.

Lemma reachable_Acc N st :
  (1 <= N)%nat -> has_next (Z.of_nat N) = false -> reachable st ->
  Acc (fun st2 st1 => step st1 st2) st.
Proof.
  intros HN Hl. revert st.
  enough (H : forall a b st, reachable st -> crawl_measure N st = a -> length (pending st) = b ->
                             Acc (fun st2 st1 => step st1 st2) st) by eauto.
  induction a as [a IHa] using lt_wf_ind. induction b as [b IHb] using lt_wf_ind.
  intros st Hr Ea Eb. constructor. intros st' Hs.
  destruct (step_measure N st st' HN Hl Hr Hs) as [Hlt|[Heq Hlt]].
  - eapply (IHa (crawl_measure N st')); [lia | eauto using reach_step | reflexivity | reflexivity].
  - eapply (IHb (length (pending st'))); [lia | eauto using reach_step | lia | reflexivity].
Qed.

(** ** Lemmas: items and the duplicate filter *)

Lemma items_of_run_callback r text :
  cb r <> ParseReview -> items_of (yielded (run_callback globals r text)) = [].
Proof.
  intros Hcb. destruct (run_callback_yields r text Hcb) as [body Hs].
  apply sublist_nil_r. etrans; [apply (sublist_omap _ _ _ Hs)|].
  fold (items_of (review_requests (url r) body ++ next_listing r)). unfold items_of.
  rewrite omap_app. unfold review_requests, next_listing.
  induction (h5_links (parse_html body)); [destruct (cb r)|]; cbn; auto.
Qed.

Lemma items_of_review_gen text :
  items_of (yielded (review_gen text)) =
  match parse_review parse_html text with Ok it => [it] | Err _ => [] end.
Proof. unfold review_gen. destruct (parse_review _ _); reflexivity. Qed.

Lemma review_reqs_one r : review_reqs [r] = if is_review r then [r] else [].
Proof. unfold review_reqs. cbn. destruct (is_review r); reflexivity. Qed.

Lemma items_step st st' :
  items st = omap review_result (review_reqs (issued st)) -> step st st' ->
  items st' = omap review_result (review_reqs (issued st')).
Proof.
  intros Hi Hs. revert Hi. destruct Hs as [st pre r post text Hst Hf|st pre r post Hst Hf];
    intros Hi; unfold process; rewrite ?schedule_spec; cbn [items issued];
    unfold review_reqs; rewrite filter_app, omap_app; fold (review_reqs [r]);
    rewrite review_reqs_one, Hi; unfold is_review.
  - destruct (cb r) eqn:Ecb; [rewrite items_of_run_callback by congruence; reflexivity..|].
    unfold run_callback. rewrite Ecb, items_of_review_gen. cbn. unfold review_result.
    rewrite Hf. destruct (parse_review _ _); reflexivity.
  - destruct (cb r); cbn; unfold review_result; rewrite ?Hf; now rewrite ?app_nil_r.
Qed.

Lemma items_reachable st :
  reachable st -> items st = omap review_result (review_reqs (issued st)).
Proof. induction 1; [reflexivity | eapply items_step; eassumption]. Qed.

Lemma items_app_step st st' : step st st' -> exists l, items st' = items st ++ l.
Proof.
  destruct 1 as [st pre r post text _ _|st pre r post _ _]; [|exists []; now rewrite app_nil_r].
  unfold process. rewrite schedule_spec. cbn. eauto.
Qed.

Lemma review_result_wf r it : review_result r = Some it -> item_wf it.
Proof.
  unfold review_result. destruct (fetch (url r)); [|discriminate].
  destruct (parse_review _ _) eqn:E; intros [= <-]. eapply parse_review_item_wf; eassumption.
Qed.

Lemma review_failures_app es1 es2 :
  review_failures (es1 ++ es2) = review_failures es1 ++ review_failures es2.
Proof. unfold review_failures. now rewrite filter_app, map_app. Qed.

Lemma failures_step st st' :
  review_failures (errors st) = filter (fun r => review_failed r = true) (review_reqs (issued st)) ->
  step st st' ->
  review_failures (errors st') = filter (fun r => review_failed r = true) (review_reqs (issued st')).
Proof.
  intros Hf Hs. revert Hf. destruct Hs as [st pre r post text Hst Hfe|st pre r post Hst Hfe];
    intros Hf; unfold process; rewrite ?schedule_spec; cbn [errors issued];
    rewrite review_failures_app, Hf; unfold review_reqs; rewrite !filter_app; f_equal;
    fold (review_reqs [r]); rewrite review_reqs_one; unfold is_review; unfold run_callback;
    destruct (cb r) eqn:Ecb; cbn.
  - destruct (raised (parse globals)); [|reflexivity]. unfold review_failures, is_review. cbn. rewrite ?Ecb; reflexivity.
  - destruct (raised (parse_json _ _ _ _)); [|reflexivity].
    unfold review_failures, is_review. cbn. rewrite ?Ecb; reflexivity.
  - unfold review_gen, review_failed, review_result. rewrite Hfe.
    destruct (parse_review _ _); unfold review_failures, is_review; cbn; rewrite ?Ecb; reflexivity.
  - unfold is_review. rewrite ?Ecb; reflexivity.
  - unfold is_review. rewrite ?Ecb; reflexivity.
  - unfold is_review, review_failed, review_result. rewrite ?Ecb, ?Hfe; reflexivity.
Qed.

(** ** Lemmas: listing URLs *)

Lemma get_page_url_inj p q : get_page_url p = get_page_url q -> p = q.
Proof. unfold get_page_url. intros H. do 2 apply List.app_inv_head in H. now apply str_int_inj. Qed.

(** ** Theorems *)

(** C3: listing pages are asked for and issued in increasing page order
    (spec section 5): in every reachable state the listing pages that
    passed the duplicate filter are exactly [1 .. k], in this order; each
    page before [k] asked for the next one; and the listing requests
    issued so far are [1 .. k'], with [k'] equal to [k] or [k - 1]. *)
Theorem listing_pages_in_order st :
  reachable st ->
  exists k : nat,
    listing_pages (seen st) = pages_upto k /\
    (forall j : nat, (1 <= j < k)%nat -> has_next (Z.of_nat j) = true) /\
    exists k', (k' <= k <= S k')%nat /\ listing_pages (issued st) = pages_upto k'.
Proof.
  intros (k & Hs & Hn & Hi & Hp & _)%listing_inv_reachable.
  exists k. split; [exact Hs|split; [exact Hn|]].
  destruct Hp as [Hp|[Hk Hp]]; rewrite Hp in Hi.
  - exists k. rewrite app_nil_r in Hi. split; [lia|exact Hi].
  - destruct k as [|k]; [lia|]. rewrite pages_upto_S in Hi.
    apply app_inj_tail in Hi as [Hi _]. exists k. split; [lia|exact Hi].
Qed.

(** C4: termination (spec section 5: the crawl must be finite): on a site
    where some listing page [N] does not ask for a next page, every run of
    the engine from the start is finite: the start state is accessible
    for the step relation. *)
Theorem crawl_terminates N :
  (1 <= N)%nat -> has_next (Z.of_nat N) = false -> Acc (fun st2 st1 => step st1 st2) init.
Proof. intros HN Hl. exact (reachable_Acc N init HN Hl reach_init). Qed.

(** C5: one outcome per review page, and failures are isolated (spec
    section 3 and 7): the items of a reachable state are exactly the
    parses of the review pages issued so far, in the order they were
    issued; a page that fails to download or to parse contributes no item
    and stops nothing else. *)
Theorem crawl_items st :
  reachable st -> items st = omap review_result (review_reqs (issued st)).
Proof. apply items_reachable. Qed.

(** emitted items stay valid (spec section 5, cancellation): every
    item a reachable state has emitted is well formed, and every further
    step only appends items, so stopping the crawl at any point leaves the
    items emitted so far intact. *)
Theorem crawl_items_wf st :
  reachable st ->
  Forall item_wf (items st) /\ forall st', step st st' -> exists l, items st' = items st ++ l.
Proof.
  intros Hr. split; [|apply items_app_step].
  rewrite (items_reachable st Hr). apply Forall_forall. intros it (r & _ & Hr')%list_elem_of_omap.
  eapply review_result_wf; eassumption.
Qed.

(** C20: failures are logged per document (spec section 7): the review
    requests in the failure log of a reachable state are exactly the
    issued review requests whose page failed to download or to parse, in
    issue order, each with its URL; with [crawl_items], every issued review
    page gives exactly one item or one logged failure. *)
Theorem crawl_failures st :
  reachable st ->
  review_failures (errors st) = filter (fun r => review_failed r = true) (review_reqs (issued st)).
Proof. induction 1; [reflexivity | eapply failures_step; eassumption]. Qed.

End Callbacks.

(** ** The spider as written *)

Lemma parse_source : parse source_globals = gen_raise NameError.
Proof. vm_compute. reflexivity. Qed.

(** C8: the spider as written never gets past its start page (a code
    bug): loading the class raises [NameError] (line 12 evaluates
    [self.base_url] in the class body), and a crawl started from the
    start URL by hand fails in [parse] (line 16 calls the method
    [get_page_url] as a global name), so in every reachable state no item
    was produced, no request passed the duplicate filter, and only the
    start request can be pending. *)
Theorem source_crawl_stuck :
  start_urls source_globals = Err NameError /\
  forall json_loads parse_html urljoin fetch st,
    reachable json_loads parse_html urljoin source_globals fetch st ->
    items st = [] /\ seen st = [] /\ Forall (fun r => r = start_request) (pending st).
Proof.
  split; [vm_compute; reflexivity|]. intros json_loads parse_html urljoin fetch st.
  induction 1 as [|st st' _ (Hi & Hs & Hp) Hstep]; [cbn; auto|].
  revert Hi Hs Hp. destruct Hstep as [st pre r post text Hst Hf|st pre r post Hst Hf];
    intros Hi Hs Hp; rewrite Hst, Forall_app, Forall_cons in Hp; destruct Hp as (Hpre & -> & Hpost);
    [unfold process, run_callback; cbn [cb start_request]; rewrite parse_source|]; cbn;
    rewrite ?app_nil_r, ?Forall_app; auto.
Qed.

End Crawler.
