(* ===== verification/Engine.v ===== *)
(** * Scrapy's scheduler policies and the order of their runs

    [Crawler.step] lets the engine take any pending request.  Scrapy's
    default scheduler is a priority queue of [LifoMemoryQueue]s
    ([SCHEDULER_MEMORY_QUEUE]); every request of the spider has the
    default priority 0 ([DEPTH_PRIORITY] is 0), so the next request is
    the one enqueued last.  A scheduler is modelled by the way it takes a
    request out of the queue ([take_fn]); [run_with] runs the engine with
    one request in flight at a time.  [lifo_take] is Scrapy's default,
    [fifo_take] the oldest-first order of [Crawler.run].

    - Every policy that takes a request of the queue refines the step
      relation: its runs are reachable states, so the theorems of
      [Crawler] hold of them ([run_with_reachable]).
    - Under [lifo_take] the issued requests are the start page and
      listing pages, then review pages only ([lifo_listing_first]): a
      review is fetched only once no listing request is queued.  With
      the site-level hypotheses of [Contract], both policies drain the
      queue ([Contract.crawl_contract], [Contract.crawl_contract_lifo]),
      and on a site that always has more the LIFO crawl never fetches a
      review ([Contract.crawl_unbounded]).

    Concurrent downloads ([CONCURRENT_REQUESTS]) complete in any order;
    the step relation covers them, [run_with] fixes one. *)

From S2P Require Import Prelude PyStr Html Review Json Crawler.
Import PyStr Html Review Json Crawler.

Module Engine.

(** How a scheduler takes the next request out of its queue: the
    requests before it, the request, the requests after it. *)
Definition take_fn := list request -> option (list request * request * list request).

(** The oldest request first. *)
Definition fifo_take : take_fn := fun q =>
  match q with r :: rest => Some ([], r, rest) | [] => None end.

(** [LifoMemoryQueue.pop]: the request enqueued last. *)
Definition lifo_take : take_fn := fun q =>
  match last q with Some r => Some (removelast q, r, []) | None => None end.

Section Policies.
Variable json_loads : pystr -> res json.
Variable parse_html : pystr -> node.
Variable urljoin : pystr -> pystr -> pystr.
Variable globals : list pystr.
Variable fetch : pystr -> option pystr.

Local Abbreviation step := (step json_loads parse_html urljoin globals fetch).
Local Abbreviation reachable := (reachable json_loads parse_html urljoin globals fetch).
Local Abbreviation process := (process json_loads parse_html urljoin).
Local Abbreviation run_callback := (run_callback json_loads parse_html urljoin globals).

(** The engine takes the request the scheduler gives it, downloads it and
    runs its callback, or logs the failed download. *)
Definition engine_step (take : take_fn) (st : state) : option state :=
  match take (pending st) with
  | Some (pre, r, post) =>
      Some (match fetch (url r) with
            | Some text => process globals (St (pre ++ post) (seen st) (items st) (errors st) (issued st)) r text
            | None => St (pre ++ post) (seen st) (items st) (errors st ++ [(r, DownloadFailed)]) (issued st ++ [r])
            end)
  | None => None
  end.

(** The engine until the queue is empty, at most [fuel] requests. *)
Fixpoint run_with (take : take_fn) (fuel : nat) (st : state) : state :=
  match fuel with
  | O => st
  | S fuel' => match engine_step take st with Some st' => run_with take fuel' st' | None => st end
  end.

(** The crawl under Scrapy's default scheduler. *)
Definition run_lifo : nat -> state -> state := run_with lifo_take.

(** A policy takes one of the queued requests, and only an empty queue
    gives none. *)
Definition take_ok (take : take_fn) : Prop :=
  forall q, match take q with Some (pre, r, post) => q = pre ++ r :: post | None => q = [] end.

(** Under the LIFO schedule: the queue is review requests followed by at
    most one other request, and the issued requests are other requests
    followed by review requests, none of them issued while another
    request was queued. *)
Definition lifo_inv (st : state) : Prop :=
  exists R L P V, pending st = R ++ L /\ issued st = P ++ V /\
    Forall (fun r => is_review r = true) R /\ Forall (fun r => is_review r = false) L /\
    Forall (fun r => is_review r = false) P /\ Forall (fun r => is_review r = true) V /\
    (length L <= 1)%nat /\ (V <> [] -> L = []).

(** ** Lemmas: policies *)

Lemma fifo_take_ok : take_ok fifo_take.
Proof. intros [|r q]; reflexivity. Qed.

Lemma lifo_take_ok : take_ok lifo_take.
Proof.
  intros q. unfold lifo_take. destruct (last q) as [r|] eqn:E.
  - apply last_Some in E as [q' ->]. now rewrite removelast_last.
  - now apply last_None.
Qed.

Lemma take_ok_nil take : take_ok take -> take [] = None.
Proof.
  intros Hok. specialize (Hok []). destruct (take []) as [[[pre r] post]|]; [|reflexivity].
  destruct pre; discriminate.
Qed.

(** A step of the engine is a step of the model, and it stops only on an
    empty queue. *)
Lemma engine_step_spec take st :
  take_ok take -> match engine_step take st with Some st' => step st st' | None => pending st = [] end.
Proof.
  intros Hok. unfold engine_step. specialize (Hok (pending st)).
  destruct (take (pending st)) as [[[pre r] post]|]; [|exact Hok].
  destruct (fetch (url r)) eqn:Hf; [eapply step_process|eapply step_drop]; eassumption.
Qed.

Lemma run_with_reachable take fuel st : take_ok take -> reachable st -> reachable (run_with take fuel st).
Proof.
  intros Hok. revert st. induction fuel as [|fuel IH]; intros st Hr; [exact Hr|]. cbn.
  pose proof (engine_step_spec take st Hok) as Hs.
  destruct (engine_step take st); [apply IH; eapply reach_step; eassumption|exact Hr].
Qed.

Lemma run_with_stop take fuel st : take_ok take -> pending st = [] -> run_with take fuel st = st.
Proof.
  intros Hok Hp. destruct fuel; [reflexivity|]. cbn. unfold engine_step. rewrite Hp, take_ok_nil by exact Hok.
  reflexivity.
Qed.

Lemma run_with_add take a b st : run_with take (a + b) st = run_with take b (run_with take a st).
Proof.
  revert st. induction a as [|a IH]; intros st; [reflexivity|]. cbn.
  destruct (engine_step take st) eqn:E; [apply IH|]. destruct b; cbn; [reflexivity|]. now rewrite E.
Qed.

(** Once the queue is empty, more fuel changes nothing. *)
Lemma run_with_settled take fuel st :
  take_ok take -> pending (run_with take fuel st) = [] ->
  forall fuel', fuel <= fuel' -> run_with take fuel' st = run_with take fuel st.
Proof.
  intros Hok Hp fuel' Hf. replace fuel' with (fuel + (fuel' - fuel)) by lia.
  rewrite run_with_add. now apply run_with_stop.
Qed.

(** [Crawler.run] is the oldest-first policy. *)
Lemma run_fifo fuel st :
  run json_loads parse_html urljoin globals fetch fuel st = run_with fifo_take fuel st.
Proof.
  revert st. induction fuel as [|fuel IH]; intros st; [reflexivity|]. cbn. unfold engine_step.
  destruct (pending st) as [|r rest]; [reflexivity|]. cbn. destruct (fetch (url r)); apply IH.
Qed.

(** ** Lemmas: the LIFO order *)

(** What the duplicate filter lets through of a callback other than
    [parse_review]: review requests, then at most the request of
    [next_listing] (lines 31 and 35 yield in this order). *)
Lemma accept_split su x text :
  is_review x = false ->
  exists A1 A2, accept su (reqs_of (yielded (run_callback x text))) = A1 ++ A2 /\
    Forall (fun r => is_review r = true) A1 /\ Forall (fun r => is_review r = false) A2 /\ (length A2 <= 1)%nat.
Proof.
  intros Hx. assert (Hcb : cb x <> ParseReview) by (unfold is_review in Hx; intros E; rewrite E in Hx; discriminate).
  destruct (run_callback_yields json_loads parse_html urljoin globals x text Hcb) as [body Hs].
  apply (sublist_omap (fun y => match y with YReq r => Some r | YItem _ => None end)) in Hs.
  fold (reqs_of (yielded (run_callback x text))) in Hs.
  fold (reqs_of (review_requests parse_html urljoin (url x) body ++ next_listing x)) in Hs.
  rewrite reqs_of_app in Hs. pose proof (accept_sublist su (reqs_of (yielded (run_callback x text)))) as Ha.
  destruct (proj1 (sublist_app_r _ _ _) (transitivity Ha Hs)) as (A1 & A2 & -> & H1 & H2).
  exists A1, A2. split; [reflexivity|]. split; [|split].
  - eapply Forall_sublist; [exact H1|]. eapply Forall_impl; [apply review_requests_review|].
    intros r Hr. unfold is_review. now rewrite Hr.
  - eapply Forall_sublist; [exact H2|]. unfold next_listing. destruct (cb x); cbn; repeat constructor.
  - apply sublist_length in H2. unfold next_listing in H2. destruct (cb x); cbn in H2; lia.
Qed.

Lemma lifo_take_app R x : lifo_take (R ++ [x]) = Some (R, x, []).
Proof. unfold lifo_take. now rewrite last_app, removelast_last. Qed.

Lemma lifo_inv_init : lifo_inv init.
Proof. exists [], [start_request], [], []. split_and!; try (now intros []); repeat constructor. Qed.

Lemma lifo_inv_step st st' : lifo_inv st -> engine_step lifo_take st = Some st' -> lifo_inv st'.
Proof.
  intros (R & L & P & V & Hp & Hi & HR & HL & HP & HV & Hl & HVL) Hs. unfold engine_step in Hs.
  rewrite Hp in Hs. destruct L as [|x [|y L]]; [|cbn in Hl; clear Hl|cbn in Hl; lia].
  - destruct R as [|r R] using rev_ind; [discriminate|]. rewrite app_nil_r, lifo_take_app in Hs.
    apply Forall_app in HR as [HR Hr]. apply Forall_inv in Hr. injection Hs as <-.
    assert (Ecb : cb r = ParseReview) by (unfold is_review in Hr; destruct (cb r); congruence).
    exists R, [], P, (V ++ [r]). destruct (fetch (url r)) eqn:Hf.
    + unfold process. rewrite schedule_spec. cbn [pending issued seen].
      unfold Crawler.run_callback. rewrite Ecb, reqs_of_review_gen. cbn. rewrite !app_nil_r, Hi, app_assoc.
      split_and!; auto using Forall_app_2.
    + cbn. rewrite Hi, app_nil_r, app_assoc. split_and!; auto using Forall_app_2.
  - rewrite lifo_take_app in Hs. injection Hs as <-. apply Forall_inv in HL.
    assert (V = []) by (destruct V; [reflexivity|]; specialize (HVL ltac:(discriminate)); discriminate). subst V.
    destruct (fetch (url x)) as [text|] eqn:Hf.
    + destruct (accept_split (map url (seen st)) x text HL) as (A1 & A2 & HA & H1 & H2 & H3).
      exists (R ++ A1), A2, (P ++ [x]), []. unfold process. rewrite schedule_spec. cbn [pending issued seen].
      rewrite HA, Hi, !app_nil_r, app_assoc.
      split_and!; auto using Forall_app_2; congruence.
    + exists R, [], (P ++ [x]), []. cbn. rewrite Hi, !app_nil_r. split_and!; auto using Forall_app_2.
Qed.

Lemma lifo_inv_run fuel st : lifo_inv st -> lifo_inv (run_lifo fuel st).
Proof.
  revert st. induction fuel as [|fuel IH]; intros st Hinv; [exact Hinv|]. unfold run_lifo. cbn.
  destruct (engine_step lifo_take st) eqn:E; [apply IH; eapply lifo_inv_step; eassumption|exact Hinv].
Qed.

(** ** Theorems *)

(** C21: the order of Scrapy's schedule: with the default LIFO queue and
    one request in flight, the start page and every listing page are
    requested before any review, because [parse_json] yields its review
    links before the next page (lines 31 and 35) and the next page is
    taken first. *)
Theorem lifo_listing_first fuel :
  exists P V, issued (run_lifo fuel init) = P ++ V /\
    Forall (fun r => is_review r = false) P /\ Forall (fun r => is_review r = true) V.
Proof.
  destruct (lifo_inv_run fuel init lifo_inv_init) as (R & L & P & V & _ & Hi & _ & _ & HP & HV & _).
  eauto.
Qed.

End Policies.

End Engine.
