(* ===== verification/Listing.v ===== *)
(** * A listing page: from its response to the requests it yields

    [parse_json] (lines 22-40) on the response of the listing endpoint,
    composed with the parts it calls: the JSON envelope (a decoder
    returning [{"html": ..., "more": ...}]), the HTML parser on the
    envelope's fragment (any parser of [HtmlParse.HtmlParser], which puts
    a fragment in an [html] and a [body]), the query [//h5/a/@href] and
    [urljoin] ([Url]) against the listing URL of lines 42-43, and the
    bare name [get_page_url] of line 36 resolved in the module's globals
    ([resolves]).  On the text [json.dumps] writes of an envelope whose
    fragment is the markup of well-formed elements (none or more), read
    back by the decoder of [JsonText], the requests are one review
    request per link of the fragment, in document order, at the site's
    root followed by the link when the link is an absolute path and
    under [/contributors/] when it is a relative one (not at the site's
    root the spec names); then, when [more] is truthy (the string
    [false] is), the request for the next page if [get_page_url] is
    bound and [NameError] as the module is written.  A blank fragment
    yields no review request and nothing reports it; an envelope without
    [more] loses the page's links to a [KeyError]; the callback does not
    depend on the decoder's fuel. *)

From S2P Require Import Prelude PyStr Url Html Review Markup HtmlParse Pipeline Json JsonText Crawler.
Import PyStr Url Html Review Markup HtmlParse Pipeline Json JsonText Crawler.

Module Listing.

(** The envelope the endpoint returns (spec section 6). *)
Definition envelope_json (html : pystr) (more : json) : json :=
  JObj [(lit "html", JStr html); (lit "more", more)].

Definition plain_segb (s : pystr) : bool :=
  negb (bool_decide (s = lit ".")) && negb (bool_decide (s = lit "..")).

(** A link that is an absolute path without query, fragment or dot
    segments: [/reviews/...]. *)
Definition abs_link (l : pystr) : bool :=
  match l with
  | c :: p => bool_decide (c = "/"%char) && forallb path_char p && negb (starts_with (lit "/") p) &&
              forallb plain_segb (split "/"%char p)
  | [] => false
  end.

(** A relative link of plain segments, without a scheme: [reviews/...]. *)
Definition rel_link (l : pystr) : bool :=
  nonempty l && forallb path_char l && bool_decide (lstrip_c0 l = l) &&
  bool_decide (split_scheme l = None) && negb (starts_with (lit "/") l) &&
  forallb (fun s => nonempty s && plain_segb s) (split "/"%char l).

(** The query of the listing URL before the page number. *)
Definition listing_filters : pystr :=
  lit ("filters%5Btitle%5D=&sort%5Border%5D=newest" ++
       "&filters%5Byears%5D%5B%5D=1914&filters%5Byears%5D%5B%5D=2024" ++
       "&filters%5Bstar_rating%5D%5B%5D=0.0&filters%5Bstar_rating%5D%5B%5D=4.0" ++
       "&filters%5Bno_stars%5D=1&page=")%string.

(** A fragment of the listing: two cards with their heading links. *)
Definition card (href title : String.string) : node :=
  Elem (lit "div") [(lit "class", lit "review-stack--card")]
    [Elem (lit "h5") [] [Elem (lit "a") [(lit "href", lit href)] [Text (lit title)]];
     Elem (lit "p") [] [Text (lit "Roger Ebert")]].

Definition listing_fragment : list node :=
  [card "/reviews/great-movie-vertigo-1958" "Vertigo"; card "/reviews/casablanca-1942" "Casablanca"].

(** A fragment whose one card links a review by a relative path. *)
Definition relative_fragment : list node := [card "reviews/casablanca-1942" "Casablanca"].

(** Whether the bare name [get_page_url] of lines 16 and 36 resolves in
    the module's globals. *)
Definition resolves (globals : list pystr) : bool := bool_decide (lit "get_page_url" ∈ globals).

(** A fragment of a space, a newline and a NUL character. *)
Definition blank_fragment : pystr := [" "%char; "010"%char; "000"%char].

(** ** Lemmas *)

Lemma get_page_url_parts k :
  get_page_url k =
  lit "https://" ++ lit "www.rogerebert.com" ++ lit "/contributors/roger-ebert" ++ "?"%char :: listing_filters ++ str_int k.
Proof. reflexivity. Qed.

Lemma digit_url_char c :
  is_digit c = true \/ c = "-"%char -> negb (bool_decide (c = "#"%char)) && negb (unsafe_byte c) = true.
Proof.
  intros [H| ->]; [|reflexivity]. unfold unsafe_byte.
  rewrite !bool_decide_false by (intros ->; discriminate H). reflexivity.
Qed.

(** The listing URL of page [k], split. *)
Lemma urlsplit_listing k :
  urlsplit (get_page_url k) [] =
  SplitUrl (lit "https") (lit "www.rogerebert.com") (lit "/contributors/roger-ebert") (listing_filters ++ str_int k) [].
Proof.
  rewrite get_page_url_parts. apply urlsplit_https; [reflexivity..|].
  rewrite forallb_app. apply andb_true_iff. split; [reflexivity|]. apply forallb_forall.
  intros c Hc. apply digit_url_char. pose proof (str_int_chars k) as Hs. rewrite Forall_forall in Hs.
  apply Hs, list_elem_of_In, Hc.
Qed.

Lemma get_page_url_nonempty k : get_page_url k <> [].
Proof. rewrite get_page_url_parts. discriminate. Qed.

Lemma plain_segb_true s : plain_segb s = true -> plain_seg s.
Proof.
  unfold plain_segb. intros Hs. apply andb_true_iff in Hs as [H1 H2].
  apply negb_true_iff, bool_decide_eq_false in H1, H2. split; assumption.
Qed.

Lemma plain_segs p : forallb plain_segb p = true -> Forall plain_seg p.
Proof.
  intros H. apply Forall_forall. intros s Hs. rewrite forallb_forall in H.
  apply plain_segb_true, H, list_elem_of_In, Hs.
Qed.

(** An absolute-path link on a listing page: the site's root followed by
    the link. *)
Lemma listing_abs_link k l : abs_link l = true -> urljoin (get_page_url k) l = base_url ++ l.
Proof.
  destruct l as [|c p]; [discriminate|]. unfold abs_link.
  intros H. apply andb_true_iff in H as [H Hseg]. apply andb_true_iff in H as [H Hs].
  apply andb_true_iff in H as [Hc Hp].
  apply bool_decide_eq_true in Hc as ->. apply negb_true_iff in Hs.
  rewrite (urljoin_abs_path _ (lit "www.rogerebert.com") (lit "/contributors/roger-ebert") (listing_filters ++ str_int k) []);
    [reflexivity|apply get_page_url_nonempty|apply urlsplit_listing|exact Hp|exact Hs|now apply plain_segs].
Qed.

(** The listing query on the document the parser makes of a fragment. *)
Lemma h5_links_document ts :
  forallb fragment_elem ts = true ->
  h5_links (Elem (lit "html") [] [Elem (lit "body") [] (map canon ts)]) = flat_map h5_links ts.
Proof.
  intros Hf. rewrite h5_links_elements. rewrite filter_cons, decide_True by reflexivity. cbn [filter flat_map].
  rewrite h5_links_elements, app_nil_r.
  rewrite filter_all.
  - rewrite flat_map_of_map. cbn [app option_list]. apply flat_map_Forall_ext, Forall_forall.
    intros t _. unfold h5_href. cbn [fst snd]. rewrite bool_decide_false by discriminate.
    cbn [andb option_list app]. apply (edit_h5_links _ text_edit_canon).
  - apply Forall_forall. intros t Ht%list_elem_of_fmap. destruct Ht as (u & -> & Hu).
    rewrite forallb_forall in Hf. apply list_elem_of_In, Hf in Hu. destruct u; [discriminate|reflexivity].
Qed.

Lemma getitem_envelope html more :
  getitem (envelope_json html more) (lit "html") = Ok (JStr html) /\
  getitem (envelope_json html more) (lit "more") = Ok more.
Proof.
  unfold getitem, envelope_json. cbn [dict_get].
  rewrite (bool_decide_true (lit "html" = lit "html")), (bool_decide_false (lit "more" = lit "html")),
    (bool_decide_true (lit "more" = lit "more")) by (reflexivity || discriminate).
  split; reflexivity.
Qed.

Lemma keys_unique_envelope html more : keys_unique (envelope_json html more) = keys_unique more.
Proof. cbn. now destruct (keys_unique more). Qed.

Lemma envelope_dumps html more text :
  dumps (envelope_json html more) = Some text -> keys_unique more = true ->
  envelope loads text = Ok (html, more).
Proof.
  intros Hd Hk. unfold envelope. rewrite (loads_dumps _ _ Hd) by now rewrite keys_unique_envelope.
  rewrite res_bind_Ok. destruct (getitem_envelope html more) as [-> ->]. reflexivity.
Qed.

Lemma call_get_page_url_Ok globals page :
  lit "get_page_url" ∈ globals -> call_get_page_url globals page = Ok (get_page_url page).
Proof. intros H. unfold call_get_page_url. now rewrite bool_decide_true. Qed.

Lemma resolves_true globals : lit "get_page_url" ∈ globals -> resolves globals = true.
Proof. intros H. unfold resolves. now rewrite bool_decide_true. Qed.

Lemma urljoin_relative k l : rel_link l = true -> urljoin (get_page_url k) l = base_url ++ lit "/contributors/" ++ l.
Proof.
  unfold rel_link. intros H. apply andb_true_iff in H as [H Hseg]. apply andb_true_iff in H as [H Hs].
  apply andb_true_iff in H as [H Hsch]. apply andb_true_iff in H as [H Hl].
  apply andb_true_iff in H as [Hn Hp]. apply negb_true_iff in Hs.
  apply bool_decide_eq_true in Hsch, Hl. unfold nonempty in Hn. apply negb_true_iff, bool_decide_eq_false in Hn.
  pose proof (urlsplit_listing k) as Hu.
  change (lit "/contributors/roger-ebert") with ("/"%char :: lit "contributors" ++ "/"%char :: lit "roger-ebert") in Hu.
  rewrite (urljoin_rel_path _ _ _ _ _ _ l (get_page_url_nonempty k) Hu); try (reflexivity || discriminate);
    [split; discriminate|assumption..|].
  apply Forall_forall. intros s Hs'. rewrite forallb_forall in Hseg. apply list_elem_of_In, Hseg in Hs'.
  apply andb_true_iff in Hs' as [H1 H2]. unfold nonempty in H1. apply negb_true_iff, bool_decide_eq_false in H1.
  split; [exact H1|]. now apply plain_segb_true.
Qed.

(** The review requests of links that all resolve to [f l]. *)
Lemma review_yields_ext (f : pystr -> pystr) k (P : pystr -> bool) L :
  (forall l, P l = true -> urljoin (get_page_url k) l = f l) -> forallb P L = true ->
  map (fun l => YReq (Req (urljoin (get_page_url k) l) false ParseReview)) L =
  map (fun l => YReq (Req (f l) false ParseReview)) L.
Proof.
  intros Hf HL. apply map_ext_in. intros l Hl. rewrite forallb_forall in HL.
  now rewrite Hf by now apply HL, list_elem_of_In, list_elem_of_In.
Qed.

(** ** The listing callback on an envelope *)

Section ListingPage.
Context `{HtmlParser}.
Variable json_loads : pystr -> res json.
Variable globals : list pystr.

(** Lines 22-40 on a response the decoder reads as the envelope: the
    review requests of the fragment's links, then (when [more] is truthy)
    the next page, or [NameError] at line 36 when [get_page_url] is not
    bound. *)
Lemma parse_json_envelope k text h more :
  json_loads text = Ok (envelope_json h more) ->
  parse_json json_loads parse_html urljoin globals (get_page_url k) text k =
  Gen (map (fun l => YReq (Req (urljoin (get_page_url k) l) false ParseReview)) (h5_links (parse_html h)) ++
       (if truthy more && resolves globals then [YReq (Req (get_page_url (k + 1)) true (ParseJson (k + 1)))] else []))
      (if truthy more && negb (resolves globals) then Some NameError else None).
Proof.
  intros Hj. unfold parse_json, envelope. rewrite Hj, res_bind_Ok.
  destruct (getitem_envelope h more) as [-> ->]. rewrite !res_bind_Ok. cbn [new_body]. rewrite res_bind_Ok.
  unfold review_requests, call_get_page_url, resolves.
  destruct (truthy more), (bool_decide (lit "get_page_url" ∈ globals)); cbn.
  all: unfold gen_then; cbn; now rewrite ?app_nil_r.
Qed.

(** The links the parser finds in the markup of well-formed elements,
    none when there are none. *)
Lemma h5_links_markup ts :
  forallb page_ok ts = true -> forallb fragment_elem ts = true ->
  h5_links (parse_html (markup ts)) = flat_map h5_links ts.
Proof.
  intros Hp Hf. destruct ts as [|t ts]; [now rewrite parse_html_blank|].
  rewrite parse_html_fragment by (discriminate || assumption). now apply h5_links_document.
Qed.

End ListingPage.

Section ListingText.
Context `{HtmlParser}.
Variable globals : list pystr.

Lemma listing_text_any k text ts more :
  forallb page_ok ts = true -> forallb fragment_elem ts = true -> forallb abs_link (flat_map h5_links ts) = true ->
  dumps (envelope_json (markup ts) more) = Some text -> keys_unique more = true ->
  parse_json loads parse_html urljoin globals (get_page_url k) text k =
  Gen (map (fun l => YReq (Req (base_url ++ l) false ParseReview)) (flat_map h5_links ts) ++
       (if truthy more && resolves globals then [YReq (Req (get_page_url (k + 1)) true (ParseJson (k + 1)))] else []))
      (if truthy more && negb (resolves globals) then Some NameError else None).
Proof.
  intros Hp Hf Ha Hd Hk. rewrite (parse_json_envelope loads globals k text (markup ts) more).
  - rewrite h5_links_markup, (review_yields_ext (fun l => base_url ++ l) k abs_link) by auto using listing_abs_link.
    reflexivity.
  - apply loads_dumps; [exact Hd|]. now rewrite keys_unique_envelope.
Qed.

Lemma blank_requests k text h more :
  root_text h = [] -> dumps (envelope_json h more) = Some text -> keys_unique more = true ->
  parse_json loads parse_html urljoin globals (get_page_url k) text k =
  Gen (if truthy more && resolves globals then [YReq (Req (get_page_url (k + 1)) true (ParseJson (k + 1)))] else [])
      (if truthy more && negb (resolves globals) then Some NameError else None).
Proof.
  intros Hb Hd Hk. rewrite (parse_json_envelope loads globals k text h more).
  - now rewrite parse_html_blank by exact Hb.
  - apply loads_dumps; [exact Hd|]. now rewrite keys_unique_envelope.
Qed.

(** C16: the listing response as the endpoint writes it ([json.dumps] of
    the envelope, its fragment the markup of well-formed elements, none
    or more, with absolute-path links), decoded by [json.loads]: one
    review request per [h5] link in document order at the site's root
    followed by the link; then, when [more] is truthy (Python's truth
    value, so also the string ["false"]), the request for page [k + 1]
    if [get_page_url] is bound in the module, and [NameError] (line 36)
    as the module is written. *)
Theorem listing_text_requests k text ts more :
  forallb page_ok ts = true -> forallb fragment_elem ts = true -> forallb abs_link (flat_map h5_links ts) = true ->
  dumps (envelope_json (markup ts) more) = Some text -> keys_unique more = true ->
  parse_json loads parse_html urljoin globals (get_page_url k) text k =
  Gen (map (fun l => YReq (Req (base_url ++ l) false ParseReview)) (flat_map h5_links ts) ++
       (if truthy more && resolves globals then [YReq (Req (get_page_url (k + 1)) true (ParseJson (k + 1)))] else []))
      (if truthy more && negb (resolves globals) then Some NameError else None).
Proof. exact (listing_text_any k text ts more). Qed.

(** C15: spec divergence (section 6 resolves review links against the
    site's root): on the same responses with relative links [reviews/x],
    [response.follow] resolves each against the URL of the listing
    response, so the review requests of lines 29-31 are for
    [/contributors/reviews/x]. *)
Theorem listing_relative_link k text ts more :
  forallb page_ok ts = true -> forallb fragment_elem ts = true -> forallb rel_link (flat_map h5_links ts) = true ->
  dumps (envelope_json (markup ts) more) = Some text -> keys_unique more = true ->
  parse_json loads parse_html urljoin globals (get_page_url k) text k =
  Gen (map (fun l => YReq (Req (base_url ++ lit "/contributors/" ++ l) false ParseReview)) (flat_map h5_links ts) ++
       (if truthy more && resolves globals then [YReq (Req (get_page_url (k + 1)) true (ParseJson (k + 1)))] else []))
      (if truthy more && negb (resolves globals) then Some NameError else None).
Proof.
  intros Hp Hf Hr Hd Hk. rewrite (parse_json_envelope loads globals k text (markup ts) more).
  - rewrite h5_links_markup, (review_yields_ext (fun l => base_url ++ lit "/contributors/" ++ l) k rel_link)
      by auto using urljoin_relative.
    reflexivity.
  - apply loads_dumps; [exact Hd|]. now rewrite keys_unique_envelope.
Qed.

(** C19: spec divergence (section 4.1 reports a fragment with no heading
    links): a listing response whose fragment is empty or blank (only
    whitespace and NUL characters) is parsed as an empty [<html/>]: it
    yields no review request and nothing reports the missing links; what
    follows is what line 33 does with [more]: the request for page
    [k + 1] when [get_page_url] is bound, [NameError] as written. *)
Theorem listing_blank_fragment k text h more :
  root_text h = [] -> dumps (envelope_json h more) = Some text -> keys_unique more = true ->
  parse_json loads parse_html urljoin globals (get_page_url k) text k =
  Gen (if truthy more && resolves globals then [YReq (Req (get_page_url (k + 1)) true (ParseJson (k + 1)))] else [])
      (if truthy more && negb (resolves globals) then Some NameError else None).
Proof. exact (blank_requests k text h more). Qed.

(** C18: spec divergence (section 7 treats an undecodable [more] as false,
    so the page's links are still followed): an envelope without [more]
    makes line 25 raise [KeyError] before any link is yielded, so the
    review links of that page are lost. *)
Theorem listing_missing_more k text ts :
  dumps (JObj [(lit "html", JStr (markup ts))]) = Some text ->
  parse_json loads parse_html urljoin globals (get_page_url k) text k = gen_raise KeyError.
Proof.
  intros Hd. unfold parse_json, envelope. rewrite (loads_dumps _ _ Hd) by reflexivity.
  rewrite res_bind_Ok. unfold getitem. cbn [dict_get].
  rewrite (bool_decide_true (lit "html" = lit "html")), (bool_decide_false (lit "more" = lit "html"))
    by (reflexivity || discriminate).
  reflexivity.
Qed.

(** The callback does not depend on the decoder's fuel: with any fuel
    beyond the length of the response, [parse_json] yields and raises
    what it does with [json.loads]. *)
Theorem parse_json_fuel n resp_url text k :
  length text < n ->
  parse_json (loads_with n) parse_html urljoin globals resp_url text k =
  parse_json loads parse_html urljoin globals resp_url text k.
Proof. intros Hn. unfold parse_json, envelope. now rewrite loads_fuel. Qed.

Hypothesis Hglobals : lit "get_page_url" ∈ globals.

(** With [get_page_url] bound: a page of the endpoint yields its review
    requests and, when [more] is true, the next page. *)
Lemma listing_yields k text ts b :
  forallb page_ok ts = true -> forallb fragment_elem ts = true ->
  forallb abs_link (flat_map h5_links ts) = true ->
  dumps (envelope_json (markup ts) (JBool b)) = Some text ->
  parse_json loads parse_html urljoin globals (get_page_url k) text k =
  Gen (map (fun l => YReq (Req (base_url ++ l) false ParseReview)) (flat_map h5_links ts) ++
       (if b then [YReq (Req (get_page_url (k + 1)) true (ParseJson (k + 1)))] else []))
      None.
Proof.
  intros Hp Hf Ha Hd. rewrite (listing_text_any k text ts (JBool b)) by (assumption || reflexivity).
  rewrite resolves_true by exact Hglobals. now destruct b.
Qed.

End ListingText.

(** C17: round trip of lines 23-27: the envelope the endpoint writes with
    [json.dumps] is decoded back into its fragment (the new body of the
    response) and its [more] field. *)
Theorem envelope_roundtrip html more text :
  dumps (envelope_json html more) = Some text -> keys_unique more = true ->
  envelope loads text = Ok (html, more).
Proof. exact (envelope_dumps html more text). Qed.

Lemma listing_text_requests_witness :
  parse_json loads (@parse_html markup_parser) urljoin (lit "get_page_url" :: source_globals) (get_page_url 1)
    (default [] (dumps (envelope_json (markup listing_fragment) (JStr (lit "false"))))) 1 =
  Gen (map (fun l => YReq (Req (base_url ++ l) false ParseReview)) (flat_map h5_links listing_fragment) ++
       [YReq (Req (get_page_url 2) true (ParseJson 2))]) None.
Proof.
  apply (listing_text_requests (H := markup_parser) (lit "get_page_url" :: source_globals) 1 _ listing_fragment
           (JStr (lit "false"))); vm_compute; reflexivity.
Defined.

Lemma listing_relative_link_witness :
  parse_json loads (@parse_html markup_parser) urljoin source_globals (get_page_url 1)
    (default [] (dumps (envelope_json (markup relative_fragment) (JBool true)))) 1 =
  Gen [YReq (Req (base_url ++ lit "/contributors/" ++ lit "reviews/casablanca-1942") false ParseReview)]
      (Some NameError).
Proof.
  apply (listing_relative_link (H := markup_parser) source_globals 1 _ relative_fragment (JBool true));
    vm_compute; reflexivity.
Defined.

Lemma listing_blank_fragment_witness :
  root_text blank_fragment = [] /\
  parse_json loads (@parse_html markup_parser) urljoin source_globals (get_page_url 1)
    (default [] (dumps (envelope_json blank_fragment (JBool true)))) 1 = Gen [] (Some NameError).
Proof.
  split; [vm_compute; reflexivity|].
  apply (listing_blank_fragment (H := markup_parser) source_globals 1 _ blank_fragment (JBool true));
    vm_compute; reflexivity.
Defined.

Lemma listing_missing_more_witness :
  flat_map h5_links listing_fragment <> [] /\
  parse_json loads (@parse_html markup_parser) urljoin source_globals (get_page_url 1)
    (default [] (dumps (JObj [(lit "html", JStr (markup listing_fragment))]))) 1 = gen_raise KeyError.
Proof.
  split; [discriminate|]. apply (listing_missing_more (H := markup_parser) _ 1 _ listing_fragment).
  vm_compute. reflexivity.
Defined.

Lemma parse_json_fuel_witness :
  length (lit "[1]") < 10 /\
  parse_json (loads_with 10) (@parse_html markup_parser) urljoin source_globals (get_page_url 1) (lit "[1]") 1 =
  parse_json loads (@parse_html markup_parser) urljoin source_globals (get_page_url 1) (lit "[1]") 1.
Proof. split; [vm_compute; lia|apply (parse_json_fuel (H := markup_parser)); vm_compute; lia]. Defined.

Lemma envelope_roundtrip_witness :
  envelope loads (default [] (dumps (envelope_json (markup listing_fragment) (JBool true)))) =
  Ok (markup listing_fragment, JBool true).
Proof. apply envelope_roundtrip; vm_compute; reflexivity. Defined.

End Listing.
