(* ===== verification/Contract.v ===== *)
(** * The crawl contract of spec section 4.1, for the spider

    Spec section 4.1: the crawl produces "the union of all review-detail
    links across all pages, in the order pages are visited and, within a
    page, in document order".  [contract_links] is that union: every
    page's [//h5/a/@href] links at the site's root, concatenated in page
    order, with each URL kept at its first occurrence ([dedup]).

    On a site whose listing pages [1 .. n] answer with [json.dumps] of
    the endpoint's envelope around the markup of well-formed cards whose
    links are absolute paths, with [more] true before the last page, and
    with [get_page_url] bound (the repair of [Crawler.source_crawl_stuck]),
    the whole spider (JSON decoder of [JsonText], any parser of
    [HtmlParse.HtmlParser], [urljoin] of [Url]) refines the contract
    under both scheduler policies of [Engine]:
    - oldest first ([Crawler.run]): the crawl stops, the listing pages
      issued are [1 .. n], the review pages issued are [contract_links]
      in order, and the items are their parses in that order;
    - Scrapy's default LIFO queue ([Engine.run_lifo]): the same, except
      that the review pages, hence the items, come in the reverse order.

    The proof follows the crawl page by page, the way a simulation
    diagram does: the state before page [m + 1] is described by
    [fifo_at m] or [lifo_at m] (what is queued, which URLs the duplicate
    filter has seen, what was issued and output), and one listing step
    followed, under FIFO, by the review steps it queued leads to the
    description of the state before page [m + 2].

    Section [Endless] takes a site whose every listing page [k] answers
    with [more] true: under the LIFO policy each listing step puts the
    request for page [k + 1] on top of the reviews it queued
    ([endless_at]), so after [k + 1] steps the listing pages [1 .. k]
    and nothing else have been issued ([crawl_unbounded]). *)

From S2P Require Import Prelude PyStr Url Html Review Markup HtmlParse Pipeline Json JsonText Crawler Engine Listing.
Import PyStr Url Html Review Markup HtmlParse Pipeline Json JsonText Crawler Engine Listing.

Module Contract.

(** ** The contract *)

(** The URLs of [l] that are not in [seen], each at its first occurrence. *)
Fixpoint dedup (seen l : list pystr) : list pystr :=
  match l with
  | [] => []
  | u :: l' => if bool_decide (u ∈ seen) then dedup seen l' else u :: dedup (seen ++ [u]) l'
  end.

(** The review links of a listing fragment, at the site's root. *)
Definition page_links (ts : list node) : list pystr :=
  map (fun l => base_url ++ l) (flat_map h5_links ts).

(** Spec section 4.1: the review links of all pages, in the order the
    pages are visited and in document order within a page, without
    repetition. *)
Definition contract_links (pages : list (list node)) : list pystr :=
  dedup [] (flat_map page_links pages).

(** A fragment of well-formed elements whose links are absolute paths. *)
Definition fragment_ok (ts : list node) : bool :=
  forallb page_ok ts && forallb fragment_elem ts && forallb abs_link (flat_map h5_links ts).

(** The response of listing page [k] of the site: [json.dumps] of the
    envelope around the markup of its fragment, [more] until the last
    page. *)
Definition listing_text (pages : list (list node)) (k : nat) : option pystr :=
  dumps (envelope_json (markup (nth (k - 1) pages [])) (JBool (k <? length pages)%nat)).

(** The requests of lines 31 and 35 for an absolute link and for page [k]. *)
Definition review_req (u : pystr) : request := Req u false ParseReview.

Definition listing_req (k : Z) : request := Req (get_page_url k) true (ParseJson k).

(** ** The crawl, page by page *)

(** The review links of the first [m] pages, without repetition. *)
Definition found (pages : list (list node)) (m : nat) : list pystr :=
  dedup [] (flat_map page_links (firstn m pages)).

(** The links page [m + 1] adds to them. *)
Definition new_links (pages : list (list node)) (m : nat) : list pystr :=
  dedup (found pages m) (page_links (nth m pages [])).

(** The request for page [m + 1], when the site has it. *)
Definition next_req (pages : list (list node)) (m : nat) : list request :=
  if (m <? length pages)%nat then [listing_req (Z.of_nat (S m))] else [].

(** Before page [m + 1], the duplicate filter has seen the review links
    of the first [m] pages and the listing pages [1 .. m + 1] of the
    site. *)
Definition seen_ok (pages : list (list node)) (m : nat) (st : state) : Prop :=
  forall u, u ∈ map url (seen st) <->
    u ∈ found pages m \/
    exists j, (1 <= j <= S m)%nat /\ (j <= length pages)%nat /\ u = get_page_url (Z.of_nat j).

(** The state before page [m + 1] under the oldest-first policy: its
    request alone is queued; the reviews of the first [m] pages have
    been issued in order and their items output. *)
Definition fifo_at (parse_html : pystr -> node) (fetch : pystr -> option pystr)
    (pages : list (list node)) (m : nat) (st : state) : Prop :=
  pending st = next_req pages m /\ seen_ok pages m st /\
  review_reqs (issued st) = map review_req (found pages m) /\
  listing_pages (issued st) = pages_upto m /\
  items st = omap (review_result parse_html fetch) (map review_req (found pages m)).

(** The state before page [m + 1] under the LIFO policy: the reviews of
    the first [m] pages are queued under the request for page [m + 1],
    and no review has been issued. *)
Definition lifo_at (pages : list (list node)) (m : nat) (st : state) : Prop :=
  pending st = map review_req (found pages m) ++ next_req pages m /\ seen_ok pages m st /\
  review_reqs (issued st) = [] /\ listing_pages (issued st) = pages_upto m /\ items st = [].

(** The state after the start page, under either policy. *)
Definition start_state : state := St [listing_req 1] [listing_req 1] [] [] [start_request].

(** A site of two listing pages: page 2 links a review of page 1 again
    and a new one; the first review downloads, the others fail. *)
Definition contract_pages : list (list node) :=
  [[card "/reviews/vertigo-1958" "Vertigo"; card "/reviews/casablanca-1942" "Casablanca"];
   [card "/reviews/vertigo-1958" "Vertigo"; card "/reviews/psycho-1960" "Psycho"]].

Definition contract_site (u : pystr) : option pystr :=
  if bool_decide (u = get_page_url 1) then listing_text contract_pages 1
  else if bool_decide (u = get_page_url 2) then listing_text contract_pages 2
  else if bool_decide (u = url start_request) then Some []
  else if bool_decide (u = base_url ++ lit "/reviews/vertigo-1958") then Some (markup [italic_page])
  else None.

Definition contract_globals : list pystr := lit "get_page_url" :: source_globals.

(** ** A site that always has more *)

(** The state after the start page and [j] listing pages under the LIFO
    policy, on a site whose every listing page has [more] true: the
    request for page [j + 1] is on top of review requests; the duplicate
    filter has seen the listing pages [1 .. j + 1] and URLs of no listing
    page; only listing pages [1 .. j] have been issued, and nothing has
    been output. *)
Definition endless_at (j : nat) (st : state) : Prop :=
  (exists R, pending st = map review_req R ++ [listing_req (Z.of_nat (S j))]) /\
  (forall u, u ∈ map url (seen st) ->
     (exists i, (1 <= i <= S j)%nat /\ u = get_page_url (Z.of_nat i)) \/ forall i, u <> get_page_url i) /\
  review_reqs (issued st) = [] /\ listing_pages (issued st) = pages_upto j /\ items st = [].

(** Every listing page of [endless_site] links one review and has more. *)
Definition endless_page : list node := [card "/reviews/vertigo-1958" "Vertigo"].

Definition endless_site (u : pystr) : option pystr :=
  if bool_decide (u = url start_request) then Some []
  else dumps (envelope_json (markup endless_page) (JBool true)).

(** ** Lemmas: first occurrences *)

Lemma dedup_app su l1 l2 : dedup su (l1 ++ l2) = dedup su l1 ++ dedup (su ++ dedup su l1) l2.
Proof.
  revert su. induction l1 as [|u l1 IH]; intros su; cbn; [now rewrite app_nil_r|].
  case_bool_decide; [apply IH|]. cbn. rewrite IH, <- app_assoc. reflexivity.
Qed.

Lemma dedup_ext su1 su2 l :
  (forall u, u ∈ l -> u ∈ su1 <-> u ∈ su2) -> dedup su1 l = dedup su2 l.
Proof.
  revert su1 su2. induction l as [|u l IH]; intros su1 su2 Hs; [reflexivity|]. cbn.
  assert (Hu : u ∈ su1 <-> u ∈ su2) by (apply Hs; left).
  case_bool_decide as H1; case_bool_decide as H2; try tauto.
  - apply IH. intros v Hv. apply Hs. now right.
  - f_equal. apply IH. intros v Hv. rewrite !elem_of_app. specialize (Hs v (proj2 (elem_of_cons _ _ _) (or_intror Hv))).
    tauto.
Qed.

Lemma dedup_elem su l u : u ∈ su ++ dedup su l <-> u ∈ su \/ u ∈ l.
Proof.
  revert su. induction l as [|v l IH]; intros su; cbn.
  - rewrite app_nil_r. split; [now left|intros [H|H]; [exact H|apply not_elem_of_nil in H as []]].
  - rewrite elem_of_cons. case_bool_decide as Hv.
    + rewrite IH. split; [tauto|]. intros [H|[->|H]]; tauto.
    + rewrite cons_middle, app_assoc, IH, elem_of_app, list_elem_of_singleton. tauto.
Qed.

Lemma dedup_sub su l u : u ∈ dedup su l -> u ∈ l.
Proof.
  intros H. assert (Hu : u ∈ su ++ dedup su l) by (apply elem_of_app; now right).
  apply dedup_elem in Hu as [Hu|Hu]; [|exact Hu].
  revert su H Hu. induction l as [|v l IH]; intros su H Hu; [apply not_elem_of_nil in H as []|].
  cbn in H. case_bool_decide; [right; eapply IH; eassumption|].
  apply elem_of_cons in H as [->|H]; [left|right; eapply IH; [exact H|set_solver]].
Qed.

(** ** Lemmas: the duplicate filter on the spider's requests *)

Lemma accept_reviews su l : accept su (map review_req l) = map review_req (dedup su l).
Proof.
  revert su. induction l as [|u l IH]; intros su; [reflexivity|]. cbn.
  case_bool_decide; [apply IH|]. cbn. now rewrite IH.
Qed.

Lemma accept_app su rs1 rs2 :
  accept su (rs1 ++ rs2) = accept su rs1 ++ accept (su ++ map url (accept su rs1)) rs2.
Proof.
  revert su. induction rs1 as [|r rs1 IH]; intros su; cbn; [now rewrite app_nil_r|].
  case_bool_decide; [apply IH|]. cbn. rewrite IH, <- app_assoc. reflexivity.
Qed.

Lemma accept_one su r : url r ∉ su -> accept su [r] = [r].
Proof. intros H. cbn. now rewrite bool_decide_false. Qed.

Lemma map_url_review_req l : map url (map review_req l) = l.
Proof. rewrite map_map. apply map_id. Qed.

Lemma review_reqs_review_req l : review_reqs (map review_req l) = map review_req l.
Proof.
  unfold review_reqs. induction l as [|u l IH]; [reflexivity|]. cbn [map].
  rewrite filter_cons_True by reflexivity. now rewrite IH.
Qed.

Lemma listing_pages_review_req l : listing_pages (map review_req l) = [].
Proof. induction l as [|u l IH]; [reflexivity|]. exact IH. Qed.

Lemma reqs_of_YReq rs : reqs_of (map YReq rs) = rs.
Proof. induction rs as [|r rs IH]; [reflexivity|]. cbn. f_equal. exact IH. Qed.

Lemma items_of_YReq rs : items_of (map YReq rs) = [].
Proof. induction rs as [|r rs IH]; [reflexivity|]. exact IH. Qed.

(** A link that is an absolute path has no query, so it is not the URL
    of a listing page. *)
Lemma abs_link_not_listing l j : abs_link l = true -> base_url ++ l <> get_page_url j.
Proof.
  intros Ha E. unfold get_page_url in E. apply app_inv_head in E. subst l.
  vm_compute in Ha. discriminate Ha.
Qed.

Lemma firstn_S_nth {A} (l : list A) m d :
  (m < length l)%nat -> firstn (S m) l = firstn m l ++ [nth m l d].
Proof.
  revert m. induction l as [|x l IH]; intros m Hm; cbn in Hm; [lia|].
  destruct m as [|m]; [reflexivity|]. cbn. f_equal. apply IH. lia.
Qed.

Lemma omap_cons_list {A B} (f : A -> option B) x l : omap f (x :: l) = option_list (f x) ++ omap f l.
Proof. cbn. now destruct (f x). Qed.

Lemma page_links_not_listing ts u j : fragment_ok ts = true -> u ∈ page_links ts -> u <> get_page_url j.
Proof.
  intros Hf Hu. unfold page_links in Hu. apply list_elem_of_In, in_map_iff in Hu as (l & <- & Hl).
  apply abs_link_not_listing. apply andb_true_iff in Hf as [_ Ha].
  rewrite forallb_forall in Ha. now apply Ha.
Qed.

Lemma dumps_envelope_Some h b : exists text, dumps (envelope_json h (JBool b)) = Some text.
Proof. eexists. reflexivity. Qed.

Lemma listing_not_start k : get_page_url k <> url start_request.
Proof.
  unfold get_page_url. cbn [url start_request]. intros E. apply app_inv_head, (f_equal length) in E.
  rewrite length_app in E. vm_compute in E. lia.
Qed.

Section Crawl.
Context `{HtmlParser}.
Variable globals : list pystr.
Hypothesis Hglobals : lit "get_page_url" ∈ globals.
Variable pages : list (list node).
Hypothesis Hpages : forallb fragment_ok pages = true.
Variable fetch : pystr -> option pystr.

Local Abbreviation engine_step := (engine_step loads parse_html urljoin globals fetch).
Local Abbreviation run_with := (run_with loads parse_html urljoin globals fetch).
Local Abbreviation review_result := (review_result parse_html fetch).

(** ** Lemmas: the site *)

Lemma found_S m :
  (m < length pages)%nat -> found pages (S m) = found pages m ++ new_links pages m.
Proof.
  intros Hm. unfold found, new_links. rewrite (firstn_S_nth pages m []) by exact Hm.
  rewrite flat_map_app, dedup_app. cbn [flat_map]. now rewrite app_nil_r.
Qed.

Lemma found_all : found pages (length pages) = contract_links pages.
Proof. unfold found, contract_links. now rewrite firstn_all. Qed.

Lemma nth_fragment_ok m : (m < length pages)%nat -> fragment_ok (nth m pages []) = true.
Proof. intros Hm. rewrite forallb_forall in Hpages. apply Hpages, nth_In, Hm. Qed.

(** No review link of the site is the URL of a listing page. *)
Lemma links_not_listing u j : u ∈ flat_map page_links pages -> u <> get_page_url j.
Proof.
  intros Hu. apply list_elem_of_In, in_flat_map in Hu as (ts & Hts & Hu).
  unfold page_links in Hu. apply in_map_iff in Hu as (l & <- & Hl).
  apply abs_link_not_listing. rewrite forallb_forall in Hpages. specialize (Hpages ts Hts).
  unfold fragment_ok in Hpages. apply andb_true_iff in Hpages as [_ Ha].
  rewrite forallb_forall in Ha. now apply Ha.
Qed.

Lemma found_links m u : u ∈ found pages m -> u ∈ flat_map page_links pages.
Proof.
  intros Hu%dedup_sub. rewrite <- (firstn_skipn m pages), flat_map_app. apply elem_of_app. now left.
Qed.

Lemma page_links_in m u :
  (m < length pages)%nat -> u ∈ page_links (nth m pages []) -> u ∈ flat_map page_links pages.
Proof.
  intros Hm Hu. apply list_elem_of_In, in_flat_map. exists (nth m pages []).
  split; [apply nth_In, Hm|now apply list_elem_of_In].
Qed.

Lemma listing_text_Some k : exists text, listing_text pages k = Some text.
Proof. eexists. reflexivity. Qed.

(** ** Lemmas: steps of the engine *)

(** A review request taken out of the queue: nothing is queued, its
    parse (if any) is output, and it is issued. *)
Lemma review_step take st pre r post :
  take (pending st) = Some (pre, r, post) -> cb r = ParseReview ->
  exists e, engine_step take st =
    Some (St (pre ++ post) (seen st) (items st ++ option_list (review_result r)) (errors st ++ e) (issued st ++ [r])).
Proof.
  intros Ht Hr. unfold Engine.engine_step. rewrite Ht. unfold Crawler.review_result.
  destruct (fetch (url r)) as [text|] eqn:Hf; [|exists [(r, DownloadFailed)]; cbn; now rewrite app_nil_r].
  unfold Crawler.process. rewrite schedule_spec. unfold Crawler.run_callback. rewrite Hr, reqs_of_review_gen, items_of_review_gen.
  cbn [pending seen items errors issued accept]. rewrite !app_nil_r.
  eexists. destruct (parse_review parse_html text); reflexivity.
Qed.

(** The oldest-first policy issues the queued reviews one after the other. *)
Lemma fifo_drain R q st :
  Forall (fun r => cb r = ParseReview) R -> pending st = R ++ q ->
  exists e, run_with fifo_take (length R) st =
    St q (seen st) (items st ++ omap review_result R) (errors st ++ e) (issued st ++ R).
Proof.
  intros HR. revert st. induction HR as [|r R Hr _ IH]; intros st Hp.
  - exists []. destruct st. cbn in *. subst. now rewrite !app_nil_r.
  - assert (Ht : fifo_take (pending st) = Some ([], r, R ++ q)) by now rewrite Hp.
    destruct (review_step _ _ _ _ _ Ht Hr) as [e1 E1]. cbn [length Engine.run_with]. rewrite E1.
    match goal with |- context [Engine.run_with _ _ _ _ _ _ _ ?s] => destruct (IH s eq_refl) as [e2 E2] end.
    rewrite E2. exists (e1 ++ e2). cbn [pending seen items errors issued]. now rewrite omap_cons_list, <- !app_assoc.
Qed.

(** The LIFO policy issues the queued reviews last first. *)
Lemma lifo_drain R st :
  Forall (fun r => cb r = ParseReview) R -> pending st = R ->
  exists e, run_with lifo_take (length R) st =
    St [] (seen st) (items st ++ omap review_result (reverse R)) (errors st ++ e) (issued st ++ reverse R).
Proof.
  revert st. induction R as [|r R IH] using rev_ind; intros st HR Hp.
  - exists []. destruct st. cbn in *. subst. now rewrite !app_nil_r.
  - apply Forall_app in HR as [HR Hr%Forall_inv].
    assert (Ht : lifo_take (pending st) = Some (R, r, [])) by now rewrite Hp, lifo_take_app.
    destruct (review_step _ _ _ _ _ Ht Hr) as [e1 E1].
    rewrite length_app, Nat.add_comm. cbn [length Nat.add Engine.run_with]. rewrite E1.
    match goal with |- context [Engine.run_with _ _ _ _ _ _ _ ?s] => destruct (IH s HR (app_nil_r R)) as [e2 E2] end.
    rewrite E2. exists (e1 ++ e2). cbn [pending seen items errors issued].
    rewrite reverse_snoc, omap_cons_list, <- !app_assoc. reflexivity.
Qed.

Hypothesis Hstart : fetch (url start_request) <> None.
Hypothesis Hlisting :
  forall k, (1 <= k <= length pages)%nat -> fetch (get_page_url (Z.of_nat k)) = listing_text pages k.

(** The start page: the request for page 1 is queued and seen. *)
Lemma start_step take :
  take [start_request] = Some ([], start_request, []) ->
  engine_step take init = Some (St [listing_req 1] [listing_req 1] [] [] [start_request]).
Proof.
  intros Ht. unfold Engine.engine_step. cbn [pending init]. rewrite Ht.
  destruct (fetch (url start_request)) as [text|] eqn:Hf; [|congruence].
  unfold Crawler.process, Crawler.run_callback. cbn [cb start_request]. unfold Crawler.parse.
  rewrite (call_get_page_url_Ok _ _ Hglobals), schedule_spec. cbn [yielded raised pending seen items errors issued].
  change (reqs_of [YReq (Req (get_page_url 1) true (ParseJson 1))]) with [listing_req 1].
  rewrite accept_one by apply not_elem_of_nil. reflexivity.
Qed.

(** Listing page [m + 1] of the site yields its review links and the
    request for the next page, if any. *)
Lemma listing_callback m text :
  (m < length pages)%nat -> listing_text pages (S m) = Some text ->
  run_callback loads parse_html urljoin globals (listing_req (Z.of_nat (S m))) text =
  Gen (map YReq (map review_req (page_links (nth m pages [])) ++ next_req pages (S m))) None.
Proof.
  intros Hm Ht. unfold Crawler.run_callback, listing_req. cbn [cb url].
  pose proof (nth_fragment_ok m Hm) as Hf. unfold fragment_ok in Hf.
  apply andb_true_iff in Hf as [[Hp Hfe]%andb_true_iff Ha].
  unfold listing_text in Ht. replace (S m - 1)%nat with m in Ht by lia.
  rewrite (listing_yields globals Hglobals _ _ _ _ Hp Hfe Ha Ht). f_equal. rewrite map_app. f_equal.
  - unfold page_links. now rewrite !map_map.
  - unfold next_req. destruct (S m <? length pages)%nat; [|reflexivity]. cbn. unfold listing_req.
    repeat f_equal; lia.
Qed.

(** What the duplicate filter lets through of listing page [m + 1]: its
    new links, and the request for the next page. *)
Lemma listing_accept m st :
  (m < length pages)%nat -> seen_ok pages m st ->
  accept (map url (seen st)) (map review_req (page_links (nth m pages [])) ++ next_req pages (S m)) =
  map review_req (new_links pages m) ++ next_req pages (S m).
Proof.
  intros Hm Hs. unfold seen_ok in Hs. rewrite accept_app, accept_reviews.
  assert (E : dedup (map url (seen st)) (page_links (nth m pages [])) = new_links pages m).
  { apply dedup_ext. intros u Hu. rewrite Hs. split; [|now left].
    intros [Hf|(j & _ & _ & ->)]; [exact Hf|]. exfalso.
    eapply links_not_listing; [eapply page_links_in; eassumption|reflexivity]. }
  rewrite E. f_equal. unfold next_req. destruct (S m <? length pages)%nat; [|reflexivity].
  apply accept_one. cbn [url listing_req]. rewrite elem_of_app, Hs, map_url_review_req.
  intros [[Hf|(j & Hj & _ & Ej)]|Hn].
  - eapply links_not_listing; [apply (found_links m), Hf|reflexivity].
  - apply get_page_url_inj in Ej. lia.
  - eapply links_not_listing; [eapply page_links_in; [exact Hm|apply dedup_sub in Hn; exact Hn]|reflexivity].
Qed.

(** Listing page [m + 1] taken out of the queue. *)
Lemma listing_step take st pre post m :
  (m < length pages)%nat ->
  take (pending st) = Some (pre, listing_req (Z.of_nat (S m)), post) -> seen_ok pages m st ->
  engine_step take st =
    Some (St (pre ++ post ++ map review_req (new_links pages m) ++ next_req pages (S m))
             (seen st ++ map review_req (new_links pages m) ++ next_req pages (S m))
             (items st) (errors st) (issued st ++ [listing_req (Z.of_nat (S m))])).
Proof.
  intros Hm Ht Hs. unfold Engine.engine_step. rewrite Ht.
  change (url (listing_req (Z.of_nat (S m)))) with (get_page_url (Z.of_nat (S m))).
  rewrite Hlisting by lia. destruct (listing_text_Some (S m)) as [text Et]. rewrite Et.
  unfold Crawler.process. rewrite (listing_callback m text Hm Et), schedule_spec.
  cbn [yielded raised pending seen items errors issued].
  rewrite reqs_of_YReq, items_of_YReq, listing_accept by assumption. now rewrite !app_nil_r, <- app_assoc.
Qed.

(** What the duplicate filter has seen after listing page [m + 1]. *)
Lemma seen_ok_step m st st' :
  (m < length pages)%nat -> seen_ok pages m st ->
  seen st' = seen st ++ map review_req (new_links pages m) ++ next_req pages (S m) ->
  seen_ok pages (S m) st'.
Proof.
  intros Hm Hs Hst u. unfold seen_ok in Hs. rewrite Hst, !map_app, !elem_of_app, Hs, map_url_review_req.
  rewrite (found_S m Hm), elem_of_app.
  unfold next_req. destruct (S m <? length pages)%nat eqn:Hl; [apply Nat.ltb_lt in Hl|apply Nat.ltb_ge in Hl];
    cbn [map url listing_req]; rewrite ?list_elem_of_singleton; split.
  - intros [[Hf|(j & Hj & Hj' & ->)]|[Hf| ->]]; [tauto| |tauto|].
    + right. exists j. split_and!; [lia..|reflexivity].
    + right. exists (S (S m)). split_and!; [lia..|reflexivity].
  - intros [[Hf|Hf]|(j & Hj & Hj' & ->)]; [tauto|tauto|].
    destruct (decide (j = S (S m))) as [->|Hne]; [now right; right|].
    left. right. exists j. split_and!; [lia..|reflexivity].
  - intros [[Hf|(j & Hj & Hj' & ->)]|[Hf|Hf%not_elem_of_nil]]; [tauto| |tauto|contradiction].
    right. exists j. split_and!; [lia..|reflexivity].
  - intros [[Hf|Hf]|(j & Hj & Hj' & ->)]; [tauto|tauto|].
    left. right. exists j. split_and!; [lia..|reflexivity].
Qed.

Lemma Forall_review_req l : Forall (fun r => cb r = ParseReview) (map review_req l).
Proof. induction l; constructor; auto. Qed.

Lemma review_reqs_app rs1 rs2 : review_reqs (rs1 ++ rs2) = review_reqs rs1 ++ review_reqs rs2.
Proof. apply filter_app. Qed.

Lemma next_req_last : next_req pages (length pages) = [].
Proof. unfold next_req. now rewrite Nat.ltb_irrefl. Qed.

Lemma next_req_lt m : (m < length pages)%nat -> next_req pages m = [listing_req (Z.of_nat (S m))].
Proof. intros Hm. unfold next_req. now rewrite (proj2 (Nat.ltb_lt _ _) Hm). Qed.

Lemma seen_ok_start : (0 < length pages)%nat -> seen_ok pages 0 start_state.
Proof.
  intros Hn u. cbn [seen start_state map url listing_req]. rewrite list_elem_of_singleton. split.
  - intros ->. right. exists 1%nat. split_and!; [lia..|reflexivity].
  - intros [Hf%not_elem_of_nil|(j & Hj & _ & ->)]; [contradiction|]. now replace j with 1%nat by lia.
Qed.

(** ** Lemmas: the phases *)

(** Oldest first: listing page [m + 1], then the reviews it queued. *)
Lemma fifo_phase m st :
  (m < length pages)%nat -> fifo_at parse_html fetch pages m st ->
  exists fuel, fifo_at parse_html fetch pages (S m) (run_with fifo_take fuel st).
Proof.
  intros Hm (Hp & Hs & Hr & Hl & Hi).
  assert (Ht : fifo_take (pending st) = Some ([], listing_req (Z.of_nat (S m)), [])) by now rewrite Hp, next_req_lt.
  exists (S (length (map review_req (new_links pages m)))). cbn [Engine.run_with].
  rewrite (listing_step _ _ _ _ m Hm Ht Hs).
  match goal with |- context [Engine.run_with _ _ _ _ _ _ _ ?s] =>
    destruct (fifo_drain _ (next_req pages (S m)) s (Forall_review_req _) eq_refl) as [e ->] end.
  unfold fifo_at. cbn [pending seen items errors issued]. split_and!.
  - reflexivity.
  - eapply seen_ok_step; [exact Hm|exact Hs|reflexivity].
  - rewrite !review_reqs_app, Hr, review_reqs_review_req, found_S, map_app by exact Hm. now rewrite app_nil_r.
  - rewrite !listing_pages_app, Hl, listing_pages_review_req, pages_upto_S. now rewrite app_nil_r.
  - now rewrite Hi, found_S, !map_app, omap_app by exact Hm.
Qed.

(** LIFO: listing page [m + 1], its reviews queued under the next page. *)
Lemma lifo_phase m st :
  (m < length pages)%nat -> lifo_at pages m st ->
  exists st', engine_step lifo_take st = Some st' /\ lifo_at pages (S m) st'.
Proof.
  intros Hm (Hp & Hs & Hr & Hl & Hi).
  assert (Ht : lifo_take (pending st) = Some (map review_req (found pages m), listing_req (Z.of_nat (S m)), []))
    by now rewrite Hp, next_req_lt, lifo_take_app.
  eexists. split; [exact (listing_step _ _ _ _ m Hm Ht Hs)|]. unfold lifo_at. cbn [pending seen items errors issued].
  split_and!.
  - now rewrite found_S, map_app, <- app_assoc by exact Hm.
  - eapply seen_ok_step; [exact Hm|exact Hs|reflexivity].
  - now rewrite review_reqs_app, Hr.
  - now rewrite listing_pages_app, Hl, pages_upto_S.
  - exact Hi.
Qed.

Lemma fifo_upto m st :
  (m <= length pages)%nat -> fifo_at parse_html fetch pages m st ->
  exists fuel, fifo_at parse_html fetch pages (length pages) (run_with fifo_take fuel st).
Proof.
  remember (length pages - m)%nat as d eqn:Hd. revert m st Hd.
  induction d as [|d IH]; intros m st Hd Hm Hat.
  - exists 0%nat. now replace (length pages) with m by lia.
  - destruct (fifo_phase m st) as [f1 H1]; [lia|exact Hat|].
    destruct (IH (S m) _ ltac:(lia) ltac:(lia) H1) as [f2 H2]. exists (f1 + f2)%nat. now rewrite run_with_add.
Qed.

Lemma lifo_upto m st :
  (m <= length pages)%nat -> lifo_at pages m st ->
  exists fuel, lifo_at pages (length pages) (run_with lifo_take fuel st).
Proof.
  remember (length pages - m)%nat as d eqn:Hd. revert m st Hd.
  induction d as [|d IH]; intros m st Hd Hm Hat.
  - exists 0%nat. now replace (length pages) with m by lia.
  - destruct (lifo_phase m st) as (st' & E & H1); [lia|exact Hat|].
    destruct (IH (S m) _ ltac:(lia) ltac:(lia) H1) as [f H2]. exists (S f). cbn [Engine.run_with]. now rewrite E.
Qed.

Hypothesis Hnonempty : pages <> [].

Lemma start_fifo : engine_step fifo_take init = Some start_state /\ fifo_at parse_html fetch pages 0 start_state.
Proof.
  assert (Hn : (0 < length pages)%nat) by (destruct pages; [congruence|cbn; lia]).
  split; [now apply start_step|]. split_and!; [now rewrite next_req_lt by exact Hn|now apply seen_ok_start|reflexivity..].
Qed.

Lemma start_lifo : engine_step lifo_take init = Some start_state /\ lifo_at pages 0 start_state.
Proof.
  assert (Hn : (0 < length pages)%nat) by (destruct pages; [congruence|cbn; lia]).
  split; [now apply start_step|]. split_and!; [now rewrite next_req_lt by exact Hn|now apply seen_ok_start|reflexivity..].
Qed.

(** ** Theorems *)

(** C11: refinement of the crawl contract (spec section 4.1) by the
    oldest-first engine: on a site of [n] well-formed listing pages
    served as [json.dumps] of the envelope, with [get_page_url] bound,
    the crawl stops, has issued the listing pages [1 .. n], has issued
    the review pages of [contract_links] (the union of the pages' links
    in page and document order, without repetition) in that order, and
    has output their parses in that order; more fuel changes nothing. *)
Theorem crawl_contract :
  exists fuel, let st := run loads parse_html urljoin globals fetch fuel init in
    pending st = [] /\ listing_pages (issued st) = pages_upto (length pages) /\
    map url (review_reqs (issued st)) = contract_links pages /\
    items st = omap review_result (map review_req (contract_links pages)) /\
    forall fuel', fuel <= fuel' -> run loads parse_html urljoin globals fetch fuel' init = st.
Proof.
  destruct start_fifo as [E0 H0]. destruct (fifo_upto 0 start_state ltac:(lia) H0) as [f (Hp & _ & Hr & Hl & Hi)].
  rewrite next_req_last in Hp. exists (S f).
  assert (E : run loads parse_html urljoin globals fetch (S f) init = run_with fifo_take f start_state)
    by (rewrite run_fifo; cbn [Engine.run_with]; now rewrite E0).
  cbv zeta. rewrite E. split_and!; [exact Hp|exact Hl| | |].
  - now rewrite Hr, map_url_review_req, found_all.
  - now rewrite Hi, found_all.
  - intros fuel' Hf. rewrite run_fifo, <- E, run_fifo. apply run_with_settled; [apply fifo_take_ok| |exact Hf].
    now rewrite <- run_fifo, E.
Qed.

(** C12: the crawl contract under Scrapy's default LIFO scheduler (spec
    section 4.1 asks for page order and document order): on the same
    sites the crawl stops, has issued the listing pages [1 .. n] and the
    review pages of [contract_links], but in the reverse order, and
    outputs their parses in the reverse order. *)
Theorem crawl_contract_lifo :
  exists fuel, let st := run_lifo loads parse_html urljoin globals fetch fuel init in
    pending st = [] /\ listing_pages (issued st) = pages_upto (length pages) /\
    map url (review_reqs (issued st)) = reverse (contract_links pages) /\
    items st = omap review_result (map review_req (reverse (contract_links pages))) /\
    forall fuel', fuel <= fuel' -> run_lifo loads parse_html urljoin globals fetch fuel' init = st.
Proof.
  destruct start_lifo as [E0 H0]. destruct (lifo_upto 0 start_state ltac:(lia) H0) as [f (Hp & _ & Hr & Hl & Hi)].
  rewrite next_req_last, app_nil_r in Hp.
  destruct (lifo_drain _ _ (Forall_review_req _) Hp) as [e Ed].
  exists (S (f + length (map review_req (found pages (length pages))))).
  match type of Ed with _ = ?final =>
    assert (E : run_lifo loads parse_html urljoin globals fetch
                  (S (f + length (map review_req (found pages (length pages))))) init = final)
      by (unfold run_lifo; cbn [Engine.run_with]; now rewrite E0, run_with_add) end.
  cbv zeta. rewrite E. cbn [pending issued items]. split_and!; [reflexivity| | | |].
  - now rewrite listing_pages_app, Hl, reverse_map, listing_pages_review_req, app_nil_r.
  - now rewrite review_reqs_app, Hr, app_nil_l, reverse_map, review_reqs_review_req, map_url_review_req, found_all.
  - now rewrite Hi, reverse_map, found_all.
  - intros fuel' Hf. rewrite <- E. unfold run_lifo. apply run_with_settled; [apply lifo_take_ok| |exact Hf].
    unfold run_lifo in E. now rewrite E.
Qed.

End Crawl.

Section Endless.
Context `{HtmlParser}.
Variable globals : list pystr.
Hypothesis Hglobals : lit "get_page_url" ∈ globals.
Variable page : nat -> list node.
Hypothesis Hpage : forall k, fragment_ok (page k) = true.
Variable fetch : pystr -> option pystr.
Hypothesis Hstart : fetch (url start_request) <> None.
Hypothesis Hmore :
  forall k, (1 <= k)%nat -> fetch (get_page_url (Z.of_nat k)) = dumps (envelope_json (markup (page k)) (JBool true)).

Local Abbreviation engine_step := (engine_step loads parse_html urljoin globals fetch).
Local Abbreviation run_with := (run_with loads parse_html urljoin globals fetch).

(** Listing page [k] yields its review links, then page [k + 1]. *)
Lemma endless_callback k text :
  dumps (envelope_json (markup (page (S k))) (JBool true)) = Some text ->
  run_callback loads parse_html urljoin globals (listing_req (Z.of_nat (S k))) text =
  Gen (map YReq (map review_req (page_links (page (S k))) ++ [listing_req (Z.of_nat (S (S k)))])) None.
Proof.
  intros Ht. unfold Crawler.run_callback, listing_req. cbn [cb url].
  pose proof (Hpage (S k)) as Hf. unfold fragment_ok in Hf.
  apply andb_true_iff in Hf as [[Hp Hfe]%andb_true_iff Ha].
  rewrite (listing_yields globals Hglobals _ _ _ _ Hp Hfe Ha Ht). f_equal. rewrite map_app. f_equal.
  - unfold page_links. now rewrite !map_map.
  - cbn. unfold listing_req. repeat f_equal; lia.
Qed.

(** The filter lets through the new review links and the next page. *)
Lemma endless_accept k st :
  endless_at k st ->
  accept (map url (seen st)) (map review_req (page_links (page (S k))) ++ [listing_req (Z.of_nat (S (S k)))]) =
  map review_req (dedup (map url (seen st)) (page_links (page (S k)))) ++ [listing_req (Z.of_nat (S (S k)))].
Proof.
  intros (_ & Hs & _). rewrite accept_app, accept_reviews. f_equal.
  apply accept_one. cbn [url listing_req]. rewrite elem_of_app, map_url_review_req.
  intros [[(i & Hi & Ei)|Hn]%Hs|Hd%dedup_sub].
  - apply get_page_url_inj in Ei. lia.
  - exact (Hn _ eq_refl).
  - exact (page_links_not_listing _ _ _ (Hpage (S k)) Hd eq_refl).
Qed.

(** One more listing page under the LIFO policy. *)
Lemma endless_step k st :
  endless_at k st -> exists st', engine_step lifo_take st = Some st' /\ endless_at (S k) st'.
Proof.
  intros Hat. pose proof (endless_accept k st Hat) as Ha. destruct Hat as ((R & Hp) & Hs & Hr & Hl & Hi).
  unfold Engine.engine_step. rewrite Hp, lifo_take_app.
  change (url (listing_req (Z.of_nat (S k)))) with (get_page_url (Z.of_nat (S k))).
  rewrite Hmore by lia. destruct (dumps_envelope_Some (markup (page (S k))) true) as [text Et]. rewrite Et.
  unfold Crawler.process. rewrite (endless_callback k text Et), schedule_spec.
  cbn [yielded raised pending seen items errors issued]. rewrite reqs_of_YReq, items_of_YReq, Ha.
  eexists. split; [reflexivity|]. unfold endless_at. cbn [pending seen items errors issued]. split_and!.
  - exists (R ++ dedup (map url (seen st)) (page_links (page (S k)))).
    now rewrite map_app, !app_nil_r, <- !app_assoc.
  - intros u. rewrite !map_app, !elem_of_app, map_url_review_req. cbn [map url listing_req].
    rewrite list_elem_of_singleton. intros [[(i & Hi0 & ->)|Hn]%(Hs u)|[Hd%dedup_sub| ->]].
    + left. exists i. split; [lia|reflexivity].
    + now right.
    + right. intros i. exact (page_links_not_listing _ _ _ (Hpage (S k)) Hd).
    + left. exists (S (S k)). split; [lia|reflexivity].
  - now rewrite review_reqs_app, Hr.
  - now rewrite listing_pages_app, Hl, listing_pages_one, pages_upto_S.
  - now rewrite Hi.
Qed.

Lemma endless_run k : endless_at k (run_with lifo_take (S k) init).
Proof.
  induction k as [|k IH].
  - cbn [Engine.run_with]. rewrite (start_step globals Hglobals fetch Hstart lifo_take eq_refl).
    split_and!; [exists []; reflexivity| |reflexivity..].
    intros u. cbn [seen start_state map url listing_req]. rewrite list_elem_of_singleton. intros ->.
    left. exists 1%nat. split; [lia|reflexivity].
  - destruct (endless_step k _ IH) as (st' & E & Hst'). replace (S (S k)) with (S k + 1)%nat by lia. rewrite run_with_add.
    set (s := Engine.run_with _ _ _ _ _ lifo_take (S k) init) in *. cbn [Engine.run_with]. now rewrite E.
Qed.

(** C9: spec divergence (section 5 asks for a hard ceiling on the number
    of listing pages, and section 4.1 for every review to be scraped):
    on a site whose every listing page answers with [more] true, the
    crawl under Scrapy's default LIFO scheduler, after the start page and
    [k] further steps, for any [k], has issued the listing pages
    [1 .. k] and nothing else: no review page has been fetched, no item
    output, and work is still pending.  Nothing bounds the listing, and
    the review requests, always under the next listing request, starve. *)
Theorem crawl_unbounded k :
  let st := run_lifo loads parse_html urljoin globals fetch (S k) init in
  listing_pages (issued st) = pages_upto k /\ review_reqs (issued st) = [] /\ items st = [] /\ pending st <> [].
Proof.
  destruct (endless_run k) as ((R & Hp) & _ & Hr & Hl & Hi). unfold run_lifo.
  split_and!; [exact Hl|exact Hr|exact Hi|]. rewrite Hp. intros E. apply app_eq_nil in E as [_ E]. discriminate E.
Qed.

End Endless.

Lemma crawl_contract_witness :
  exists fuel, let st := run loads (@parse_html markup_parser) urljoin contract_globals contract_site fuel init in
    pending st = [] /\ listing_pages (issued st) = pages_upto (length contract_pages) /\
    map url (review_reqs (issued st)) = contract_links contract_pages /\
    items st = omap (review_result (@parse_html markup_parser) contract_site)
                 (map review_req (contract_links contract_pages)) /\
    forall fuel', fuel <= fuel' ->
      run loads (@parse_html markup_parser) urljoin contract_globals contract_site fuel' init = st.
Proof.
  apply (crawl_contract (H := markup_parser) contract_globals (list_elem_of_here _ _));
    [vm_compute; reflexivity|vm_compute; discriminate| |discriminate].
  intros k Hk. cbn in Hk. destruct k as [|[|[|k]]]; [lia|vm_compute; reflexivity..|lia].
Defined.

Lemma crawl_contract_lifo_witness :
  exists fuel, let st := run_lifo loads (@parse_html markup_parser) urljoin contract_globals contract_site fuel init in
    pending st = [] /\ listing_pages (issued st) = pages_upto (length contract_pages) /\
    map url (review_reqs (issued st)) = reverse (contract_links contract_pages) /\
    items st = omap (review_result (@parse_html markup_parser) contract_site)
                 (map review_req (reverse (contract_links contract_pages))) /\
    forall fuel', fuel <= fuel' ->
      run_lifo loads (@parse_html markup_parser) urljoin contract_globals contract_site fuel' init = st.
Proof.
  apply (crawl_contract_lifo (H := markup_parser) contract_globals (list_elem_of_here _ _));
    [vm_compute; reflexivity|vm_compute; discriminate| |discriminate].
  intros k Hk. cbn in Hk. destruct k as [|[|[|k]]]; [lia|vm_compute; reflexivity..|lia].
Defined.

Lemma crawl_unbounded_witness :
  let st := run_lifo loads (@parse_html markup_parser) urljoin contract_globals endless_site 4 init in
  listing_pages (issued st) = pages_upto 3 /\ review_reqs (issued st) = [] /\ items st = [] /\ pending st <> [].
Proof.
  apply (crawl_unbounded (H := markup_parser) contract_globals (list_elem_of_here _ _) (fun _ => endless_page));
    [intros k; vm_compute; reflexivity|vm_compute; discriminate|].
  intros k _. unfold endless_site. rewrite bool_decide_false by apply listing_not_start. reflexivity.
Defined.

(** The two orders on the site above: oldest first, the reviews come
    in page and document order, the repeated link once; under LIFO,
    reversed, and so is the one item. *)
Example contract_orders :
  contract_links contract_pages =
    map (fun l => base_url ++ lit l) ["/reviews/vertigo-1958"; "/reviews/casablanca-1942"; "/reviews/psycho-1960"]%string /\
  map url (review_reqs (issued (run loads (@parse_html markup_parser) urljoin contract_globals contract_site 10 init))) =
    contract_links contract_pages /\
  map url (review_reqs (issued (run_lifo loads (@parse_html markup_parser) urljoin contract_globals contract_site 10 init))) =
    reverse (contract_links contract_pages) /\
  items (run_lifo loads (@parse_html markup_parser) urljoin contract_globals contract_site 10 init) = [italic_item].
Proof. vm_compute. repeat split. Qed.

End Contract.
