(* ===== verification/Demo.v ===== *)
(** * A small site, and the crawl theorems at work on it

    Concrete parameters for the crawler of [Crawler.v]: a JSON decoder, a
    parser, URL joining and a fetcher for a site with two listing pages
    (page 1 links two reviews and has more, page 2 links the first review
    again and has no more) and its variant where one review download
    fails.  [run] (oldest request first) and
    [Engine.run_lifo] (Scrapy's default) evaluate crawls on them; the
    lemmas below apply the crawl theorems to these sites. *)

From S2P Require Import Prelude PyStr Html Rating Text Date Review Json Crawler Engine.
Import PyStr Html Review Json Crawler Engine.

Module Demo.

(** ** A small site

    Two listing pages: page 1 links two reviews and has more, page 2
    links the first review again and has no more; every review page is
    [Review.sample_page].  [repaired_globals] binds [get_page_url] to the
    method, as [self.get_page_url] would. *)

Definition repaired_globals : list pystr := lit "get_page_url" :: source_globals.

Definition envelope_of (frag : String.string) (more : bool) : json :=
  JObj [(lit "html", JStr (lit frag)); (lit "more", JBool more)].

Definition demo_json (text : pystr) : res json :=
  if bool_decide (text = lit "page1") then Ok (envelope_of "frag1" true)
  else if bool_decide (text = lit "page2") then Ok (envelope_of "frag2" false)
  else Err JSONDecodeError.

Definition listing_item (href : String.string) : node :=
  Elem (lit "article") [] [Elem (lit "h5") [] [Elem (lit "a") [(lit "href", lit href)] [Text (lit "t")]]].

Definition demo_html (body : pystr) : node :=
  if bool_decide (body = lit "frag1") then
    Elem (lit "div") [] [listing_item "/reviews/casablanca-1942"; listing_item "/reviews/vertigo-1958"]
  else if bool_decide (body = lit "frag2") then
    Elem (lit "div") [] [listing_item "/reviews/casablanca-1942"]
  else sample_page.

Definition demo_join (base l : pystr) : pystr := base_url ++ l.

Definition demo_fetch (u : pystr) : option pystr :=
  if bool_decide (u = get_page_url 1) then Some (lit "page1")
  else if bool_decide (u = get_page_url 2) then Some (lit "page2")
  else Some (lit "review").

(** The small site where the download of one review fails. *)
Definition flaky_fetch (u : pystr) : option pystr :=
  if bool_decide (u = base_url ++ lit "/reviews/vertigo-1958") then None else demo_fetch u.

Definition flaky_run : state := run demo_json demo_html demo_join repaired_globals flaky_fetch 10 init.

Definition demo_run : state := run demo_json demo_html demo_join repaired_globals demo_fetch 10 init.

(** ** Witnesses on the small site *)

Lemma demo_reachable : reachable demo_json demo_html demo_join repaired_globals demo_fetch demo_run.
Proof. apply run_reachable, reach_init. Qed.

Lemma listing_pages_in_order_witness :
  listing_pages (issued demo_run) = [1; 2]%Z /\
  exists k : nat,
    listing_pages (seen demo_run) = pages_upto k /\
    (forall j : nat, (1 <= j < k)%nat ->
       has_next demo_json demo_html demo_join repaired_globals demo_fetch (Z.of_nat j) = true) /\
    exists k', (k' <= k <= S k')%nat /\ listing_pages (issued demo_run) = pages_upto k'.
Proof. split; [vm_compute; reflexivity | apply (listing_pages_in_order demo_json demo_html demo_join repaired_globals demo_fetch), demo_reachable]. Defined.

Lemma crawl_terminates_witness :
  Acc (fun st2 st1 => step demo_json demo_html demo_join repaired_globals demo_fetch st1 st2) init.
Proof. apply (crawl_terminates _ _ _ _ _ 2); [lia | vm_compute; reflexivity]. Defined.

Lemma crawl_items_witness :
  length (items demo_run) = 2%nat /\
  items demo_run = omap (review_result demo_html demo_fetch) (review_reqs (issued demo_run)).
Proof. split; [vm_compute; reflexivity | apply (crawl_items demo_json demo_html demo_join repaired_globals demo_fetch), demo_reachable]. Defined.

Lemma crawl_items_wf_witness :
  length (items demo_run) = 2%nat /\
  (Forall item_wf (items demo_run) /\
   forall st', step demo_json demo_html demo_join repaired_globals demo_fetch demo_run st' ->
     exists l, items st' = items demo_run ++ l).
Proof.
  split; [vm_compute; reflexivity|].
  apply (crawl_items_wf demo_json demo_html demo_join repaired_globals demo_fetch), demo_reachable.
Defined.

Lemma flaky_reachable : reachable demo_json demo_html demo_join repaired_globals flaky_fetch flaky_run.
Proof. apply run_reachable, reach_init. Qed.

Lemma crawl_failures_witness :
  length (items flaky_run) = 1%nat /\ length (review_failures (errors flaky_run)) = 1%nat /\
  review_failures (errors flaky_run) =
  filter (fun r => review_failed demo_html flaky_fetch r = true) (review_reqs (issued flaky_run)).
Proof.
  split; [vm_compute; reflexivity|split; [vm_compute; reflexivity|]].
  apply (crawl_failures demo_json demo_html demo_join repaired_globals flaky_fetch), flaky_reachable.
Defined.

(** ** Scrapy's LIFO schedule on the site *)

(** The LIFO crawl of the small site asks for both listing pages before
    the reviews, which it takes last linked first. *)
Example demo_lifo_order :
  map url (issued (run_lifo demo_json demo_html demo_join repaired_globals demo_fetch 10 init)) =
  [base_url ++ lit "/contributors/roger-ebert"; get_page_url 1; get_page_url 2;
   base_url ++ lit "/reviews/vertigo-1958"; base_url ++ lit "/reviews/casablanca-1942"].
Proof. vm_compute. reflexivity. Qed.

End Demo.
